(** * Spicy Uno: the rules engine, its server mirror and the scripted opponent

  A shallow embedding of
    - client/src/types/game.types.ts   (the data model),
    - client/src/engine/CardDeck.ts    (deck construction and legality),
    - client/src/engine/GameEngine.ts  (the client rules engine),
    - client/src/ai/AIPlayer.ts        (the scripted opponent),
    - server/src/index.ts              (the server copy of the rules),
  followed by the properties of the specification that concern them.

  Conventions.
    - A JavaScript [number] that only ever holds an integer (an index, a
      count, a time in milliseconds) is a [Z]; the opponent's delays and
      slap times, which carry the fraction of [Math.random() * 500], are
      IEEE 754 binary64 values ([Float64]).  A [string] is a [string].
    - An optional field [f?: T] is an [option T]; [None] is [undefined].
    - A [Card[]] may hold [undefined] at run time (an out-of-range read
      that is stored back), so its elements are [Slot = option Card.t].
    - Reading a property of [undefined] raises a [TypeError]: functions
      that can do so return a [Completion].
    - [Math.random], [Date.now] and [uuidv4] read from a [World] of
      oracle streams; the engine's own mutable fields live in a [Heap]. *)

From Stdlib Require Import List String Ascii ZArith Bool Arith Lia Permutation.
From Stdlib Require Import DecimalString.
From Stdlib Require Import SpecFloat QArith Qpower.
Import ListNotations.
Local Open Scope string_scope.
Local Open Scope list_scope.
Local Open Scope Z_scope.

Set Implicit Arguments.

(* ===================================================================== *)
(** ** JavaScript values and array primitives                            *)
(* ===================================================================== *)

Module Js.

Inductive Error : Type := TypeError.

(** The outcome of evaluating an expression: a value or a thrown error. *)
Inductive Completion (A : Type) : Type :=
| Normal (a : A)
| Throw (e : Error).
Arguments Normal {A} a.
Arguments Throw {A} e.

Definition cbind {A B} (c : Completion A) (k : A -> Completion B) : Completion B :=
  match c with
  | Normal a => k a
  | Throw e => Throw e
  end.

(** [o.f] where [o] may be [undefined]. *)
Definition deref {A} (o : option A) : Completion A :=
  match o with
  | Some a => Normal a
  | None => Throw TypeError
  end.

(** Truthiness of an optional string: [undefined] and [''] are falsy. *)
Definition truthy (o : option string) : bool :=
  match o with
  | Some s => negb (String.eqb s "")
  | None => false
  end.

(** [s === o] for a string [s] and a possibly undefined string [o]. *)
Definition eqOpt (s : string) (o : option string) : bool :=
  match o with
  | Some s' => String.eqb s s'
  | None => false
  end.

(** [a === b] for two possibly undefined strings. *)
Definition eqOpt2 (a b : option string) : bool :=
  match a, b with
  | Some x, Some y => String.eqb x y
  | None, None => true
  | _, _ => false
  end.

(** [l.length]. *)
Definition jlength {A} (l : list A) : Z := Z.of_nat (List.length l).

(** [l[i]]: [undefined] outside [0 .. length-1]. *)
Definition get {A} (l : list A) (i : Z) : option A :=
  if i <? 0 then None else nth_error l (Z.to_nat i).

(** [l[i]] in an array whose elements may themselves be [undefined]. *)
Definition getSlot {A} (l : list (option A)) (i : Z) : option A :=
  match get l i with
  | Some x => x
  | None => None
  end.

(** Relative index of [Array.prototype.slice]. *)
Definition clamp (len : nat) (i : Z) : nat :=
  if i <? 0 then Z.to_nat (Z.max (Z.of_nat len + i) 0)
  else Nat.min (Z.to_nat i) len.

(** [l.slice(s, e)]. *)
Definition slice {A} (l : list A) (s e : Z) : list A :=
  let k := clamp (List.length l) s in
  let f := clamp (List.length l) e in
  firstn (f - k) (skipn k l).

(** [l.slice(s)]. *)
Definition sliceFrom {A} (l : list A) (s : Z) : list A :=
  skipn (clamp (List.length l) s) l.

Fixpoint setNth {A} (l : list A) (n : nat) (v : A) : list A :=
  match l, n with
  | [], _ => []
  | _ :: t, O => v :: t
  | h :: t, S n' => h :: setNth t n' v
  end.

(** [l[i] = v] on a copy of [l].  A negative [i] names an ordinary
    property, not an element, and leaves the elements alone.  The engine
    only ever assigns at an index returned by [findIndex], which is below
    the length; an assignment at the length itself appends. *)
Definition set {A} (l : list A) (i : Z) (v : A) : list A :=
  if i <? 0 then l
  else if (Z.to_nat i <? List.length l)%nat then setNth l (Z.to_nat i) v
  else if (Z.to_nat i =? List.length l)%nat then l ++ [v]
  else l.

(** [l.findIndex(f)] with a callback that cannot throw. *)
Fixpoint findIndexFrom {A} (f : A -> bool) (l : list A) (k : Z) : Z :=
  match l with
  | [] => -1
  | x :: t => if f x then k else findIndexFrom f t (k + 1)
  end.
Definition findIndex {A} (f : A -> bool) (l : list A) : Z := findIndexFrom f l 0.

(** The same iterations with a callback that may throw: the iteration
    stops at the throw. *)
Fixpoint findIndexFromC {A} (f : A -> Completion bool) (l : list A) (k : Z)
  : Completion Z :=
  match l with
  | [] => Normal (-1)
  | x :: t => cbind (f x) (fun b => if b then Normal k else findIndexFromC f t (k + 1))
  end.
Definition findIndexC {A} (f : A -> Completion bool) (l : list A) : Completion Z :=
  findIndexFromC f l 0.

Fixpoint findC {A} (f : A -> Completion bool) (l : list A) : Completion (option A) :=
  match l with
  | [] => Normal None
  | x :: t => cbind (f x) (fun b => if b then Normal (Some x) else findC f t)
  end.

Fixpoint filterC {A} (f : A -> Completion bool) (l : list A) : Completion (list A) :=
  match l with
  | [] => Normal []
  | x :: t =>
      cbind (f x) (fun b =>
      cbind (filterC f t) (fun r => Normal (if b then x :: r else r)))
  end.

Fixpoint someC {A} (f : A -> Completion bool) (l : list A) : Completion bool :=
  match l with
  | [] => Normal false
  | x :: t => cbind (f x) (fun b => if b then Normal true else someC f t)
  end.

(** [l.sort(cmp)] on a copy: the sort is stable, and [x] goes before [y]
    when [cmp x y] is negative. *)
Fixpoint insertBy {A} (cmp : A -> A -> Z) (x : A) (l : list A) : list A :=
  match l with
  | [] => [x]
  | y :: t => if cmp x y <? 0 then x :: y :: t else y :: insertBy cmp x t
  end.
Definition sortBy {A} (cmp : A -> A -> Z) (l : list A) : list A :=
  fold_left (fun acc x => insertBy cmp x acc) l [].

(** [l.pop()]: the last element (or [undefined]) and the shortened list. *)
Definition pop {A} (l : list (option A)) : option A * list (option A) :=
  match rev l with
  | [] => (None, [])
  | x :: r => (x, rev r)
  end.

(** ** State and exceptions

    [M S A] is a computation over a mutable store [S] that either
    returns or throws; what was written before a throw stays written. *)
Definition M (S A : Type) : Type := S -> Completion A * S.

Definition ret {S A} (a : A) : M S A := fun s => (Normal a, s).
Definition bind {S A B} (c : M S A) (k : A -> M S B) : M S B :=
  fun s => match c s with
           | (Normal a, s') => k a s'
           | (Throw e, s') => (Throw e, s')
           end.
Definition liftC {S A} (c : Completion A) : M S A := fun s => (c, s).
Definition gets {S A} (f : S -> A) : M S A := fun s => (Normal (f s), s).
Definition modify {S} (f : S -> S) : M S unit := fun s => (Normal tt, f s).

End Js.

Import Js.

Declare Scope js_scope.
Delimit Scope js_scope with js.
Notation "x <- c ;; k" := (bind c (fun x => k))
(at level 61, c at next level, right associativity) : js_scope.
Notation "c ;;; k" := (bind c (fun _ => k))
(at level 61, right associativity) : js_scope.
Notation "x <~ c ;; k" := (cbind c (fun x => k))
(at level 61, c at next level, right associativity) : js_scope.
Local Open Scope js_scope.

(* ===================================================================== *)
(** ** Numbers with a fraction: IEEE 754 binary64                        *)
(* ===================================================================== *)

Module Float64.

(** A double, with the operations of the Standard Library's specification
    of floating-point arithmetic at precision 53 and maximal exponent
    1024: every result is rounded to the nearest double, ties to even. *)
Definition t : Type := spec_float.
Definition prec : Z := 53.
Definition emax : Z := 1024.

(** [x + y] and [x * y]. *)
Definition add (x y : t) : t := SFadd prec emax x y.
Definition mul (x y : t) : t := SFmul prec emax x y.

(** The double nearest to [m * 2^e], and the double nearest to an
    integer (the integer itself when it is below [2^53] in size). *)
Definition ofDyadic (m e : Z) : t := binary_normalize prec emax m e false.
Definition ofZ (z : Z) : t := ofDyadic z 0.

(** The value of a finite double, as a rational number. *)
Definition toQ (x : t) : option Q :=
  match x with
  | S754_zero _ => Some 0%Q
  | S754_finite s m e => Some (inject_Z (cond_Zopp s (Zpos m)) * 2 ^ e)%Q
  | _ => None
  end.

(** [lo <= x <= hi] for integers [lo] and [hi] and a double [x] that is
    zero or positive with an exponent that is not positive, written
    without fractions: [x = m * 2^e] and [lo * 2^(-e) <= m <= hi * 2^(-e)]. *)
Definition between (lo hi : Z) (x : t) : Prop :=
  match x with
  | S754_zero _ => lo <= 0 <= hi
  | S754_finite false m e => e <= 0 /\ lo * 2 ^ (- e) <= Zpos m <= hi * 2 ^ (- e)
  | _ => False
  end.

End Float64.

(* ===================================================================== *)
(** ** The outside world: randomness, time and fresh identifiers         *)
(* ===================================================================== *)

Module World.

(** An infinite supply of answers, read front to back. *)
Definition Stream (A : Type) : Type := nat -> A.
Definition hd {A} (s : Stream A) : A := s O.
Definition tl {A} (s : Stream A) : Stream A := fun k => s (S k).

(** [randoms]: one natural number per call of [Math.random]; the call
    [Math.floor(Math.random() * n)] is that number reduced modulo [n],
    so that every value of [0 .. n-1], and no other, can come out.  Where
    the result of [Math.random()] is used as it is, the number [k] stands
    for the double [(k mod 2^53) * 2^(-53 - j)] with [j = (k / 2^53) mod
    1022]: every double of [0, 1), and no other, can come out.
    [clock]: the successive answers of [Date.now()].
    [uuids]: the successive answers of [uuidv4()]. *)
Record t := mk {
  randoms : Stream nat;
  clock : Stream Z;
  uuids : Stream string
}.

Definition randomBelow (n : nat) : M t nat :=
  fun w => (Normal (if (n =? 0)%nat then O else (hd (randoms w) mod n)%nat),
            mk (tl (randoms w)) (clock w) (uuids w)).

Definition random : M t Float64.t :=
  fun w => let k := Z.of_nat (hd (randoms w)) in
           (Normal (Float64.ofDyadic (k mod 2 ^ 53) (- 53 - (k / 2 ^ 53) mod 1022)),
            mk (tl (randoms w)) (clock w) (uuids w)).

Definition now : M t Z :=
  fun w => (Normal (hd (clock w)), mk (randoms w) (tl (clock w)) (uuids w)).

Definition uuidv4 : M t string :=
  fun w => (Normal (hd (uuids w)), mk (randoms w) (clock w) (tl (uuids w))).

End World.

(* ===================================================================== *)
(** ** The data model (client/src/types/game.types.ts)                   *)
(* ===================================================================== *)

Module Color.
(** [CardColor]. *)
Inductive t : Type := red | yellow | green | blue | wild.
Definition eqb (a b : t) : bool :=
  match a, b with
  | red, red | yellow, yellow | green, green | blue, blue | wild, wild => true
  | _, _ => false
  end.
End Color.

Module Value.
(** [CardValue]: a number 0..9, an action or a wild value. *)
Inductive t : Type := num (n : Z) | skip | reverse | draw2 | wild | wild_draw4.
Definition eqb (a b : t) : bool :=
  match a, b with
  | num x, num y => x =? y
  | skip, skip | reverse, reverse | draw2, draw2 | wild, wild
  | wild_draw4, wild_draw4 => true
  | _, _ => false
  end.
(** [typeof v === 'number']. *)
Definition isNumber (v : t) : bool :=
  match v with num _ => true | _ => false end.
End Value.

Module Card.
(** [Card]. *)
Record t : Type := mk {
  id : string;
  color : Color.t;
  value : Value.t
}.
End Card.

(** An element of a [Card[]] at run time: a card or [undefined]. *)
Abbreviation Slot := (option Card.t) (only parsing).

Inductive PlayerType : Type := human | ai.

Module Player.
(** [Player]. *)
Record t : Type := mk {
  id : string;
  name : string;
  hand : list Slot;
  hasCalledUno : bool;
  isConnected : bool;
  type : PlayerType;
  avatar : option string
}.
Definition with_id (v : string) (s : t) : t :=
  mk v (name s) (hand s) (hasCalledUno s) (isConnected s) (type s) (avatar s).
Definition with_name (v : string) (s : t) : t :=
  mk (id s) v (hand s) (hasCalledUno s) (isConnected s) (type s) (avatar s).
Definition with_hand (v : list Slot) (s : t) : t :=
  mk (id s) (name s) v (hasCalledUno s) (isConnected s) (type s) (avatar s).
Definition with_hasCalledUno (v : bool) (s : t) : t :=
  mk (id s) (name s) (hand s) v (isConnected s) (type s) (avatar s).
Definition with_isConnected (v : bool) (s : t) : t :=
  mk (id s) (name s) (hand s) (hasCalledUno s) v (type s) (avatar s).
Definition with_type (v : PlayerType) (s : t) : t :=
  mk (id s) (name s) (hand s) (hasCalledUno s) (isConnected s) v (avatar s).
Definition with_avatar (v : option string) (s : t) : t :=
  mk (id s) (name s) (hand s) (hasCalledUno s) (isConnected s) (type s) v.
End Player.

Module Phase.
(** [GamePhase]. *)
Inductive t : Type :=
| waiting | playing | color_selection | slap_race | custom_rule_creation
| card_request | offering_card | game_over.
Definition eqb (a b : t) : bool :=
  match a, b with
  | waiting, waiting | playing, playing | color_selection, color_selection
  | slap_race, slap_race | custom_rule_creation, custom_rule_creation
  | card_request, card_request | offering_card, offering_card
  | game_over, game_over => true
  | _, _ => false
  end.
End Phase.

Module PendingType.
(** [PendingActionType]. *)
Inductive t : Type :=
| draw_cards | slap | select_color | create_rule | card_request | offer_decision.
Definition eqb (a b : t) : bool :=
  match a, b with
  | draw_cards, draw_cards | slap, slap | select_color, select_color
  | create_rule, create_rule | card_request, card_request
  | offer_decision, offer_decision => true
  | _, _ => false
  end.
End PendingType.

Module PendingAction.
(** [PendingAction]. *)
Record t : Type := mk {
  type : PendingType.t;
  targetPlayer : option string;
  requesterId : option string;
  amount : option Z;
  deadline : option Z;
  offeredCardId : option string;
  offererId : option string
}.
End PendingAction.

Inductive CustomRuleType : Type := behavioral | speech | penalty | action.

Module CustomRule.
(** [CustomRule]. *)
Record t : Type := mk {
  id : string;
  text : string;
  type : CustomRuleType;
  createdBy : string;
  createdAt : Z
}.
End CustomRule.
Module RuleDraft.
(** [Omit<CustomRule, 'id' | 'createdAt'>]. *)
Record t : Type := mk {
  text : string;
  type : CustomRuleType;
  createdBy : string
}.
End RuleDraft.

Module ActionType.
(** [GameActionType]. *)
Inductive t : Type :=
| play_card | draw_card | call_uno | catch_uno | slap | create_custom_rule
| request_card | decline_request | offer_card | accept_offer | decline_offer
| report_speaking | select_color | pass_turn | jump_in.
End ActionType.

Module GameAction.
(** [GameAction]. *)
Record t : Type := mk {
  type : ActionType.t;
  playerId : string;
  cardId : option string;
  targetPlayerId : option string;
  wildColor : option Color.t;
  customRule : option RuleDraft.t;
  timestamp : option Float64.t
}.
End GameAction.
Module GameState.
(** [GameState] (the client's). *)
Record t : Type := mk {
  id : string;
  phase : Phase.t;
  players : list Player.t;
  currentPlayerIndex : Z;
  direction : Z;
  drawPile : list Slot;
  discardPile : list Slot;
  pendingAction : option PendingAction.t;
  customRules : list CustomRule.t;
  silenceMode : bool;
  stackedDrawAmount : Z;
  turnStartTime : Z;
  winner : option string;
  lastAction : option GameAction.t
}.
Definition with_id (v : string) (s : t) : t :=
  mk v (phase s) (players s) (currentPlayerIndex s) (direction s) (drawPile s) (discardPile s) (pendingAction s) (customRules s) (silenceMode s) (stackedDrawAmount s) (turnStartTime s) (winner s) (lastAction s).
Definition with_phase (v : Phase.t) (s : t) : t :=
  mk (id s) v (players s) (currentPlayerIndex s) (direction s) (drawPile s) (discardPile s) (pendingAction s) (customRules s) (silenceMode s) (stackedDrawAmount s) (turnStartTime s) (winner s) (lastAction s).
Definition with_players (v : list Player.t) (s : t) : t :=
  mk (id s) (phase s) v (currentPlayerIndex s) (direction s) (drawPile s) (discardPile s) (pendingAction s) (customRules s) (silenceMode s) (stackedDrawAmount s) (turnStartTime s) (winner s) (lastAction s).
Definition with_currentPlayerIndex (v : Z) (s : t) : t :=
  mk (id s) (phase s) (players s) v (direction s) (drawPile s) (discardPile s) (pendingAction s) (customRules s) (silenceMode s) (stackedDrawAmount s) (turnStartTime s) (winner s) (lastAction s).
Definition with_direction (v : Z) (s : t) : t :=
  mk (id s) (phase s) (players s) (currentPlayerIndex s) v (drawPile s) (discardPile s) (pendingAction s) (customRules s) (silenceMode s) (stackedDrawAmount s) (turnStartTime s) (winner s) (lastAction s).
Definition with_drawPile (v : list Slot) (s : t) : t :=
  mk (id s) (phase s) (players s) (currentPlayerIndex s) (direction s) v (discardPile s) (pendingAction s) (customRules s) (silenceMode s) (stackedDrawAmount s) (turnStartTime s) (winner s) (lastAction s).
Definition with_discardPile (v : list Slot) (s : t) : t :=
  mk (id s) (phase s) (players s) (currentPlayerIndex s) (direction s) (drawPile s) v (pendingAction s) (customRules s) (silenceMode s) (stackedDrawAmount s) (turnStartTime s) (winner s) (lastAction s).
Definition with_pendingAction (v : option PendingAction.t) (s : t) : t :=
  mk (id s) (phase s) (players s) (currentPlayerIndex s) (direction s) (drawPile s) (discardPile s) v (customRules s) (silenceMode s) (stackedDrawAmount s) (turnStartTime s) (winner s) (lastAction s).
Definition with_customRules (v : list CustomRule.t) (s : t) : t :=
  mk (id s) (phase s) (players s) (currentPlayerIndex s) (direction s) (drawPile s) (discardPile s) (pendingAction s) v (silenceMode s) (stackedDrawAmount s) (turnStartTime s) (winner s) (lastAction s).
Definition with_silenceMode (v : bool) (s : t) : t :=
  mk (id s) (phase s) (players s) (currentPlayerIndex s) (direction s) (drawPile s) (discardPile s) (pendingAction s) (customRules s) v (stackedDrawAmount s) (turnStartTime s) (winner s) (lastAction s).
Definition with_stackedDrawAmount (v : Z) (s : t) : t :=
  mk (id s) (phase s) (players s) (currentPlayerIndex s) (direction s) (drawPile s) (discardPile s) (pendingAction s) (customRules s) (silenceMode s) v (turnStartTime s) (winner s) (lastAction s).
Definition with_turnStartTime (v : Z) (s : t) : t :=
  mk (id s) (phase s) (players s) (currentPlayerIndex s) (direction s) (drawPile s) (discardPile s) (pendingAction s) (customRules s) (silenceMode s) (stackedDrawAmount s) v (winner s) (lastAction s).
Definition with_winner (v : option string) (s : t) : t :=
  mk (id s) (phase s) (players s) (currentPlayerIndex s) (direction s) (drawPile s) (discardPile s) (pendingAction s) (customRules s) (silenceMode s) (stackedDrawAmount s) (turnStartTime s) v (lastAction s).
Definition with_lastAction (v : option GameAction.t) (s : t) : t :=
  mk (id s) (phase s) (players s) (currentPlayerIndex s) (direction s) (drawPile s) (discardPile s) (pendingAction s) (customRules s) (silenceMode s) (stackedDrawAmount s) (turnStartTime s) (winner s) v.
End GameState.
Module EnabledRules.
(** [GameConfig['enabledRules']]. *)
Record t : Type := mk {
  silence : bool;
  customRule : bool;
  stackDraw : bool;
  stackSkip : bool;
  slap : bool;
  jumpIn : bool;
  unoCall : bool;
  offerCard : bool
}.
End EnabledRules.

Inductive Difficulty : Type := easy | medium | hard.

Module GameConfig.
(** [GameConfig]. *)
Record t : Type := mk {
  playerCount : Z;
  playerNames : list string;
  enabledRules : EnabledRules.t;
  aiDifficulty : option Difficulty
}.
End GameConfig.

Module ValidationResult.
(** [ValidationResult]. *)
Record t : Type := mk {
  valid : bool;
  reason : option string
}.
End ValidationResult.

(** [{ valid: true }] and [{ valid: false, reason }]. *)
Definition Valid : ValidationResult.t := ValidationResult.mk true None.
Definition Invalid (reason : string) : ValidationResult.t :=
  ValidationResult.mk false (Some reason).

(* ===================================================================== *)
(** ** Deck and legality (client/src/engine/CardDeck.ts)                 *)
(* ===================================================================== *)

Module CardDeck.

Definition COLORS : list Color.t := [Color.red; Color.yellow; Color.green; Color.blue].
Definition NUMBERS : list Z := [0; 1; 2; 3; 4; 5; 6; 7; 8; 9].
Definition ACTIONS : list Value.t := [Value.skip; Value.reverse; Value.draw2].

Definition createCard (color : Color.t) (value : Value.t) : M World.t Card.t :=
  id <- World.uuidv4 ;;
  ret (Card.mk id color value).

(** The colour and value of every [deck.push(createCard(..))] of
    [createDeck], in the order the pushes happen. *)
Definition deckFaces : list (Color.t * Value.t) :=
  flat_map (fun color =>
      (color, Value.num 0)
      :: flat_map (fun n => [(color, Value.num n); (color, Value.num n)])
                  (sliceFrom NUMBERS 1)
      ++ flat_map (fun a => [(color, a); (color, a)]) ACTIONS)
    COLORS
  ++ flat_map (fun _ : nat => [(Color.wild, Value.wild); (Color.wild, Value.wild_draw4)])
       (seq 0 4).

Fixpoint createCards (faces : list (Color.t * Value.t)) : M World.t (list Card.t) :=
  match faces with
  | [] => ret []
  | (color, value) :: rest =>
      c <- createCard color value ;;
      cs <- createCards rest ;;
      ret (c :: cs)
  end.

Definition createDeck : M World.t (list Card.t) := createCards deckFaces.

(** [[a[i], a[j]] = [a[j], a[i]]]. *)
Definition swap {A} (l : list A) (i j : nat) : list A :=
  match nth_error l i, nth_error l j with
  | Some x, Some y => setNth (setNth l i y) j x
  | _, _ => l
  end.

(** The loop of [shuffleDeck]: [i] runs from [n] down to 1. *)
Fixpoint shuffleLoop {A} (n : nat) (l : list A) : M World.t (list A) :=
  match n with
  | O => ret l
  | S n' =>
      j <- World.randomBelow (n + 1) ;;
      shuffleLoop n' (swap l n j)
  end.

Definition shuffleDeck {A} (deck : list A) : M World.t (list A) :=
  shuffleLoop (List.length deck - 1) deck.

Definition drawCards {A} (deck : list A) (count : Z) : list A * list A :=
  (slice deck 0 count, sliceFrom deck count).

Definition isPlayable (card topCard : Slot) (currentColor : Color.t) : Completion bool :=
  c <~ deref card ;;
  if Color.eqb (Card.color c) Color.wild then Normal true
  else if Color.eqb (Card.color c) currentColor then Normal true
  else
    t <~ deref topCard ;;
    if Value.eqb (Card.value c) (Card.value t) then Normal true
    else Normal false.

Definition isExactMatch (card topCard : Slot) : Completion bool :=
  c <~ deref card ;;
  t <~ deref topCard ;;
  Normal (Color.eqb (Card.color c) (Card.color t)
          && Value.eqb (Card.value c) (Card.value t)
          && Value.isNumber (Card.value c)).

Definition getCurrentColor (topCard : Slot) (selectedColor : option Color.t)
  : Completion Color.t :=
  t <~ deref topCard ;;
  match Color.eqb (Card.color t) Color.wild, selectedColor with
  | true, Some c => Normal c
  | _, _ => Normal (if Color.eqb (Card.color t) Color.wild then Color.red
                    else Card.color t)
  end.

Definition isDrawCard (card : Card.t) : bool :=
  Value.eqb (Card.value card) Value.draw2
  || Value.eqb (Card.value card) Value.wild_draw4.

Definition isSkipCard (card : Card.t) : bool :=
  Value.eqb (Card.value card) Value.skip.

Definition isReverseCard (card : Card.t) : bool :=
  Value.eqb (Card.value card) Value.reverse.

Definition getDrawAmount (card : Card.t) : Z :=
  if Value.eqb (Card.value card) Value.draw2 then 2
  else if Value.eqb (Card.value card) Value.wild_draw4 then 4
  else 0.

End CardDeck.

(* ===================================================================== *)
(** ** Events (client/src/engine/EventBus.ts)                            *)
(* ===================================================================== *)

Module Event.
(** One constructor per [eventBus.emit(kind, payload)] of the engine, with
    the payload's fields. *)
Inductive t : Type :=
| state_changed (state : GameState.t)
| card_played (player : Player.t) (card : Card.t)
| card_drawn (playerId : string) (count : Z)
| uno_called (playerId : string)
| uno_caught (targetPlayerId catcherId : string)
| slap_race_started (deadline : Z)
| slap_race_ended (loserId : string)
| silence_toggled (active : bool)
| speaking_reported (reporterId targetId : string)
| custom_rule_created (rule : CustomRule.t)
| card_requested (requesterId targetId : string)
| request_declined (requesterId : option string) (declinerId : string)
| card_offered (offererId targetId : string)
| offer_responded (accepted : bool) (card : Slot)
| turn_changed (previousPlayer currentPlayer : option Player.t)
| game_over (winner : Player.t)
| action_rejected (action : GameAction.t) (reason : option string).
End Event.

(* ===================================================================== *)
(** ** The client rules engine (client/src/engine/GameEngine.ts)         *)
(* ===================================================================== *)

Module GameEngine.

Definition INITIAL_HAND_SIZE : Z := 7.

(** The fields of a [GameEngine] object.  [EventBus.emit] runs each
    listener inside a [try]/[catch], so it never throws: the bus is the
    sequence of events emitted so far, oldest first. *)
Record t : Type := mk {
  state : GameState.t;
  eventBus : list Event.t;
  config : GameConfig.t;
  selectedWildColor : option Color.t
}.

(** What a method of the engine can read and write. *)
Record Heap : Type := mkHeap {
  this : t;
  world : World.t
}.

Definition E (A : Type) : Type := M Heap A.

Definition liftW {A} (c : M World.t A) : E A :=
  fun h => let (r, w) := c (world h) in (r, mkHeap (this h) w).

Definition thisState : E GameState.t := gets (fun h => state (this h)).
Definition thisSelected : E (option Color.t) := gets (fun h => selectedWildColor (this h)).
Definition rules : E EnabledRules.t :=
  gets (fun h => GameConfig.enabledRules (config (this h))).

Definition setState (s : GameState.t) : E unit :=
  modify (fun h => mkHeap (mk s (eventBus (this h)) (config (this h))
                              (selectedWildColor (this h))) (world h)).
Definition setSelected (c : option Color.t) : E unit :=
  modify (fun h => mkHeap (mk (state (this h)) (eventBus (this h)) (config (this h)) c)
                          (world h)).
Definition emit (e : Event.t) : E unit :=
  modify (fun h => mkHeap (mk (state (this h)) (eventBus (this h) ++ [e])
                              (config (this h)) (selectedWildColor (this h)))
                          (world h)).

(** [players.find((p) => p.id === playerId)]. *)
Definition findPlayer (players : list Player.t) (playerId : option string)
  : option Player.t :=
  find (fun p => eqOpt (Player.id p) playerId) players.

(** [players.findIndex((p) => p.id === playerId)]. *)
Definition findPlayerIndex (players : list Player.t) (playerId : option string) : Z :=
  findIndex (fun p => eqOpt (Player.id p) playerId) players.

(** The callback [(c) => c.id === cardId] on an array element. *)
Definition hasId (cardId : option string) (c : Slot) : Completion bool :=
  c' <~ deref c ;; Normal (eqOpt (Card.id c') cardId).

(** The callback that tells whether [c] is a draw card of [card]'s kind. *)
Definition sameDrawKind (card : Card.t) (c : Slot) : Completion bool :=
  if Value.eqb (Card.value card) Value.draw2 then
    c' <~ deref c ;; Normal (Value.eqb (Card.value c') Value.draw2)
  else if Value.eqb (Card.value card) Value.wild_draw4 then
    c' <~ deref c ;; Normal (Value.eqb (Card.value c') Value.wild_draw4)
  else Normal false.

Definition createInitialState (config : GameConfig.t) : M World.t GameState.t :=
  cards <- CardDeck.createDeck ;;
  deck <- CardDeck.shuffleDeck (map (@Some Card.t) cards) ;;
  players <- (fix mk_players (names : list string) (index : Z) : M World.t (list Player.t) :=
                match names with
                | [] => ret []
                | name :: rest =>
                    id <- World.uuidv4 ;;
                    ps <- mk_players rest (index + 1) ;;
                    ret (Player.mk id name [] false true
                           (if index =? 0 then human
                            else match GameConfig.aiDifficulty config with
                                 | Some _ => ai
                                 | None => human
                                 end)
                           None :: ps)
                end) (GameConfig.playerNames config) 0 ;;
  let '(players, deck) :=
    fold_left (fun '(done, deck) player =>
                 let '(drawn, remaining) := CardDeck.drawCards deck INITIAL_HAND_SIZE in
                 (done ++ [Player.with_hand drawn player], remaining))
              players ([], deck) in
  firstCardIndex <- liftC (findIndexC (fun card : Slot =>
      c <~ deref card ;;
      Normal (negb (Color.eqb (Card.color c) Color.wild)
              && Value.isNumber (Card.value c))) deck) ;;
  let firstCardIndex := if firstCardIndex =? -1 then 0 else firstCardIndex in
  let firstCard := getSlot deck firstCardIndex in
  let deck := slice deck 0 firstCardIndex ++ sliceFrom deck (firstCardIndex + 1) in
  id <- World.uuidv4 ;;
  turnStartTime <- World.now ;;
  ret (GameState.mk id Phase.playing players 0 1 deck [firstCard] None [] false 0
         turnStartTime None None).

(** [new GameEngine(config)]. *)
Definition create (config : GameConfig.t) : M World.t t :=
  s <- createInitialState config ;;
  ret (mk s [] config None).

Definition getTopCardOf (s : GameState.t) : Slot :=
  getSlot (GameState.discardPile s) (jlength (GameState.discardPile s) - 1).

Definition getTopCard : E Slot :=
  s <- thisState ;; ret (getTopCardOf s).

Definition getCurrentColor : E Color.t :=
  top <- getTopCard ;;
  sel <- thisSelected ;;
  liftC (CardDeck.getCurrentColor top sel).

Definition getCurrentPlayer : E (option Player.t) :=
  s <- thisState ;;
  ret (Js.get (GameState.players s) (GameState.currentPlayerIndex s)).

Definition getValidMoves (playerId : string) : E (list Slot) :=
  s <- thisState ;;
  match findPlayer (GameState.players s) (Some playerId) with
  | None => ret []
  | Some player =>
      topCard <- getTopCard ;;
      currentColor <- getCurrentColor ;;
      r <- rules ;;
      if (GameState.stackedDrawAmount s >? 0) && EnabledRules.stackDraw r then
        lastCard <- getTopCard ;;
        liftC (filterC (fun card : Slot =>
                  last <~ deref lastCard ;;
                  if Value.eqb (Card.value last) Value.draw2 then
                    c <~ deref card ;; Normal (Value.eqb (Card.value c) Value.draw2)
                  else if Value.eqb (Card.value last) Value.wild_draw4 then
                    c <~ deref card ;; Normal (Value.eqb (Card.value c) Value.wild_draw4)
                  else Normal false)
                (Player.hand player))
      else
        liftC (filterC (fun card => CardDeck.isPlayable card topCard currentColor)
                 (Player.hand player))
  end.

Definition canJumpIn (playerId cardId : string) : E bool :=
  r <- rules ;;
  if negb (EnabledRules.jumpIn r) then ret false
  else
    s <- thisState ;;
    match findPlayer (GameState.players s) (Some playerId) with
    | None => ret false
    | Some player =>
        card <- liftC (findC (hasId (Some cardId)) (Player.hand player)) ;;
        match card with
        | None => ret false
        | Some card =>
            top <- getTopCard ;;
            liftC (CardDeck.isExactMatch card top)
        end
    end.

(** [this.state.players[this.state.currentPlayerIndex].id === playerId]. *)
Definition isCurrentPlayer (playerId : string) : E bool :=
  cur <- getCurrentPlayer ;;
  p <- liftC (deref cur) ;;
  ret (String.eqb (Player.id p) playerId).

Definition validateAction (action : GameAction.t) : E ValidationResult.t :=
  let playerId := GameAction.playerId action in
  let cardId := GameAction.cardId action in
  s <- thisState ;;
  match findPlayer (GameState.players s) (Some playerId) with
  | None => ret (Invalid "Player not found")
  | Some player =>
      match GameAction.type action with
      | ActionType.play_card =>
          match cardId with
          | None => ret (Invalid "No card specified")
          | Some cardId =>
              if String.eqb cardId "" then ret (Invalid "No card specified")
              else
                card <- liftC (findC (hasId (Some cardId)) (Player.hand player)) ;;
                match card with
                | None => ret (Invalid "Card not in hand")
                | Some card =>
                    cur <- isCurrentPlayer playerId ;;
                    if negb cur then
                      j <- canJumpIn playerId cardId ;;
                      if j then ret Valid else ret (Invalid "Not your turn")
                    else
                      validMoves <- getValidMoves playerId ;;
                      found <- liftC (findC (hasId (Some cardId)) validMoves) ;;
                      match found with
                      | None => ret (Invalid "Card cannot be played")
                      | Some _ =>
                          c <- liftC (deref card) ;;
                          match Color.eqb (Card.color c) Color.wild,
                                GameAction.wildColor action with
                          | true, None =>
                              ret (Invalid "Must select a color for wild card")
                          | _, _ => ret Valid
                          end
                      end
                end
          end
      | ActionType.draw_card =>
          cur <- isCurrentPlayer playerId ;;
          if negb cur then ret (Invalid "Not your turn") else ret Valid
      | ActionType.call_uno =>
          if negb (jlength (Player.hand player) =? 2)
          then ret (Invalid "Can only call UNO with 2 cards")
          else ret Valid
      | ActionType.catch_uno =>
          match findPlayer (GameState.players s) (GameAction.targetPlayerId action) with
          | None => ret (Invalid "Target player not found")
          | Some target =>
              if negb (jlength (Player.hand target) =? 1) || Player.hasCalledUno target
              then ret (Invalid "Cannot catch this player")
              else ret Valid
          end
      | ActionType.slap =>
          if negb (Phase.eqb (GameState.phase s) Phase.slap_race)
          then ret (Invalid "No slap race active")
          else ret Valid
      | ActionType.select_color =>
          if negb (Phase.eqb (GameState.phase s) Phase.color_selection)
          then ret (Invalid "Not selecting color")
          else ret Valid
      | _ => ret Valid
      end
  end.

Definition advanceTurn (state : GameState.t) : E GameState.t :=
  let numPlayers := jlength (GameState.players state) in
  let nextIndex := GameState.currentPlayerIndex state + GameState.direction state in
  let nextIndex := if nextIndex <? 0 then numPlayers - 1 else nextIndex in
  let nextIndex := if nextIndex >=? numPlayers then 0 else nextIndex in
  emit (Event.turn_changed
          (Js.get (GameState.players state) (GameState.currentPlayerIndex state))
          (Js.get (GameState.players state) nextIndex)) ;;;
  now <- liftW World.now ;;
  ret (GameState.with_turnStartTime now
         (GameState.with_currentPlayerIndex nextIndex state)).

Definition forceDrawCards (state : GameState.t) (playerId : string) (count : Z)
  : E GameState.t :=
  let playerIndex := findPlayerIndex (GameState.players state) (Some playerId) in
  let player := Js.get (GameState.players state) playerIndex in
  let drawPile := GameState.drawPile state in
  let discardPile := GameState.discardPile state in
  piles <- (if jlength drawPile <? count then
              let '(topCard, discardPile) := pop discardPile in
              drawPile <- liftW (CardDeck.shuffleDeck (drawPile ++ discardPile)) ;;
              ret (drawPile, [topCard])
            else ret (drawPile, discardPile)) ;;
  let '(drawPile, discardPile) := piles in
  let '(drawn, remaining) := CardDeck.drawCards drawPile count in
  player <- liftC (deref player) ;;
  let newHand := Player.hand player ++ drawn in
  let newPlayers := Js.set (GameState.players state) playerIndex
                      (Player.with_hand newHand player) in
  ret (GameState.with_discardPile discardPile
         (GameState.with_drawPile remaining
            (GameState.with_players newPlayers state))).

Definition applyCardEffects (state : GameState.t) (card : Card.t) (playerIndex : Z)
  : E GameState.t :=
  r <- rules ;;
  if CardDeck.isDrawCard card then
    let drawAmount := CardDeck.getDrawAmount card in
    if EnabledRules.stackDraw r then
      newState <- advanceTurn (GameState.with_stackedDrawAmount
                                 (GameState.stackedDrawAmount state + drawAmount) state) ;;
      nextPlayer <- liftC (deref (Js.get (GameState.players newState)
                                    (GameState.currentPlayerIndex newState))) ;;
      canStack <- liftC (someC (sameDrawKind card) (Player.hand nextPlayer)) ;;
      if negb canStack then
        newState <- forceDrawCards newState (Player.id nextPlayer)
                      (GameState.stackedDrawAmount newState) ;;
        advanceTurn (GameState.with_stackedDrawAmount 0 newState)
      else ret newState
    else
      newState <- advanceTurn state ;;
      nextPlayer <- liftC (deref (Js.get (GameState.players newState)
                                    (GameState.currentPlayerIndex newState))) ;;
      newState <- forceDrawCards newState (Player.id nextPlayer) drawAmount ;;
      advanceTurn newState
  else if CardDeck.isSkipCard card then
    newState <- advanceTurn state ;;
    advanceTurn newState
  else if CardDeck.isReverseCard card then
    let newState := GameState.with_direction (GameState.direction state * -1) state in
    if jlength (GameState.players newState) =? 2 then
      newState <- advanceTurn newState ;;
      advanceTurn newState
    else advanceTurn newState
  else
    newState <- (if EnabledRules.silence r && Value.eqb (Card.value card) (Value.num 7)
                 then
                   let newState := GameState.with_silenceMode
                                     (negb (GameState.silenceMode state)) state in
                   emit (Event.silence_toggled (GameState.silenceMode newState)) ;;;
                   ret newState
                 else ret state) ;;
    if EnabledRules.customRule r && Value.eqb (Card.value card) (Value.num 0) then
      p <- liftC (deref (Js.get (GameState.players state) playerIndex)) ;;
      ret (GameState.with_pendingAction
             (Some (PendingAction.mk PendingType.create_rule (Some (Player.id p))
                      None None None None None))
             (GameState.with_phase Phase.custom_rule_creation newState))
    else if EnabledRules.slap r && Value.eqb (Card.value card) (Value.num 5) then
      now <- liftW World.now ;;
      let deadline := now + 3000 in
      emit (Event.slap_race_started deadline) ;;;
      ret (GameState.with_pendingAction
             (Some (PendingAction.mk PendingType.slap None None None (Some deadline)
                      None None))
             (GameState.with_phase Phase.slap_race newState))
    else advanceTurn newState.

Definition handlePlayCard (state : GameState.t) (action : GameAction.t) : E GameState.t :=
  let playerId := GameAction.playerId action in
  let cardId := GameAction.cardId action in
  let wildColor := GameAction.wildColor action in
  let playerIndex := findPlayerIndex (GameState.players state) (Some playerId) in
  player <- liftC (deref (Js.get (GameState.players state) playerIndex)) ;;
  cardIndex <- liftC (findIndexC (hasId cardId) (Player.hand player)) ;;
  let card := getSlot (Player.hand player) cardIndex in
  let newHand := slice (Player.hand player) 0 cardIndex
                 ++ sliceFrom (Player.hand player) (cardIndex + 1) in
  let newPlayers := Js.set (GameState.players state) playerIndex
                      (Player.with_hasCalledUno false (Player.with_hand newHand player)) in
  let newDiscardPile := GameState.discardPile state ++ [card] in
  c <- liftC (deref card) ;;
  match Color.eqb (Card.color c) Color.wild, wildColor with
  | true, Some w => setSelected (Some w)
  | _, _ => setSelected None
  end ;;;
  let newState := GameState.with_discardPile newDiscardPile
                    (GameState.with_players newPlayers state) in
  if jlength newHand =? 0 then
    emit (Event.game_over player) ;;;
    ret (GameState.with_winner (Some playerId)
           (GameState.with_phase Phase.game_over newState))
  else
    newState <- applyCardEffects newState c playerIndex ;;
    emit (Event.card_played player c) ;;;
    ret newState.

Definition handleDrawCard (state : GameState.t) (action : GameAction.t) : E GameState.t :=
  let playerId := GameAction.playerId action in
  let drawCount := if GameState.stackedDrawAmount state >? 0
                   then GameState.stackedDrawAmount state else 1 in
  newState <- forceDrawCards state playerId drawCount ;;
  let newState := GameState.with_stackedDrawAmount 0 newState in
  emit (Event.card_drawn playerId drawCount) ;;;
  advanceTurn newState.

Definition handleCallUno (state : GameState.t) (action : GameAction.t) : E GameState.t :=
  let playerId := GameAction.playerId action in
  let playerIndex := findPlayerIndex (GameState.players state) (Some playerId) in
  (* [{ ...newPlayers[playerIndex], hasCalledUno: true }] does not throw on
     a missing player; the index is then -1 and no element is written *)
  let newPlayers :=
    match Js.get (GameState.players state) playerIndex with
    | Some p => Js.set (GameState.players state) playerIndex
                  (Player.with_hasCalledUno true p)
    | None => GameState.players state
    end in
  emit (Event.uno_called playerId) ;;;
  ret (GameState.with_players newPlayers state).

Definition handleCatchUno (state : GameState.t) (action : GameAction.t) : E GameState.t :=
  match GameAction.targetPlayerId action with
  | None => ret state
  | Some targetPlayerId =>
      if String.eqb targetPlayerId "" then ret state
      else
        newState <- forceDrawCards state targetPlayerId 2 ;;
        emit (Event.uno_caught targetPlayerId (GameAction.playerId action)) ;;;
        ret newState
  end.

Definition handleSlap (state : GameState.t) (_action : GameAction.t) : E GameState.t :=
  ret state.

Definition handleSelectColor (state : GameState.t) (action : GameAction.t) : E GameState.t :=
  match GameAction.wildColor action with
  | Some w => setSelected (Some w)
  | None => ret tt
  end ;;;
  let updatedState := GameState.with_pendingAction None
                        (GameState.with_phase Phase.playing state) in
  advanceTurn updatedState.

Definition handleCreateCustomRule (state : GameState.t) (action : GameAction.t)
  : E GameState.t :=
  match GameAction.customRule action with
  | None => ret state
  | Some customRule =>
      id <- liftW World.uuidv4 ;;
      createdAt <- liftW World.now ;;
      let newRule := CustomRule.mk id (RuleDraft.text customRule)
                       (RuleDraft.type customRule) (GameAction.playerId action)
                       createdAt in
      let newState := GameState.with_customRules (GameState.customRules state ++ [newRule])
                        (GameState.with_pendingAction None
                           (GameState.with_phase Phase.playing state)) in
      emit (Event.custom_rule_created newRule) ;;;
      advanceTurn newState
  end.

Definition handleReportSpeaking (state : GameState.t) (action : GameAction.t)
  : E GameState.t :=
  r <- rules ;;
  if negb (EnabledRules.silence r) || negb (GameState.silenceMode state) then ret state
  else
    match GameAction.targetPlayerId action with
    | None => ret state
    | Some targetPlayerId =>
        if String.eqb targetPlayerId "" then ret state
        else
          newState <- forceDrawCards state targetPlayerId 1 ;;
          emit (Event.speaking_reported (GameAction.playerId action) targetPlayerId) ;;;
          ret newState
    end.

Definition handleRequestCard (state : GameState.t) (action : GameAction.t)
  : E GameState.t :=
  r <- rules ;;
  if negb (EnabledRules.offerCard r) then ret state
  else
    match GameAction.targetPlayerId action with
    | None => ret state
    | Some targetPlayerId =>
        if String.eqb targetPlayerId "" then ret state
        else if String.eqb (GameAction.playerId action) targetPlayerId then ret state
        else
          match findPlayer (GameState.players state) (Some targetPlayerId) with
          | None => ret state
          | Some target =>
              if jlength (Player.hand target) =? 0 then ret state
              else
                let newState :=
                  GameState.with_pendingAction
                    (Some (PendingAction.mk PendingType.card_request
                             (Some targetPlayerId) (Some (GameAction.playerId action))
                             None None None None))
                    (GameState.with_phase Phase.card_request state) in
                emit (Event.card_requested (GameAction.playerId action) targetPlayerId) ;;;
                ret newState
          end
    end.

Definition handleDeclineRequest (state : GameState.t) (action : GameAction.t)
  : E GameState.t :=
  match GameState.pendingAction state with
  | None => ret state
  | Some pending =>
      if negb (Phase.eqb (GameState.phase state) Phase.card_request) then ret state
      else if negb (eqOpt (GameAction.playerId action) (PendingAction.targetPlayer pending))
      then ret state
      else
        emit (Event.request_declined (PendingAction.requesterId pending)
                (GameAction.playerId action)) ;;;
        ret (GameState.with_pendingAction None
               (GameState.with_phase Phase.playing state))
  end.

Definition handleOfferCard (state : GameState.t) (action : GameAction.t) : E GameState.t :=
  r <- rules ;;
  if negb (EnabledRules.offerCard r) then ret state
  else if negb (truthy (GameAction.cardId action)) then ret state
  else
    match GameState.pendingAction state with
    | None => ret state
    | Some pending =>
        if negb (Phase.eqb (GameState.phase state) Phase.card_request) then ret state
        else if negb (eqOpt (GameAction.playerId action)
                        (PendingAction.targetPlayer pending))
        then ret state
        else
          match PendingAction.requesterId pending with
          | None => ret state
          | Some requesterId =>
              if String.eqb requesterId "" then ret state
              else
                let newState :=
                  GameState.with_pendingAction
                    (Some (PendingAction.mk PendingType.offer_decision
                             (Some requesterId) (Some requesterId) None None
                             (GameAction.cardId action)
                             (Some (GameAction.playerId action))))
                    (GameState.with_phase Phase.offering_card state) in
                emit (Event.card_offered (GameAction.playerId action) requesterId) ;;;
                ret newState
          end
    end.

Definition handleAcceptOffer (state : GameState.t) (_action : GameAction.t)
  : E GameState.t :=
  match GameState.pendingAction state with
  | None => ret state
  | Some pending =>
      if negb (PendingType.eqb (PendingAction.type pending) PendingType.offer_decision)
      then ret state
      else
        let offererId := PendingAction.offererId pending in
        let offeredCardId := PendingAction.offeredCardId pending in
        let targetPlayer := PendingAction.targetPlayer pending in
        if negb (truthy offererId) || negb (truthy offeredCardId)
           || negb (truthy targetPlayer)
        then ret state
        else
          let offererIndex := findPlayerIndex (GameState.players state) offererId in
          let targetIndex := findPlayerIndex (GameState.players state) targetPlayer in
          let offerer := Js.get (GameState.players state) offererIndex in
          let target := Js.get (GameState.players state) targetIndex in
          offerer <- liftC (deref offerer) ;;
          cardIndex <- liftC (findIndexC (hasId offeredCardId) (Player.hand offerer)) ;;
          let card := getSlot (Player.hand offerer) cardIndex in
          (* Remove card from offerer *)
          let newOffererHand := slice (Player.hand offerer) 0 cardIndex
                                ++ sliceFrom (Player.hand offerer) (cardIndex + 1) in
          (* Add card to target *)
          target <- liftC (deref target) ;;
          let newTargetHand := Player.hand target ++ [card] in
          let newPlayers := Js.set (GameState.players state) offererIndex
                              (Player.with_hand newOffererHand offerer) in
          let newPlayers := Js.set newPlayers targetIndex
                              (Player.with_hand newTargetHand target) in
          emit (Event.offer_responded true card) ;;;
          ret (GameState.with_players newPlayers
                 (GameState.with_pendingAction None
                    (GameState.with_phase Phase.playing state)))
  end.

Definition handleDeclineOffer (state : GameState.t) (_action : GameAction.t)
  : E GameState.t :=
  emit (Event.offer_responded false None) ;;;
  ret (GameState.with_pendingAction None (GameState.with_phase Phase.playing state)).

Definition handlePassTurn (state : GameState.t) (_action : GameAction.t)
  : E GameState.t :=
  advanceTurn state.

Definition handleJumpIn (state : GameState.t) (action : GameAction.t) : E GameState.t :=
  let playerIndex := findPlayerIndex (GameState.players state)
                       (Some (GameAction.playerId action)) in
  let newState := GameState.with_currentPlayerIndex playerIndex state in
  handlePlayCard newState action.

Definition applyAction (action : GameAction.t) : E GameState.t :=
  state <- thisState ;;
  match GameAction.type action with
  | ActionType.play_card => handlePlayCard state action
  | ActionType.draw_card => handleDrawCard state action
  | ActionType.call_uno => handleCallUno state action
  | ActionType.catch_uno => handleCatchUno state action
  | ActionType.slap => handleSlap state action
  | ActionType.select_color => handleSelectColor state action
  | ActionType.create_custom_rule => handleCreateCustomRule state action
  | ActionType.report_speaking => handleReportSpeaking state action
  | ActionType.request_card => handleRequestCard state action
  | ActionType.decline_request => handleDeclineRequest state action
  | ActionType.offer_card => handleOfferCard state action
  | ActionType.accept_offer => handleAcceptOffer state action
  | ActionType.decline_offer => handleDeclineOffer state action
  | ActionType.pass_turn => handlePassTurn state action
  | ActionType.jump_in => handleJumpIn state action
  end.

(** The main action dispatcher. *)
Definition dispatch (action : GameAction.t) : E GameState.t :=
  validation <- validateAction action ;;
  if negb (ValidationResult.valid validation) then
    emit (Event.action_rejected action (ValidationResult.reason validation)) ;;;
    thisState
  else
    newState <- applyAction action ;;
    setState (GameState.with_lastAction (Some action) newState) ;;;
    s <- thisState ;;
    emit (Event.state_changed s) ;;;
    thisState.

Module SlapResult.
Record t : Type := mk { playerId : string; timestamp : Z }.
End SlapResult.

(** Slap race resolution (called externally when the race ends). *)
Definition resolveSlapRace (slapResults : list SlapResult.t) : E GameState.t :=
  s <- thisState ;;
  if negb (Phase.eqb (GameState.phase s) Phase.slap_race) then ret s
  else
    let sorted := sortBy (fun a b => SlapResult.timestamp a - SlapResult.timestamp b)
                    slapResults in
    let slappedPlayerIds := map SlapResult.playerId sorted in
    let nonSlappers :=
      filter (fun p => negb (existsb (String.eqb (Player.id p)) slappedPlayerIds))
        (GameState.players s) in
    loserId <- (if jlength nonSlappers >? 0 then
                  p <- liftC (deref (Js.get nonSlappers 0)) ;; ret (Player.id p)
                else
                  r <- liftC (deref (Js.get sorted (jlength sorted - 1))) ;;
                  ret (SlapResult.playerId r)) ;;
    newState <- forceDrawCards s loserId 1 ;;
    emit (Event.slap_race_ended loserId) ;;;
    let newState := GameState.with_pendingAction None
                      (GameState.with_phase Phase.playing newState) in
    newState <- advanceTurn newState ;;
    setState newState ;;;
    emit (Event.state_changed newState) ;;;
    ret newState.

(** Reset game. *)
Definition reset : E unit :=
  cfg <- gets (fun h => config (this h)) ;;
  s <- liftW (createInitialState cfg) ;;
  setState s ;;;
  setSelected None ;;;
  emit (Event.state_changed s).

End GameEngine.

(* ===================================================================== *)
(** ** The scripted opponent (client/src/ai/AIPlayer.ts)                 *)
(* ===================================================================== *)

Module AIDecision.
(** [AIDecision].  The delay is a number of milliseconds with a fraction:
    a double. *)
Record t : Type := mk {
  action : GameAction.t;
  delay : Float64.t
}.
End AIDecision.

Module AIPlayer.

Record t : Type := mk {
  id : string;
  difficulty : Difficulty
}.

(** The cards of an array none of whose elements is [undefined]; the
    opponent only sorts and scores arrays that it has already traversed
    reading [card.color] of every element. *)
Definition cardsOf (l : list Slot) : list Card.t :=
  flat_map (fun s : Slot => match s with Some c => [c] | None => [] end) l.

Definition getThinkingDelay (self : t) : M World.t Float64.t :=
  let baseDelay := match difficulty self with
                   | easy => 1500 | medium => 1000 | hard => 500
                   end in
  r <- World.random ;;
  ret (Float64.add (Float64.ofZ baseDelay) (Float64.mul r (Float64.ofZ 500))).

Definition pickWildColor (self : t) : M World.t Color.t :=
  let colors := [Color.red; Color.blue; Color.green; Color.yellow] in
  k <- World.randomBelow (List.length colors) ;;
  ret (nth k colors Color.red).

Definition playCardDecision (self : t) (card : Slot) : M World.t AIDecision.t :=
  c <- liftC (deref card) ;;
  wildColor <- (if Color.eqb (Card.color c) Color.wild
                then w <- pickWildColor self ;; ret (Some w)
                else ret None) ;;
  delay <- getThinkingDelay self ;;
  ret (AIDecision.mk
         (GameAction.mk ActionType.play_card (id self) (Some (Card.id c)) None
            wildColor None None)
         delay).

Definition drawDecision (self : t) : M World.t AIDecision.t :=
  delay <- getThinkingDelay self ;;
  ret (AIDecision.mk
         (GameAction.mk ActionType.draw_card (id self) None None None None None)
         delay).

(** [priority] of [basicStrategy]. *)
Definition priority (card : Card.t) : Z :=
  match Card.value card with
  | Value.wild_draw4 => 100
  | Value.draw2 => 80
  | Value.skip => 60
  | Value.reverse => 50
  | Value.wild => 10
  | Value.num n => n + 20
  end.

Definition basicStrategy (validMoves _hand : list Card.t) : option Card.t :=
  hd_error (sortBy (fun a b => priority b - priority a) validMoves).

(** [Math.min(...xs)]; [None] is [Infinity]. *)
Definition mathMin (xs : list Z) : option Z :=
  fold_left (fun acc x => match acc with
                          | None => Some x
                          | Some m => Some (Z.min m x)
                          end) xs None.

(** [scoreCard] of [optimalStrategy]. *)
Definition scoreCard (self : t) (validMoves hand : list Card.t) (state : GameState.t)
  (card : Card.t) : Z :=
  let score := 0 in
  let colorCount :=
    jlength (filter (fun c => Color.eqb (Card.color c) (Card.color card)) hand) in
  let score := score + colorCount * 5 in
  let score :=
    if Color.eqb (Card.color card) Color.wild then
      let nonWildMoves :=
        filter (fun c => negb (Color.eqb (Card.color c) Color.wild)) validMoves in
      if jlength nonWildMoves >? 0 then score - 50 else score
    else score in
  let minOpponentCards :=
    mathMin (map (fun p => jlength (Player.hand p))
               (filter (fun p => negb (String.eqb (Player.id p) (id self)))
                  (GameState.players state))) in
  let score :=
    match minOpponentCards with
    | Some m =>
        if m <=? 3 then
          let score := if Value.eqb (Card.value card) Value.skip
                          || Value.eqb (Card.value card) Value.reverse
                       then score + 30 else score in
          let score := if Value.eqb (Card.value card) Value.draw2
                       then score + 40 else score in
          if Value.eqb (Card.value card) Value.wild_draw4 then score + 50 else score
        else score
    | None => score
    end in
  let score := if Value.eqb (Card.value card) (Value.num 5) then score - 10 else score in
  let score := if Value.eqb (Card.value card) (Value.num 7) then score + 5 else score in
  match Card.value card with
  | Value.num n => score + n
  | _ => score
  end.

Definition optimalStrategy (self : t) (validMoves hand : list Card.t)
  (state : GameState.t) : option Card.t :=
  hd_error (sortBy (fun a b => scoreCard self validMoves hand state b
                               - scoreCard self validMoves hand state a) validMoves).

Definition pickBestCard (self : t) (validMoves hand : list Slot) (state : GameState.t)
  : M World.t Slot :=
  match difficulty self with
  | easy =>
      k <- World.randomBelow (List.length validMoves) ;;
      ret (getSlot validMoves (Z.of_nat k))
  | medium => ret (basicStrategy (cardsOf validMoves) (cardsOf hand))
  | hard => ret (optimalStrategy self (cardsOf validMoves) (cardsOf hand) state)
  end.

(** The callback [(c) => c.value === 'draw2' || c.value === 'wild_draw4']. *)
Definition isCounter (c : Slot) : Completion bool :=
  c' <~ deref c ;;
  Normal (Value.eqb (Card.value c') Value.draw2
          || Value.eqb (Card.value c') Value.wild_draw4).

(** The legal moves as the opponent computes them: the effective colour
    is taken from the top card alone. *)
Definition validMovesOf (state : GameState.t) (player : Player.t)
  : Completion (list Slot) :=
  let topCard := GameEngine.getTopCardOf state in
  currentColor <~ CardDeck.getCurrentColor topCard None ;;
  filterC (fun card => CardDeck.isPlayable card topCard currentColor)
    (Player.hand player).

Definition decidePlay (self : t) (state : GameState.t) (player : Player.t)
  : M World.t AIDecision.t :=
  validMoves <- liftC (validMovesOf state player) ;;
  if GameState.stackedDrawAmount state >? 0 then
    canCounter <- liftC (someC isCounter validMoves) ;;
    if negb canCounter then drawDecision self
    else
      counterCard <- liftC (findC isCounter validMoves) ;;
      playCardDecision self (match counterCard with Some c => c | None => None end)
  else if jlength validMoves =? 0 then drawDecision self
  else
    bestCard <- pickBestCard self validMoves (Player.hand player) state ;;
    playCardDecision self bestCard.

Definition decideSlap (self : t) (_state : GameState.t) : M World.t AIDecision.t :=
  let baseDelay := match difficulty self with
                   | easy => 1500 | medium => 800 | hard => 200
                   end in
  r <- World.random ;;
  let variance := Float64.mul r (Float64.ofZ 500) in
  now <- World.now ;;
  ret (AIDecision.mk
         (GameAction.mk ActionType.slap (id self) None None None None
            (Some (Float64.add (Float64.add (Float64.ofZ now) (Float64.ofZ baseDelay))
                     variance)))
         (Float64.add (Float64.ofZ baseDelay) variance)).

Definition decideCustomRule (self : t) (_state : GameState.t) : M World.t AIDecision.t :=
  let rules :=
    [ ("Must say thank you when drawing", speech);
      ("No pointing at people", behavioral);
      ("Knock before playing a card", action);
      ("Draw 1 if you touch your face", penalty);
      ("Must speak in an accent", behavioral) ] in
  k <- World.randomBelow (List.length rules) ;;
  let rule := nth k rules ("", behavioral) in
  ret (AIDecision.mk
         (GameAction.mk ActionType.create_custom_rule (id self) None None None
            (Some (RuleDraft.mk (fst rule) (snd rule) (id self))) None)
         (Float64.ofZ 1500)).

Definition makeDecision (self : t) (state : GameState.t)
  : M World.t (option AIDecision.t) :=
  match GameEngine.findPlayer (GameState.players state) (Some (id self)) with
  | None => ret None
  | Some player =>
      cur <- liftC (deref (Js.get (GameState.players state)
                             (GameState.currentPlayerIndex state))) ;;
      let isMyTurn := String.eqb (Player.id cur) (id self) in
      if negb isMyTurn && Phase.eqb (GameState.phase state) Phase.playing then ret None
      else
        match GameState.phase state with
        | Phase.playing => d <- decidePlay self state player ;; ret (Some d)
        | Phase.slap_race => d <- decideSlap self state ;; ret (Some d)
        | Phase.custom_rule_creation => d <- decideCustomRule self state ;; ret (Some d)
        | _ => ret None
        end
  end.

End AIPlayer.

(* ===================================================================== *)
(** ** The server copy of the rules (server/src/index.ts)                *)
(* ===================================================================== *)

Module Server.

Module Player.
(** The server's [Player]. *)
Record t : Type := mk {
  id : string;
  name : string;
  hand : list Slot;
  hasCalledUno : bool;
  isConnected : bool;
  socketId : string
}.
Definition with_id (v : string) (s : t) : t :=
  mk v (name s) (hand s) (hasCalledUno s) (isConnected s) (socketId s).
Definition with_name (v : string) (s : t) : t :=
  mk (id s) v (hand s) (hasCalledUno s) (isConnected s) (socketId s).
Definition with_hand (v : list Slot) (s : t) : t :=
  mk (id s) (name s) v (hasCalledUno s) (isConnected s) (socketId s).
Definition with_hasCalledUno (v : bool) (s : t) : t :=
  mk (id s) (name s) (hand s) v (isConnected s) (socketId s).
Definition with_isConnected (v : bool) (s : t) : t :=
  mk (id s) (name s) (hand s) (hasCalledUno s) v (socketId s).
Definition with_socketId (v : string) (s : t) : t :=
  mk (id s) (name s) (hand s) (hasCalledUno s) (isConnected s) v.
End Player.

Module GameState.
(** The server's [GameState]: the wild colour is a field of the state. *)
Record t : Type := mk {
  id : string;
  phase : Phase.t;
  players : list Player.t;
  currentPlayerIndex : Z;
  direction : Z;
  drawPile : list Slot;
  discardPile : list Slot;
  pendingAction : option PendingAction.t;
  customRules : list CustomRule.t;
  silenceMode : bool;
  stackedDrawAmount : Z;
  turnStartTime : Z;
  winner : option string;
  selectedWildColor : option Color.t
}.
Definition with_id (v : string) (s : t) : t :=
  mk v (phase s) (players s) (currentPlayerIndex s) (direction s) (drawPile s) (discardPile s) (pendingAction s) (customRules s) (silenceMode s) (stackedDrawAmount s) (turnStartTime s) (winner s) (selectedWildColor s).
Definition with_phase (v : Phase.t) (s : t) : t :=
  mk (id s) v (players s) (currentPlayerIndex s) (direction s) (drawPile s) (discardPile s) (pendingAction s) (customRules s) (silenceMode s) (stackedDrawAmount s) (turnStartTime s) (winner s) (selectedWildColor s).
Definition with_players (v : list Player.t) (s : t) : t :=
  mk (id s) (phase s) v (currentPlayerIndex s) (direction s) (drawPile s) (discardPile s) (pendingAction s) (customRules s) (silenceMode s) (stackedDrawAmount s) (turnStartTime s) (winner s) (selectedWildColor s).
Definition with_currentPlayerIndex (v : Z) (s : t) : t :=
  mk (id s) (phase s) (players s) v (direction s) (drawPile s) (discardPile s) (pendingAction s) (customRules s) (silenceMode s) (stackedDrawAmount s) (turnStartTime s) (winner s) (selectedWildColor s).
Definition with_direction (v : Z) (s : t) : t :=
  mk (id s) (phase s) (players s) (currentPlayerIndex s) v (drawPile s) (discardPile s) (pendingAction s) (customRules s) (silenceMode s) (stackedDrawAmount s) (turnStartTime s) (winner s) (selectedWildColor s).
Definition with_drawPile (v : list Slot) (s : t) : t :=
  mk (id s) (phase s) (players s) (currentPlayerIndex s) (direction s) v (discardPile s) (pendingAction s) (customRules s) (silenceMode s) (stackedDrawAmount s) (turnStartTime s) (winner s) (selectedWildColor s).
Definition with_discardPile (v : list Slot) (s : t) : t :=
  mk (id s) (phase s) (players s) (currentPlayerIndex s) (direction s) (drawPile s) v (pendingAction s) (customRules s) (silenceMode s) (stackedDrawAmount s) (turnStartTime s) (winner s) (selectedWildColor s).
Definition with_pendingAction (v : option PendingAction.t) (s : t) : t :=
  mk (id s) (phase s) (players s) (currentPlayerIndex s) (direction s) (drawPile s) (discardPile s) v (customRules s) (silenceMode s) (stackedDrawAmount s) (turnStartTime s) (winner s) (selectedWildColor s).
Definition with_customRules (v : list CustomRule.t) (s : t) : t :=
  mk (id s) (phase s) (players s) (currentPlayerIndex s) (direction s) (drawPile s) (discardPile s) (pendingAction s) v (silenceMode s) (stackedDrawAmount s) (turnStartTime s) (winner s) (selectedWildColor s).
Definition with_silenceMode (v : bool) (s : t) : t :=
  mk (id s) (phase s) (players s) (currentPlayerIndex s) (direction s) (drawPile s) (discardPile s) (pendingAction s) (customRules s) v (stackedDrawAmount s) (turnStartTime s) (winner s) (selectedWildColor s).
Definition with_stackedDrawAmount (v : Z) (s : t) : t :=
  mk (id s) (phase s) (players s) (currentPlayerIndex s) (direction s) (drawPile s) (discardPile s) (pendingAction s) (customRules s) (silenceMode s) v (turnStartTime s) (winner s) (selectedWildColor s).
Definition with_turnStartTime (v : Z) (s : t) : t :=
  mk (id s) (phase s) (players s) (currentPlayerIndex s) (direction s) (drawPile s) (discardPile s) (pendingAction s) (customRules s) (silenceMode s) (stackedDrawAmount s) v (winner s) (selectedWildColor s).
Definition with_winner (v : option string) (s : t) : t :=
  mk (id s) (phase s) (players s) (currentPlayerIndex s) (direction s) (drawPile s) (discardPile s) (pendingAction s) (customRules s) (silenceMode s) (stackedDrawAmount s) (turnStartTime s) v (selectedWildColor s).
Definition with_selectedWildColor (v : option Color.t) (s : t) : t :=
  mk (id s) (phase s) (players s) (currentPlayerIndex s) (direction s) (drawPile s) (discardPile s) (pendingAction s) (customRules s) (silenceMode s) (stackedDrawAmount s) (turnStartTime s) (winner s) v.
End GameState.

Module Room.
(** The part of a [Room] that the rules read and write: its game and its
    rule switches.  The lobby's membership map is not touched by
    [handleAction]. *)
Record t : Type := mk {
  gameState : option GameState.t;
  config : EnabledRules.t
}.
End Room.

(** Which way [handleAction] left: through a guard's [return] before
    anything was written, or after carrying the action out.  The source
    function returns nothing; this tag only records the exit taken. *)
Inductive Exit : Type := Ignored | Carried.

Definition shuffle {A} (array : list A) : M World.t (list A) :=
  CardDeck.shuffleLoop (List.length array - 1) array.

Definition getTopCard (state : GameState.t) : Slot :=
  getSlot (GameState.discardPile state) (jlength (GameState.discardPile state) - 1).

Definition canPlayCard (state : GameState.t) (card : Card.t) : Completion bool :=
  let topCard := getTopCard state in
  effectiveColor <~ match GameState.selectedWildColor state with
                    | Some c => Normal c
                    | None => t <~ deref topCard ;; Normal (Card.color t)
                    end ;;
  if Color.eqb (Card.color card) Color.wild then Normal true
  else if Color.eqb (Card.color card) effectiveColor then Normal true
  else
    t <~ deref topCard ;;
    if Value.eqb (Card.value card) (Card.value t) then Normal true
    else Normal false.

(** [nextPlayer(state, skip)]: the loop body runs [skip + 1] times. *)
Fixpoint nextPlayerLoop (state : GameState.t) (iterations : nat) (next : Z) : Z :=
  match iterations with
  | O => next
  | S k =>
      nextPlayerLoop state k
        (Z.rem (next + GameState.direction state + jlength (GameState.players state))
               (jlength (GameState.players state)))
  end.
Definition nextPlayer (state : GameState.t) (skip : nat) : Z :=
  nextPlayerLoop state (S skip) (GameState.currentPlayerIndex state).

(** [drawCards(state, count)]: the cards drawn, and the state with its
    piles as the loop leaves them.  Cards leave the draw pile from its
    end. *)
Fixpoint drawLoop (state : GameState.t) (iterations : nat) (cards : list Slot)
  : M World.t (list Slot * GameState.t) :=
  match iterations with
  | O => ret (cards, state)
  | S k =>
      state <- (if jlength (GameState.drawPile state) =? 0 then
                  let '(topCard, rest) := pop (GameState.discardPile state) in
                  drawPile <- shuffle rest ;;
                  ret (GameState.with_discardPile [topCard]
                         (GameState.with_drawPile drawPile state))
                else ret state) ;;
      if jlength (GameState.drawPile state) >? 0 then
        let '(card, rest) := pop (GameState.drawPile state) in
        drawLoop (GameState.with_drawPile rest state) k (cards ++ [card])
      else drawLoop state k cards
  end.
Definition drawCards (state : GameState.t) (count : Z)
  : M World.t (list Slot * GameState.t) :=
  drawLoop state (Z.to_nat count) [].

(** [state.players[i].hand.push(...cards)]. *)
Definition pushToHand (state : GameState.t) (i : Z) (cards : list Slot)
  : Completion GameState.t :=
  p <~ deref (Js.get (GameState.players state) i) ;;
  Normal (GameState.with_players
            (Js.set (GameState.players state) i
               (Player.with_hand (Player.hand p ++ cards) p)) state).

(** The [switch (card.value)] is the chain of its [===] tests, in the
    order of the [case] labels. *)
Definition applyCardEffects (state : GameState.t) (config : EnabledRules.t)
  (card : Card.t) (playerIndex : Z) : M World.t GameState.t :=
  let advance (skip : nat) (state : GameState.t) :=
    GameState.with_currentPlayerIndex (nextPlayer state skip) state in
  let drawCase (amount : Z) : M World.t GameState.t :=
    state <- (if EnabledRules.stackDraw config then
                ret (GameState.with_stackedDrawAmount
                       (GameState.stackedDrawAmount state + amount) state)
              else
                let nextIdx := nextPlayer state 0 in
                r <- drawCards state amount ;;
                let '(cards, state) := r in
                state <- liftC (pushToHand state nextIdx cards) ;;
                ret (advance 1%nat state)) ;;
    ret (advance 0%nat state) in
  let value := Card.value card in
  state <- (if Value.eqb value Value.skip then ret (advance 1%nat state)
            else if Value.eqb value Value.reverse then
              if jlength (GameState.players state) =? 2 then ret (advance 1%nat state)
              else
                ret (advance 0%nat
                       (GameState.with_direction (GameState.direction state * -1) state))
            else if Value.eqb value Value.draw2 then drawCase 2
            else if Value.eqb value Value.wild_draw4 then drawCase 4
            else if Value.eqb value (Value.num 7) then
              let state := if EnabledRules.silence config
                           then GameState.with_silenceMode
                                  (negb (GameState.silenceMode state)) state
                           else state in
              ret (advance 0%nat state)
            else if Value.eqb value (Value.num 0) then
              if EnabledRules.customRule config
              then ret (GameState.with_phase Phase.custom_rule_creation state)
              else ret (advance 0%nat state)
            else if Value.eqb value (Value.num 5) then
              if EnabledRules.slap config then
                now <- World.now ;;
                ret (GameState.with_pendingAction
                       (Some (PendingAction.mk PendingType.slap None None None
                                (Some (now + 3000)) None None))
                       (GameState.with_phase Phase.slap_race state))
              else ret (advance 0%nat state)
            else ret (advance 0%nat state)) ;;
  now <- World.now ;;
  ret (GameState.with_turnStartTime now state).

(** [players.find(p => p.id === id)] and its index. *)
Definition findPlayerIndex (players : list Player.t) (playerId : option string) : Z :=
  findIndex (fun p => eqOpt (Player.id p) playerId) players.

(** [hand.splice(cardIndex, 1)] at an index found by [findIndex]. *)
Definition splice1 {A} (hand : list A) (cardIndex : Z) : list A :=
  firstn (Z.to_nat cardIndex) hand ++ skipn (S (Z.to_nat cardIndex)) hand.

Definition playCard (state : GameState.t) (config : EnabledRules.t)
  (action : GameAction.t) (playerIndex : Z) (player : Player.t)
  : M World.t (Exit * GameState.t) :=
  let playerId := GameAction.playerId action in
  let wildColor := GameAction.wildColor action in
  cardIndex <- liftC (findIndexC (GameEngine.hasId (GameAction.cardId action))
                        (Player.hand player)) ;;
  if cardIndex =? -1 then ret (Ignored, state)
  else
    card <- liftC (deref (getSlot (Player.hand player) cardIndex)) ;;
    let played (state : GameState.t) :=
      GameState.with_discardPile (GameState.discardPile state ++ [Some card])
        (GameState.with_players
           (Js.set (GameState.players state) playerIndex
              (Player.with_hand (splice1 (Player.hand player) cardIndex) player))
           state) in
    let handEmpty := jlength (splice1 (Player.hand player) cardIndex) =? 0 in
    if negb (GameState.currentPlayerIndex state =? playerIndex) then
      if EnabledRules.jumpIn config then
        topCard <- liftC (deref (getTopCard state)) ;;
        if Color.eqb (Card.color card) (Card.color topCard)
           && Value.eqb (Card.value card) (Card.value topCard)
        then
          let state := played state in
          let state := GameState.with_selectedWildColor None
                         (GameState.with_currentPlayerIndex playerIndex state) in
          now <- World.now ;;
          let state := GameState.with_turnStartTime now state in
          if handEmpty then
            ret (Carried, GameState.with_winner (Some playerId)
                            (GameState.with_phase Phase.game_over state))
          else
            ret (Carried, GameState.with_currentPlayerIndex (nextPlayer state 0) state)
        else ret (Ignored, state)
      else ret (Ignored, state)
    else
      playable <- liftC (canPlayCard state card) ;;
      if negb playable && (GameState.stackedDrawAmount state =? 0) then ret (Ignored, state)
      else
        let state := played state in
        let continue (state : GameState.t) : M World.t (Exit * GameState.t) :=
          if handEmpty then
            ret (Carried, GameState.with_winner (Some playerId)
                            (GameState.with_phase Phase.game_over state))
          else
            state <- applyCardEffects state config card playerIndex ;;
            ret (Carried, state) in
        if Color.eqb (Card.color card) Color.wild then
          let state := GameState.with_selectedWildColor wildColor state in
          match wildColor with
          | None => ret (Carried, GameState.with_phase Phase.color_selection state)
          | Some _ => continue state
          end
        else continue (GameState.with_selectedWildColor None state).

(** [handleAction(room, action)] on a room whose game exists. *)
Definition handleGameAction (state : GameState.t) (config : EnabledRules.t)
  (action : GameAction.t) : M World.t (Exit * GameState.t) :=
  if Phase.eqb (GameState.phase state) Phase.game_over then ret (Ignored, state)
  else
    let playerId := GameAction.playerId action in
    let playerIndex := findPlayerIndex (GameState.players state) (Some playerId) in
    match Js.get (GameState.players state) playerIndex with
    | None => ret (Ignored, state)
    | Some player =>
        match GameAction.type action with
        | ActionType.play_card => playCard state config action playerIndex player
        | ActionType.draw_card =>
            if negb (GameState.currentPlayerIndex state =? playerIndex)
            then ret (Ignored, state)
            else
              let amount := if GameState.stackedDrawAmount state >? 0
                            then GameState.stackedDrawAmount state else 1 in
              r <- drawCards state amount ;;
              let '(cards, state) := r in
              let drawn := Player.with_hand (Player.hand player ++ cards) player in
              let state := GameState.with_players
                             (Js.set (GameState.players state) playerIndex drawn)
                             state in
              let state := GameState.with_stackedDrawAmount 0 state in
              let state := GameState.with_currentPlayerIndex (nextPlayer state 0) state in
              now <- World.now ;;
              let state := GameState.with_turnStartTime now state in
              ret (Carried,
                   GameState.with_players
                     (Js.set (GameState.players state) playerIndex
                        (Player.with_hasCalledUno false drawn)) state)
        | ActionType.select_color =>
            if negb (Phase.eqb (GameState.phase state) Phase.color_selection)
            then ret (Ignored, state)
            else
              let state := GameState.with_selectedWildColor
                             (GameAction.wildColor action) state in
              let state := GameState.with_phase Phase.playing state in
              let state := GameState.with_currentPlayerIndex (nextPlayer state 0) state in
              now <- World.now ;;
              ret (Carried, GameState.with_turnStartTime now state)
        | ActionType.call_uno =>
            if jlength (Player.hand player) <=? 2 then
              ret (Carried,
                   GameState.with_players
                     (Js.set (GameState.players state) playerIndex
                        (Player.with_hasCalledUno true player)) state)
            else ret (Carried, state)
        | ActionType.catch_uno =>
            let targetIndex := findPlayerIndex (GameState.players state)
                                 (GameAction.targetPlayerId action) in
            match Js.get (GameState.players state) targetIndex with
            | Some target =>
                if (jlength (Player.hand target) =? 1)
                   && negb (Player.hasCalledUno target) then
                  r <- drawCards state 2 ;;
                  let '(cards, state) := r in
                  state <- liftC (pushToHand state targetIndex cards) ;;
                  ret (Carried, state)
                else ret (Carried, state)
            | None => ret (Carried, state)
            end
        | ActionType.slap =>
            if negb (Phase.eqb (GameState.phase state) Phase.slap_race)
            then ret (Ignored, state)
            else ret (Carried, GameState.with_pendingAction None
                                 (GameState.with_phase Phase.playing state))
        | ActionType.create_custom_rule =>
            if negb (Phase.eqb (GameState.phase state) Phase.custom_rule_creation)
            then ret (Ignored, state)
            else
              id <- World.uuidv4 ;;
              customRule <- liftC (deref (GameAction.customRule action)) ;;
              createdAt <- World.now ;;
              let rule := CustomRule.mk id (RuleDraft.text customRule)
                            (RuleDraft.type customRule) playerId createdAt in
              let state := GameState.with_customRules
                             (GameState.customRules state ++ [rule]) state in
              let state := GameState.with_phase Phase.playing state in
              let state := GameState.with_currentPlayerIndex (nextPlayer state 0) state in
              now <- World.now ;;
              ret (Carried, GameState.with_turnStartTime now state)
        | ActionType.report_speaking =>
            if negb (GameState.silenceMode state) then ret (Ignored, state)
            else
              let targetIndex := findPlayerIndex (GameState.players state)
                                   (GameAction.targetPlayerId action) in
              match Js.get (GameState.players state) targetIndex with
              | Some _ =>
                  r <- drawCards state 1 ;;
                  let '(cards, state) := r in
                  state <- liftC (pushToHand state targetIndex cards) ;;
                  ret (Carried, state)
              | None => ret (Carried, state)
              end
        | ActionType.request_card =>
            if negb (EnabledRules.offerCard config) then ret (Ignored, state)
            else
              match find (fun p => eqOpt (Player.id p) (GameAction.targetPlayerId action))
                      (GameState.players state) with
              | None => ret (Ignored, state)
              | Some target =>
                  if jlength (Player.hand target) =? 0 then ret (Ignored, state)
                  else
                    ret (Carried,
                         GameState.with_pendingAction
                           (Some (PendingAction.mk PendingType.card_request
                                    (GameAction.targetPlayerId action) (Some playerId)
                                    None None None None))
                           (GameState.with_phase Phase.card_request state))
              end
        | ActionType.decline_request =>
            if negb (Phase.eqb (GameState.phase state) Phase.card_request)
            then ret (Ignored, state)
            else
              match GameState.pendingAction state with
              | Some pending =>
                  if negb (eqOpt playerId (PendingAction.targetPlayer pending))
                  then ret (Ignored, state)
                  else ret (Carried, GameState.with_pendingAction None
                                       (GameState.with_phase Phase.playing state))
              | None => ret (Ignored, state)
              end
        | ActionType.offer_card =>
            if negb (Phase.eqb (GameState.phase state) Phase.card_request)
            then ret (Ignored, state)
            else
              match GameState.pendingAction state with
              | Some pending =>
                  if negb (eqOpt playerId (PendingAction.targetPlayer pending))
                  then ret (Ignored, state)
                  else
                    let requesterId := PendingAction.requesterId pending in
                    ret (Carried,
                         GameState.with_pendingAction
                           (Some (PendingAction.mk PendingType.offer_decision
                                    requesterId requesterId None None
                                    (GameAction.cardId action) (Some playerId)))
                           (GameState.with_phase Phase.offering_card state))
              | None => ret (Ignored, state)
              end
        | ActionType.accept_offer =>
            if negb (Phase.eqb (GameState.phase state) Phase.offering_card)
            then ret (Ignored, state)
            else
              match GameState.pendingAction state with
              | None => ret (Ignored, state)
              | Some pending =>
                  let offererIndex := findPlayerIndex (GameState.players state)
                                        (PendingAction.offererId pending) in
                  let targetIndex := findPlayerIndex (GameState.players state)
                                       (PendingAction.targetPlayer pending) in
                  match Js.get (GameState.players state) offererIndex,
                        Js.get (GameState.players state) targetIndex with
                  | Some offerer, Some _ =>
                      cardIndex <- liftC (findIndexC
                                            (GameEngine.hasId
                                               (PendingAction.offeredCardId pending))
                                            (Player.hand offerer)) ;;
                      if cardIndex =? -1 then ret (Ignored, state)
                      else
                        let card := getSlot (Player.hand offerer) cardIndex in
                        let state := GameState.with_players
                                       (Js.set (GameState.players state) offererIndex
                                          (Player.with_hand
                                             (splice1 (Player.hand offerer) cardIndex)
                                             offerer)) state in
                        state <- liftC (pushToHand state targetIndex [card]) ;;
                        ret (Carried, GameState.with_pendingAction None
                                        (GameState.with_phase Phase.playing state))
                  | _, _ => ret (Ignored, state)
                  end
              end
        | ActionType.decline_offer =>
            if negb (Phase.eqb (GameState.phase state) Phase.offering_card)
            then ret (Ignored, state)
            else ret (Carried, GameState.with_pendingAction None
                                 (GameState.with_phase Phase.playing state))
        | ActionType.pass_turn | ActionType.jump_in => ret (Carried, state)
        end
    end.

Definition handleAction (room : Room.t) (action : GameAction.t)
  : M World.t (Exit * Room.t) :=
  match Room.gameState room with
  | None => ret (Ignored, room)
  | Some state =>
      r <- handleGameAction state (Room.config room) action ;;
      ret (fst r, Room.mk (Some (snd r)) (Room.config room))
  end.

(** The card that stands for a hidden one. *)
Definition hidden : Card.t := Card.mk "hidden" Color.wild Value.wild.

(** Get sanitized state for a specific player (hide other hands). *)
Definition getStateForPlayer (state : GameState.t) (playerId : string) : GameState.t :=
  GameState.with_drawPile []
    (GameState.with_players
       (map (fun p =>
               Player.with_hand
                 (if String.eqb (Player.id p) playerId then Player.hand p
                  else map (fun _ => Some hidden) (Player.hand p)) p)
          (GameState.players state))
       state).

Module Member.
(** An entry of [room.players], the lobby's map from player identifier to
    member, in the order in which the members joined. *)
Record t : Type := mk {
  id : string;
  name : string;
  socketId : string;
  ready : bool
}.
End Member.

(** The colour and value of every [cards.push(..)] of the server's
    [createDeck], in the order the pushes happen. *)
Definition deckFaces : list (Color.t * Value.t) :=
  flat_map (fun color =>
      (color, Value.num 0)
      :: flat_map (fun i => [(color, Value.num i); (color, Value.num i)])
                  (map Z.of_nat (seq 1 9))
      ++ flat_map (fun action => [(color, action); (color, action)])
                  [Value.skip; Value.reverse; Value.draw2])
    [Color.red; Color.yellow; Color.green; Color.blue]
  ++ flat_map (fun _ : nat => [(Color.wild, Value.wild); (Color.wild, Value.wild_draw4)])
       (seq 0 4).

(** Create a deck of cards: every push is [{ id: uuidv4(), color, value }];
    the deck is returned shuffled. *)
Definition createDeck : M World.t (list Slot) :=
  cards <- CardDeck.createCards deckFaces ;;
  shuffle (map (@Some Card.t) cards).

(** [initializeGame(room)], from the room's code and its members. *)
Definition initializeGame (code : string) (members : list Member.t)
  : M World.t GameState.t :=
  deck <- createDeck ;;
  (* Deal 7 cards to each player: [deck.splice(0, 7)] *)
  let '(players, deck) :=
    fold_left (fun '(players, deck) member =>
                 (players ++ [Player.mk (Member.id member) (Member.name member)
                                (slice deck 0 7) false true (Member.socketId member)],
                  sliceFrom deck 7))
              members ([], deck) in
  (* Find a valid starting card (not wild, not action) *)
  startCardIndex <- liftC (findIndexC (fun c : Slot =>
      c' <~ deref c ;;
      Normal (negb (Color.eqb (Card.color c') Color.wild)
              && Value.isNumber (Card.value c'))) deck) ;;
  let startCardIndex := if startCardIndex =? -1 then 0 else startCardIndex in
  let startCard := getSlot deck startCardIndex in
  let deck := splice1 deck startCardIndex in
  now <- World.now ;;
  ret (GameState.mk code Phase.playing players 0 1 deck [startCard] None [] false 0
         now None None).

End Server.

(* ===================================================================== *)
(** ** Notions used to state the properties                              *)
(* ===================================================================== *)

Unset Implicit Arguments.

(** A computation that only reads the store. *)
Definition readonly {S A} (c : M S A) : Prop := forall s, snd (c s) = s.

(** Every value that a computation can return satisfies [Q]. *)
Definition yields {S A} (c : M S A) (Q : A -> Prop) : Prop :=
  forall s, match fst (c s) with Normal a => Q a | Throw _ => True end.

(** A verdict is [{ valid: true }] or carries its reason. *)
Definition hasReason (r : ValidationResult.t) : Prop :=
  ValidationResult.valid r = false -> exists reason, r = Invalid reason.

Module EngineFacts.
Import GameEngine.

(** The index that [advanceTurn] moves to. *)
Definition nextIndex (state : GameState.t) : Z :=
  let numPlayers := jlength (GameState.players state) in
  let nextIndex := GameState.currentPlayerIndex state + GameState.direction state in
  let nextIndex := if nextIndex <? 0 then numPlayers - 1 else nextIndex in
  if nextIndex >=? numPlayers then 0 else nextIndex.

(** The state that [advanceTurn] returns when the clock reads [now]. *)
Definition advanced (now : Z) (state : GameState.t) : GameState.t :=
  GameState.with_turnStartTime now
    (GameState.with_currentPlayerIndex (nextIndex state) state).

(** The heap that [advanceTurn] leaves: one more event, one clock reading
    less. *)
Definition afterAdvance (state : GameState.t) (h : Heap) : Heap :=
  mkHeap
    (mk (GameEngine.state (this h))
       (eventBus (this h)
        ++ [Event.turn_changed
              (Js.get (GameState.players state) (GameState.currentPlayerIndex state))
              (Js.get (GameState.players state) (nextIndex state))])
       (config (this h)) (selectedWildColor (this h)))
    (World.mk (World.randoms (world h)) (World.tl (World.clock (world h)))
       (World.uuids (world h))).

Definition clockOf (h : Heap) : Z := World.hd (World.clock (world h)).

End EngineFacts.

(** Two players of the server that an observer cannot tell apart: the
    same public fields, the same hand for the observer itself and a hand
    of the same size for anybody else. *)
Definition samePlayerFor (observer : string) (p q : Server.Player.t) : Prop :=
  Server.Player.id p = Server.Player.id q
  /\ Server.Player.name p = Server.Player.name q
  /\ Server.Player.hasCalledUno p = Server.Player.hasCalledUno q
  /\ Server.Player.isConnected p = Server.Player.isConnected q
  /\ Server.Player.socketId p = Server.Player.socketId q
  /\ (if String.eqb (Server.Player.id p) observer
      then Server.Player.hand p = Server.Player.hand q
      else List.length (Server.Player.hand p) = List.length (Server.Player.hand q)).

(** Two server states that differ at most in the draw pile and in the
    cards that players other than the observer hold. *)
Definition sameStateFor (observer : string) (s t : Server.GameState.t) : Prop :=
  Server.GameState.id s = Server.GameState.id t
  /\ Server.GameState.phase s = Server.GameState.phase t
  /\ Forall2 (samePlayerFor observer)
       (Server.GameState.players s) (Server.GameState.players t)
  /\ Server.GameState.currentPlayerIndex s = Server.GameState.currentPlayerIndex t
  /\ Server.GameState.direction s = Server.GameState.direction t
  /\ Server.GameState.discardPile s = Server.GameState.discardPile t
  /\ Server.GameState.pendingAction s = Server.GameState.pendingAction t
  /\ Server.GameState.customRules s = Server.GameState.customRules t
  /\ Server.GameState.silenceMode s = Server.GameState.silenceMode t
  /\ Server.GameState.stackedDrawAmount s = Server.GameState.stackedDrawAmount t
  /\ Server.GameState.turnStartTime s = Server.GameState.turnStartTime t
  /\ Server.GameState.winner s = Server.GameState.winner t
  /\ Server.GameState.selectedWildColor s = Server.GameState.selectedWildColor t.

(** The cards of a state, wherever they lie, and how many they are. *)
Definition allCards (s : GameState.t) : list Slot :=
  GameState.drawPile s ++ GameState.discardPile s
  ++ flat_map Player.hand (GameState.players s).

Definition cardCount (s : GameState.t) : nat := List.length (allCards s).

(** The identifiers of the cards of an array; [None] for [undefined]. *)
Definition idsOf (l : list Slot) : list (option string) :=
  map (option_map Card.id) l.

(** No identifier occurs twice. *)
Fixpoint distinct (l : list (option string)) : bool :=
  match l with
  | [] => true
  | x :: t => negb (existsb (eqOpt2 x) t) && distinct t
  end.

(** [dispatch] of several actions, one after the other. *)
Fixpoint dispatchAll (actions : list GameAction.t) : GameEngine.E unit :=
  match actions with
  | [] => ret tt
  | a :: rest => GameEngine.dispatch a ;;; dispatchAll rest
  end.

(** A session: a new engine, then the actions. *)
Definition session (config : GameConfig.t) (actions : list GameAction.t)
  : M World.t GameEngine.t :=
  fun w => match GameEngine.create config w with
           | (Normal e, w1) =>
               match dispatchAll actions (GameEngine.mkHeap e w1) with
               | (Normal _, h) => (Normal (GameEngine.this h), GameEngine.world h)
               | (Throw x, h) => (Throw x, GameEngine.world h)
               end
           | (Throw x, w1) => (Throw x, w1)
           end.

(** [Event.action_rejected] or not. *)
Definition isRejection (e : Event.t) : bool :=
  match e with
  | Event.action_rejected _ _ => true
  | _ => false
  end.

Module Obs.
(** What the two copies of the game are compared on. *)
Record t : Type := mk {
  phase : Phase.t;
  currentPlayerIndex : Z;
  direction : Z;
  hands : list (list Slot);
  drawPile : list Slot;
  discardPile : list Slot;
  stackedDrawAmount : Z
}.
End Obs.

Definition observeClient (s : GameState.t) : Obs.t :=
  Obs.mk (GameState.phase s) (GameState.currentPlayerIndex s) (GameState.direction s)
    (map Player.hand (GameState.players s)) (GameState.drawPile s)
    (GameState.discardPile s) (GameState.stackedDrawAmount s).

Definition observeServer (s : Server.GameState.t) : Obs.t :=
  Obs.mk (Server.GameState.phase s) (Server.GameState.currentPlayerIndex s)
    (Server.GameState.direction s)
    (map Server.Player.hand (Server.GameState.players s)) (Server.GameState.drawPile s)
    (Server.GameState.discardPile s) (Server.GameState.stackedDrawAmount s).

(** The client engine and the server state show the same game: the same
    observation, the same players in the same seats, the same chosen wild
    colour and the same rule switches. *)
Definition mirrors (h : GameEngine.Heap) (state : Server.GameState.t)
  (rules : EnabledRules.t) : Prop :=
  observeClient (GameEngine.state (GameEngine.this h)) = observeServer state
  /\ map Player.id (GameState.players (GameEngine.state (GameEngine.this h)))
     = map Server.Player.id (Server.GameState.players state)
  /\ GameEngine.selectedWildColor (GameEngine.this h)
     = Server.GameState.selectedWildColor state
  /\ GameConfig.enabledRules (GameEngine.config (GameEngine.this h)) = rules.

Module Examples.

(** Identifiers ["u0"], ["u1"], ... *)
Definition uid (k : nat) : string := "u" ++ NilEmpty.string_of_uint (Nat.to_uint k).

(** A world in which the first shuffle only exchanges the first card of
    the new deck with its first wild card: of the 107 draws of the loop,
    the one for position 100 answers 0 and every other one answers its own
    position. *)
Definition world : World.t :=
  World.mk (fun k => if (k =? 7)%nat then 0%nat else (107 - k)%nat)
           (fun k => Z.of_nat k) uid.

Definition allRules : EnabledRules.t :=
  EnabledRules.mk true true true true true true true true.

Definition noRules : EnabledRules.t :=
  EnabledRules.mk false false false false false false false false.

(** Two players, the second one scripted; their identifiers come out as
    ["u108"] and ["u109"]. *)
Definition config : GameConfig.t := GameConfig.mk 2 ["A"; "B"] allRules (Some easy).

Definition act (type : ActionType.t) (playerId : string) (cardId targetPlayerId : option string)
  (wildColor : option Color.t) : GameAction.t :=
  GameAction.mk type playerId cardId targetPlayerId wildColor None None.

(** A asks B for a card; B offers her red 4; A plays a red 1; B plays the
    red 4 that she has on offer; A accepts the offer. *)
Definition offerThenPlay : list GameAction.t :=
  [ act ActionType.request_card "u108" None (Some "u109") None;
    act ActionType.offer_card "u109" (Some "u7") None None;
    act ActionType.play_card "u108" (Some "u1") None None;
    act ActionType.play_card "u109" (Some "u7") None None;
    act ActionType.accept_offer "u108" None None None ].

(** A plays her wild card and chooses blue. *)
Definition wildBlue : list GameAction.t :=
  [ act ActionType.play_card "u108" (Some "u100") None (Some Color.blue) ].

(** A small table: two players, five cards to draw, a red 5 on top. *)
Definition rD : Card.t := Card.mk "rD" Color.red Value.draw2.
Definition r1 : Card.t := Card.mk "r1" Color.red (Value.num 1).
Definition bD : Card.t := Card.mk "bD" Color.blue Value.draw2.
Definition b3 : Card.t := Card.mk "b3" Color.blue (Value.num 3).
Definition r5 : Card.t := Card.mk "r5" Color.red (Value.num 5).
Definition g7 : Card.t := Card.mk "g7" Color.green (Value.num 7).
Definition y9 : Card.t := Card.mk "y9" Color.yellow (Value.num 9).
Definition g1 : Card.t := Card.mk "g1" Color.green (Value.num 1).
Definition y2 : Card.t := Card.mk "y2" Color.yellow (Value.num 2).
Definition b8 : Card.t := Card.mk "b8" Color.blue (Value.num 8).

Definition alice : Player.t :=
  Player.mk "alice" "Alice" [Some rD; Some r1] false true human None.
Definition bob : Player.t :=
  Player.mk "bob" "Bob" [Some bD; Some b3] false true human None.

Definition table (drawPile : list Slot) : GameState.t :=
  GameState.mk "table" Phase.playing [alice; bob] 0 1 drawPile [Some r5] None [] false 0 0
    None None.

Definition heapOf (state : GameState.t) (rules : EnabledRules.t) : GameEngine.Heap :=
  GameEngine.mkHeap
    (GameEngine.mk state [] (GameConfig.mk 2 ["Alice"; "Bob"] rules None) None)
    world.

Definition fullPile : list Slot := [Some g7; Some y9; Some g1; Some y2; Some b8].

(** The same table on the server. *)
Definition serverTable (drawPile : list Slot) : Server.GameState.t :=
  Server.GameState.mk "table" Phase.playing
    [ Server.Player.mk "alice" "Alice" [Some rD; Some r1] false true "socket-a";
      Server.Player.mk "bob" "Bob" [Some bD; Some b3] false true "socket-b" ]
    0 1 drawPile [Some r5] None [] false 0 0 None None.

(** Four players at a table, none of them holding more than one card
    kind that matters: the first one holds a skip and a reverse. *)
Definition rS : Card.t := Card.mk "rS" Color.red Value.skip.
Definition rR : Card.t := Card.mk "rR" Color.red Value.reverse.

Definition seat (id : string) (hand : list Slot) : Player.t :=
  Player.mk id id hand false true human None.

Definition table4 : GameState.t :=
  GameState.mk "table4" Phase.playing
    [ seat "north" [Some rS; Some rR; Some r1]; seat "east" [Some b3];
      seat "south" [Some g7]; seat "west" [Some y9] ]
    0 1 fullPile [Some r5] None [] false 0 0 None None.

Definition table2 : GameState.t :=
  GameState.mk "table2" Phase.playing
    [ seat "north" [Some rS; Some rR; Some r1]; seat "east" [Some b3] ]
    0 1 fullPile [Some r5] None [] false 0 0 None None.

(** A table at which the player to move holds a wild card. *)
Definition wW : Card.t := Card.mk "wW" Color.wild Value.wild.


Definition serverSeat (id : string) (hand : list Slot) : Server.Player.t :=
  Server.Player.mk id id hand false true "socket".

Definition serverWildTable (phase : Phase.t) (aliceHand discardPile : list Slot)
  : Server.GameState.t :=
  Server.GameState.mk "wild" phase
    [ serverSeat "alice" aliceHand; serverSeat "bob" [Some bD; Some b3] ]
    0 1 fullPile discardPile None [] false 0 0 None None.

(** The server's table with other cards in Bob's hand and in the draw
    pile. *)
Definition serverTableOther : Server.GameState.t :=
  Server.GameState.mk "table" Phase.playing
    [ Server.Player.mk "alice" "Alice" [Some rD; Some r1] false true "socket-a";
      Server.Player.mk "bob" "Bob" [Some g1; Some y2] false true "socket-b" ]
    0 1 [Some bD; Some b3] [Some r5] None [] false 0 0 None None.

Definition drawByAlice : GameAction.t := act ActionType.draw_card "alice" None None None.
Definition drawByBob : GameAction.t := act ActionType.draw_card "bob" None None None.


(** Alice plays her wild card and names no colour; then she names blue. *)
Definition playWild : GameAction.t := act ActionType.play_card "alice" (Some "wW") None None.
Definition selectBlue : GameAction.t :=
  act ActionType.select_color "alice" None None (Some Color.blue).


(** Alice plays her red 1. *)
Definition playRedOne : GameAction.t := act ActionType.play_card "alice" (Some "r1") None None.

(** North plays her reverse; Alice plays her draw-two. *)
Definition playReverse : GameAction.t := act ActionType.play_card "north" (Some "rR") None None.
Definition playDrawTwo : GameAction.t := act ActionType.play_card "alice" (Some "rD") None None.

(** The server's copy of a client state: the same table, seat by seat. *)
Definition serverOf (state : GameState.t) (selected : option Color.t) : Server.GameState.t :=
  Server.GameState.mk (GameState.id state) (GameState.phase state)
    (map (fun p => Server.Player.mk (Player.id p) (Player.name p) (Player.hand p)
                     (Player.hasCalledUno p) (Player.isConnected p) "socket")
       (GameState.players state))
    (GameState.currentPlayerIndex state) (GameState.direction state)
    (GameState.drawPile state) (GameState.discardPile state)
    (GameState.pendingAction state) (GameState.customRules state)
    (GameState.silenceMode state) (GameState.stackedDrawAmount state)
    (GameState.turnStartTime state) (GameState.winner state) selected.

(** The identifiers of the cards that the players hold. *)
Definition handIds (players : list Player.t) : list (list (option string)) :=
  map (fun p => map (option_map Card.id) (Player.hand p)) players.

End Examples.

(** The test that [getValidMoves] applies to a card of the hand, given the
    top card [top], the engine's chosen wild colour, the pending penalty
    and the [stackDraw] switch. *)
Definition legalNow (top : Card.t) (selected : option Color.t) (stacked : Z)
  (stackDraw : bool) (card : Card.t) : bool :=
  if (stacked >? 0) && stackDraw then
    if Value.eqb (Card.value top) Value.draw2
    then Value.eqb (Card.value card) Value.draw2
    else if Value.eqb (Card.value top) Value.wild_draw4
         then Value.eqb (Card.value card) Value.wild_draw4
         else false
  else
    Color.eqb (Card.color card) Color.wild
    || Color.eqb (Card.color card)
         (if Color.eqb (Card.color top) Color.wild
          then match selected with Some c => c | None => Color.red end
          else Card.color top)
    || Value.eqb (Card.value card) (Card.value top).


(** The play of the card [card] by the player [player]. *)
Definition playOf (player : Player.t) (card : Card.t) : GameAction.t :=
  GameAction.mk ActionType.play_card (Player.id player) (Some (Card.id card))
    None None None None.

(** The player once a card has left the hand, [rest] being what is left. *)
Definition afterPlaying (rest : list Card.t) (player : Player.t) : Player.t :=
  Player.with_hasCalledUno false (Player.with_hand (map Some rest) player).

(* ===================================================================== *)
(** ** Notions used to state further properties of the code              *)
(* ===================================================================== *)

(** The computation [c], started in [s], returns normally, and its value
    and final store satisfy [Q]. *)
Definition returns {S A} (c : M S A) (s : S) (Q : A -> S -> Prop) : Prop :=
  exists a s', c s = (Normal a, s') /\ Q a s'.

(** How many cards of a list show a given colour and value. *)
Definition countFace (cards : list Card.t) (color : Color.t) (value : Value.t) : nat :=
  List.length
    (filter (fun c => Color.eqb (Card.color c) color && Value.eqb (Card.value c) value)
       cards).

(** The colour and value printed on a card. *)
Definition faceOf (c : Card.t) : Color.t * Value.t := (Card.color c, Card.value c).

(** The test of [createInitialState] for the first card of the discard
    pile: [card.color !== 'wild' && typeof card.value === 'number']. *)
Definition startable (c : Card.t) : bool :=
  negb (Color.eqb (Card.color c) Color.wild) && Value.isNumber (Card.value c).

(** No element of the array is [undefined]. *)
Definition defined (l : list Slot) : Prop := Forall (fun x => x <> None) l.

(** A table at which a game can go on: at least two players with
    distinct identifiers, the turn at one of them, a direction of [1] or
    [-1], no negative penalty, a card on the discard pile, and no
    [undefined] in a pile or a hand. *)
Definition wellFormed (s : GameState.t) : Prop :=
  NoDup (map Player.id (GameState.players s))
  /\ 2 <= jlength (GameState.players s)
  /\ 0 <= GameState.currentPlayerIndex s < jlength (GameState.players s)
  /\ (GameState.direction s = 1 \/ GameState.direction s = -1)
  /\ 0 <= GameState.stackedDrawAmount s
  /\ defined (GameState.drawPile s)
  /\ defined (GameState.discardPile s)
  /\ GameState.discardPile s <> []
  /\ Forall (fun p => defined (Player.hand p)) (GameState.players s).

(** The same cards, wherever they lie. *)
Definition sameCards (s s' : GameState.t) : Prop :=
  Permutation (allCards s) (allCards s').

(** What of the engine an action handler leaves alone: the state object
    that it was given, the configuration. *)
Definition sameEngine (h h' : GameEngine.Heap) : Prop :=
  GameEngine.state (GameEngine.this h') = GameEngine.state (GameEngine.this h)
  /\ GameEngine.config (GameEngine.this h') = GameEngine.config (GameEngine.this h).

(** What [applyCardEffects] guarantees of the state and the engine that
    it leaves. *)
Definition effectsPost (s : GameState.t) (h : GameEngine.Heap)
  (s' : GameState.t) (h' : GameEngine.Heap) : Prop :=
  wellFormed s' /\ sameCards s s' /\ sameEngine h h'
  /\ GameEngine.selectedWildColor (GameEngine.this h')
     = GameEngine.selectedWildColor (GameEngine.this h).

(** What an action handler guarantees. *)
Definition handlerPost (s : GameState.t) (h : GameEngine.Heap)
  (s' : GameState.t) (h' : GameEngine.Heap) : Prop :=
  wellFormed s' /\ sameCards s s' /\ sameEngine h h'.

(** Whether it returns or throws, the computation leaves the engine's
    state object and configuration alone, and a value that it returns
    satisfies [Q]. *)
Definition safely {A} (c : GameEngine.E A) (h : GameEngine.Heap) (Q : A -> Prop) : Prop :=
  sameEngine h (snd (c h))
  /\ match fst (c h) with
     | Normal a => Q a
     | Throw _ => True
     end.

(** What a forced draw guarantees: a table at which the game can go on,
    the same cards, and the turn, direction and penalty as they were. *)
Definition drawPost (s s' : GameState.t) : Prop :=
  wellFormed s' /\ sameCards s s'
  /\ GameState.currentPlayerIndex s' = GameState.currentPlayerIndex s
  /\ GameState.direction s' = GameState.direction s
  /\ GameState.stackedDrawAmount s' = GameState.stackedDrawAmount s.

(** What one step of the game guarantees. *)
Definition stepPost (s s' : GameState.t) : Prop := wellFormed s' /\ sameCards s s'.

(** A computation that returns normally from every store. *)
Definition alwaysReturns {S A} (c : M S A) : Prop :=
  forall s, exists a s', c s = (Normal a, s').

(** More actions at the small table. *)
Module MoreExamples.
Definition reportCarol : GameAction.t :=
  Examples.act ActionType.report_speaking "alice" None (Some "carol") None.
Definition jumpWithNothing : GameAction.t :=
  Examples.act ActionType.jump_in "bob" (Some "zz") None None.
Definition silentTable : GameState.t :=
  GameState.with_silenceMode true (Examples.table Examples.fullPile).
(** Bob is down to his blue 3; it is Alice's turn, on a red 5. *)
Definition lastCardTable : GameState.t :=
  GameState.with_players
    [Examples.alice; Player.with_hand [Some Examples.b3] Examples.bob]
    (Examples.table Examples.fullPile).
Definition jumpBlueThree : GameAction.t :=
  Examples.act ActionType.jump_in "bob" (Some "b3") None None.
Definition passByBob : GameAction.t :=
  Examples.act ActionType.pass_turn "bob" None None None.
(** Alice has called UNO with her two cards. *)
Definition calledTable : GameState.t :=
  GameState.with_players
    [Player.with_hasCalledUno true Examples.alice; Examples.bob]
    (Examples.table Examples.fullPile).
Definition catchAlice : GameAction.t :=
  Examples.act ActionType.catch_uno "bob" None (Some "alice") None.
(** The small table during a slap race, and two slaps: Bob's at 5, Alice's
    at 10. *)
Definition slapTable : GameState.t :=
  GameState.with_phase Phase.slap_race (Examples.table Examples.fullPile).
Definition slaps : list GameEngine.SlapResult.t :=
  [GameEngine.SlapResult.mk "alice" 10; GameEngine.SlapResult.mk "bob" 5].
End MoreExamples.

(** A double that holds a number between two integers, ends included. *)
Definition valueWithin (lo hi : Z) (x : Float64.t) : Prop :=
  exists q : Q, Float64.toQ x = Some q /\ (inject_Z lo <= q <= inject_Z hi)%Q.

(** A [slap] decided at time [now] by an opponent whose base delay is
    [base]: the delay is between [base] and [base + 500], and the time
    stamp between [now + base] and [now + base + 500]. *)
Definition slapWithin (self : AIPlayer.t) (base now : Z) (d : AIDecision.t) : Prop :=
  GameAction.type (AIDecision.action d) = ActionType.slap
  /\ GameAction.playerId (AIDecision.action d) = AIPlayer.id self
  /\ valueWithin base (base + 500) (AIDecision.delay d)
  /\ exists stamp, GameAction.timestamp (AIDecision.action d) = Some stamp
                   /\ valueWithin (now + base) (now + base + 500) stamp.


(** A decision of the opponent that concerns only itself: its own
    identifier, no target, one of the four kinds of action that it knows,
    and a delay of two seconds at most. *)
Definition ownDecision (self : AIPlayer.t) (r : option AIDecision.t) : Prop :=
  match r with
  | None => True
  | Some d =>
      GameAction.playerId (AIDecision.action d) = AIPlayer.id self
      /\ GameAction.targetPlayerId (AIDecision.action d) = None
      /\ (GameAction.type (AIDecision.action d) = ActionType.play_card
          \/ GameAction.type (AIDecision.action d) = ActionType.draw_card
          \/ GameAction.type (AIDecision.action d) = ActionType.slap
          \/ GameAction.type (AIDecision.action d) = ActionType.create_custom_rule)
      /\ valueWithin 0 2000 (AIDecision.delay d)
  end.

(** The players of [s'] are those of [s], seat by seat, but for the one at
    index [j], who keeps the identifier. *)
Definition sameSeatsBut (j : Z) (s s' : GameState.t) : Prop :=
  map Player.id (GameState.players s') = map Player.id (GameState.players s)
  /\ forall k, k <> j -> Js.get (GameState.players s') k = Js.get (GameState.players s) k.

(** ** The server's table *)

(** The cards of a server state, wherever they lie. *)
Definition serverCards (s : Server.GameState.t) : list Slot :=
  Server.GameState.drawPile s ++ Server.GameState.discardPile s
  ++ flat_map Server.Player.hand (Server.GameState.players s).

(** A server state at which a game can go on: the turn at one of the
    players, a direction of [1] or [-1], a card on the discard pile, and
    no [undefined] in a pile or a hand. *)
Definition serverWellFormed (s : Server.GameState.t) : Prop :=
  0 <= Server.GameState.currentPlayerIndex s < jlength (Server.GameState.players s)
  /\ (Server.GameState.direction s = 1 \/ Server.GameState.direction s = -1)
  /\ defined (Server.GameState.drawPile s)
  /\ defined (Server.GameState.discardPile s)
  /\ Server.GameState.discardPile s <> []
  /\ Forall (fun p => defined (Server.Player.hand p)) (Server.GameState.players s).

(** [handleAction] for several actions, one after the other. *)
Fixpoint handleActions (room : Server.Room.t) (actions : list GameAction.t)
  : M World.t Server.Room.t :=
  match actions with
  | [] => ret room
  | a :: rest => r <- Server.handleAction room a ;; handleActions (snd r) rest
  end.

(** An action that carries what the server reads from it: a
    [create_custom_rule] comes with its rule. *)
Definition wellFormedAction (a : GameAction.t) : Prop :=
  GameAction.type a = ActionType.create_custom_rule -> GameAction.customRule a <> None.

(** What a step of the server guarantees of the state that it leaves. *)
Definition serverPost (s s' : Server.GameState.t) : Prop :=
  serverWellFormed s' /\ Permutation (serverCards s) (serverCards s').

(** What [applyCardEffects] and the draws leave alone. *)
Definition serverKeeps (s s' : Server.GameState.t) : Prop :=
  last (Server.GameState.discardPile s') None = last (Server.GameState.discardPile s) None
  /\ Server.GameState.winner s' = Server.GameState.winner s
  /\ Server.GameState.selectedWildColor s' = Server.GameState.selectedWildColor s
  /\ Server.GameState.stackedDrawAmount s <= Server.GameState.stackedDrawAmount s'.


Module ServerExamples.
(** The small table in a room of the server, every rule on. *)
Definition room : Server.Room.t :=
  Server.Room.mk (Some (Examples.serverTable Examples.fullPile)) Examples.allRules.
(** Alice asks Bob for a card, Bob offers his blue 3, Alice accepts. *)
Definition offerAccepted : list GameAction.t :=
  [ Examples.act ActionType.request_card "alice" None (Some "bob") None;
    Examples.act ActionType.offer_card "bob" (Some "b3") None None;
    Examples.act ActionType.accept_offer "alice" None None None ].
(** A penalty of two is pending on a red draw-two; Alice holds a green 7
    and a yellow 9. *)
Definition penaltyTable : Server.GameState.t :=
  Server.GameState.mk "penalty" Phase.playing
    [ Examples.serverSeat "alice" [Some Examples.g7; Some Examples.y9];
      Examples.serverSeat "bob" [Some Examples.bD; Some Examples.b3] ]
    0 1 [Some Examples.g1; Some Examples.y2; Some Examples.b8] [Some Examples.rD]
    None [] false 2 0 None None.
Definition playGreenSeven : GameAction.t :=
  Examples.act ActionType.play_card "alice" (Some "g7") None None.
End ServerExamples.

Module LobbyExamples.
(** Two members of a room, in the order in which they joined. *)
Definition members : list Server.Member.t :=
  [ Server.Member.mk "p1" "A" "socket-a" true;
    Server.Member.mk "p2" "B" "socket-b" true ].
End LobbyExamples.

Module JumpExamples.
(** Three players; it is Alice's turn on a green 7, and Carol holds the
    other green 7. *)
Definition g7' : Card.t := Card.mk "g7b" Color.green (Value.num 7).
Definition carol : Player.t := Examples.seat "carol" [Some g7'; Some Examples.b8].
Definition table : GameState.t :=
  GameState.mk "jump" Phase.playing
    [Examples.alice; Examples.bob; carol] 0 1
    [Some Examples.y9; Some Examples.g1; Some Examples.y2] [Some Examples.g7]
    None [] false 0 0 None None.
End JumpExamples.

(* ===================================================================== *)
(** ** Basic facts                                                       *)
(* ===================================================================== *)

Lemma color_eqb_eq a b : Color.eqb a b = true <-> a = b.
Proof. destruct a, b; cbn; split; congruence. Qed.


Lemma bind_run {S A B} (c : M S A) (k : A -> M S B) s a s' :
  c s = (Normal a, s') -> bind c k s = k a s'.
Proof. intros H. unfold bind. rewrite H. reflexivity. Qed.

Lemma bind_throw {S A B} (c : M S A) (k : A -> M S B) s e s' :
  c s = (Throw e, s') -> bind c k s = (Throw e, s').
Proof. intros H. unfold bind. rewrite H. reflexivity. Qed.

Lemma liftW_run {A} (c : M World.t A) h a w :
  c (GameEngine.world h) = (Normal a, w) ->
  GameEngine.liftW c h = (Normal a, GameEngine.mkHeap (GameEngine.this h) w).
Proof. intros H. unfold GameEngine.liftW. rewrite H. reflexivity. Qed.

Lemma readonly_ret {S A} (a : A) : readonly (@ret S A a).
Proof. intros s. reflexivity. Qed.

Lemma readonly_gets {S A} (f : S -> A) : readonly (gets f).
Proof. intros s. reflexivity. Qed.

Lemma readonly_liftC {S A} (c : Completion A) : readonly (@liftC S A c).
Proof. intros s. reflexivity. Qed.

Lemma readonly_bind {S A B} (c : M S A) (k : A -> M S B) :
  readonly c -> (forall a, readonly (k a)) -> readonly (bind c k).
Proof.
  intros Hc Hk s. unfold bind. specialize (Hc s).
  destruct (c s) as [[a|e] s1]; cbn in *; subst.
  - apply Hk.
  - reflexivity.
Qed.

Ltac readonly_tac :=
  repeat first
    [ apply readonly_ret | apply readonly_gets | apply readonly_liftC
    | apply readonly_bind; [ | intros ? ]
    | match goal with
      | |- readonly (match ?x with _ => _ end) => destruct x
      | |- readonly (if ?x then _ else _) => destruct x
      end ].

Lemma yields_ret {S A} (a : A) (Q : A -> Prop) : Q a -> yields (@ret S A a) Q.
Proof. intros H s. exact H. Qed.

Lemma yields_bind {S A B} (c : M S A) (k : A -> M S B) Q :
  (forall a, yields (k a) Q) -> yields (bind c k) Q.
Proof.
  intros Hk s. unfold bind. destruct (c s) as [[a|e] s1]; cbn.
  - apply Hk.
  - exact I.
Qed.

Ltac yields_tac :=
  repeat first
    [ match goal with |- yields (ret _) _ => apply yields_ret end
    | match goal with |- yields (bind _ _) _ => apply yields_bind; intros ? end
    | match goal with
      | |- yields (match ?x with _ => _ end) _ => destruct x
      | |- yields (if ?x then _ else _) _ => destruct x
      end ].

Section ArrayFacts.
Context {A : Type}.
Implicit Types (l : list A).

Lemma clamp_of_nat (len n : nat) : clamp len (Z.of_nat n) = Nat.min n len.
Proof.
  unfold clamp. destruct (Z.ltb_spec (Z.of_nat n) 0); [lia|].
  rewrite Nat2Z.id. reflexivity.
Qed.

Lemma firstn_min l (n : nat) : firstn (Nat.min n (List.length l)) l = firstn n l.
Proof.
  destruct (Nat.le_gt_cases n (List.length l)).
  - rewrite Nat.min_l by lia. reflexivity.
  - rewrite Nat.min_r by lia. rewrite !firstn_all2 by lia. reflexivity.
Qed.

Lemma skipn_min l (n : nat) : skipn (Nat.min n (List.length l)) l = skipn n l.
Proof.
  destruct (Nat.le_gt_cases n (List.length l)).
  - rewrite Nat.min_l by lia. reflexivity.
  - rewrite Nat.min_r by lia. rewrite !skipn_all2 by lia. reflexivity.
Qed.

Lemma slice_prefix l (n : nat) : slice l 0 (Z.of_nat n) = firstn n l.
Proof.
  unfold slice. rewrite clamp_of_nat.
  change (clamp (List.length l) 0) with (Nat.min 0 (List.length l)).
  rewrite Nat.min_0_l, Nat.sub_0_r. cbn [skipn]. apply firstn_min.
Qed.

Lemma sliceFrom_suffix l (n : nat) : sliceFrom l (Z.of_nat n) = skipn n l.
Proof. unfold sliceFrom. rewrite clamp_of_nat. apply skipn_min. Qed.

Lemma drawCards_eq l (n : nat) :
  CardDeck.drawCards l (Z.of_nat n) = (firstn n l, skipn n l).
Proof. unfold CardDeck.drawCards. rewrite slice_prefix, sliceFrom_suffix. reflexivity. Qed.

Lemma setNth_length l n v : List.length (setNth l n v) = List.length l.
Proof. revert n. induction l; destruct n; cbn; auto. Qed.

Lemma perm_setNth l j x y :
  nth_error l j = Some y -> Permutation (x :: l) (y :: setNth l j x).
Proof.
  revert j. induction l as [|a l IH]; destruct j; cbn; intros H; try discriminate.
  - injection H as ->. apply perm_swap.
  - apply perm_trans with (a :: x :: l); [apply perm_swap|].
    apply perm_trans with (a :: y :: setNth l j x); [|apply perm_swap].
    apply perm_skip. apply IH. exact H.
Qed.

Lemma swap_perm l i j : Permutation l (CardDeck.swap l i j).
Proof.
  unfold CardDeck.swap.
  destruct (nth_error l i) as [x|] eqn:Hi; [|reflexivity].
  destruct (nth_error l j) as [y|] eqn:Hj; [|reflexivity].
  revert i j Hi Hj.
  induction l as [|a l IH]; intros [|i] [|j] Hi Hj; cbn in *; try discriminate.
  - injection Hi as ->. injection Hj as ->. reflexivity.
  - injection Hi as ->. apply perm_setNth. exact Hj.
  - injection Hj as ->. apply perm_setNth. exact Hi.
  - apply perm_skip. apply IH; assumption.
Qed.

(** The shuffle returns a rearrangement of its argument, whatever the
    random numbers. *)
Lemma shuffleLoop_perm n l w :
  exists l' w', CardDeck.shuffleLoop n l w = (Normal l', w') /\ Permutation l l'.
Proof.
  revert l w. induction n as [|n IH]; intros l w.
  - exists l, w. split; reflexivity.
  - cbn [CardDeck.shuffleLoop]. unfold bind, World.randomBelow.
    match goal with |- context [CardDeck.shuffleLoop n ?l1 ?w1] =>
      destruct (IH l1 w1) as (l' & w' & Hrun & Hperm) end.
    exists l', w'. split; [exact Hrun|].
    eapply perm_trans; [apply swap_perm|exact Hperm].
Qed.

Lemma shuffleDeck_perm l w :
  exists l' w', CardDeck.shuffleDeck l w = (Normal l', w') /\ Permutation l l'.
Proof. apply shuffleLoop_perm. Qed.

Lemma nth_error_setNth_same l n v :
  (n < List.length l)%nat -> nth_error (setNth l n v) n = Some v.
Proof.
  revert n. induction l as [|x l IH]; intros [|n] H; cbn in *; try lia.
  - reflexivity.
  - apply IH. lia.
Qed.

Lemma nth_error_setNth_other l n m v :
  n <> m -> nth_error (setNth l n v) m = nth_error l m.
Proof.
  revert n m. induction l as [|x l IH]; intros [|n] [|m] H; cbn; try reflexivity.
  - congruence.
  - apply IH. congruence.
Qed.

Lemma get_in_range l i x : Js.get l i = Some x -> 0 <= i < jlength l.
Proof.
  unfold Js.get, jlength. destruct (Z.ltb_spec i 0) as [Hneg|Hpos]; [discriminate|].
  intros H. assert (Z.to_nat i < List.length l)%nat; [|lia].
  apply nth_error_Some. congruence.
Qed.

Lemma get_set_same l i x v : Js.get l i = Some x -> Js.get (Js.set l i v) i = Some v.
Proof.
  intros H. pose proof (get_in_range _ _ _ H) as Hr. unfold jlength in Hr.
  unfold Js.get, Js.set. destruct (Z.ltb_spec i 0); [lia|].
  assert (Hlt : (Z.to_nat i < List.length l)%nat) by lia.
  apply Nat.ltb_lt in Hlt. rewrite Hlt. apply Nat.ltb_lt in Hlt.
  apply nth_error_setNth_same. exact Hlt.
Qed.

Lemma get_set_other l i j x v :
  Js.get l i = Some x -> i <> j -> Js.get (Js.set l i v) j = Js.get l j.
Proof.
  intros H Hij. pose proof (get_in_range _ _ _ H) as Hr. unfold jlength in Hr.
  unfold Js.get, Js.set. destruct (Z.ltb_spec i 0); [lia|].
  assert (Hlt : (Z.to_nat i < List.length l)%nat) by lia.
  apply Nat.ltb_lt in Hlt. rewrite Hlt.
  destruct (Z.ltb_spec j 0); [reflexivity|].
  apply nth_error_setNth_other. lia.
Qed.

Lemma set_length l i x v : Js.get l i = Some x -> jlength (Js.set l i v) = jlength l.
Proof.
  intros H. pose proof (get_in_range _ _ _ H) as Hr. unfold jlength in *.
  unfold Js.set. destruct (Z.ltb_spec i 0); [lia|].
  assert (Hlt : (Z.to_nat i < List.length l)%nat) by lia.
  apply Nat.ltb_lt in Hlt. rewrite Hlt. rewrite setNth_length. reflexivity.
Qed.

Lemma map_const_repeat {B} (b : B) l :
  map (fun _ => b) l = repeat b (List.length l).
Proof. induction l; cbn; congruence. Qed.

End ArrayFacts.

Lemma pop_app {A} (l : list (option A)) x : pop (l ++ [x]) = (x, l).
Proof. unfold pop. rewrite rev_app_distr. cbn. rewrite rev_involutive. reflexivity. Qed.

(* ===================================================================== *)
(** ** Validation and dispatch                                           *)
(* ===================================================================== *)

Lemma readonly_validateAction a : readonly (GameEngine.validateAction a).
Proof. unfold GameEngine.validateAction. readonly_tac. Qed.

Lemma validateAction_reason a : yields (GameEngine.validateAction a) hasReason.
Proof.
  unfold GameEngine.validateAction. yields_tac;
    unfold hasReason, Valid, Invalid; cbn; intros; try discriminate; eauto.
Qed.

(** What [dispatch] does with an action that validation turns down. *)
Lemma dispatch_of_rejection (action : GameAction.t) (h : GameEngine.Heap)
    (reason : option string) :
  GameEngine.validateAction action h
  = (Normal (ValidationResult.mk false reason), h) ->
  GameEngine.dispatch action h =
    (Normal (GameEngine.state (GameEngine.this h)),
     GameEngine.mkHeap
       (GameEngine.mk (GameEngine.state (GameEngine.this h))
          (GameEngine.eventBus (GameEngine.this h)
           ++ [Event.action_rejected action reason])
          (GameEngine.config (GameEngine.this h))
          (GameEngine.selectedWildColor (GameEngine.this h)))
       (GameEngine.world h)).
Proof.
  intros Hv. unfold GameEngine.dispatch, bind at 1. rewrite Hv. reflexivity.
Qed.

(** C5 (rejected-action atomicity).  When [validateAction] turns an action
    down, [dispatch] returns the engine's state as it was, changes no field
    of the engine but the event bus, and puts on the bus exactly one event,
    [action_rejected], that carries the action and the reason. *)
Theorem dispatch_rejected_unchanged
    (action : GameAction.t) (h : GameEngine.Heap)
    (verdict : ValidationResult.t) (h1 : GameEngine.Heap) :
  GameEngine.validateAction action h = (Normal verdict, h1) ->
  ValidationResult.valid verdict = false ->
  exists reason,
    verdict = Invalid reason /\
    GameEngine.dispatch action h =
      (Normal (GameEngine.state (GameEngine.this h)),
       GameEngine.mkHeap
         (GameEngine.mk (GameEngine.state (GameEngine.this h))
            (GameEngine.eventBus (GameEngine.this h)
             ++ [Event.action_rejected action (Some reason)])
            (GameEngine.config (GameEngine.this h))
            (GameEngine.selectedWildColor (GameEngine.this h)))
         (GameEngine.world h)).
Proof.
  intros Hv Hinv.
  pose proof (readonly_validateAction action h) as Hro.
  pose proof (validateAction_reason action h) as Hr.
  rewrite Hv in Hro, Hr. cbn in Hro, Hr. subst h1.
  destruct (Hr Hinv) as [reason ->].
  exists reason. split; [reflexivity|].
  apply dispatch_of_rejection. exact Hv.
Qed.

(* ===================================================================== *)
(** ** The effective colour                                              *)
(* ===================================================================== *)

(** C10 (default effective colour of an unchosen wild).  On a top card,
    [getCurrentColor] returns the chosen colour when the card is wild and a
    colour is supplied, [red] when it is wild and none is supplied, and the
    card's own colour otherwise; the opponent computes its legal moves with
    no colour supplied, hence against [red] on a wild top card. *)
Theorem getCurrentColor_default_red :
  (forall (top : Card.t) (selected : option Color.t),
      CardDeck.getCurrentColor (Some top) selected =
      Normal (if Color.eqb (Card.color top) Color.wild
              then match selected with
                   | Some c => c
                   | None => Color.red
                   end
              else Card.color top))
  /\ (forall (state : GameState.t) (player : Player.t),
         AIPlayer.validMovesOf state player =
         (top <~ deref (GameEngine.getTopCardOf state) ;;
          filterC (fun card =>
                     CardDeck.isPlayable card (GameEngine.getTopCardOf state)
                       (if Color.eqb (Card.color top) Color.wild
                        then Color.red else Card.color top))
            (Player.hand player))).
Proof.
  split.
  - intros top selected. unfold CardDeck.getCurrentColor. cbn.
    destruct (Color.eqb (Card.color top) Color.wild), selected; reflexivity.
  - intros state player. unfold AIPlayer.validMovesOf, CardDeck.getCurrentColor.
    destruct (GameEngine.getTopCardOf state) as [top|]; cbn; [|reflexivity].
    destruct (Color.eqb (Card.color top) Color.wild); reflexivity.
Qed.

(* ===================================================================== *)
(** ** Redaction                                                         *)
(* ===================================================================== *)

Lemma redact_players observer ps qs :
  Forall2 (samePlayerFor observer) ps qs ->
  map (fun p => Server.Player.with_hand
                  (if String.eqb (Server.Player.id p) observer then Server.Player.hand p
                   else map (fun _ => Some Server.hidden) (Server.Player.hand p)) p) ps =
  map (fun p => Server.Player.with_hand
                  (if String.eqb (Server.Player.id p) observer then Server.Player.hand p
                   else map (fun _ => Some Server.hidden) (Server.Player.hand p)) p) qs.
Proof.
  induction 1 as [|p q ps qs Hpq _ IH]; cbn; [reflexivity|].
  f_equal; [|exact IH].
  destruct Hpq as (Hid & Hn & Hu & Hc & Hs & Hh).
  destruct p, q; cbn in *; subst. unfold Server.Player.with_hand; cbn.
  destruct (String.eqb id0 observer).
  - subst. reflexivity.
  - rewrite !map_const_repeat, Hh. reflexivity.
Qed.

(** C9 (redaction noninterference).  The snapshot for an observer has an
    empty draw pile, keeps the players' identities, and replaces the hand
    of every player other than the observer by as many copies of the
    placeholder card; two states that differ only in the draw pile and in
    the cards held by players other than the observer (hand sizes being
    equal) have the same snapshot. *)
Theorem redaction_noninterference :
  (forall (state : Server.GameState.t) (observer : string),
      Server.GameState.drawPile (Server.getStateForPlayer state observer) = []
      /\ map Server.Player.id (Server.GameState.players (Server.getStateForPlayer state observer))
         = map Server.Player.id (Server.GameState.players state)
      /\ map Server.Player.hand (Server.GameState.players (Server.getStateForPlayer state observer))
         = map (fun p => if String.eqb (Server.Player.id p) observer then Server.Player.hand p
                         else repeat (Some Server.hidden) (List.length (Server.Player.hand p)))
             (Server.GameState.players state))
  /\ (forall (observer : string) (s t : Server.GameState.t),
         sameStateFor observer s t ->
         Server.getStateForPlayer s observer = Server.getStateForPlayer t observer).
Proof.
  split.
  - intros state observer. split; [reflexivity|]. split.
    + cbn. rewrite map_map. apply map_ext. intros p. reflexivity.
    + cbn. rewrite map_map. apply map_ext. intros p. cbn.
      destruct (String.eqb _ _); [reflexivity|apply map_const_repeat].
  - intros observer s t H.
    destruct H as (H1 & H2 & H3 & H4 & H5 & H6 & H7 & H8 & H9 & H10 & H11 & H12 & H13).
    unfold Server.getStateForPlayer, Server.GameState.with_drawPile, Server.GameState.with_players. cbn.
    rewrite (@redact_players observer _ _ H3).
    destruct s, t; cbn in *; subst. reflexivity.
Qed.

(* ===================================================================== *)
(** ** Turn order                                                        *)
(* ===================================================================== *)

Import EngineFacts.

Lemma advanceTurn_eq state h :
  GameEngine.advanceTurn state h
  = (Normal (advanced (clockOf h) state), afterAdvance state h).
Proof. reflexivity. Qed.

Lemma nextIndex_mod state :
  let n := jlength (GameState.players state) in
  0 <= GameState.currentPlayerIndex state < n ->
  GameState.direction state = 1 \/ GameState.direction state = -1 ->
  nextIndex state =
  (GameState.currentPlayerIndex state + GameState.direction state + n) mod n.
Proof.
  intros n Hc Hd. unfold nextIndex. fold n.
  set (c := GameState.currentPlayerIndex state) in *.
  set (d := GameState.direction state) in *.
  destruct (Z.ltb_spec (c + d) 0).
  - assert (c = 0 /\ d = -1) as [-> ->] by lia.
    destruct (Z.geb_spec (n - 1) n); [lia|].
    replace (0 + -1 + n) with (n - 1) by lia. rewrite Z.mod_small; lia.
  - destruct (Z.geb_spec (c + d) n).
    + assert (c + d = n) by lia.
      replace (c + d + n) with (0 + 2 * n) by lia.
      rewrite Z.mod_add by lia. rewrite Z.mod_small; lia.
    + replace (c + d + n) with (c + d + 1 * n) by lia.
      rewrite Z.mod_add by lia. rewrite Z.mod_small; lia.
Qed.

(** C4 (turn-advance correctness).  With at least two players, the index
    in range and the direction +1 or -1, one advance moves the index to
    [(current + direction + playerCount) mod playerCount]; a skip card
    advances twice (from 0 to 2 with four players and direction +1); a
    reverse card flips the direction and then advances once (to 3 with
    four players from index 0), or twice when there are exactly two
    players, which brings the turn back to the player who played it. *)
Theorem turn_advance_correct :
  (* one advance *)
  (forall (state : GameState.t) (h : GameEngine.Heap),
      let n := jlength (GameState.players state) in
      let cur := GameState.currentPlayerIndex state in
      let dir := GameState.direction state in
      2 <= n -> 0 <= cur < n -> dir = 1 \/ dir = -1 ->
      exists state' h',
        GameEngine.advanceTurn state h = (Normal state', h')
        /\ GameState.currentPlayerIndex state' = (cur + dir + n) mod n
        /\ GameState.direction state' = dir
        /\ GameState.players state' = GameState.players state)
  (* a skip card *)
  /\ (forall (state : GameState.t) (card : Card.t) (playerIndex : Z)
             (h : GameEngine.Heap),
         let n := jlength (GameState.players state) in
         let cur := GameState.currentPlayerIndex state in
         let dir := GameState.direction state in
         2 <= n -> 0 <= cur < n -> dir = 1 \/ dir = -1 ->
         Card.value card = Value.skip ->
         exists state' h',
           GameEngine.applyCardEffects state card playerIndex h = (Normal state', h')
           /\ GameState.currentPlayerIndex state'
              = (((cur + dir + n) mod n) + dir + n) mod n
           /\ GameState.direction state' = dir
           /\ (n = 4 -> cur = 0 -> dir = 1 -> GameState.currentPlayerIndex state' = 2))
  (* a reverse card *)
  /\ (forall (state : GameState.t) (card : Card.t) (playerIndex : Z)
             (h : GameEngine.Heap),
         let n := jlength (GameState.players state) in
         let cur := GameState.currentPlayerIndex state in
         let dir := GameState.direction state in
         2 <= n -> 0 <= cur < n -> dir = 1 \/ dir = -1 ->
         Card.value card = Value.reverse ->
         exists state' h',
           GameEngine.applyCardEffects state card playerIndex h = (Normal state', h')
           /\ GameState.direction state' = - dir
           /\ (n <> 2 ->
               GameState.currentPlayerIndex state' = (cur + - dir + n) mod n)
           /\ (n = 4 -> cur = 0 -> dir = 1 -> GameState.currentPlayerIndex state' = 3)
           /\ (n = 2 ->
               GameState.currentPlayerIndex state'
               = (((cur + - dir + n) mod n) + - dir + n) mod n
               /\ GameState.currentPlayerIndex state' = cur)).
Proof.
  split; [|split].
  - intros state h n cur dir Hn Hc Hd.
    rewrite advanceTurn_eq. do 2 eexists. split; [reflexivity|].
    cbn. split; [|split; reflexivity].
    apply nextIndex_mod; assumption.
  - intros state card playerIndex h n cur dir Hn Hc Hd Hv.
    unfold GameEngine.applyCardEffects.
    unfold bind at 1. cbn [GameEngine.rules gets].
    unfold CardDeck.isDrawCard, CardDeck.isSkipCard. rewrite Hv. cbn [Value.eqb orb].
    unfold bind at 1. rewrite advanceTurn_eq. rewrite advanceTurn_eq.
    do 2 eexists. split; [reflexivity|].
    cbn [advanced GameState.currentPlayerIndex GameState.with_turnStartTime
           GameState.with_currentPlayerIndex GameState.direction].
    assert (H1 : nextIndex state = (cur + dir + n) mod n) by (apply nextIndex_mod; assumption).
    assert (H2 : 0 <= nextIndex state < n) by (rewrite H1; apply Z.mod_pos_bound; lia).
    set (s1 := advanced (clockOf h) state).
    assert (H3 : nextIndex s1 = (nextIndex state + dir + n) mod n).
    { apply (nextIndex_mod s1); cbn; assumption. }
    split; [|split; [reflexivity|]].
    + rewrite H3, H1. reflexivity.
    + intros Hn4 Hc0 Hd1. rewrite H3, H1. fold n cur dir in Hn4, Hc0, Hd1 |- *.
      rewrite Hn4, Hc0, Hd1. reflexivity.
  - intros state card playerIndex h n cur dir Hn Hc Hd Hv.
    unfold GameEngine.applyCardEffects.
    unfold bind at 1. cbn [GameEngine.rules gets].
    unfold CardDeck.isDrawCard, CardDeck.isSkipCard, CardDeck.isReverseCard.
    rewrite Hv. cbn [Value.eqb orb].
    set (s0 := GameState.with_direction (GameState.direction state * -1) state).
    assert (Hd0 : GameState.direction s0 = - dir) by (cbn; fold dir; lia).
    assert (Hd0' : GameState.direction s0 = 1 \/ GameState.direction s0 = -1)
      by (rewrite Hd0; lia).
    assert (H1 : nextIndex s0 = (cur + - dir + n) mod n).
    { rewrite <- Hd0. apply (nextIndex_mod s0); [exact Hc|exact Hd0']. }
    assert (H2 : 0 <= nextIndex s0 < n) by (rewrite H1; apply Z.mod_pos_bound; lia).
    change (jlength (GameState.players s0)) with n.
    destruct (Z.eqb_spec n 2) as [Hn2|Hn2].
    + unfold bind at 1. rewrite advanceTurn_eq. rewrite advanceTurn_eq.
      do 2 eexists. split; [reflexivity|].
      set (s1 := advanced (clockOf h) s0).
      assert (H3 : nextIndex s1 = (nextIndex s0 + - dir + n) mod n).
      { rewrite <- Hd0. apply (nextIndex_mod s1); cbn; assumption. }
      cbn [advanced GameState.currentPlayerIndex GameState.with_turnStartTime
             GameState.with_currentPlayerIndex GameState.direction].
      split; [exact Hd0|]. split; [intros; contradiction|]. split; [intros; lia|].
      intros _. rewrite H3, H1. split; [reflexivity|].
      rewrite Hn2 in *.
      assert (cur = 0 \/ cur = 1) as [-> | ->] by lia;
        destruct Hd as [-> | ->]; reflexivity.
    + rewrite advanceTurn_eq. do 2 eexists. split; [reflexivity|].
      cbn [advanced GameState.currentPlayerIndex GameState.with_turnStartTime
             GameState.with_currentPlayerIndex GameState.direction].
      split; [exact Hd0|]. split; [intros _; exact H1|]. split.
      * intros Hn4 Hc0 Hd1. rewrite H1, Hn4, Hc0, Hd1. reflexivity.
      * intros; contradiction.
Qed.

(* ===================================================================== *)
(** ** Drawing                                                           *)
(* ===================================================================== *)

Lemma forceDrawCards_enough (state : GameState.t) (playerId : string) (n : nat)
    (h : GameEngine.Heap) (player : Player.t) :
  let i := GameEngine.findPlayerIndex (GameState.players state) (Some playerId) in
  Js.get (GameState.players state) i = Some player ->
  (List.length (GameState.drawPile state) >= n)%nat ->
  GameEngine.forceDrawCards state playerId (Z.of_nat n) h =
  (Normal
     (GameState.with_discardPile (GameState.discardPile state)
        (GameState.with_drawPile (skipn n (GameState.drawPile state))
           (GameState.with_players
              (Js.set (GameState.players state) i
                 (Player.with_hand
                    (Player.hand player ++ firstn n (GameState.drawPile state))
                    player))
              state))),
   h).
Proof.
  intros i Hp Hlen.
  unfold GameEngine.forceDrawCards. fold i.
  assert (Hlt : (jlength (GameState.drawPile state) <? Z.of_nat n) = false).
  { apply Z.ltb_ge. unfold jlength. lia. }
  rewrite Hlt. unfold bind at 1. cbn [ret]. rewrite drawCards_eq.
  rewrite Hp. reflexivity.
Qed.

Lemma forceDrawCards_reshuffle (state : GameState.t) (playerId : string) (n : nat)
    (h : GameEngine.Heap) (player : Player.t) (below : list Slot) (top : Slot) :
  let i := GameEngine.findPlayerIndex (GameState.players state) (Some playerId) in
  Js.get (GameState.players state) i = Some player ->
  (List.length (GameState.drawPile state) < n)%nat ->
  GameState.discardPile state = below ++ [top] ->
  exists (pile : list Slot) (w' : World.t),
    Permutation (GameState.drawPile state ++ below) pile
    /\ GameEngine.forceDrawCards state playerId (Z.of_nat n) h =
       (Normal
          (GameState.with_discardPile [top]
             (GameState.with_drawPile (skipn n pile)
                (GameState.with_players
                   (Js.set (GameState.players state) i
                      (Player.with_hand (Player.hand player ++ firstn n pile)
                         player))
                   state))),
        GameEngine.mkHeap (GameEngine.this h) w').
Proof.
  intros i Hp Hlen Hd.
  unfold GameEngine.forceDrawCards. fold i.
  assert (Hlt : (jlength (GameState.drawPile state) <? Z.of_nat n) = true).
  { apply Z.ltb_lt. unfold jlength. lia. }
  rewrite Hlt, Hd, pop_app.
  destruct (shuffleDeck_perm (GameState.drawPile state ++ below) (GameEngine.world h))
    as (pile & w' & Hrun & Hperm).
  exists pile, w'. split; [exact Hperm|].
  unfold bind at 1. unfold bind at 1. rewrite (liftW_run _ _ _ _ Hrun).
  cbn [ret]. rewrite drawCards_eq. rewrite Hp. reflexivity.
Qed.

(** C8, as amended (insufficient cards).  [drawCards] returns the first
    [n] cards of the pile, all of them when fewer remain, and cannot fail.
    [forceDrawCards] leaves the piles alone when the draw pile holds [n]
    cards; otherwise it sets the top of the discard pile aside, shuffles
    the rest of it into the draw pile and keeps the top as the new discard
    pile, and the player then receives the first [n] cards of the new pile:
    [n] of them, or every card there is when fewer than [n] are left. *)
Theorem draw_takes_prefix_and_never_fails :
  (forall (deck : list Slot) (n : nat),
      CardDeck.drawCards deck (Z.of_nat n) = (firstn n deck, skipn n deck)
      /\ List.length (fst (CardDeck.drawCards deck (Z.of_nat n)))
         = Nat.min n (List.length deck))
  /\ (forall (state : GameState.t) (playerId : string) (n : nat) (h : GameEngine.Heap)
             (player : Player.t),
         let i := GameEngine.findPlayerIndex (GameState.players state) (Some playerId) in
         Js.get (GameState.players state) i = Some player ->
         (List.length (GameState.drawPile state) >= n)%nat ->
         GameEngine.forceDrawCards state playerId (Z.of_nat n) h =
         (Normal
            (GameState.with_discardPile (GameState.discardPile state)
               (GameState.with_drawPile (skipn n (GameState.drawPile state))
                  (GameState.with_players
                     (Js.set (GameState.players state) i
                        (Player.with_hand
                           (Player.hand player ++ firstn n (GameState.drawPile state))
                           player))
                     state))),
          h))
  /\ (forall (state : GameState.t) (playerId : string) (n : nat) (h : GameEngine.Heap)
             (player : Player.t) (below : list Slot) (top : Slot),
         let i := GameEngine.findPlayerIndex (GameState.players state) (Some playerId) in
         Js.get (GameState.players state) i = Some player ->
         (List.length (GameState.drawPile state) < n)%nat ->
         GameState.discardPile state = below ++ [top] ->
         exists (pile : list Slot) (h' : GameEngine.Heap),
           Permutation (GameState.drawPile state ++ below) pile
           /\ GameEngine.forceDrawCards state playerId (Z.of_nat n) h =
              (Normal
                 (GameState.with_discardPile [top]
                    (GameState.with_drawPile (skipn n pile)
                       (GameState.with_players
                          (Js.set (GameState.players state) i
                             (Player.with_hand (Player.hand player ++ firstn n pile)
                                player))
                          state))),
               h')
           /\ List.length (firstn n pile)
              = Nat.min n (List.length (GameState.drawPile state) + List.length below)).
Proof.
  split; [|split].
  - intros deck n. rewrite drawCards_eq. split; [reflexivity|]. cbn. apply length_firstn.
  - intros state playerId n h player i Hp Hlen.
    apply forceDrawCards_enough; assumption.
  - intros state playerId n h player below top i Hp Hlen Hd.
    destruct (forceDrawCards_reshuffle state playerId n h player below top Hp Hlen Hd)
      as (pile & w' & Hperm & Hrun).
    exists pile, (GameEngine.mkHeap (GameEngine.this h) w').
    split; [exact Hperm|]. split; [exact Hrun|].
    rewrite length_firstn. rewrite <- (Permutation_length Hperm), length_app. reflexivity.
Qed.

(* ===================================================================== *)
(** ** Deck conservation                                                 *)
(* ===================================================================== *)

Lemma eqOpt2_eq a b : eqOpt2 a b = true <-> a = b.
Proof.
  destruct a, b; cbn; split; intros H; try congruence.
  - apply String.eqb_eq in H. congruence.
  - injection H as ->. apply String.eqb_refl.
Qed.

Lemma distinct_NoDup l : distinct l = true -> NoDup l.
Proof.
  induction l as [|x t IH]; cbn; intros H; [constructor|].
  apply andb_prop in H. destruct H as [Hx Ht]. constructor; [|auto].
  intros Hin. apply negb_true_iff in Hx.
  assert (existsb (eqOpt2 x) t = true); [|congruence].
  apply existsb_exists. exists x. split; [exact Hin|]. apply eqOpt2_eq. reflexivity.
Qed.

(** C1 (deck conservation), at an input where the engine breaks it.  The
    deal of a two-player game places 108 cards.  Then A asks B for a
    card, B offers one, both play a card (B the very card on offer) and A
    accepts: no action is rejected, and the state holds 114 cards, B's
    hand twice over but for its last card and [undefined] in A's hand. *)
Theorem accept_offer_breaks_conservation :
  (exists e w,
      GameEngine.create Examples.config Examples.world = (Normal e, w)
      /\ cardCount (GameEngine.state e) = 108%nat
      /\ NoDup (idsOf (allCards (GameEngine.state e))))
  /\ (exists e w,
         session Examples.config Examples.offerThenPlay Examples.world = (Normal e, w)
         /\ filter isRejection (GameEngine.eventBus e) = []
         /\ cardCount (GameEngine.state e) = 114%nat
         /\ map (fun p => idsOf (Player.hand p)) (GameState.players (GameEngine.state e))
            = [ [Some "u100"; Some "u2"; Some "u3"; Some "u4"; Some "u5"; Some "u6";
                 None];
                [Some "u8"; Some "u9"; Some "u10"; Some "u11"; Some "u12";
                 Some "u8"; Some "u9"; Some "u10"; Some "u11"; Some "u12";
                 Some "u13"] ]).
Proof.
  split.
  - eexists. eexists. split; [vm_compute; reflexivity|].
    split; [vm_compute; reflexivity|].
    apply distinct_NoDup. vm_compute. reflexivity.
  - eexists. eexists. split; [vm_compute; reflexivity|].
    repeat split; vm_compute; reflexivity.
Qed.

(* ===================================================================== *)
(** ** The scripted opponent                                             *)
(* ===================================================================== *)

(** On its own turn in phase [playing], the opponent decides by
    [decidePlay]. *)
Lemma makeDecision_playing self state player current chance :
  GameEngine.findPlayer (GameState.players state) (Some (AIPlayer.id self)) = Some player ->
  Js.get (GameState.players state) (GameState.currentPlayerIndex state) = Some current ->
  String.eqb (Player.id current) (AIPlayer.id self) = true ->
  GameState.phase state = Phase.playing ->
  AIPlayer.makeDecision self state chance
  = bind (AIPlayer.decidePlay self state player) (fun d => ret (Some d)) chance.
Proof.
  intros Hp Hc Hid Hph. unfold AIPlayer.makeDecision.
  rewrite Hp. unfold bind at 1. rewrite Hc. cbn [liftC deref].
  rewrite Hid, Hph. reflexivity.
Qed.

(** The thinking delay takes one random number and cannot fail. *)
Lemma getThinkingDelay_run (self : AIPlayer.t) (chance : World.t) :
  exists delay,
    AIPlayer.getThinkingDelay self chance
    = (Normal delay,
       World.mk (World.tl (World.randoms chance)) (World.clock chance)
         (World.uuids chance)).
Proof. eexists. reflexivity. Qed.

(** With no penalty pending, the easy opponent plays the card of its
    legal moves that the random number points at. *)
Lemma decidePlay_easy self state player validMoves chance card :
  AIPlayer.difficulty self = easy ->
  (GameState.stackedDrawAmount state >? 0) = false ->
  AIPlayer.validMovesOf state player = Normal validMoves ->
  validMoves <> [] ->
  getSlot validMoves
    (Z.of_nat (World.hd (World.randoms chance) mod List.length validMoves)%nat)
  = Some card ->
  Color.eqb (Card.color card) Color.wild = false ->
  exists delay chance',
    AIPlayer.decidePlay self state player chance
    = (Normal (AIDecision.mk
                 (GameAction.mk ActionType.play_card (AIPlayer.id self)
                    (Some (Card.id card)) None None None None) delay),
       chance').
Proof.
  intros Hd Hs Hvm Hne Hk Hw. unfold AIPlayer.decidePlay.
  unfold bind at 1. rewrite Hvm. cbn [liftC]. rewrite Hs.
  assert (Hlen : (jlength validMoves =? 0) = false).
  { apply Z.eqb_neq. unfold jlength. destruct validMoves; [congruence|cbn; lia]. }
  rewrite Hlen. unfold AIPlayer.pickBestCard. rewrite Hd.
  unfold bind at 1. unfold bind at 1. unfold World.randomBelow.
  assert (Hn : (List.length validMoves =? 0)%nat = false).
  { apply Nat.eqb_neq. destruct validMoves; [congruence|cbn; lia]. }
  rewrite Hn. cbn [ret]. rewrite Hk.
  unfold AIPlayer.playCardDecision. unfold bind at 1. cbn [liftC deref].
  rewrite Hw. unfold bind at 1. cbn [ret].
  unfold bind. unfold AIPlayer.getThinkingDelay, World.random, bind, ret.
  do 2 eexists. reflexivity.
Qed.

(** C6 (opponent legality), at an input where the opponent breaks it.
    After the deal, A plays her wild card and chooses blue.  It is the
    opponent's turn; its hand is red.  At every difficulty, and whatever
    the random numbers, the opponent decides to play a card, and
    [validateAction] rejects that action. *)
Theorem opponent_proposes_rejected_move :
  exists e w,
    session Examples.config Examples.wildBlue Examples.world = (Normal e, w)
    /\ GameEngine.selectedWildColor e = Some Color.blue
    /\ forall (difficulty : Difficulty) (chance : World.t),
        exists decision chance',
          AIPlayer.makeDecision (AIPlayer.mk "u109" difficulty) (GameEngine.state e) chance
          = (Normal (Some decision), chance')
          /\ GameAction.type (AIDecision.action decision) = ActionType.play_card
          /\ fst (GameEngine.validateAction (AIDecision.action decision)
                    (GameEngine.mkHeap e w))
             = Normal (Invalid "Card cannot be played").
Proof.
  eexists. eexists. split; [vm_compute; reflexivity|].
  split; [reflexivity|].
  match goal with
  | |- forall d c, exists _ _, AIPlayer.makeDecision _ (GameEngine.state ?e) _ = _ /\ _ =>
      set (eng := e)
  end.
  match goal with
  | |- context [GameEngine.mkHeap eng ?w] => set (wld := w)
  end.
  intros difficulty chance.
  destruct difficulty.
  - (* easy: one of seven red cards *)
    pose (bob := nth 1 (GameState.players (GameEngine.state eng))
                   (Player.mk "" "" [] false false human None)).
    pose (self := AIPlayer.mk "u109" easy).
    assert (Hvm : AIPlayer.validMovesOf (GameEngine.state eng) bob
                  = Normal (Player.hand bob)) by (vm_compute; reflexivity).
    assert (Hmd : AIPlayer.makeDecision self (GameEngine.state eng) chance
                  = bind (AIPlayer.decidePlay self (GameEngine.state eng) bob)
                      (fun d => ret (Some d)) chance).
    { apply makeDecision_playing with (current := bob); vm_compute; reflexivity. }
    fold self. rewrite Hmd.
    assert (Hcases : forall k card,
               (k < 7)%nat ->
               getSlot (Player.hand bob) (Z.of_nat k) = Some card ->
               Color.eqb (Card.color card) Color.wild = false
               /\ fst (GameEngine.validateAction
                         (GameAction.mk ActionType.play_card "u109" (Some (Card.id card))
                            None None None None)
                         (GameEngine.mkHeap eng wld))
                  = Normal (Invalid "Card cannot be played")).
    { intros k card Hk Hc.
      do 7 (destruct k as [|k];
            [vm_compute in Hc; injection Hc as <-; split; vm_compute; reflexivity|]).
      lia. }
    assert (Hlen : List.length (Player.hand bob) = 7%nat) by (vm_compute; reflexivity).
    pose proof (Nat.mod_upper_bound (World.hd (World.randoms chance)) 7) as Hlt.
    destruct (getSlot (Player.hand bob)
                (Z.of_nat (World.hd (World.randoms chance) mod 7)%nat)) as [card|] eqn:Hget.
    + destruct (Hcases _ card (Hlt ltac:(lia)) Hget) as [Hw Hrej].
      destruct (decidePlay_easy self (GameEngine.state eng) bob (Player.hand bob) chance card)
        as (delay & chance' & Hrun).
      * reflexivity.
      * vm_compute; reflexivity.
      * exact Hvm.
      * intros Hnil. rewrite Hnil in Hlen. discriminate.
      * rewrite Hlen. exact Hget.
      * exact Hw.
      * unfold bind. rewrite Hrun. do 2 eexists. split; [reflexivity|].
        split; [reflexivity|]. exact Hrej.
    + exfalso. revert Hget.
      generalize (Hlt ltac:(lia)). generalize (World.hd (World.randoms chance) mod 7)%nat.
      intros k Hk.
      do 7 (destruct k as [|k]; [vm_compute; discriminate|]).
      lia.
  - (* medium: the red 7 *)
    lazy -[AIPlayer.getThinkingDelay].
    destruct (getThinkingDelay_run (AIPlayer.mk "u109" medium) chance) as (delay & Hrun).
    rewrite Hrun.
    do 2 eexists. split; [reflexivity|]. split; reflexivity.
  - (* hard: the red 7 *)
    lazy -[AIPlayer.getThinkingDelay].
    destruct (getThinkingDelay_run (AIPlayer.mk "u109" hard) chance) as (delay & Hrun).
    rewrite Hrun.
    do 2 eexists. split; [reflexivity|]. split; reflexivity.
Qed.

(* ===================================================================== *)
(** ** A wild card played without a colour                               *)
(* ===================================================================== *)


Lemma getValidMoves_readonly playerId : readonly (GameEngine.getValidMoves playerId).
Proof. unfold GameEngine.getValidMoves. readonly_tac. Qed.







Lemma splice1_length {A} (hand : list A) (i : Z) :
  0 <= i < jlength hand ->
  List.length (Server.splice1 hand i) = (List.length hand - 1)%nat.
Proof.
  intros Hi. unfold Server.splice1, jlength in *.
  rewrite length_app, length_firstn, length_skipn. lia.
Qed.


(* ===================================================================== *)
(** ** Hands without [undefined], players with distinct identifiers      *)
(* ===================================================================== *)

Section DefinedHands.

Variable cardId : string.

Lemma hasId_defined c :
  GameEngine.hasId (Some cardId) (Some c) = Normal (String.eqb (Card.id c) cardId).
Proof. reflexivity. Qed.

Lemma findC_hasId pre c post :
  (forall x, In x pre -> Card.id x <> cardId) ->
  Card.id c = cardId ->
  findC (GameEngine.hasId (Some cardId)) (map Some (pre ++ c :: post))
  = Normal (Some (Some c)).
Proof.
  intros Hpre Hc. induction pre as [|x pre IH]; cbn.
  - rewrite Hc, String.eqb_refl. reflexivity.
  - assert (Hx : String.eqb (Card.id x) cardId = false).
    { apply String.eqb_neq. apply Hpre. left. reflexivity. }
    rewrite Hx. apply IH. intros y Hy. apply Hpre. right. exact Hy.
Qed.

Lemma findIndexFromC_hasId pre c post k :
  (forall x, In x pre -> Card.id x <> cardId) ->
  Card.id c = cardId ->
  findIndexFromC (GameEngine.hasId (Some cardId)) (map Some (pre ++ c :: post)) k
  = Normal (k + Z.of_nat (List.length pre)).
Proof.
  intros Hpre Hc. revert k. induction pre as [|x pre IH]; intros k; cbn.
  - rewrite Hc, String.eqb_refl. f_equal. lia.
  - assert (Hx : String.eqb (Card.id x) cardId = false).
    { apply String.eqb_neq. apply Hpre. left. reflexivity. }
    rewrite Hx. rewrite IH.
    + f_equal. lia.
    + intros y Hy. apply Hpre. right. exact Hy.
Qed.

Lemma findIndexC_hasId pre c post :
  (forall x, In x pre -> Card.id x <> cardId) ->
  Card.id c = cardId ->
  findIndexC (GameEngine.hasId (Some cardId)) (map Some (pre ++ c :: post))
  = Normal (Z.of_nat (List.length pre)).
Proof. intros. unfold findIndexC. rewrite findIndexFromC_hasId; auto. Qed.

(** A card with the identifier is found among defined cards as soon as
    one of them bears it. *)
Lemma findC_hasId_some cards c :
  In c cards -> Card.id c = cardId ->
  exists x, findC (GameEngine.hasId (Some cardId)) (map Some cards) = Normal (Some x).
Proof.
  intros Hin Hc. induction cards as [|y cards IH]; [destruct Hin|]. cbn.
  destruct (String.eqb (Card.id y) cardId) eqn:Hy.
  - eexists. reflexivity.
  - destruct Hin as [-> | Hin].
    + rewrite Hc, String.eqb_refl in Hy. discriminate.
    + apply IH. exact Hin.
Qed.

End DefinedHands.

Lemma filterC_defined (f : Slot -> Completion bool) (g : Card.t -> bool) cards :
  (forall c, f (Some c) = Normal (g c)) ->
  filterC f (map Some cards) = Normal (map Some (filter g cards)).
Proof.
  intros Hf. induction cards as [|c cards IH]; cbn; [reflexivity|].
  rewrite Hf. cbn. rewrite IH. cbn. destruct (g c); reflexivity.
Qed.

Lemma someC_defined (f : Slot -> Completion bool) (g : Card.t -> bool) cards :
  (forall c, f (Some c) = Normal (g c)) ->
  someC f (map Some cards) = Normal (existsb g cards).
Proof.
  intros Hf. induction cards as [|c cards IH]; cbn; [reflexivity|].
  rewrite Hf. cbn. destruct (g c); [reflexivity|exact IH].
Qed.

Section TakeOut.
Context {A : Type}.

Lemma slice_before (l1 l2 : list A) x :
  slice (l1 ++ x :: l2) 0 (Z.of_nat (List.length l1)) = l1.
Proof.
  rewrite slice_prefix. rewrite firstn_app, Nat.sub_diag, firstn_all. cbn.
  apply app_nil_r.
Qed.

Lemma sliceFrom_after (l1 l2 : list A) x :
  sliceFrom (l1 ++ x :: l2) (Z.of_nat (List.length l1) + 1) = l2.
Proof.
  replace (Z.of_nat (List.length l1) + 1) with (Z.of_nat (S (List.length l1))) by lia.
  rewrite sliceFrom_suffix.
  replace (l1 ++ x :: l2) with ((l1 ++ [x]) ++ l2) by (rewrite <- app_assoc; reflexivity).
  rewrite skipn_app.
  replace (S (List.length l1)) with (List.length (l1 ++ [x]))
    by (rewrite length_app; cbn; lia).
  rewrite skipn_all, Nat.sub_diag. reflexivity.
Qed.

Lemma get_middle (l1 l2 : list A) x :
  Js.get (l1 ++ x :: l2) (Z.of_nat (List.length l1)) = Some x.
Proof.
  unfold Js.get. destruct (Z.ltb_spec (Z.of_nat (List.length l1)) 0); [lia|].
  rewrite Nat2Z.id, nth_error_app2, Nat.sub_diag by lia. reflexivity.
Qed.

Lemma get_last (l : list A) x : Js.get (l ++ [x]) (jlength (l ++ [x]) - 1) = Some x.
Proof.
  unfold jlength. rewrite length_app. cbn [List.length].
  replace (Z.of_nat (List.length l + 1) - 1) with (Z.of_nat (List.length l)) by lia.
  apply get_middle.
Qed.

End TakeOut.

Section DistinctPlayers.

Variable players : list Player.t.
Hypothesis distinctIds : NoDup (map Player.id players).

Lemma findIndexFrom_at (l : list Player.t) (n : nat) p k :
  NoDup (map Player.id l) ->
  nth_error l n = Some p ->
  findIndexFrom (fun q => eqOpt (Player.id q) (Some (Player.id p))) l k
  = k + Z.of_nat n.
Proof.
  revert n k. induction l as [|x l IH]; intros [|n] k Hnd Hn; cbn in *; try discriminate.
  - injection Hn as ->. rewrite String.eqb_refl. lia.
  - inversion Hnd as [|? ? Hnotin Hnd']; subst.
    destruct (String.eqb (Player.id x) (Player.id p)) eqn:Hx.
    + exfalso. apply Hnotin. apply String.eqb_eq in Hx. rewrite Hx.
      apply in_map. eapply nth_error_In. exact Hn.
    + rewrite (IH n (k + 1) Hnd' Hn). lia.
Qed.

Lemma findPlayerIndex_at i p :
  Js.get players i = Some p ->
  GameEngine.findPlayerIndex players (Some (Player.id p)) = i.
Proof.
  intros H. pose proof (get_in_range _ _ _ H) as Hr.
  unfold Js.get in H. destruct (Z.ltb_spec i 0); [lia|].
  unfold GameEngine.findPlayerIndex, findIndex.
  rewrite (findIndexFrom_at players (Z.to_nat i) p 0 distinctIds H). lia.
Qed.

Lemma find_at (l : list Player.t) (n : nat) p :
  NoDup (map Player.id l) ->
  nth_error l n = Some p ->
  find (fun q => eqOpt (Player.id q) (Some (Player.id p))) l = Some p.
Proof.
  revert n. induction l as [|x l IH]; intros [|n] Hnd Hn; cbn in *; try discriminate.
  - injection Hn as ->. rewrite String.eqb_refl. reflexivity.
  - inversion Hnd as [|? ? Hnotin Hnd']; subst.
    destruct (String.eqb (Player.id x) (Player.id p)) eqn:Hx.
    + exfalso. apply Hnotin. apply String.eqb_eq in Hx. rewrite Hx.
      apply in_map. eapply nth_error_In. exact Hn.
    + apply (IH n Hnd' Hn).
Qed.

Lemma findPlayer_at i p :
  Js.get players i = Some p ->
  GameEngine.findPlayer players (Some (Player.id p)) = Some p.
Proof.
  intros H. unfold Js.get in H. destruct (Z.ltb_spec i 0); [discriminate|].
  unfold GameEngine.findPlayer. eapply find_at; eassumption.
Qed.

End DistinctPlayers.

Lemma map_setNth {A B} (f : A -> B) (l : list A) n v :
  map f (setNth l n v) = setNth (map f l) n (f v).
Proof. revert n. induction l; intros [|n]; cbn; congruence. Qed.

Lemma setNth_same {A} (l : list A) n x : nth_error l n = Some x -> setNth l n x = l.
Proof.
  revert n. induction l; intros [|n]; cbn; intros H; try discriminate.
  - congruence.
  - f_equal. auto.
Qed.

(** Replacing a player by one with the same identifier keeps the
    identifiers. *)
Lemma set_keeps_ids (players : list Player.t) i p p' :
  Js.get players i = Some p ->
  Player.id p' = Player.id p ->
  map Player.id (Js.set players i p') = map Player.id players.
Proof.
  intros H Hid. pose proof (get_in_range _ _ _ H) as Hr. unfold jlength in Hr.
  unfold Js.get in H. unfold Js.set. destruct (Z.ltb_spec i 0); [lia|].
  assert (Hlt : (Z.to_nat i < List.length players)%nat) by lia.
  apply Nat.ltb_lt in Hlt. rewrite Hlt.
  rewrite map_setNth. apply setNth_same. rewrite nth_error_map, H. cbn. congruence.
Qed.

(* ===================================================================== *)
(** ** Playing a draw-two under the stacking rule                        *)
(* ===================================================================== *)

Lemma getTopCard_eq h below top :
  GameState.discardPile (GameEngine.state (GameEngine.this h)) = below ++ [Some top] ->
  GameEngine.getTopCard h = (Normal (Some top), h).
Proof.
  intros Hd. unfold GameEngine.getTopCard, bind, GameEngine.thisState, gets, ret.
  unfold GameEngine.getTopCardOf, getSlot. rewrite Hd, get_last. reflexivity.
Qed.

Lemma getValidMoves_defined h (p : Player.t) cards below top :
  let s := GameEngine.state (GameEngine.this h) in
  GameEngine.findPlayer (GameState.players s) (Some (Player.id p)) = Some p ->
  Player.hand p = map Some cards ->
  GameState.discardPile s = below ++ [Some top] ->
  GameEngine.getValidMoves (Player.id p) h
  = (Normal (map Some
               (filter (legalNow top (GameEngine.selectedWildColor (GameEngine.this h))
                          (GameState.stackedDrawAmount s)
                          (EnabledRules.stackDraw
                             (GameConfig.enabledRules
                                (GameEngine.config (GameEngine.this h)))))
                  cards)),
     h).
Proof.
  intros s Hp Hh Hd. unfold GameEngine.getValidMoves.
  unfold bind at 1. cbn [GameEngine.thisState gets]. fold s. rewrite Hp.
  unfold bind at 1. rewrite (getTopCard_eq h below top Hd).
  unfold bind at 1. unfold GameEngine.getCurrentColor.
  unfold bind at 1. rewrite (getTopCard_eq h below top Hd).
  unfold bind at 1. cbn [GameEngine.thisSelected gets].
  cbn [liftC CardDeck.getCurrentColor deref cbind].
  set (sel := GameEngine.selectedWildColor (GameEngine.this h)).
  set (eff := if Color.eqb (Card.color top) Color.wild
              then match sel with Some c => c | None => Color.red end
              else Card.color top).
  assert (Heff : match Color.eqb (Card.color top) Color.wild, sel with
                 | true, Some c => Normal c
                 | _, _ => Normal (if Color.eqb (Card.color top) Color.wild
                                   then Color.red else Card.color top)
                 end = Normal eff).
  { unfold eff. destruct (Color.eqb (Card.color top) Color.wild), sel; reflexivity. }
  rewrite Heff. unfold bind at 1. cbn [GameEngine.rules gets].
  fold s. unfold legalNow. fold sel. fold eff.
  destruct ((GameState.stackedDrawAmount s >? 0)
            && EnabledRules.stackDraw
                 (GameConfig.enabledRules (GameEngine.config (GameEngine.this h)))).
  - unfold bind at 1. rewrite (getTopCard_eq h below top Hd).
    cbn [liftC]. rewrite Hh.
    erewrite filterC_defined; [reflexivity|].
    intros c. cbn.
    destruct (Value.eqb (Card.value top) Value.draw2); [reflexivity|].
    destruct (Value.eqb (Card.value top) Value.wild_draw4); reflexivity.
  - cbn [liftC]. rewrite Hh.
    erewrite filterC_defined; [reflexivity|].
    intros c. unfold CardDeck.isPlayable. cbn.
    destruct (Color.eqb (Card.color c) Color.wild); [reflexivity|].
    destruct (Color.eqb (Card.color c) eff); [reflexivity|].
    cbn. destruct (Value.eqb (Card.value c) (Card.value top)); reflexivity.
Qed.

(** An in-turn play of a card that passes the test of [getValidMoves],
    with a colour if the card is wild, is valid. *)
Lemma validateAction_in_turn h (p : Player.t) (c : Card.t) pre post below top
    (wildColor : option Color.t) :
  let s := GameEngine.state (GameEngine.this h) in
  NoDup (map Player.id (GameState.players s)) ->
  Js.get (GameState.players s) (GameState.currentPlayerIndex s) = Some p ->
  Player.hand p = map Some (pre ++ c :: post) ->
  (forall x, In x pre -> Card.id x <> Card.id c) ->
  Card.id c <> "" ->
  GameState.discardPile s = below ++ [Some top] ->
  legalNow top (GameEngine.selectedWildColor (GameEngine.this h))
    (GameState.stackedDrawAmount s)
    (EnabledRules.stackDraw
       (GameConfig.enabledRules (GameEngine.config (GameEngine.this h)))) c = true ->
  (Card.color c = Color.wild -> wildColor <> None) ->
  GameEngine.validateAction
    (GameAction.mk ActionType.play_card (Player.id p) (Some (Card.id c)) None wildColor
       None None) h
  = (Normal Valid, h).
Proof.
  intros s Hids Hcur Hh Hpre Hid Hd Hlegal Hw. subst s.
  pose proof (findPlayer_at _ Hids _ _ Hcur) as Hfp.
  unfold GameEngine.validateAction.
  unfold bind at 1. cbn [GameEngine.thisState gets GameAction.playerId GameAction.cardId
                           GameAction.type]. rewrite Hfp.
  apply String.eqb_neq in Hid. rewrite Hid.
  unfold bind at 1. cbn [liftC]. rewrite Hh, (findC_hasId _ pre c post Hpre eq_refl).
  unfold bind at 1. unfold GameEngine.isCurrentPlayer.
  unfold bind at 1. unfold GameEngine.getCurrentPlayer.
  unfold bind at 1. cbn [GameEngine.thisState gets ret]. rewrite Hcur.
  unfold bind at 1. cbn [liftC deref ret]. rewrite String.eqb_refl. cbn [negb].
  unfold bind at 1.
  rewrite (getValidMoves_defined h p (pre ++ c :: post) below top Hfp Hh Hd).
  unfold bind at 1. cbn [liftC].
  destruct (findC_hasId_some (Card.id c)
              (filter (legalNow top (GameEngine.selectedWildColor (GameEngine.this h))
                         (GameState.stackedDrawAmount (GameEngine.state (GameEngine.this h)))
                         (EnabledRules.stackDraw
                            (GameConfig.enabledRules
                               (GameEngine.config (GameEngine.this h)))))
                 (pre ++ c :: post)) c) as [x Hx].
  { apply filter_In. split; [|exact Hlegal]. apply in_or_app. right. left. reflexivity. }
  { reflexivity. }
  rewrite Hx.
  unfold bind at 1. cbn [liftC deref].
  cbn [GameAction.wildColor].
  destruct (Color.eqb (Card.color c) Color.wild) eqn:Hc; [|reflexivity].
  apply color_eqb_eq in Hc. specialize (Hw Hc).
  destruct wildColor; [reflexivity|congruence].
Qed.

Lemma take_out_defined (pre post : list Card.t) (c : Card.t) :
  let hand := map (@Some Card.t) (pre ++ c :: post) in
  let k := Z.of_nat (List.length pre) in
  getSlot hand k = Some c
  /\ slice hand 0 k ++ sliceFrom hand (k + 1) = map Some (pre ++ post).
Proof.
  intros hand k. subst hand k. rewrite !map_app. cbn [map].
  rewrite <- (length_map (@Some Card.t) pre). split.
  - unfold getSlot. rewrite get_middle. reflexivity.
  - rewrite slice_before, sliceFrom_after. reflexivity.
Qed.

Lemma nextIndex_congr s1 s2 :
  jlength (GameState.players s1) = jlength (GameState.players s2) ->
  GameState.currentPlayerIndex s1 = GameState.currentPlayerIndex s2 ->
  GameState.direction s1 = GameState.direction s2 ->
  nextIndex s1 = nextIndex s2.
Proof. intros H1 H2 H3. unfold nextIndex. rewrite H1, H2, H3. reflexivity. Qed.

Lemma nextIndex_range s :
  let n := jlength (GameState.players s) in
  2 <= n ->
  0 <= GameState.currentPlayerIndex s < n ->
  GameState.direction s = 1 \/ GameState.direction s = -1 ->
  0 <= nextIndex s < n /\ nextIndex s <> GameState.currentPlayerIndex s.
Proof.
  intros n Hn Hc Hd. unfold nextIndex. fold n.
  destruct (Z.ltb_spec (GameState.currentPlayerIndex s + GameState.direction s) 0);
    [destruct (Z.geb_spec (n - 1) n)
    |destruct (Z.geb_spec (GameState.currentPlayerIndex s + GameState.direction s) n)];
    lia.
Qed.

(** [forceDrawCards] for a known player and a discard pile that is not
    empty: the player receives [n] cards, or all that the piles can give,
    and the cards of the two piles are those drawn and those left. *)
Lemma forceDrawCards_total (state : GameState.t) (playerId : string) (n : nat)
    (h : GameEngine.Heap) (player : Player.t) (below : list Slot) (top : Slot) :
  let i := GameEngine.findPlayerIndex (GameState.players state) (Some playerId) in
  Js.get (GameState.players state) i = Some player ->
  GameState.discardPile state = below ++ [top] ->
  exists (drawn drawPile' discardPile' : list Slot) (w' : World.t),
    GameEngine.forceDrawCards state playerId (Z.of_nat n) h =
    (Normal
       (GameState.with_discardPile discardPile'
          (GameState.with_drawPile drawPile'
             (GameState.with_players
                (Js.set (GameState.players state) i
                   (Player.with_hand (Player.hand player ++ drawn) player))
                state))),
     GameEngine.mkHeap (GameEngine.this h) w')
    /\ List.length drawn
       = Nat.min n (List.length (GameState.drawPile state) + List.length below)
    /\ Permutation (GameState.drawPile state ++ GameState.discardPile state)
         (drawn ++ drawPile' ++ discardPile').
Proof.
  intros i Hp Hd.
  destruct (Nat.le_gt_cases n (List.length (GameState.drawPile state))) as [Hle|Hgt].
  - exists (firstn n (GameState.drawPile state)), (skipn n (GameState.drawPile state)),
      (GameState.discardPile state), (GameEngine.world h).
    split; [|split].
    + rewrite (forceDrawCards_enough state playerId n h player Hp) by lia.
      destruct h; reflexivity.
    + rewrite length_firstn. lia.
    + rewrite app_assoc, firstn_skipn. reflexivity.
  - destruct (forceDrawCards_reshuffle state playerId n h player below top Hp Hgt Hd)
      as (pile & w' & Hperm & Hrun).
    exists (firstn n pile), (skipn n pile), [top], w'.
    split; [exact Hrun|]. split.
    + rewrite length_firstn. rewrite <- (Permutation_length Hperm), length_app. lia.
    + rewrite app_assoc, firstn_skipn, Hd, app_assoc.
      apply Permutation_app_tail. exact Hperm.
Qed.



(* ===================================================================== *)
(** ** The client and the server on the same play                        *)
(* ===================================================================== *)

Section IndexFacts.
Context {A B : Type}.

Lemma findIndexFrom_map (f : A -> B) (g : B -> bool) (l : list A) k :
  findIndexFrom (fun x => g (f x)) l k = findIndexFrom g (map f l) k.
Proof. revert k. induction l as [|x l IH]; intros k; cbn; [reflexivity|]. rewrite IH. reflexivity. Qed.

Lemma get_map (f : A -> B) (l : list A) i :
  Js.get (map f l) i = option_map f (Js.get l i).
Proof. unfold Js.get. destruct (i <? 0); [reflexivity|]. apply nth_error_map. Qed.


Lemma findIndexFrom_range (g : A -> bool) (l : list A) m :
  findIndexFrom g l m = -1
  \/ m <= findIndexFrom g l m < m + Z.of_nat (List.length l).
Proof.
  revert m. induction l as [|a l IH]; intros m; cbn [findIndexFrom List.length];
    [left; reflexivity|].
  destruct (g a); [right; lia|]. destruct (IH (m + 1)); [left|right]; lia.
Qed.

Lemma findIndexFrom_sat (g : A -> bool) (l : list A) k n x :
  0 <= k ->
  findIndexFrom g l k = k + Z.of_nat n ->
  nth_error l n = Some x ->
  g x = true.
Proof.
  revert k n. induction l as [|y l IH]; intros k n Hk; cbn [findIndexFrom].
  - intros H. lia.
  - destruct (g y) eqn:Hy.
    + intros H Hn. assert (n = 0%nat) by lia. subst n. cbn in Hn. congruence.
    + intros H Hn. destruct (findIndexFrom_range g l (k + 1)) as [Hr|Hr]; [lia|].
      destruct n as [|n]; [lia|]. cbn in Hn.
      apply (IH (k + 1) n); [lia| |exact Hn]. lia.
Qed.

Lemma findIndex_sat (g : A -> bool) (l : list A) x :
  Js.get l (findIndex g l) = Some x -> g x = true.
Proof.
  intros H. pose proof (get_in_range _ _ _ H) as Hr.
  unfold Js.get in H. destruct (Z.ltb_spec (findIndex g l) 0); [lia|].
  apply (findIndexFrom_sat g l 0 (Z.to_nat (findIndex g l)) x); [lia| |exact H].
  unfold findIndex in *. lia.
Qed.

Lemma find_from_index (g : A -> bool) (l : list A) k n x :
  0 <= k ->
  findIndexFrom g l k = k + Z.of_nat n ->
  nth_error l n = Some x ->
  find g l = Some x.
Proof.
  revert k n. induction l as [|y l IH]; intros k n Hk; cbn [findIndexFrom find].
  - intros H. lia.
  - destruct (g y) eqn:Hy.
    + intros H Hn. assert (n = 0%nat) by lia. subst n. cbn in Hn. congruence.
    + intros H Hn. destruct (findIndexFrom_range g l (k + 1)) as [Hr|Hr]; [lia|].
      destruct n as [|n]; [lia|]. cbn in Hn.
      apply (IH (k + 1) n); [lia| |exact Hn]. lia.
Qed.

Lemma find_of_findIndex (g : A -> bool) (l : list A) x :
  Js.get l (findIndex g l) = Some x -> find g l = Some x.
Proof.
  intros H. pose proof (get_in_range _ _ _ H) as Hr.
  unfold Js.get in H. destruct (Z.ltb_spec (findIndex g l) 0); [lia|].
  apply (find_from_index g l 0 (Z.to_nat (findIndex g l)) x); [lia| |exact H].
  unfold findIndex in *. lia.
Qed.

End IndexFacts.

Lemma findC_to_index {A} (f : A -> Completion bool) (l : list A) x k :
  findC f l = Normal (Some x) ->
  exists n, findIndexFromC f l k = Normal (k + Z.of_nat n) /\ nth_error l n = Some x.
Proof.
  revert k. induction l as [|y l IH]; intros k; cbn; [discriminate|].
  destruct (f y) as [[|]|e]; cbn; try discriminate.
  - intros H. injection H as ->. exists 0%nat. split; [f_equal; lia|reflexivity].
  - intros H. destruct (IH (k + 1) H) as (n & Hn & Hx).
    exists (S n). split; [rewrite Hn; f_equal; lia|exact Hx].
Qed.

Lemma splice_slice {A} (l : list A) (n : nat) :
  slice l 0 (Z.of_nat n) ++ sliceFrom l (Z.of_nat n + 1)
  = Server.splice1 l (Z.of_nat n).
Proof.
  unfold Server.splice1. rewrite Nat2Z.id, slice_prefix.
  replace (Z.of_nat n + 1) with (Z.of_nat (S n)) by lia.
  rewrite sliceFrom_suffix. reflexivity.
Qed.



Opaque Server.nextPlayer nextIndex.


Transparent Server.nextPlayer nextIndex.

Lemma set_keeps {A B} (f : A -> B) (l : list A) i x v :
  Js.get l i = Some x -> f v = f x -> map f (Js.set l i v) = map f l.
Proof.
  intros H Hf. pose proof (get_in_range _ _ _ H) as Hr. unfold jlength in Hr.
  unfold Js.get in H. unfold Js.set. destruct (Z.ltb_spec i 0); [lia|].
  assert (Hlt : (Z.to_nat i < List.length l)%nat) by lia.
  apply Nat.ltb_lt in Hlt. rewrite Hlt.
  rewrite map_setNth. apply setNth_same. rewrite nth_error_map, H. cbn. congruence.
Qed.



Lemma getSlot_nth {A} (l : list (option A)) (n : nat) x :
  nth_error l n = Some x -> getSlot l (Z.of_nat n) = x.
Proof.
  intros H. unfold getSlot, Js.get.
  destruct (Z.ltb_spec (Z.of_nat n) 0); [lia|]. rewrite Nat2Z.id, H. reflexivity.
Qed.



(* ===================================================================== *)
(** ** The properties at concrete tables                                 *)
(* ===================================================================== *)

(** C5 at a concrete table: Bob asks to draw when it is Alice's turn. *)
Lemma dispatch_rejected_unchanged_witness :
  GameEngine.validateAction Examples.drawByBob
    (Examples.heapOf (Examples.table Examples.fullPile) Examples.allRules)
  = (Normal (Invalid "Not your turn"),
     Examples.heapOf (Examples.table Examples.fullPile) Examples.allRules)
  /\ ValidationResult.valid (Invalid "Not your turn") = false
  /\ exists reason,
      Invalid "Not your turn" = Invalid reason
      /\ GameEngine.dispatch Examples.drawByBob
           (Examples.heapOf (Examples.table Examples.fullPile) Examples.allRules)
         = (Normal (Examples.table Examples.fullPile),
            GameEngine.mkHeap
              (GameEngine.mk (Examples.table Examples.fullPile)
                 ([] ++ [Event.action_rejected Examples.drawByBob (Some reason)])
                 (GameConfig.mk 2 ["Alice"; "Bob"] Examples.allRules None) None)
              Examples.world).
Proof.
  split; [reflexivity|]. split; [reflexivity|].
  apply (dispatch_rejected_unchanged Examples.drawByBob
           (Examples.heapOf (Examples.table Examples.fullPile) Examples.allRules)
           (Invalid "Not your turn")
           (Examples.heapOf (Examples.table Examples.fullPile) Examples.allRules));
    reflexivity.
Defined.

(** C4 at concrete tables of four and of two players. *)
Lemma turn_advance_correct_witness :
  (exists state' h',
      GameEngine.advanceTurn Examples.table4
        (Examples.heapOf Examples.table4 Examples.allRules) = (Normal state', h')
      /\ GameState.currentPlayerIndex state' = 1)
  /\ (exists state' h',
         GameEngine.applyCardEffects Examples.table4 Examples.rS 0
           (Examples.heapOf Examples.table4 Examples.allRules) = (Normal state', h')
         /\ GameState.currentPlayerIndex state' = 2)
  /\ (exists state' h',
         GameEngine.applyCardEffects Examples.table4 Examples.rR 0
           (Examples.heapOf Examples.table4 Examples.allRules) = (Normal state', h')
         /\ GameState.direction state' = -1
         /\ GameState.currentPlayerIndex state' = 3)
  /\ (exists state' h',
         GameEngine.applyCardEffects Examples.table2 Examples.rR 0
           (Examples.heapOf Examples.table2 Examples.allRules) = (Normal state', h')
         /\ GameState.direction state' = -1
         /\ GameState.currentPlayerIndex state' = 0).
Proof.
  destruct turn_advance_correct as (Hadvance & Hskip & Hreverse).
  split; [|split; [|split]].
  - destruct (Hadvance Examples.table4
                (Examples.heapOf Examples.table4 Examples.allRules))
      as (state' & h' & Hrun & Hcur & _); [vm_compute; discriminate | | |].
    + split; vm_compute; [discriminate|reflexivity].
    + left. reflexivity.
    + exists state', h'. split; [exact Hrun|]. rewrite Hcur. reflexivity.
  - destruct (Hskip Examples.table4 Examples.rS 0
                (Examples.heapOf Examples.table4 Examples.allRules))
      as (state' & h' & Hrun & _ & _ & Hcur); [vm_compute; discriminate | | | |].
    + split; vm_compute; [discriminate|reflexivity].
    + left. reflexivity.
    + reflexivity.
    + exists state', h'. split; [exact Hrun|]. apply Hcur; reflexivity.
  - destruct (Hreverse Examples.table4 Examples.rR 0
                (Examples.heapOf Examples.table4 Examples.allRules))
      as (state' & h' & Hrun & Hdir & _ & Hcur & _); [vm_compute; discriminate | | | |].
    + split; vm_compute; [discriminate|reflexivity].
    + left. reflexivity.
    + reflexivity.
    + exists state', h'. split; [exact Hrun|]. split; [exact Hdir|].
      apply Hcur; reflexivity.
  - destruct (Hreverse Examples.table2 Examples.rR 0
                (Examples.heapOf Examples.table2 Examples.allRules))
      as (state' & h' & Hrun & Hdir & _ & _ & Hcur); [vm_compute; discriminate | | | |].
    + split; vm_compute; [discriminate|reflexivity].
    + left. reflexivity.
    + reflexivity.
    + exists state', h'. split; [exact Hrun|]. split; [exact Hdir|].
      apply Hcur. reflexivity.
Defined.

(** C9 at two concrete states: Bob's cards and the draw pile differ, and
    Alice's snapshots are the same. *)
Lemma redaction_noninterference_witness :
  sameStateFor "alice" (Examples.serverTable Examples.fullPile) Examples.serverTableOther
  /\ Server.getStateForPlayer (Examples.serverTable Examples.fullPile) "alice"
     = Server.getStateForPlayer Examples.serverTableOther "alice".
Proof.
  assert (H : sameStateFor "alice" (Examples.serverTable Examples.fullPile)
                Examples.serverTableOther).
  { unfold sameStateFor. repeat split.
    repeat constructor. }
  split; [exact H|].
  apply (proj2 redaction_noninterference "alice" _ _ H).
Defined.

(** C8 at concrete tables: a draw of two from a pile of five, and a draw
    of two when the draw pile holds one card and nothing lies under the top
    of the discard pile. *)
Lemma draw_takes_prefix_and_never_fails_witness :
  (CardDeck.drawCards Examples.fullPile 2
   = ([Some Examples.g7; Some Examples.y9],
      [Some Examples.g1; Some Examples.y2; Some Examples.b8]))
  /\ (Js.get (GameState.players (Examples.table Examples.fullPile)) 0 = Some Examples.alice
      /\ (List.length (GameState.drawPile (Examples.table Examples.fullPile)) >= 2)%nat
      /\ fst (GameEngine.forceDrawCards (Examples.table Examples.fullPile) "alice" 2
                (Examples.heapOf (Examples.table Examples.fullPile) Examples.allRules))
         = Normal
             (GameState.with_discardPile [Some Examples.r5]
                (GameState.with_drawPile
                   [Some Examples.g1; Some Examples.y2; Some Examples.b8]
                   (GameState.with_players
                      [ Player.with_hand
                          [Some Examples.rD; Some Examples.r1;
                           Some Examples.g7; Some Examples.y9] Examples.alice;
                        Examples.bob ]
                      (Examples.table Examples.fullPile)))))
  /\ (Js.get (GameState.players (Examples.table [Some Examples.g7])) 0 = Some Examples.alice
      /\ (List.length (GameState.drawPile (Examples.table [Some Examples.g7])) < 2)%nat
      /\ GameState.discardPile (Examples.table [Some Examples.g7]) = [] ++ [Some Examples.r5]
      /\ exists (pile : list Slot) (h' : GameEngine.Heap),
          Permutation [Some Examples.g7] pile
          /\ fst (GameEngine.forceDrawCards (Examples.table [Some Examples.g7]) "alice" 2
                    (Examples.heapOf (Examples.table [Some Examples.g7]) Examples.allRules))
             = Normal
                 (GameState.with_discardPile [Some Examples.r5]
                    (GameState.with_drawPile (skipn 2 pile)
                       (GameState.with_players
                          [ Player.with_hand
                              ([Some Examples.rD; Some Examples.r1] ++ firstn 2 pile)
                              Examples.alice;
                            Examples.bob ]
                          (Examples.table [Some Examples.g7]))))
          /\ List.length (firstn 2 pile) = 1%nat).
Proof.
  destruct draw_takes_prefix_and_never_fails as (Hdraw & Henough & Hshort).
  split; [|split].
  - exact (proj1 (Hdraw Examples.fullPile 2%nat)).
  - split; [reflexivity|]. split; [vm_compute; lia|].
    assert (Hlen : (List.length (GameState.drawPile (Examples.table Examples.fullPile))
                    >= 2)%nat) by (vm_compute; lia).
    exact (f_equal fst
             (Henough (Examples.table Examples.fullPile) "alice" 2%nat
                (Examples.heapOf (Examples.table Examples.fullPile) Examples.allRules)
                Examples.alice eq_refl Hlen)).
  - split; [reflexivity|]. split; [vm_compute; lia|]. split; [reflexivity|].
    destruct (Hshort (Examples.table [Some Examples.g7]) "alice" 2%nat
                (Examples.heapOf (Examples.table [Some Examples.g7]) Examples.allRules)
                Examples.alice [] (Some Examples.r5))
      as (pile & h' & Hperm & Hrun & Hlen);
      [reflexivity | vm_compute; lia | reflexivity |].
    exists pile, h'. split; [exact Hperm|]. split; [|exact Hlen].
    exact (f_equal fst Hrun).
Defined.




(* ===================================================================== *)
(** ** Where the code departs from the claims as written                 *)
(* ===================================================================== *)


(** Two more plays that both copies accept and carry out differently.
    A reverse at a table of two: the client flips the direction and the
    server does not.  A draw-two when penalties do not stack: on the
    client the turn comes back to Alice once Bob has drawn the first two
    cards of the pile; on the server the turn is Bob's, who has drawn the
    last two. *)
Lemma client_server_disagree_on_reverse_and_draw_two :
  (mirrors (Examples.heapOf Examples.table2 Examples.allRules)
     (Examples.serverOf Examples.table2 None) Examples.allRules
   /\ fst (GameEngine.validateAction Examples.playReverse
             (Examples.heapOf Examples.table2 Examples.allRules)) = Normal Valid
   /\ exists sc' h' ss' w',
       GameEngine.dispatch Examples.playReverse
         (Examples.heapOf Examples.table2 Examples.allRules) = (Normal sc', h')
       /\ Server.handleGameAction (Examples.serverOf Examples.table2 None)
            Examples.allRules Examples.playReverse Examples.world
          = (Normal (Server.Carried, ss'), w')
       /\ Obs.direction (observeClient sc') = -1
       /\ Obs.direction (observeServer ss') = 1
       /\ Obs.currentPlayerIndex (observeClient sc') = 0
       /\ Obs.currentPlayerIndex (observeServer ss') = 0)
  /\ (mirrors (Examples.heapOf (Examples.table Examples.fullPile) Examples.noRules)
        (Examples.serverTable Examples.fullPile) Examples.noRules
      /\ fst (GameEngine.validateAction Examples.playDrawTwo
                (Examples.heapOf (Examples.table Examples.fullPile) Examples.noRules))
         = Normal Valid
      /\ exists sc' h' ss' w',
          GameEngine.dispatch Examples.playDrawTwo
            (Examples.heapOf (Examples.table Examples.fullPile) Examples.noRules)
          = (Normal sc', h')
          /\ Server.handleGameAction (Examples.serverTable Examples.fullPile)
               Examples.noRules Examples.playDrawTwo Examples.world
             = (Normal (Server.Carried, ss'), w')
          /\ Obs.hands (observeClient sc')
             = [ [Some Examples.r1];
                 [Some Examples.bD; Some Examples.b3; Some Examples.g7; Some Examples.y9] ]
          /\ Obs.hands (observeServer ss')
             = [ [Some Examples.r1];
                 [Some Examples.bD; Some Examples.b3; Some Examples.b8; Some Examples.y2] ]
          /\ Obs.currentPlayerIndex (observeClient sc') = 0
          /\ Obs.currentPlayerIndex (observeServer ss') = 1).
Proof.
  split.
  - split; [unfold mirrors; repeat split; reflexivity|].
    split; [reflexivity|].
    do 4 eexists.
    split; [vm_compute; reflexivity|].
    split; [vm_compute; reflexivity|].
    repeat split; reflexivity.
  - split; [unfold mirrors; repeat split; reflexivity|].
    split; [reflexivity|].
    do 4 eexists.
    split; [vm_compute; reflexivity|].
    split; [vm_compute; reflexivity|].
    repeat split; reflexivity.
Qed.



(** C8 as written fails.  Asked for two cards of a pile of one,
    [drawCards] returns the one card and no error.  With one card to draw
    and nothing under the top of the discard pile, [forceDrawCards] for
    two cards returns normally and the player has received one card. *)
Lemma draw_returns_fewer_cards_silently :
  CardDeck.drawCards [Some Examples.g7] 2 = ([Some Examples.g7], [])
  /\ exists s',
      fst (GameEngine.forceDrawCards (Examples.table [Some Examples.g7]) "alice" 2
             (Examples.heapOf (Examples.table [Some Examples.g7]) Examples.allRules))
      = Normal s'
      /\ Examples.handIds (GameState.players s')
         = [[Some "rD"; Some "r1"; Some "g7"]; [Some "bD"; Some "b3"]]
      /\ GameState.drawPile s' = []
      /\ GameState.discardPile s' = [Some Examples.r5].
Proof.
  split; [reflexivity|].
  eexists. split; [vm_compute; reflexivity|].
  repeat split; reflexivity.
Qed.

(* ===================================================================== *)
(** ** The deck: construction, shuffle and draw                          *)
(* ===================================================================== *)

Lemma createCards_run faces w :
  exists cards,
    CardDeck.createCards faces w
    = (Normal cards,
       World.mk (World.randoms w) (World.clock w)
         (fun k => World.uuids w (List.length faces + k)%nat))
    /\ map faceOf cards = faces
    /\ map Card.id cards = map (World.uuids w) (seq 0 (List.length faces)).
Proof.
  revert w. induction faces as [|[color value] faces IH]; intros w.
  - exists []. destruct w. repeat split.
  - cbn [CardDeck.createCards]. unfold bind at 1.
    unfold CardDeck.createCard, bind at 1, World.uuidv4. cbn [ret].
    unfold bind at 1.
    destruct (IH (World.mk (World.randoms w) (World.clock w) (World.tl (World.uuids w))))
      as (cards & Hrun & Hfaces & Hids).
    rewrite Hrun. cbn [ret World.randoms World.clock World.uuids].
    eexists. split; [reflexivity|]. split.
    + cbn. rewrite Hfaces. reflexivity.
    + cbn [map List.length seq]. f_equal.
      rewrite <- seq_shift, map_map. exact Hids.
Qed.

(** X1.  Whatever the identifiers handed out, [createDeck] returns 108
    cards: for each of the four colours one 0, two of each number 1..9 and
    two of each of skip, reverse and draw-two, then four wild cards and
    four wild draw-fours.  The identifiers are the next 108 answers of
    [uuidv4], in order, and nothing else of the world is consumed. *)
Theorem createDeck_full_deck (w : World.t) :
  exists cards w',
    CardDeck.createDeck w = (Normal cards, w')
    /\ List.length cards = 108%nat
    /\ (forall color, color <> Color.wild ->
          countFace cards color (Value.num 0) = 1%nat
          /\ (forall n, 1 <= n <= 9 -> countFace cards color (Value.num n) = 2%nat)
          /\ countFace cards color Value.skip = 2%nat
          /\ countFace cards color Value.reverse = 2%nat
          /\ countFace cards color Value.draw2 = 2%nat
          /\ List.length (filter (fun c => Color.eqb (Card.color c) color) cards) = 25%nat)
    /\ countFace cards Color.wild Value.wild = 4%nat
    /\ countFace cards Color.wild Value.wild_draw4 = 4%nat
    /\ map Card.id cards = map (World.uuids w) (seq 0 108)
    /\ World.randoms w' = World.randoms w
    /\ World.clock w' = World.clock w
    /\ (forall k, World.uuids w' k = World.uuids w (108 + k)%nat).
Proof.
  destruct (createCards_run CardDeck.deckFaces w) as (cards & Hrun & Hfaces & Hids).
  exists cards. eexists. split; [exact Hrun|].
  assert (Hcount : forall color value,
             countFace cards color value
             = List.length (filter (fun f => Color.eqb (fst f) color
                                             && Value.eqb (snd f) value)
                              CardDeck.deckFaces)).
  { intros color value. rewrite <- Hfaces. unfold countFace.
    clear. induction cards as [|c cards IH]; [reflexivity|]. cbn.
    destruct (Color.eqb (Card.color c) color && Value.eqb (Card.value c) value);
      cbn; rewrite IH; reflexivity. }
  assert (Hcolor : forall color,
             List.length (filter (fun c => Color.eqb (Card.color c) color) cards)
             = List.length (filter (fun f => Color.eqb (fst f) color)
                              CardDeck.deckFaces)).
  { intros color. rewrite <- Hfaces.
    clear. induction cards as [|c cards IH]; [reflexivity|]. cbn.
    destruct (Color.eqb (Card.color c) color); cbn; rewrite IH; reflexivity. }
  split.
  { rewrite <- (length_map faceOf), Hfaces. reflexivity. }
  split.
  { intros color Hcolour. rewrite !Hcount, Hcolor.
    destruct color; try congruence; (split; [reflexivity|]);
      (split; [|repeat split; reflexivity]);
      intros n Hn;
      assert (Hcases : n = 1 \/ n = 2 \/ n = 3 \/ n = 4 \/ n = 5 \/ n = 6 \/ n = 7
                       \/ n = 8 \/ n = 9) by lia;
      rewrite Hcount;
      repeat (destruct Hcases as [-> | Hcases]; [reflexivity|]); subst n; reflexivity. }
  rewrite !Hcount. split; [reflexivity|]. split; [reflexivity|].
  split; [exact Hids|]. cbn. repeat split.
Qed.

Lemma shuffleLoop_world {A} n (l : list A) w :
  exists l',
    CardDeck.shuffleLoop n l w
    = (Normal l',
       World.mk (fun k => World.randoms w (n + k)%nat) (World.clock w) (World.uuids w))
    /\ Permutation l l'.
Proof.
  revert l w. induction n as [|n IH]; intros l w.
  - exists l. destruct w. split; reflexivity.
  - cbn [CardDeck.shuffleLoop]. unfold bind, World.randomBelow.
    match goal with |- context [CardDeck.shuffleLoop n ?l1 ?w1] =>
      destruct (IH l1 w1) as (l' & Hrun & Hperm) end.
    exists l'. rewrite Hrun. split.
    + reflexivity.
    + eapply perm_trans; [apply swap_perm|exact Hperm].
Qed.

(** X2.  [shuffleDeck] never fails and returns a rearrangement of the deck
    it is given, whatever the random numbers: no card is lost, added or
    duplicated.  It reads one random number per card but the first and
    leaves the clock and the identifiers alone; a deck of at most one card
    comes back as it is. *)
Theorem shuffleDeck_rearranges {A} (deck : list A) (w : World.t) :
  exists shuffled w',
    CardDeck.shuffleDeck deck w = (Normal shuffled, w')
    /\ Permutation deck shuffled
    /\ List.length shuffled = List.length deck
    /\ ((List.length deck <= 1)%nat -> shuffled = deck)
    /\ (forall k, World.randoms w' k = World.randoms w (List.length deck - 1 + k)%nat)
    /\ World.clock w' = World.clock w
    /\ World.uuids w' = World.uuids w.
Proof.
  unfold CardDeck.shuffleDeck.
  destruct (shuffleLoop_world (List.length deck - 1) deck w) as (shuffled & Hrun & Hperm).
  exists shuffled. eexists. split; [exact Hrun|].
  split; [exact Hperm|]. split; [symmetry; apply Permutation_length, Hperm|].
  split.
  - intros Hshort. destruct deck as [|x [|y deck]]; cbn in Hshort; try lia.
    + apply Permutation_nil in Hperm. exact Hperm.
    + apply Permutation_length_1_inv in Hperm. exact Hperm.
  - cbn. repeat split.
Qed.

(** X3.  [drawCards] splits the deck in two for every count, also one that
    is negative or larger than the deck: the cards drawn followed by the
    cards remaining are the deck, in order.  A count of zero draws
    nothing, a count of at least the size of the deck draws it whole, and
    a negative count [-k] leaves the last [k] cards as the remainder. *)
Theorem drawCards_splits_deck {A} (deck : list A) (count : Z) :
  fst (CardDeck.drawCards deck count) ++ snd (CardDeck.drawCards deck count) = deck
  /\ (0 <= count ->
      List.length (fst (CardDeck.drawCards deck count))
      = Nat.min (Z.to_nat count) (List.length deck))
  /\ (count < 0 ->
      List.length (snd (CardDeck.drawCards deck count))
      = Nat.min (Z.to_nat (- count)) (List.length deck)).
Proof.
  unfold CardDeck.drawCards, slice, sliceFrom. cbn [fst snd].
  change (clamp (List.length deck) 0) with (Nat.min 0 (List.length deck)).
  rewrite Nat.min_0_l, Nat.sub_0_r. cbn [skipn].
  split; [apply firstn_skipn|]. split.
  - intros Hc. unfold clamp. destruct (Z.ltb_spec count 0); [lia|].
    rewrite length_firstn. lia.
  - intros Hc. unfold clamp. destruct (Z.ltb_spec count 0); [|lia].
    rewrite length_skipn. lia.
Qed.

(* ===================================================================== *)
(** ** The deal                                                          *)
(* ===================================================================== *)

Lemma findIndexFromC_defined (f : Slot -> Completion bool) (g : Card.t -> bool) cards k :
  (forall c, f (Some c) = Normal (g c)) ->
  findIndexFromC f (map Some cards) k = Normal (findIndexFrom g cards k).
Proof.
  intros Hf. revert k. induction cards as [|c cards IH]; intros k; cbn; [reflexivity|].
  rewrite Hf. cbn. destruct (g c); [reflexivity|apply IH].
Qed.

Lemma deal_fold (ps : list Player.t) :
  forall (done : list Player.t) (deck : list Slot),
  exists dealt,
    fold_left (fun '(done, deck) player =>
                 let '(drawn, remaining) :=
                   CardDeck.drawCards deck GameEngine.INITIAL_HAND_SIZE in
                 (done ++ [Player.with_hand drawn player], remaining))
      ps (done, deck)
    = (done ++ dealt, skipn (7 * List.length ps) deck)
    /\ List.length dealt = List.length ps
    /\ flat_map Player.hand dealt = firstn (7 * List.length ps) deck
    /\ ((7 * List.length ps <= List.length deck)%nat ->
        Forall (fun p => List.length (Player.hand p) = 7%nat) dealt)
    /\ map Player.id dealt = map Player.id ps
    /\ map Player.name dealt = map Player.name ps
    /\ map Player.type dealt = map Player.type ps.
Proof.
  induction ps as [|p ps IH]; intros done deck.
  - exists []. cbn. rewrite app_nil_r. repeat split. constructor.
  - cbn [fold_left].
    pose proof (drawCards_eq deck 7) as Hdraw.
    change (Z.of_nat 7) with GameEngine.INITIAL_HAND_SIZE in Hdraw.
    rewrite Hdraw.
    destruct (IH (done ++ [Player.with_hand (firstn 7 deck) p]) (skipn 7 deck))
      as (dealt & Hrun & Hlen & Hflat & Hall & Hid & Hname & Htype).
    exists (Player.with_hand (firstn 7 deck) p :: dealt).
    rewrite Hrun. split; [|split; [|split; [|split]]].
    + rewrite <- app_assoc. cbn [app]. rewrite skipn_skipn. f_equal. f_equal.
      cbn [List.length]. lia.
    + cbn. lia.
    + cbn [flat_map Player.hand Player.with_hand]. rewrite Hflat.
      cbn [List.length].
      replace (7 * S (List.length ps))%nat with (7 + 7 * List.length ps)%nat by lia.
      rewrite <- (firstn_skipn 7 (firstn (7 + 7 * List.length ps) deck)).
      rewrite firstn_firstn, Nat.min_l by lia.
      f_equal. rewrite skipn_firstn_comm. f_equal. lia.
    + intros Hle. cbn [List.length] in Hle. constructor.
      * cbn [Player.hand Player.with_hand]. rewrite length_firstn. lia.
      * apply Hall. rewrite length_skipn. lia.
    + cbn. rewrite Hid, Hname, Htype. repeat split.
Qed.

Lemma mk_players_run (config : GameConfig.t) (names : list string) :
  forall (index : Z) (w : World.t),
  exists ps,
    (fix mk_players (names : list string) (index : Z) : M World.t (list Player.t) :=
       match names with
       | [] => ret []
       | name :: rest =>
           id <- World.uuidv4 ;;
           ps <- mk_players rest (index + 1) ;;
           ret (Player.mk id name [] false true
                  (if index =? 0 then human
                   else match GameConfig.aiDifficulty config with
                        | Some _ => ai
                        | None => human
                        end)
                  None :: ps)
       end) names index w
    = (Normal ps,
       World.mk (World.randoms w) (World.clock w)
         (fun k => World.uuids w (List.length names + k)%nat))
    /\ map Player.name ps = names
    /\ map Player.id ps = map (World.uuids w) (seq 0 (List.length names))
    /\ Forall (fun p => Player.hasCalledUno p = false /\ Player.isConnected p = true) ps.
Proof.
  induction names as [|name names IH]; intros index w.
  - exists []. destruct w. repeat split. constructor.
  - unfold bind at 1. unfold World.uuidv4 at 1. unfold bind at 1.
    destruct (IH (index + 1)
                (World.mk (World.randoms w) (World.clock w) (World.tl (World.uuids w))))
      as (ps & Hrun & Hnames & Hids & Hflags).
    rewrite Hrun. cbn [ret World.randoms World.clock World.uuids].
    eexists. split; [reflexivity|]. split; [|split].
    + cbn. rewrite Hnames. reflexivity.
    + cbn [map List.length seq Player.id]. f_equal.
      rewrite <- seq_shift, map_map. exact Hids.
    + constructor; [split; reflexivity|exact Hflags].
Qed.

Lemma findIndexFrom_none {A} (g : A -> bool) (l : list A) k :
  findIndexFrom g l k = -1 -> 0 <= k -> forall x, In x l -> g x = false.
Proof.
  revert k. induction l as [|y l IH]; intros k H Hk x Hin; [destruct Hin|].
  cbn in H. destruct (g y) eqn:Hy; [lia|].
  destruct Hin as [-> | Hin]; [exact Hy|]. apply (IH (k + 1)); [exact H|lia|exact Hin].
Qed.

Lemma take_out_perm {A} (l : list A) (i : nat) x :
  nth_error l i = Some x ->
  Permutation l (firstn i l ++ x :: skipn (S i) l).
Proof.
  intros H. 
  destruct (nth_error_split l i H) as (l1 & l2 & -> & Hlen). subst i.
  rewrite firstn_app, Nat.sub_diag, firstn_all. cbn [firstn]. rewrite app_nil_r.
  replace (l1 ++ x :: l2) with ((l1 ++ [x]) ++ l2) at 2
    by (rewrite <- app_assoc; reflexivity).
  rewrite skipn_app.
  replace (S (List.length l1)) with (List.length (l1 ++ [x]))
    by (rewrite length_app; cbn; lia).
  rewrite skipn_all, Nat.sub_diag. reflexivity.
Qed.

Lemma filter_length_perm {A} (f : A -> bool) (l l' : list A) :
  Permutation l l' -> List.length (filter f l) = List.length (filter f l').
Proof.
  induction 1 as [|x l l' _ IH|x y l|l l' l'' _ IH1 _ IH2]; cbn.
  - reflexivity.
  - destruct (f x); cbn; rewrite IH; reflexivity.
  - destruct (f x), (f y); reflexivity.
  - congruence.
Qed.

Lemma filter_length_skipn {A} (f : A -> bool) (l : list A) m :
  (List.length (filter f (skipn m l)) <= List.length (filter f l))%nat.
Proof.
  rewrite <- (firstn_skipn m l) at 2. rewrite filter_app, length_app. lia.
Qed.

Lemma filter_all {A} (f : A -> bool) (l : list A) :
  (forall x, In x l -> f x = true) -> filter f l = l.
Proof.
  induction l as [|x l IH]; intros H; cbn; [reflexivity|].
  rewrite (H x) by (left; reflexivity). f_equal. apply IH.
  intros y Hy. apply H. right. exact Hy.
Qed.

(* ===================================================================== *)
(** ** Tables at which a game can go on                                  *)
(* ===================================================================== *)

(* definedness *)
Lemma defined_app (a b : list Slot) : defined (a ++ b) <-> defined a /\ defined b.
Proof. apply Forall_app. Qed.

Lemma defined_perm (a b : list Slot) : Permutation a b -> defined a -> defined b.
Proof. intros Hp Ha. exact (Permutation_Forall Hp Ha). Qed.

Lemma defined_map (l : list Slot) : defined l <-> exists cards, l = map Some cards.
Proof.
  split.
  - induction 1 as [|x l Hx _ IH]; [exists []; reflexivity|].
    destruct IH as [cards ->]. destruct x as [c|]; [|congruence].
    exists (c :: cards). reflexivity.
  - intros [cards ->]. apply Forall_forall. intros x Hx.
    apply in_map_iff in Hx. destruct Hx as (c & <- & _). discriminate.
Qed.

Lemma defined_firstn (l : list Slot) n : defined l -> defined (firstn n l).
Proof. intros H. rewrite <- (firstn_skipn n l) in H. apply defined_app in H. tauto. Qed.

Lemma defined_skipn (l : list Slot) n : defined l -> defined (skipn n l).
Proof. intros H. rewrite <- (firstn_skipn n l) in H. apply defined_app in H. tauto. Qed.

Lemma last_exists {A} (l : list A) : l <> [] -> exists below top, l = below ++ [top].
Proof. intros H. destruct (exists_last H) as (below & top & ->). eauto. Qed.

(* a seat of the table *)
Lemma get_split {A} (l : list A) i x :
  Js.get l i = Some x ->
  exists l1 l2, l = l1 ++ x :: l2 /\ i = Z.of_nat (List.length l1)
                /\ forall v, Js.set l i v = l1 ++ v :: l2.
Proof.
  intros H. pose proof (get_in_range _ _ _ H) as Hr. unfold jlength in Hr.
  unfold Js.get in H. destruct (Z.ltb_spec i 0); [lia|].
  destruct (nth_error_split _ _ H) as (l1 & l2 & -> & Hlen).
  exists l1, l2. split; [reflexivity|]. split; [lia|].
  intros v. unfold Js.set. destruct (Z.ltb_spec i 0); [lia|].
  assert (Hlt : (Z.to_nat i < List.length (l1 ++ x :: l2))%nat) by lia.
  apply Nat.ltb_lt in Hlt. rewrite Hlt. rewrite <- Hlen. clear.
  induction l1 as [|a l1 IH]; cbn; [reflexivity|]. rewrite IH. reflexivity.
Qed.

Lemma get_exists {A} (l : list A) i : 0 <= i < jlength l -> exists x, Js.get l i = Some x.
Proof.
  intros Hr. unfold jlength in Hr. unfold Js.get. destruct (Z.ltb_spec i 0); [lia|].
  destruct (nth_error l (Z.to_nat i)) as [x|] eqn:Hx; [eauto|].
  apply nth_error_None in Hx. lia.
Qed.

(** The hands once the player of a seat has been given cards. *)
Lemma hands_after_gain (players : list Player.t) i p p' (gain : list Slot) :
  Js.get players i = Some p ->
  Permutation (Player.hand p') (Player.hand p ++ gain) ->
  Permutation (flat_map Player.hand (Js.set players i p'))
              (flat_map Player.hand players ++ gain).
Proof.
  intros Hget Hp. destruct (get_split _ _ _ Hget) as (l1 & l2 & -> & _ & Hset).
  rewrite Hset, !flat_map_app. cbn [flat_map]. rewrite <- !app_assoc.
  apply Permutation_app_head. rewrite Hp, <- !app_assoc.
  apply Permutation_app_head. apply Permutation_app_comm.
Qed.

Lemma hands_defined_set (players : list Player.t) i p p' :
  Js.get players i = Some p ->
  Forall (fun q => defined (Player.hand q)) players ->
  defined (Player.hand p') ->
  Forall (fun q => defined (Player.hand q)) (Js.set players i p').
Proof.
  intros Hget Hall Hp. destruct (get_split _ _ _ Hget) as (l1 & l2 & -> & _ & Hset).
  rewrite Hset. apply Forall_app in Hall. destruct Hall as [H1 H2].
  apply Forall_app. split; [exact H1|]. inversion H2; subst. constructor; assumption.
Qed.

Lemma hand_defined_at (players : list Player.t) i p :
  Js.get players i = Some p ->
  Forall (fun q => defined (Player.hand q)) players -> defined (Player.hand p).
Proof.
  intros Hget Hall. destruct (get_split _ _ _ Hget) as (l1 & l2 & -> & _ & _).
  apply Forall_app in Hall. destruct Hall as [_ H2]. inversion H2; assumption.
Qed.

(* well-formedness depends on six fields *)
Lemma wellFormed_same (s s' : GameState.t) :
  GameState.players s' = GameState.players s ->
  GameState.currentPlayerIndex s' = GameState.currentPlayerIndex s ->
  GameState.direction s' = GameState.direction s ->
  GameState.stackedDrawAmount s' = GameState.stackedDrawAmount s ->
  GameState.drawPile s' = GameState.drawPile s ->
  GameState.discardPile s' = GameState.discardPile s ->
  wellFormed s -> wellFormed s'.
Proof.
  intros Hp Hc Hd Hs Hdr Hdi. unfold wellFormed.
  rewrite Hp, Hc, Hd, Hs, Hdr, Hdi. tauto.
Qed.

Lemma wellFormed_advanced now (s : GameState.t) :
  wellFormed s -> wellFormed (advanced now s).
Proof.
  intros (Hids & Hn & Hc & Hd & Hs & Hdr & Hdi & Hne & Hh).
  destruct (nextIndex_range s Hn Hc Hd) as [Hr _].
  unfold wellFormed, advanced. cbn.
  split; [|split; [|split; [|split; [|split; [|split; [|split; [|split]]]]]]];
    try assumption; lia.
Qed.

Lemma sameCards_advanced now (s : GameState.t) : sameCards s (advanced now s).
Proof. unfold sameCards, allCards. cbn. reflexivity. Qed.

(* total correctness, step by step *)
Lemma returns_ret {S A} (a : A) (s : S) (Q : A -> S -> Prop) : Q a s -> returns (ret a) s Q.
Proof. intros H. exists a, s. split; [reflexivity|exact H]. Qed.

Lemma returns_bind {S A B} (c : M S A) (k : A -> M S B) (s : S) (Q : B -> S -> Prop) :
  returns c s (fun a s1 => returns (k a) s1 Q) -> returns (bind c k) s Q.
Proof.
  intros (a & s1 & Hc & b & s2 & Hk & HQ). exists b, s2. split; [|exact HQ].
  unfold bind. rewrite Hc. exact Hk.
Qed.

Lemma returns_conseq {S A} (c : M S A) (s : S) (Q Q' : A -> S -> Prop) :
  returns c s Q -> (forall a s', Q a s' -> Q' a s') -> returns c s Q'.
Proof. intros (a & s' & Hc & HQ) H. exists a, s'. split; [exact Hc|auto]. Qed.

Lemma sameEngine_refl h : sameEngine h h.
Proof. split; reflexivity. Qed.

Lemma sameEngine_trans h1 h2 h3 : sameEngine h1 h2 -> sameEngine h2 h3 -> sameEngine h1 h3.
Proof. intros [A1 A2] [B1 B2]. split; congruence. Qed.

Lemma sameCards_refl s : sameCards s s.
Proof. unfold sameCards. reflexivity. Qed.

Lemma sameCards_trans s1 s2 s3 : sameCards s1 s2 -> sameCards s2 s3 -> sameCards s1 s3.
Proof. unfold sameCards. intros A B. rewrite A. exact B. Qed.

Lemma advanceTurn_returns (s : GameState.t) (h : GameEngine.Heap) :
  wellFormed s ->
  returns (GameEngine.advanceTurn s) h
    (fun s' h' => s' = advanced (clockOf h) s /\ wellFormed s' /\ sameCards s s'
                  /\ sameEngine h h'
                  /\ GameEngine.selectedWildColor (GameEngine.this h')
                     = GameEngine.selectedWildColor (GameEngine.this h)).
Proof.
  intros HW. exists (advanced (clockOf h) s), (afterAdvance s h).
  split; [apply advanceTurn_eq|].
  split; [reflexivity|]. split; [apply wellFormed_advanced, HW|].
  split; [apply sameCards_advanced|]. split; [split; reflexivity|reflexivity].
Qed.

Lemma forceDrawCards_returns (s : GameState.t) (q : Player.t) (j count : Z)
    (h : GameEngine.Heap) :
  wellFormed s ->
  Js.get (GameState.players s) j = Some q ->
  0 <= count ->
  returns (GameEngine.forceDrawCards s (Player.id q) count) h
    (fun s' h' =>
       wellFormed s' /\ sameCards s s'
       /\ GameState.currentPlayerIndex s' = GameState.currentPlayerIndex s
       /\ GameState.direction s' = GameState.direction s
       /\ GameState.stackedDrawAmount s' = GameState.stackedDrawAmount s
       /\ GameEngine.this h' = GameEngine.this h).
Proof.
  intros (Hids & Hn & Hc & Hd & Hs & Hdr & Hdi & Hne & Hh) Hq Hcount.
  destruct (last_exists _ Hne) as (below & top & Hdiscard).
  pose proof (findPlayerIndex_at _ Hids _ _ Hq) as Hj.
  assert (Hq' : Js.get (GameState.players s)
                  (GameEngine.findPlayerIndex (GameState.players s) (Some (Player.id q)))
                = Some q) by (rewrite Hj; exact Hq).
  assert (Hfinish : forall drawn pile' discard',
             Permutation (GameState.drawPile s ++ GameState.discardPile s)
               (drawn ++ pile' ++ discard') ->
             discard' <> [] ->
             let s' := GameState.with_discardPile discard'
                         (GameState.with_drawPile pile'
                            (GameState.with_players
                               (Js.set (GameState.players s) j
                                  (Player.with_hand (Player.hand q ++ drawn) q))
                               s)) in
             wellFormed s' /\ sameCards s s'
             /\ GameState.currentPlayerIndex s' = GameState.currentPlayerIndex s
             /\ GameState.direction s' = GameState.direction s
             /\ GameState.stackedDrawAmount s' = GameState.stackedDrawAmount s).
  { intros drawn pile' discard' Hperm Hne' s'.
    assert (Hall : defined (drawn ++ pile' ++ discard')).
    { apply (defined_perm _ _ Hperm). apply defined_app. split; assumption. }
    apply defined_app in Hall. destruct Hall as [Hdrawn Hall].
    apply defined_app in Hall. destruct Hall as [Hpile' Hdiscard'].
    split; [|split; [|split; [|split]]]; try reflexivity.
    - unfold wellFormed, s'. cbn.
      rewrite (set_keeps_ids _ _ q _ Hq) by reflexivity.
      rewrite (set_length _ _ q _ Hq).
      split; [|split; [|split; [|split; [|split; [|split; [|split; [|split]]]]]]];
        try assumption.
      apply (hands_defined_set _ _ q _ Hq Hh). cbn. apply defined_app.
      split; [|exact Hdrawn]. exact (hand_defined_at _ _ _ Hq Hh).
    - unfold sameCards, allCards, s'. cbn.
      rewrite (hands_after_gain _ _ q _ drawn Hq) by reflexivity.
      set (hands := flat_map Player.hand (GameState.players s)).
      apply perm_trans
        with ((GameState.drawPile s ++ GameState.discardPile s) ++ hands);
        [rewrite app_assoc; reflexivity|].
      apply perm_trans with ((drawn ++ pile' ++ discard') ++ hands);
        [apply Permutation_app_tail, Hperm|].
      rewrite <- !app_assoc.
      apply perm_trans with ((pile' ++ discard' ++ hands) ++ drawn);
        [apply Permutation_app_comm|rewrite <- !app_assoc; reflexivity]. }
  destruct (Nat.le_gt_cases (Z.to_nat count) (List.length (GameState.drawPile s)))
    as [Hle|Hgt].
  - pose proof (forceDrawCards_enough s (Player.id q) (Z.to_nat count) h q Hq' Hle) as Hrun.
    rewrite Z2Nat.id in Hrun by lia. rewrite Hj in Hrun.
    eexists. eexists. split; [exact Hrun|].
    destruct (Hfinish (firstn (Z.to_nat count) (GameState.drawPile s))
                (skipn (Z.to_nat count) (GameState.drawPile s))
                (GameState.discardPile s)) as (H1 & H2 & H3 & H4 & H5).
    + rewrite app_assoc, firstn_skipn. reflexivity.
    + exact Hne.
    + split; [|split; [|split; [|split; [|split]]]]; try assumption.
      destruct h; reflexivity.
  - destruct (forceDrawCards_reshuffle s (Player.id q) (Z.to_nat count) h q below top
                Hq' Hgt Hdiscard) as (pile & w' & Hperm & Hrun).
    rewrite Z2Nat.id in Hrun by lia. rewrite Hj in Hrun.
    eexists. eexists. split; [exact Hrun|].
    destruct (Hfinish (firstn (Z.to_nat count) pile) (skipn (Z.to_nat count) pile) [top])
      as (H1 & H2 & H3 & H4 & H5).
    + rewrite app_assoc, firstn_skipn, Hdiscard, app_assoc.
      apply Permutation_app_tail. exact Hperm.
    + discriminate.
    + split; [|split; [|split; [|split; [|split]]]]; try assumption. reflexivity.
Qed.

Lemma returns_liftC {S A} (a : A) (s : S) (Q : A -> S -> Prop) :
  Q a s -> returns (liftC (Normal a)) s Q.
Proof. intros H. exists a, s. split; [reflexivity|exact H]. Qed.

Lemma returns_emit (e : Event.t) (h : GameEngine.Heap) (Q : unit -> GameEngine.Heap -> Prop) :
  (forall h', sameEngine h h' ->
              GameEngine.selectedWildColor (GameEngine.this h')
              = GameEngine.selectedWildColor (GameEngine.this h) ->
              GameEngine.world h' = GameEngine.world h ->
              Q tt h') ->
  returns (GameEngine.emit e) h Q.
Proof.
  intros H. eexists. eexists. split; [reflexivity|].
  apply H; [split; reflexivity|reflexivity|reflexivity].
Qed.

Lemma sameDrawKind_total (card : Card.t) (hand : list Slot) :
  defined hand -> exists b, someC (GameEngine.sameDrawKind card) hand = Normal b.
Proof.
  intros Hd. apply defined_map in Hd. destruct Hd as [cards ->].
  exists (existsb (fun c' =>
                     if Value.eqb (Card.value card) Value.draw2
                     then Value.eqb (Card.value c') Value.draw2
                     else if Value.eqb (Card.value card) Value.wild_draw4
                          then Value.eqb (Card.value c') Value.wild_draw4
                          else false) cards).
  apply someC_defined. intros c'. unfold GameEngine.sameDrawKind.
  destruct (Value.eqb (Card.value card) Value.draw2); [reflexivity|].
  destruct (Value.eqb (Card.value card) Value.wild_draw4); reflexivity.
Qed.

Ltac wf_fields H :=
  match type of H with
  | wellFormed ?s0 =>
      match goal with
      | |- wellFormed ?t => apply (wellFormed_same s0 t); [reflexivity ..|exact H]
      end
  end.

Lemma wellFormed_stacked v (s : GameState.t) :
  0 <= v -> wellFormed s -> wellFormed (GameState.with_stackedDrawAmount v s).
Proof.
  intros Hv (Hids & Hn & Hc & Hd & Hs & Hdr & Hdi & Hne & Hh). unfold wellFormed. cbn.
  split; [|split; [|split; [|split; [|split; [|split; [|split; [|split]]]]]]];
    assumption.
Qed.

Lemma wellFormed_reversed (s : GameState.t) :
  wellFormed s -> wellFormed (GameState.with_direction (GameState.direction s * -1) s).
Proof.
  intros (Hids & Hn & Hc & Hd & Hs & Hdr & Hdi & Hne & Hh). unfold wellFormed. cbn.
  split; [|split; [|split; [|split; [|split; [|split; [|split; [|split]]]]]]];
    try assumption. lia.
Qed.

Lemma getDrawAmount_nonneg c : 0 <= CardDeck.getDrawAmount c.
Proof.
  unfold CardDeck.getDrawAmount.
  destruct (Value.eqb _ _); [lia|]. destruct (Value.eqb _ _); lia.
Qed.

Lemma applyCardEffects_returns (s : GameState.t) (c : Card.t) (i : Z)
    (h : GameEngine.Heap) (pl : Player.t) :
  wellFormed s ->
  Js.get (GameState.players s) i = Some pl ->
  returns (GameEngine.applyCardEffects s c i) h (effectsPost s h).
Proof.
  intros HW Hpl. unfold GameEngine.applyCardEffects.
  apply returns_bind. eexists. eexists. split; [reflexivity|].
  set (r := GameConfig.enabledRules (GameEngine.config (GameEngine.this h))).
  destruct (CardDeck.isDrawCard c).
  - (* draw cards *)
    pose proof (getDrawAmount_nonneg c) as Hamount.
    assert (Hstack : 0 <= GameState.stackedDrawAmount s) by (apply HW).
    destruct (EnabledRules.stackDraw r).
    + apply returns_bind.
      eapply returns_conseq;
        [apply advanceTurn_returns, wellFormed_stacked; [lia|exact HW]|].
      intros s2 h2 (-> & W2 & C2 & E2 & Sel2).
      destruct (get_exists (GameState.players s)
                  (nextIndex (GameState.with_stackedDrawAmount
                                (GameState.stackedDrawAmount s
                                 + CardDeck.getDrawAmount c) s)))
        as [q Hq]; [apply W2|].
      apply returns_bind. cbn [advanced GameState.players GameState.with_turnStartTime
        GameState.with_currentPlayerIndex GameState.with_stackedDrawAmount
        GameState.currentPlayerIndex].
      rewrite Hq. apply returns_liftC.
      destruct (sameDrawKind_total c (Player.hand q)) as [b Hb].
      { apply (hand_defined_at _ _ _ Hq). apply HW. }
      apply returns_bind. rewrite Hb. apply returns_liftC.
      destruct b; cbn [negb].
      * apply returns_ret. split; [exact W2|]. split; [exact C2|].
        split; [exact E2|exact Sel2].
      * apply returns_bind.
        eapply returns_conseq;
          [apply (forceDrawCards_returns _ q _ _ h2 W2 Hq); cbn; lia|].
        intros s3 h3 (W3 & C3 & Hc3 & Hd3 & Hs3 & Hh3).
        eapply returns_conseq;
          [apply advanceTurn_returns, wellFormed_stacked; [lia|exact W3]|].
        intros s4 h4 (-> & W4 & C4 & E4 & Sel4).
        split; [exact W4|]. split.
        { eapply sameCards_trans; [exact C2|]. eapply sameCards_trans; [exact C3|].
          exact C4. }
        split.
        { eapply sameEngine_trans; [exact E2|].
          eapply sameEngine_trans; [|exact E4]. rewrite Hh3 in *.
          unfold sameEngine. rewrite Hh3. split; reflexivity. }
        rewrite Sel4, Hh3, Sel2. reflexivity.
    + apply returns_bind.
      eapply returns_conseq; [apply advanceTurn_returns, HW|].
      intros s2 h2 (-> & W2 & C2 & E2 & Sel2).
      destruct (get_exists (GameState.players s) (nextIndex s)) as [q Hq]; [apply W2|].
      apply returns_bind. cbn [advanced GameState.players GameState.with_turnStartTime
        GameState.with_currentPlayerIndex GameState.currentPlayerIndex].
      rewrite Hq. apply returns_liftC.
      apply returns_bind.
      eapply returns_conseq;
        [apply (forceDrawCards_returns _ q _ _ h2 W2 Hq); lia|].
      intros s3 h3 (W3 & C3 & Hc3 & Hd3 & Hs3 & Hh3).
      eapply returns_conseq; [apply advanceTurn_returns, W3|].
      intros s4 h4 (-> & W4 & C4 & E4 & Sel4).
      split; [exact W4|]. split.
      { eapply sameCards_trans; [exact C2|]. eapply sameCards_trans; [exact C3|].
        exact C4. }
      split.
      { eapply sameEngine_trans; [exact E2|].
        eapply sameEngine_trans; [|exact E4].
        unfold sameEngine. rewrite Hh3. split; reflexivity. }
      rewrite Sel4, Hh3, Sel2. reflexivity.
  - destruct (CardDeck.isSkipCard c).
    { (* skip *)
      apply returns_bind.
      eapply returns_conseq; [apply advanceTurn_returns, HW|].
      intros s2 h2 (-> & W2 & C2 & E2 & Sel2).
      eapply returns_conseq; [apply advanceTurn_returns, W2|].
      intros s3 h3 (-> & W3 & C3 & E3 & Sel3).
      split; [exact W3|]. split; [eapply sameCards_trans; eassumption|].
      split; [eapply sameEngine_trans; eassumption|]. congruence. }
    destruct (CardDeck.isReverseCard c).
    { (* reverse *)
      pose proof (wellFormed_reversed s HW) as HR.
      destruct (jlength (GameState.players
                           (GameState.with_direction (GameState.direction s * -1) s)) =? 2).
      - apply returns_bind.
        eapply returns_conseq; [apply advanceTurn_returns, HR|].
        intros s2 h2 (-> & W2 & C2 & E2 & Sel2).
        eapply returns_conseq; [apply advanceTurn_returns, W2|].
        intros s3 h3 (-> & W3 & C3 & E3 & Sel3).
        split; [exact W3|]. split; [eapply sameCards_trans; eassumption|].
        split; [eapply sameEngine_trans; eassumption|]. congruence.
      - eapply returns_conseq; [apply advanceTurn_returns, HR|].
        intros s2 h2 (-> & W2 & C2 & E2 & Sel2).
        split; [exact W2|]. split; [exact C2|]. split; [exact E2|exact Sel2]. }
    (* number cards and wild *)
    apply returns_bind.
    assert (Hsilence :
              returns
                (if EnabledRules.silence r && Value.eqb (Card.value c) (Value.num 7)
                 then
                   bind (GameEngine.emit
                           (Event.silence_toggled
                              (GameState.silenceMode
                                 (GameState.with_silenceMode
                                    (negb (GameState.silenceMode s)) s))))
                     (fun _ => ret (GameState.with_silenceMode
                                      (negb (GameState.silenceMode s)) s))
                 else ret s) h
                (fun s1 h1 => effectsPost s h s1 h1
                              /\ GameState.players s1 = GameState.players s)).
    { destruct (EnabledRules.silence r && Value.eqb (Card.value c) (Value.num 7)).
      - apply returns_bind. apply returns_emit. intros h1 E1 Sel1 _.
        apply returns_ret. split; [|reflexivity].
        split; [wf_fields HW|]. split; [exact (Permutation_refl _)|]. split; assumption.
      - apply returns_ret. split; [|reflexivity].
        split; [exact HW|]. split; [apply sameCards_refl|].
        split; [apply sameEngine_refl|reflexivity]. }
    eapply returns_conseq; [exact Hsilence|]. clear Hsilence.
    intros s1 h1 ((W1 & C1 & E1 & Sel1) & Hp1).
    destruct (EnabledRules.customRule r && Value.eqb (Card.value c) (Value.num 0)).
    { apply returns_bind. rewrite Hpl. apply returns_liftC. apply returns_ret.
      split; [wf_fields W1|]. split; [exact C1|]. split; [exact E1|exact Sel1]. }
    destruct (EnabledRules.slap r && Value.eqb (Card.value c) (Value.num 5)).
    { apply returns_bind. eexists. eexists. split; [reflexivity|].
      apply returns_bind. apply returns_emit. intros h2 E2 Sel2 _.
      apply returns_ret.
      split; [wf_fields W1|]. split; [exact C1|].
      split; [eapply sameEngine_trans; [exact E1|]; exact E2|].
      rewrite Sel2. exact Sel1. }
    eapply returns_conseq; [apply advanceTurn_returns, W1|].
    intros s2 h2 (-> & W2 & C2 & E2 & Sel2).
    split; [exact W2|]. split; [eapply sameCards_trans; eassumption|].
    split; [eapply sameEngine_trans; eassumption|]. congruence.
Qed.

Lemma findPlayer_get (players : list Player.t) (o : option string) (p : Player.t) :
  GameEngine.findPlayer players o = Some p ->
  Js.get players (GameEngine.findPlayerIndex players o) = Some p.
Proof.
  unfold GameEngine.findPlayer, GameEngine.findPlayerIndex, findIndex.
  set (g := fun q => eqOpt (Player.id q) o).
  assert (Hgen : forall l k, 0 <= k -> find g l = Some p ->
                   exists n, findIndexFrom g l k = k + Z.of_nat n
                             /\ nth_error l n = Some p).
  { induction l as [|x l IH]; intros k Hk; cbn; [discriminate|].
    destruct (g x).
    - intros H. injection H as ->. exists 0%nat. split; [lia|reflexivity].
    - intros H. destruct (IH (k + 1) ltac:(lia) H) as (n & Hn & Hx).
      exists (S n). split; [lia|exact Hx]. }
  intros H. destruct (Hgen players 0 ltac:(lia) H) as (n & Hn & Hx).
  rewrite Hn. unfold Js.get. destruct (Z.ltb_spec (0 + Z.of_nat n) 0); [lia|].
  replace (Z.to_nat (0 + Z.of_nat n)) with n by lia. exact Hx.
Qed.

Lemma hands_after_loss (players : list Player.t) i p p' (x : Slot) :
  Js.get players i = Some p ->
  Permutation (Player.hand p) (x :: Player.hand p') ->
  Permutation (flat_map Player.hand players)
              (x :: flat_map Player.hand (Js.set players i p')).
Proof.
  intros Hget Hp. destruct (get_split _ _ _ Hget) as (l1 & l2 & -> & _ & Hset).
  rewrite Hset, !flat_map_app. cbn [flat_map]. rewrite Hp.
  cbn [app]. symmetry. apply Permutation_middle.
Qed.

Lemma returns_setSelected (c : option Color.t) (h : GameEngine.Heap)
    (Q : unit -> GameEngine.Heap -> Prop) :
  (forall h', sameEngine h h' -> Q tt h') -> returns (GameEngine.setSelected c) h Q.
Proof.
  intros H. eexists. eexists. split; [reflexivity|]. apply H. split; reflexivity.
Qed.

Lemma handlePlayCard_returns (s : GameState.t) (a : GameAction.t) (h : GameEngine.Heap)
    (p : Player.t) (id : string) (c : Card.t) :
  wellFormed s ->
  GameEngine.findPlayer (GameState.players s) (Some (GameAction.playerId a)) = Some p ->
  GameAction.cardId a = Some id ->
  findC (GameEngine.hasId (Some id)) (Player.hand p) = Normal (Some (Some c)) ->
  returns (GameEngine.handlePlayCard s a) h (handlerPost s h).
Proof.
  intros HW Hp Hid Hc. unfold GameEngine.handlePlayCard.
  pose proof (findPlayer_get _ _ _ Hp) as Hget.
  set (i := GameEngine.findPlayerIndex (GameState.players s)
              (Some (GameAction.playerId a))) in *.
  apply returns_bind. rewrite Hget. apply returns_liftC.
  destruct (findC_to_index _ _ _ 0 Hc) as (n & Hn & Hnth).
  apply returns_bind. rewrite Hid. unfold findIndexC. rewrite Hn. apply returns_liftC.
  replace (0 + Z.of_nat n) with (Z.of_nat n) by lia.
  assert (Hslot : getSlot (Player.hand p) (Z.of_nat n) = Some c).
  { unfold getSlot, Js.get. destruct (Z.ltb_spec (Z.of_nat n) 0); [lia|].
    rewrite Nat2Z.id, Hnth. reflexivity. }
  rewrite Hslot. rewrite slice_prefix.
  replace (Z.of_nat n + 1) with (Z.of_nat (S n)) by lia. rewrite sliceFrom_suffix.
  set (newHand := firstn n (Player.hand p) ++ skipn (S n) (Player.hand p)).
  set (p' := Player.with_hasCalledUno false (Player.with_hand newHand p)).
  set (s1 := GameState.with_discardPile (GameState.discardPile s ++ [Some c])
               (GameState.with_players (Js.set (GameState.players s) i p') s)).
  assert (Hhand : defined (Player.hand p)).
  { apply (hand_defined_at _ _ _ Hget). apply HW. }
  assert (Hnew : defined newHand).
  { apply defined_app. split; [apply defined_firstn|apply defined_skipn]; exact Hhand. }
  assert (W1 : wellFormed s1).
  { destruct HW as (Hids & Hlen & Hcur & Hd & Hs & Hdr & Hdi & Hne & Hh).
    unfold wellFormed, s1. cbn.
    rewrite (set_keeps_ids _ _ p _ Hget) by reflexivity.
    rewrite (set_length _ _ p _ Hget).
    split; [|split; [|split; [|split; [|split; [|split; [|split; [|split]]]]]]];
      try assumption.
    - apply defined_app. split; [exact Hdi|]. constructor; [discriminate|constructor].
    - intros E. apply app_eq_nil in E. destruct E; discriminate.
    - apply (hands_defined_set _ _ p _ Hget Hh). exact Hnew. }
  assert (C1 : sameCards s s1).
  { unfold sameCards, allCards, s1. cbn.
    apply Permutation_app_head.
    rewrite (hands_after_loss _ i p p' (Some c) Hget).
    - rewrite <- app_assoc. apply Permutation_app_head. cbn. reflexivity.
    - cbn. eapply perm_trans; [apply (take_out_perm _ n _ Hnth)|].
      symmetry. apply Permutation_middle. }
  apply returns_bind. apply returns_liftC.
  apply returns_bind.
  assert (Hsel : forall o, returns (GameEngine.setSelected o) h
                             (fun _ h1 => sameEngine h h1)).
  { intros o. apply returns_setSelected. auto. }
  eapply returns_conseq.
  { destruct (Color.eqb (Card.color c) Color.wild), (GameAction.wildColor a);
      apply Hsel. }
  intros [] h1 E1. cbv beta.
  destruct (jlength newHand =? 0).
  - apply returns_bind. apply returns_emit. intros h2 E2 _ _.
    apply returns_ret. split; [wf_fields W1|]. split; [exact C1|].
    eapply sameEngine_trans; eassumption.
  - apply returns_bind.
    eapply returns_conseq.
    { apply (applyCardEffects_returns s1 c i h1 p' W1).
      unfold s1. cbn. eapply get_set_same. exact Hget. }
    intros s2 h2 (W2 & C2 & E2 & _).
    apply returns_bind. apply returns_emit. intros h3 E3 _ _.
    apply returns_ret. split; [exact W2|].
    split; [eapply sameCards_trans; eassumption|].
    eapply sameEngine_trans; [exact E1|]. eapply sameEngine_trans; eassumption.
Qed.

(* ===================================================================== *)
(** ** What every action handler leaves in place                         *)
(* ===================================================================== *)

Lemma safely_returns {A} (c : GameEngine.E A) h (Q : A -> Prop) :
  returns c h (fun a h' => Q a /\ sameEngine h h') -> safely c h Q.
Proof.
  intros (a & h' & Hc & HQ & HE). unfold safely. rewrite Hc. cbn. split; assumption.
Qed.

Lemma safely_ret {A} (a : A) h (Q : A -> Prop) : Q a -> safely (ret a) h Q.
Proof. intros H. split; [apply sameEngine_refl|exact H]. Qed.

Lemma safely_bind {A B} (c : GameEngine.E A) (k : A -> GameEngine.E B) h (Q : B -> Prop) :
  safely c h (fun a => safely (k a) (snd (c h)) Q) -> safely (bind c k) h Q.
Proof.
  unfold safely, bind. destruct (c h) as [[a|e] h1]; cbn.
  - intros (E1 & E2 & HQ). split; [eapply sameEngine_trans; eassumption|exact HQ].
  - intros (E1 & _). split; [exact E1|exact I].
Qed.

Lemma safely_conseq {A} (c : GameEngine.E A) h (Q Q' : A -> Prop) :
  safely c h Q -> (forall a, Q a -> Q' a) -> safely c h Q'.
Proof.
  unfold safely. intros [E HQ] H. split; [exact E|].
  destruct (fst (c h)); [auto|exact I].
Qed.

Lemma safely_liftC {A} (c : Completion A) h (Q : A -> Prop) :
  (forall a, c = Normal a -> Q a) -> safely (liftC c) h Q.
Proof.
  intros H. split; [apply sameEngine_refl|]. cbn. destruct c; [auto|exact I].
Qed.

Lemma safely_liftW {A} (c : M World.t A) h (Q : A -> Prop) :
  (forall a w', c (GameEngine.world h) = (Normal a, w') -> Q a) ->
  safely (GameEngine.liftW c) h Q.
Proof.
  intros H. unfold safely, GameEngine.liftW.
  destruct (c (GameEngine.world h)) as [[a|e] w'] eqn:Hc; cbn.
  - split; [split; reflexivity|]. eapply H. reflexivity.
  - split; [split; reflexivity|exact I].
Qed.

Lemma safely_emit e h (Q : unit -> Prop) : Q tt -> safely (GameEngine.emit e) h Q.
Proof. intros H. split; [split; reflexivity|exact H]. Qed.

Lemma safely_setSelected o h (Q : unit -> Prop) :
  Q tt -> safely (GameEngine.setSelected o) h Q.
Proof. intros H. split; [split; reflexivity|exact H]. Qed.

Lemma safely_gets {A} (f : GameEngine.Heap -> A) h (Q : A -> Prop) :
  Q (f h) -> safely (gets f) h Q.
Proof. intros H. split; [apply sameEngine_refl|exact H]. Qed.

Lemma safely_advanceTurn s h (Q : GameState.t -> Prop) :
  (forall now, Q (advanced now s)) -> safely (GameEngine.advanceTurn s) h Q.
Proof.
  intros H. unfold safely. rewrite advanceTurn_eq. cbn.
  split; [split; reflexivity|apply H].
Qed.

Lemma findPlayerIndex_id (players : list Player.t) (pid : string) (q : Player.t) :
  Js.get players (GameEngine.findPlayerIndex players (Some pid)) = Some q ->
  Player.id q = pid.
Proof.
  intros H. apply findIndex_sat in H. cbn in H. apply String.eqb_eq. exact H.
Qed.

Lemma forceDrawCards_safely (s : GameState.t) (pid : string) (count : Z) h :
  wellFormed s -> 0 <= count ->
  safely (GameEngine.forceDrawCards s pid count) h (drawPost s).
Proof.
  intros HW Hcount.
  destruct (Js.get (GameState.players s)
              (GameEngine.findPlayerIndex (GameState.players s) (Some pid)))
    as [q|] eqn:Hq.
  - pose proof (findPlayerIndex_id _ _ _ Hq) as <-.
    apply safely_returns.
    eapply returns_conseq; [apply (forceDrawCards_returns s q _ count h HW Hq Hcount)|].
    intros s' h' (W' & C' & H1 & H2 & H3 & H4).
    split; [split; [exact W'|]; split; [exact C'|]; split; [exact H1|];
            split; [exact H2|exact H3]|].
    unfold sameEngine. rewrite H4. split; reflexivity.
  - unfold GameEngine.forceDrawCards. rewrite Hq.
    apply safely_bind.
    destruct (jlength (GameState.drawPile s) <? count).
    + destruct (pop (GameState.discardPile s)) as [topCard rest].
      apply safely_bind. apply safely_liftW. intros pile w' _.
      apply safely_ret. apply safely_bind. apply safely_liftC. discriminate.
    + apply safely_ret. destruct (CardDeck.drawCards _ _).
      apply safely_bind. apply safely_liftC. discriminate.
Qed.

Lemma findC_defined (f : Slot -> Completion bool) (g : Card.t -> bool) cards :
  (forall c, f (Some c) = Normal (g c)) ->
  findC f (map Some cards) = Normal (option_map Some (find g cards)).
Proof.
  intros Hf. induction cards as [|c cards IH]; cbn; [reflexivity|].
  rewrite Hf. cbn. destruct (g c); [reflexivity|exact IH].
Qed.

Lemma handlePlayCard_safely (s : GameState.t) (a : GameAction.t) h :
  wellFormed s -> safely (GameEngine.handlePlayCard s a) h (stepPost s).
Proof.
  intros HW.
  destruct (Js.get (GameState.players s)
              (GameEngine.findPlayerIndex (GameState.players s)
                 (Some (GameAction.playerId a)))) as [p|] eqn:Hget.
  2:{ unfold GameEngine.handlePlayCard. rewrite Hget.
      apply safely_bind. apply safely_liftC. discriminate. }
  assert (Hhand : defined (Player.hand p)).
  { apply (hand_defined_at _ _ _ Hget). apply HW. }
  apply defined_map in Hhand. destruct Hhand as [cards Hcards].
  destruct (GameAction.cardId a) as [id|] eqn:Hid.
  2:{ unfold GameEngine.handlePlayCard. rewrite Hget, Hid.
      apply safely_bind. apply safely_liftC. intros p0 Hp0. injection Hp0 as <-.
      apply safely_bind.
      rewrite Hcards. unfold findIndexC.
      rewrite (findIndexFromC_defined _ (fun _ => false) cards 0) by reflexivity.
      apply safely_liftC. intros k Hk. injection Hk as <-.
      assert (Hnone : getSlot (map Some cards) (findIndexFrom (fun _ => false) cards 0)
                      = None).
      { unfold getSlot. rewrite get_map.
        destruct (Js.get cards (findIndexFrom (fun _ : Card.t => false) cards 0))
          as [c|] eqn:Hc; [|reflexivity].
        apply (findIndex_sat (fun _ => false)) in Hc. discriminate. }
      rewrite Hnone. apply safely_bind. apply safely_liftC. discriminate. }
  set (g := fun c : Card.t => eqOpt (Card.id c) (Some id)).
  assert (Hidx : findIndexC (GameEngine.hasId (Some id)) (Player.hand p)
                 = Normal (findIndex g cards)).
  { rewrite Hcards. apply findIndexFromC_defined. reflexivity. }
  destruct (Js.get cards (findIndex g cards)) as [c|] eqn:Hc.
  - apply safely_returns.
    eapply returns_conseq.
    + apply (handlePlayCard_returns s a h p id c HW).
      * apply find_of_findIndex. exact Hget.
      * exact Hid.
      * rewrite Hcards.
        rewrite (findC_defined _ g) by reflexivity.
        rewrite (find_of_findIndex _ _ _ Hc). reflexivity.
    + intros s' h' (W' & C' & E'). split; [split; assumption|exact E'].
  - unfold GameEngine.handlePlayCard. rewrite Hget, Hid.
    apply safely_bind. apply safely_liftC. intros p0 Hp0. injection Hp0 as <-.
    apply safely_bind. rewrite Hidx. apply safely_liftC. intros k Hk. injection Hk as <-.
    assert (Hnone : getSlot (Player.hand p) (findIndex g cards) = None).
    { unfold getSlot. rewrite Hcards, get_map, Hc. reflexivity. }
    rewrite Hnone. apply safely_bind. apply safely_liftC. discriminate.
Qed.

Lemma stepPost_advanced now s0 s : wellFormed s -> sameCards s0 s -> stepPost s0 (advanced now s).
Proof.
  intros HW HC. split; [apply wellFormed_advanced, HW|].
  eapply sameCards_trans; [exact HC|apply sameCards_advanced].
Qed.

Lemma handleDrawCard_safely (s : GameState.t) (a : GameAction.t) h :
  wellFormed s -> safely (GameEngine.handleDrawCard s a) h (stepPost s).
Proof.
  intros HW. unfold GameEngine.handleDrawCard.
  apply safely_bind.
  eapply safely_conseq.
  { apply forceDrawCards_safely; [exact HW|].
    destruct (Z.gtb_spec (GameState.stackedDrawAmount s) 0); lia. }
  intros s1 (W1 & C1 & _).
  apply safely_bind. apply safely_emit.
  apply safely_advanceTurn. intros now.
  apply stepPost_advanced; [apply wellFormed_stacked; [lia|exact W1]|exact C1].
Qed.

Lemma handleCatchUno_safely (s : GameState.t) (a : GameAction.t) h :
  wellFormed s -> safely (GameEngine.handleCatchUno s a) h (stepPost s).
Proof.
  intros HW. unfold GameEngine.handleCatchUno.
  destruct (GameAction.targetPlayerId a) as [target|];
    [|apply safely_ret; split; [exact HW|apply sameCards_refl]].
  destruct (String.eqb target "");
    [apply safely_ret; split; [exact HW|apply sameCards_refl]|].
  apply safely_bind.
  eapply safely_conseq; [apply forceDrawCards_safely; [exact HW|lia]|].
  intros s1 (W1 & C1 & _).
  apply safely_bind. apply safely_emit. apply safely_ret. split; assumption.
Qed.

Lemma handleReportSpeaking_safely (s : GameState.t) (a : GameAction.t) h :
  wellFormed s -> safely (GameEngine.handleReportSpeaking s a) h (stepPost s).
Proof.
  intros HW. unfold GameEngine.handleReportSpeaking.
  apply safely_bind. apply safely_gets.
  destruct (negb _ || negb _);
    [apply safely_ret; split; [exact HW|apply sameCards_refl]|].
  destruct (GameAction.targetPlayerId a) as [target|];
    [|apply safely_ret; split; [exact HW|apply sameCards_refl]].
  destruct (String.eqb target "");
    [apply safely_ret; split; [exact HW|apply sameCards_refl]|].
  apply safely_bind.
  eapply safely_conseq; [apply forceDrawCards_safely; [exact HW|lia]|].
  intros s1 (W1 & C1 & _).
  apply safely_bind. apply safely_emit. apply safely_ret. split; assumption.
Qed.

Lemma handleCallUno_safely (s : GameState.t) (a : GameAction.t) h :
  wellFormed s -> safely (GameEngine.handleCallUno s a) h (stepPost s).
Proof.
  intros HW. unfold GameEngine.handleCallUno.
  apply safely_bind. apply safely_emit. apply safely_ret.
  destruct (Js.get (GameState.players s) _) as [p|] eqn:Hget.
  - destruct HW as (Hids & Hlen & Hcur & Hd & Hs & Hdr & Hdi & Hne & Hh).
    split.
    + unfold wellFormed. cbn.
      rewrite (set_keeps_ids _ _ p _ Hget) by reflexivity.
      rewrite (set_length _ _ p _ Hget).
      split; [|split; [|split; [|split; [|split; [|split; [|split; [|split]]]]]]];
        try assumption.
      apply (hands_defined_set _ _ p _ Hget Hh). cbn.
      exact (hand_defined_at _ _ _ Hget Hh).
    + unfold sameCards, allCards. cbn. do 2 apply Permutation_app_head.
      destruct (get_split _ _ _ Hget) as (l1 & l2 & Hl & _ & Hset).
      rewrite Hset. rewrite Hl at 1. rewrite !flat_map_app. reflexivity.
  - split; [wf_fields HW|exact (Permutation_refl _)].
Qed.

Ltac same_table HW := split; [wf_fields HW|exact (Permutation_refl _)].

Lemma handleSelectColor_safely (s : GameState.t) (a : GameAction.t) h :
  wellFormed s -> safely (GameEngine.handleSelectColor s a) h (stepPost s).
Proof.
  intros HW. unfold GameEngine.handleSelectColor.
  apply safely_bind.
  assert (Hk : safely (GameEngine.advanceTurn
                         (GameState.with_pendingAction None
                            (GameState.with_phase Phase.playing s)))
                 (snd ((match GameAction.wildColor a with
                        | Some w => GameEngine.setSelected (Some w)
                        | None => ret tt
                        end) h)) (stepPost s)).
  { apply safely_advanceTurn. intros now.
    apply stepPost_advanced; [wf_fields HW|exact (Permutation_refl _)]. }
  destruct (GameAction.wildColor a); [apply safely_setSelected|apply safely_ret]; exact Hk.
Qed.

Lemma handleCreateCustomRule_safely (s : GameState.t) (a : GameAction.t) h :
  wellFormed s -> safely (GameEngine.handleCreateCustomRule s a) h (stepPost s).
Proof.
  intros HW. unfold GameEngine.handleCreateCustomRule.
  destruct (GameAction.customRule a) as [rule|]; [|apply safely_ret; same_table HW].
  apply safely_bind. apply safely_liftW. intros id w1 _.
  apply safely_bind. apply safely_liftW. intros now w2 _.
  apply safely_bind. apply safely_emit.
  apply safely_advanceTurn. intros now'.
  apply stepPost_advanced; [wf_fields HW|exact (Permutation_refl _)].
Qed.

Lemma handleRequestCard_safely (s : GameState.t) (a : GameAction.t) h :
  wellFormed s -> safely (GameEngine.handleRequestCard s a) h (stepPost s).
Proof.
  intros HW. unfold GameEngine.handleRequestCard.
  apply safely_bind. apply safely_gets.
  destruct (negb _); [apply safely_ret; same_table HW|].
  destruct (GameAction.targetPlayerId a) as [target|]; [|apply safely_ret; same_table HW].
  destruct (String.eqb target ""); [apply safely_ret; same_table HW|].
  destruct (String.eqb _ target); [apply safely_ret; same_table HW|].
  destruct (GameEngine.findPlayer _ _) as [p|]; [|apply safely_ret; same_table HW].
  destruct (jlength _ =? 0); [apply safely_ret; same_table HW|].
  apply safely_bind. apply safely_emit. apply safely_ret. same_table HW.
Qed.

Lemma handleDeclineRequest_safely (s : GameState.t) (a : GameAction.t) h :
  wellFormed s -> safely (GameEngine.handleDeclineRequest s a) h (stepPost s).
Proof.
  intros HW. unfold GameEngine.handleDeclineRequest.
  destruct (GameState.pendingAction s) as [pending|]; [|apply safely_ret; same_table HW].
  destruct (negb _); [apply safely_ret; same_table HW|].
  destruct (negb _); [apply safely_ret; same_table HW|].
  apply safely_bind. apply safely_emit. apply safely_ret. same_table HW.
Qed.

Lemma handleOfferCard_safely (s : GameState.t) (a : GameAction.t) h :
  wellFormed s -> safely (GameEngine.handleOfferCard s a) h (stepPost s).
Proof.
  intros HW. unfold GameEngine.handleOfferCard.
  apply safely_bind. apply safely_gets.
  destruct (negb _); [apply safely_ret; same_table HW|].
  destruct (negb _); [apply safely_ret; same_table HW|].
  destruct (GameState.pendingAction s) as [pending|]; [|apply safely_ret; same_table HW].
  destruct (negb _); [apply safely_ret; same_table HW|].
  destruct (negb _); [apply safely_ret; same_table HW|].
  destruct (PendingAction.requesterId pending) as [requester|];
    [|apply safely_ret; same_table HW].
  destruct (String.eqb requester ""); [apply safely_ret; same_table HW|].
  apply safely_bind. apply safely_emit. apply safely_ret. same_table HW.
Qed.

Lemma handleJumpIn_safely (s : GameState.t) (a : GameAction.t) h :
  wellFormed s -> safely (GameEngine.handleJumpIn s a) h (stepPost s).
Proof.
  intros HW. unfold GameEngine.handleJumpIn.
  set (i := GameEngine.findPlayerIndex (GameState.players s)
              (Some (GameAction.playerId a))).
  destruct (Js.get (GameState.players s) i) as [p|] eqn:Hget.
  - pose proof (get_in_range _ _ _ Hget) as Hr.
    assert (HW' : wellFormed (GameState.with_currentPlayerIndex i s)).
    { destruct HW as (Hids & Hlen & Hcur & Hd & Hs & Hdr & Hdi & Hne & Hh).
      unfold wellFormed. cbn.
      split; [|split; [|split; [|split; [|split; [|split; [|split; [|split]]]]]]];
        assumption. }
    eapply safely_conseq; [apply (handlePlayCard_safely _ a h HW')|].
    intros s' [W' C']. split; [exact W'|exact C'].
  - unfold GameEngine.handlePlayCard. cbn [GameState.players GameState.with_currentPlayerIndex].
    fold i. rewrite Hget. apply safely_bind. apply safely_liftC. discriminate.
Qed.

Lemma applyAction_safely (a : GameAction.t) h :
  wellFormed (GameEngine.state (GameEngine.this h)) ->
  GameAction.type a <> ActionType.accept_offer ->
  safely (GameEngine.applyAction a) h (stepPost (GameEngine.state (GameEngine.this h))).
Proof.
  intros HW Htype. unfold GameEngine.applyAction.
  apply safely_bind. apply safely_gets.
  set (s := GameEngine.state (GameEngine.this h)) in *.
  destruct (GameAction.type a).
  - apply handlePlayCard_safely, HW.
  - apply handleDrawCard_safely, HW.
  - apply handleCallUno_safely, HW.
  - apply handleCatchUno_safely, HW.
  - apply safely_ret. split; [exact HW|apply sameCards_refl].
  - apply handleCreateCustomRule_safely, HW.
  - apply handleRequestCard_safely, HW.
  - apply handleDeclineRequest_safely, HW.
  - apply handleOfferCard_safely, HW.
  - congruence.
  - unfold GameEngine.handleDeclineOffer.
    apply safely_bind. apply safely_emit. apply safely_ret. same_table HW.
  - apply handleReportSpeaking_safely, HW.
  - apply handleSelectColor_safely, HW.
  - unfold GameEngine.handlePassTurn. apply safely_advanceTurn. intros now.
    apply stepPost_advanced; [exact HW|apply sameCards_refl].
  - apply handleJumpIn_safely, HW.
Qed.

Lemma dispatch_step (a : GameAction.t) (h : GameEngine.Heap) r h' :
  wellFormed (GameEngine.state (GameEngine.this h)) ->
  GameAction.type a <> ActionType.accept_offer ->
  GameEngine.dispatch a h = (r, h') ->
  wellFormed (GameEngine.state (GameEngine.this h'))
  /\ sameCards (GameEngine.state (GameEngine.this h)) (GameEngine.state (GameEngine.this h'))
  /\ GameEngine.config (GameEngine.this h') = GameEngine.config (GameEngine.this h).
Proof.
  intros HW Htype. unfold GameEngine.dispatch. unfold bind at 1.
  pose proof (readonly_validateAction a h) as Hro.
  destruct (GameEngine.validateAction a h) as [[v|e] h1]; cbn in Hro; subst h1.
  2:{ intros E. injection E as <- <-.
      split; [exact HW|]. split; [apply sameCards_refl|reflexivity]. }
  destruct (ValidationResult.valid v); cbn [negb].
  2:{ cbn. intros E. injection E as <- <-.
      split; [exact HW|]. split; [apply sameCards_refl|reflexivity]. }
  unfold bind at 1.
  destruct (applyAction_safely a h HW Htype) as [[Hst Hcfg] HQ].
  destruct (GameEngine.applyAction a h) as [[s1|e] h2]; cbn in Hst, Hcfg, HQ.
  2:{ intros E. injection E as <- <-. rewrite Hst, Hcfg.
      split; [exact HW|]. split; [apply sameCards_refl|reflexivity]. }
  destruct HQ as [W1 C1]. cbn. intros E. injection E as <- <-. cbn.
  split; [wf_fields W1|]. split; [exact C1|exact Hcfg].
Qed.

Lemma dispatchAll_steps (actions : list GameAction.t) (h : GameEngine.Heap) :
  wellFormed (GameEngine.state (GameEngine.this h)) ->
  Forall (fun a => GameAction.type a <> ActionType.accept_offer) actions ->
  stepPost (GameEngine.state (GameEngine.this h))
    (GameEngine.state (GameEngine.this (snd (dispatchAll actions h)))).
Proof.
  intros HW Hall. revert h HW.
  induction Hall as [|a actions Ha _ IH]; intros h HW.
  - cbn. split; [exact HW|apply sameCards_refl].
  - cbn [dispatchAll]. unfold bind.
    destruct (GameEngine.dispatch a h) as [r h1] eqn:Hrun.
    destruct (dispatch_step a h r h1 HW Ha Hrun) as (W1 & C1 & _).
    destruct r as [s1|e].
    + destruct (IH h1 W1) as (W2 & C2).
      split; [exact W2|]. eapply sameCards_trans; eassumption.
    + cbn. split; assumption.
Qed.

(** X5.  Deck conservation, where it holds.  At a table at which a game
    can go on (at least two players with distinct identifiers, the turn at
    one of them, a direction of 1 or -1, no negative penalty, a card on
    the discard pile, no [undefined] anywhere), dispatch any sequence of
    actions none of which is [accept_offer]: whether each is carried out,
    rejected or ends in a [TypeError], the table is again one at which the
    game can go on, and the cards of the draw pile, the discard pile and
    the hands are the same cards as before, none lost and none twice. *)
Theorem actions_conserve_cards (actions : list GameAction.t) (h : GameEngine.Heap) :
  wellFormed (GameEngine.state (GameEngine.this h)) ->
  Forall (fun a => GameAction.type a <> ActionType.accept_offer) actions ->
  wellFormed (GameEngine.state (GameEngine.this (snd (dispatchAll actions h))))
  /\ Permutation (allCards (GameEngine.state (GameEngine.this h)))
       (allCards (GameEngine.state (GameEngine.this (snd (dispatchAll actions h)))))
  /\ cardCount (GameEngine.state (GameEngine.this (snd (dispatchAll actions h))))
     = cardCount (GameEngine.state (GameEngine.this h)).
Proof.
  intros HW Hall.
  destruct (dispatchAll_steps actions h HW Hall) as [HW' Hsame].
  split; [exact HW'|]. split; [exact Hsame|].
  unfold cardCount. symmetry. apply Permutation_length. exact Hsame.
Qed.

Lemma wellFormed_table : wellFormed (Examples.table Examples.fullPile).
Proof.
  unfold wellFormed.
  split; [|split; [|split; [|split; [|split; [|split; [|split; [|split]]]]]]].
  - repeat constructor; cbn; intuition discriminate.
  - vm_compute. discriminate.
  - split; vm_compute; [discriminate|reflexivity].
  - left. reflexivity.
  - vm_compute. discriminate.
  - repeat constructor; discriminate.
  - repeat constructor; discriminate.
  - discriminate.
  - repeat constructor; discriminate.
Qed.

(** X5 at the small table: Alice plays her draw-two, Bob draws, Alice
    draws. *)
Lemma actions_conserve_cards_witness :
  wellFormed (GameEngine.state (GameEngine.this
                (Examples.heapOf (Examples.table Examples.fullPile) Examples.allRules)))
  /\ Forall (fun a => GameAction.type a <> ActionType.accept_offer)
       [Examples.playDrawTwo; Examples.drawByBob; Examples.drawByAlice]
  /\ cardCount
       (GameEngine.state (GameEngine.this
          (snd (dispatchAll [Examples.playDrawTwo; Examples.drawByBob; Examples.drawByAlice]
                  (Examples.heapOf (Examples.table Examples.fullPile) Examples.allRules)))))
     = 10%nat.
Proof.
  assert (Hall : Forall (fun a => GameAction.type a <> ActionType.accept_offer)
                   [Examples.playDrawTwo; Examples.drawByBob; Examples.drawByAlice])
    by (repeat constructor; discriminate).
  split; [exact wellFormed_table|]. split; [exact Hall|].
  exact (proj2 (proj2 (actions_conserve_cards
                         [Examples.playDrawTwo; Examples.drawByBob; Examples.drawByAlice]
                         (Examples.heapOf (Examples.table Examples.fullPile)
                            Examples.allRules)
                         wellFormed_table Hall))).
Defined.

(* ===================================================================== *)
(** ** The deal and the game that follows                                *)
(* ===================================================================== *)

Lemma defined_hands (players : list Player.t) :
  defined (flat_map Player.hand players) ->
  Forall (fun p => defined (Player.hand p)) players.
Proof.
  induction players as [|p players IH]; cbn; intros H; [constructor|].
  apply defined_app in H. destruct H as [H1 H2]. constructor; [exact H1|auto].
Qed.

Lemma deal_run (config : GameConfig.t) (w : World.t) :
  (7 * List.length (GameConfig.playerNames config) < 108)%nat ->
  exists cards w1 state w',
    CardDeck.createDeck w = (Normal cards, w1)
    /\ GameEngine.createInitialState config w = (Normal state, w')
    /\ Permutation (allCards state) (map Some cards)
    /\ cardCount state = 108%nat
    /\ map Player.id (GameState.players state)
       = map (fun k => World.uuids w (108 + k)%nat)
           (seq 0 (List.length (GameConfig.playerNames config)))
    /\ defined (GameState.drawPile state)
    /\ Forall (fun p => defined (Player.hand p)) (GameState.players state)
    /\ map Player.name (GameState.players state) = GameConfig.playerNames config
    /\ Forall (fun p => List.length (Player.hand p) = 7%nat) (GameState.players state)
    /\ (List.length (GameState.drawPile state)
        = 107 - 7 * List.length (GameConfig.playerNames config))%nat
    /\ (exists top,
          GameState.discardPile state = [Some top]
          /\ (startable top = true
              \/ forall c, In (Some c) (GameState.drawPile state) -> startable c = false)
          /\ ((List.length (GameConfig.playerNames config) <= 10)%nat ->
              startable top = true))
    /\ GameState.phase state = Phase.playing
    /\ GameState.currentPlayerIndex state = 0
    /\ GameState.direction state = 1
    /\ GameState.stackedDrawAmount state = 0
    /\ GameState.pendingAction state = None
    /\ GameState.winner state = None.
Proof.
  intros Hn. set (n := List.length (GameConfig.playerNames config)) in *.
  destruct (createCards_run CardDeck.deckFaces w) as (cards & Hdeck & Hfaces & _).
  assert (Hlen : List.length cards = 108%nat).
  { rewrite <- (length_map faceOf), Hfaces. reflexivity. }
  exists cards. eexists.
  unfold GameEngine.createInitialState.
  unfold bind at 1. unfold CardDeck.createDeck. rewrite Hdeck.
  unfold bind at 1. unfold CardDeck.shuffleDeck.
  match goal with |- context [CardDeck.shuffleLoop ?k ?l ?w0] =>
    destruct (shuffleLoop_world k l w0) as (deck & Hshuffle & Hperm) end.
  rewrite Hshuffle.
  destruct (Permutation_map_inv _ _ (Permutation_sym Hperm)) as (cards2 & -> & Hperm2).
  unfold bind at 1.
  match goal with |- context [?f (GameConfig.playerNames config) 0 ?w0] =>
    destruct (mk_players_run config (GameConfig.playerNames config) 0 w0)
      as (ps & Hps & Hnames & Hpids & _) end.
  rewrite Hps.
  destruct (deal_fold ps [] (map Some cards2))
    as (dealt & Hdeal & Hdl & Hflat & Hall & Hdids & Hdnames & _).
  rewrite Hdeal. cbn [app]. clear Hps Hshuffle Hdeck Hdeal.
  assert (Hpl : List.length ps = n).
  { rewrite <- (length_map Player.name), Hnames. reflexivity. }
  rewrite Hpl in *.
  assert (Hl2 : List.length cards2 = 108%nat).
  { rewrite <- (Permutation_length Hperm2). exact Hlen. }
  rewrite skipn_map.
  set (rest := skipn (7 * n) cards2).
  assert (Hrest : (List.length rest = 108 - 7 * n)%nat).
  { unfold rest. rewrite length_skipn. lia. }
  unfold bind at 1. unfold findIndexC.
  rewrite (findIndexFromC_defined _ startable rest 0) by reflexivity.
  cbn [liftC].
  set (found := findIndexFrom startable rest 0).
  set (first := if found =? -1 then 0 else found).
  assert (Hfirst : 0 <= first < Z.of_nat (List.length rest)).
  { unfold first. destruct (findIndexFrom_range startable rest 0) as [Hr|Hr];
      fold found in Hr.
    - rewrite Hr, Z.eqb_refl. lia.
    - destruct (Z.eqb_spec found (-1)); lia. }
  set (k := Z.to_nat first).
  assert (Hk : first = Z.of_nat k) by (unfold k; lia).
  assert (Hfound : found = -1 \/ found = first).
  { unfold first. destruct (Z.eqb_spec found (-1)); [left|right]; congruence. }
  clearbody k first. subst first.
  destruct (nth_error rest k) as [top|] eqn:Htop;
    [|apply nth_error_None in Htop; lia].
  assert (Hget : getSlot (map Some rest) (Z.of_nat k) = Some top).
  { unfold getSlot, Js.get. destruct (Z.ltb_spec (Z.of_nat k) 0); [lia|].
    rewrite Nat2Z.id, nth_error_map, Htop. reflexivity. }
  rewrite Hget.
  rewrite slice_prefix.
  replace (Z.of_nat k + 1) with (Z.of_nat (S k)) by lia.
  rewrite sliceFrom_suffix.
  unfold bind at 1. unfold World.uuidv4 at 1.
  unfold bind at 1. unfold World.now at 1. cbn [ret].
  do 2 eexists. split; [reflexivity|]. split; [reflexivity|].
  assert (Hcards : Permutation
                     ((firstn k (map Some rest) ++ skipn (S k) (map Some rest))
                      ++ [Some top] ++ flat_map Player.hand dealt)
                     (map Some cards)).
  { apply perm_trans with (map Some cards2);
      [|apply Permutation_map, Permutation_sym, Hperm2].
    rewrite Hflat, !firstn_map, skipn_map.
    apply perm_trans with (map Some (rest ++ firstn (7 * n) cards2)).
    - rewrite map_app, app_assoc. apply Permutation_app_tail.
      rewrite <- map_app.
      change [Some top] with (map (@Some Card.t) [top]). rewrite <- map_app.
      apply Permutation_map. symmetry.
      eapply perm_trans; [apply (take_out_perm rest k top Htop)|].
      rewrite <- app_assoc. apply Permutation_app_head.
      apply Permutation_cons_append.
    - apply Permutation_map. rewrite Permutation_app_comm.
      unfold rest. rewrite firstn_skipn. reflexivity. }
  split; [exact Hcards|].
  split.
  { unfold cardCount. cbn [allCards GameState.drawPile GameState.discardPile GameState.players].
    unfold allCards. cbn [GameState.drawPile GameState.discardPile GameState.players].
    rewrite (Permutation_length Hcards), length_map. exact Hlen. }
  cbn [GameState.drawPile GameState.discardPile GameState.players GameState.phase
       GameState.currentPlayerIndex GameState.direction GameState.stackedDrawAmount
       GameState.pendingAction GameState.winner].
  split; [rewrite Hdids; exact Hpids|].
  split.
  { apply defined_app. split; [apply defined_firstn|apply defined_skipn];
      apply defined_map; eexists; reflexivity. }
  split.
  { apply defined_hands. rewrite Hflat. apply defined_firstn.
    apply defined_map. eexists. reflexivity. }
  split; [rewrite Hdnames; exact Hnames|].
  split; [apply Hall; rewrite length_map; lia|].
  split.
  { rewrite length_app, length_firstn, length_skipn, length_map. lia. }
  split; [|repeat split].
  exists top. split; [reflexivity|].
  assert (Hmany : (n <= 10)%nat -> found <> -1).
  { intros Hten Hnone.
    pose proof (findIndexFrom_none startable rest 0 Hnone ltac:(lia)) as Hall0.
    assert (Hrest0 : filter (fun c => negb (startable c)) rest = rest).
    { apply filter_all. intros x Hx. rewrite (Hall0 x Hx). reflexivity. }
    pose proof (filter_length_skipn (fun c => negb (startable c)) cards2 (7 * n)) as Hle.
    fold rest in Hle. rewrite Hrest0 in Hle.
    rewrite <- (filter_length_perm _ _ _ Hperm2) in Hle.
    assert (Hplain : List.length (filter (fun c => negb (startable c)) cards) = 32%nat).
    { transitivity (List.length
                      (filter (fun f => negb (negb (Color.eqb (fst f) Color.wild)
                                                && Value.isNumber (snd f)))
                         CardDeck.deckFaces)); [|reflexivity].
      rewrite <- Hfaces. clear.
      induction cards as [|c cards IH]; [reflexivity|]. cbn.
      unfold startable at 1.
      destruct (negb (negb (Color.eqb (Card.color c) Color.wild)
                      && Value.isNumber (Card.value c))); cbn; rewrite IH; reflexivity. }
    lia. }
  assert (Hcase : startable top = true
                  \/ forall c, In (Some c)
                                 (firstn k (map Some rest) ++ skipn (S k) (map Some rest)) ->
                               startable c = false);
    [|split; [exact Hcase|];
      intros Hten; apply (findIndexFrom_sat startable rest 0 k top); [lia| |exact Htop];
      fold found; specialize (Hmany Hten); lia].
  destruct Hfound as [Hnone|Hsome].
  - right. intros c Hin.
    apply (findIndexFrom_none startable rest 0 Hnone); [lia|].
    apply in_app_or in Hin. destruct Hin as [Hin|Hin].
    + rewrite firstn_map in Hin. apply in_map_iff in Hin.
      destruct Hin as (x & Hx & Hin). injection Hx as ->.
      rewrite <- (firstn_skipn k rest). apply in_or_app. left. exact Hin.
    + rewrite skipn_map in Hin. apply in_map_iff in Hin.
      destruct Hin as (x & Hx & Hin). injection Hx as ->.
      rewrite <- (firstn_skipn (S k) rest). apply in_or_app. right. exact Hin.
  - left. apply (findIndexFrom_sat startable rest 0 k top); [lia| |exact Htop].
    fold found. lia.
Qed.


(** X4.  The deal, whatever the shuffle.  For at most 15 players
    ([7 * players < 108]), [createInitialState] returns a state in phase
    [playing] in which every player holds 7 cards, the discard pile holds
    one card and the cards of the draw pile, the discard pile and the
    hands together are the 108 cards of [createDeck], none lost and none
    twice.  The card on the discard pile is a number card of a colour
    unless the cards left to draw hold none, which cannot happen with at
    most 10 players. *)
Theorem deal_conserves_deck (config : GameConfig.t) (w : World.t) :
  (7 * List.length (GameConfig.playerNames config) < 108)%nat ->
  exists cards w1 state w',
    CardDeck.createDeck w = (Normal cards, w1)
    /\ GameEngine.createInitialState config w = (Normal state, w')
    /\ Permutation (allCards state) (map Some cards)
    /\ cardCount state = 108%nat
    /\ map Player.name (GameState.players state) = GameConfig.playerNames config
    /\ Forall (fun p => List.length (Player.hand p) = 7%nat) (GameState.players state)
    /\ (List.length (GameState.drawPile state)
        = 107 - 7 * List.length (GameConfig.playerNames config))%nat
    /\ (exists top,
          GameState.discardPile state = [Some top]
          /\ (startable top = true
              \/ forall c, In (Some c) (GameState.drawPile state) -> startable c = false)
          /\ ((List.length (GameConfig.playerNames config) <= 10)%nat ->
              startable top = true))
    /\ GameState.phase state = Phase.playing
    /\ GameState.currentPlayerIndex state = 0
    /\ GameState.direction state = 1
    /\ GameState.stackedDrawAmount state = 0
    /\ GameState.pendingAction state = None
    /\ GameState.winner state = None.
Proof.
  intros Hn.
  destruct (deal_run config w Hn)
    as (cards & w1 & state & w' & H1 & H2 & H3 & H4 & _ & _ & _ & H5).
  exists cards, w1, state, w'.
  split; [exact H1|]. split; [exact H2|]. split; [exact H3|]. split; [exact H4|exact H5].
Qed.

(** X4 at the table of two of the examples. *)
Lemma deal_conserves_deck_witness :
  (7 * List.length (GameConfig.playerNames Examples.config) < 108)%nat
  /\ exists state w',
      GameEngine.createInitialState Examples.config Examples.world = (Normal state, w')
      /\ cardCount state = 108%nat
      /\ Forall (fun p => List.length (Player.hand p) = 7%nat) (GameState.players state)
      /\ List.length (GameState.drawPile state) = 93%nat.
Proof.
  assert (Hfew : (7 * List.length (GameConfig.playerNames Examples.config) < 108)%nat)
    by (vm_compute; lia).
  split; [exact Hfew|].
  destruct (deal_conserves_deck Examples.config Examples.world Hfew)
    as (cards & w1 & state & w' & _ & Hrun & _ & Hcount & _ & Hhands & Hdraw & _).
  exists state, w'. split; [exact Hrun|]. split; [exact Hcount|].
  split; [exact Hhands|exact Hdraw].
Defined.

(** X6.  Deck conservation in a game.  A game of 2 to 15 players whose
    identifiers come out distinct is created and any sequence of actions
    other than [accept_offer] is dispatched.  Then the cards of the draw
    pile, the discard pile and the hands are the 108 cards that
    [createDeck] made, whatever the shuffles and whatever the actions:
    legal or not, carried out, rejected or ending in a [TypeError]. *)
Theorem game_conserves_deck (config : GameConfig.t) (actions : list GameAction.t)
    (w : World.t) :
  (2 <= List.length (GameConfig.playerNames config))%nat ->
  (7 * List.length (GameConfig.playerNames config) < 108)%nat ->
  NoDup (map (fun k => World.uuids w (108 + k)%nat)
           (seq 0 (List.length (GameConfig.playerNames config)))) ->
  Forall (fun a => GameAction.type a <> ActionType.accept_offer) actions ->
  exists cards w1 e w2,
    CardDeck.createDeck w = (Normal cards, w1)
    /\ GameEngine.create config w = (Normal e, w2)
    /\ Permutation
         (allCards (GameEngine.state (GameEngine.this
                      (snd (dispatchAll actions (GameEngine.mkHeap e w2))))))
         (map Some cards)
    /\ cardCount (GameEngine.state (GameEngine.this
                    (snd (dispatchAll actions (GameEngine.mkHeap e w2))))) = 108%nat
    /\ wellFormed (GameEngine.state (GameEngine.this
                     (snd (dispatchAll actions (GameEngine.mkHeap e w2))))).
Proof.
  intros Htwo Hfew Hids Hall.
  destruct (deal_run config w Hfew)
    as (cards & w1 & state & w' & Hdeck & Hrun & Hperm & Hcount & Hpids & Hdraw & Hhands
        & _ & _ & _ & (top & Htop & _) & _ & Hcur & Hdir & Hstack & _).
  exists cards, w1, (GameEngine.mk state [] config None), w'.
  split; [exact Hdeck|]. split.
  { unfold GameEngine.create, bind. rewrite Hrun. reflexivity. }
  assert (HW : wellFormed state).
  { unfold wellFormed.
    split; [|split; [|split; [|split; [|split; [|split; [|split; [|split]]]]]]].
    - rewrite Hpids. exact Hids.
    - unfold jlength. rewrite <- (length_map Player.id), Hpids, length_map, length_seq. lia.
    - rewrite Hcur. unfold jlength.
      rewrite <- (length_map Player.id), Hpids, length_map, length_seq. lia.
    - left. exact Hdir.
    - rewrite Hstack. lia.
    - exact Hdraw.
    - rewrite Htop. constructor; [discriminate|constructor].
    - rewrite Htop. discriminate.
    - exact Hhands. }
  destruct (dispatchAll_steps actions
              (GameEngine.mkHeap (GameEngine.mk state [] config None) w') HW Hall)
    as (HW' & Hperm').
  assert (Hfinal : Permutation
                     (allCards (GameEngine.state (GameEngine.this
                        (snd (dispatchAll actions
                                (GameEngine.mkHeap (GameEngine.mk state [] config None)
                                   w'))))))
                     (map Some cards)).
  { eapply perm_trans; [symmetry; exact Hperm'|exact Hperm]. }
  split; [exact Hfinal|]. split; [|exact HW'].
  unfold cardCount. rewrite (Permutation_length Hfinal), length_map.
  rewrite <- Hcount. unfold cardCount. rewrite (Permutation_length Hperm), length_map.
  reflexivity.
Qed.

(** X6 for the game of the examples and the actions of its first
    scenario but the last. *)
Lemma game_conserves_deck_witness :
  cardCount
    (GameEngine.state (GameEngine.this
       (snd (dispatchAll (removelast Examples.offerThenPlay)
               (match GameEngine.create Examples.config Examples.world with
                | (Normal e, w2) => GameEngine.mkHeap e w2
                | (Throw _, w2) =>
                    Examples.heapOf (Examples.table Examples.fullPile) Examples.allRules
                end))))) = 108%nat.
Proof.
  assert (Htwo : (2 <= List.length (GameConfig.playerNames Examples.config))%nat)
    by (vm_compute; lia).
  assert (Hfew : (7 * List.length (GameConfig.playerNames Examples.config) < 108)%nat)
    by (vm_compute; lia).
  assert (Hids : NoDup (map (fun k => World.uuids Examples.world (108 + k)%nat)
                          (seq 0 (List.length (GameConfig.playerNames Examples.config))))).
  { repeat constructor; cbn; intuition discriminate. }
  assert (Hall : Forall (fun a => GameAction.type a <> ActionType.accept_offer)
                   (removelast Examples.offerThenPlay)).
  { repeat constructor; discriminate. }
  destruct (game_conserves_deck Examples.config (removelast Examples.offerThenPlay)
              Examples.world Htwo Hfew Hids Hall)
    as (cards & w1 & e & w2 & _ & Hrun & _ & Hcount & _).
  rewrite Hrun. exact Hcount.
Defined.

(* ===================================================================== *)
(** ** Which actions can end in a [TypeError]                            *)
(* ===================================================================== *)

Lemma always_ret {S A} (a : A) : alwaysReturns (@ret S A a).
Proof. intros s. eexists. eexists. reflexivity. Qed.

Lemma always_gets {S A} (f : S -> A) : alwaysReturns (gets f).
Proof. intros s. eexists. eexists. reflexivity. Qed.

Lemma always_bind {S A B} (c : M S A) (k : A -> M S B) :
  alwaysReturns c -> (forall a, alwaysReturns (k a)) -> alwaysReturns (bind c k).
Proof.
  intros Hc Hk s. destruct (Hc s) as (a & s1 & Ha). destruct (Hk a s1) as (b & s2 & Hb).
  exists b, s2. unfold bind. rewrite Ha. exact Hb.
Qed.

Lemma always_emit e : alwaysReturns (GameEngine.emit e).
Proof. intros s. eexists. eexists. reflexivity. Qed.

Lemma always_setSelected o : alwaysReturns (GameEngine.setSelected o).
Proof. intros s. eexists. eexists. reflexivity. Qed.

Lemma always_setState o : alwaysReturns (GameEngine.setState o).
Proof. intros s. eexists. eexists. reflexivity. Qed.

Lemma always_advanceTurn s : alwaysReturns (GameEngine.advanceTurn s).
Proof. intros h. eexists. eexists. apply advanceTurn_eq. Qed.

Lemma always_now : alwaysReturns (GameEngine.liftW World.now).
Proof. intros h. eexists. eexists. reflexivity. Qed.

Lemma always_uuid : alwaysReturns (GameEngine.liftW World.uuidv4).
Proof. intros h. eexists. eexists. reflexivity. Qed.

Ltac always_tac :=
  repeat first
    [ apply always_ret | apply always_gets | apply always_emit | apply always_setSelected
    | apply always_setState | apply always_advanceTurn | apply always_now
    | apply always_uuid
    | apply always_bind; [ | intros ? ]
    | match goal with
      | |- alwaysReturns (match ?x with _ => _ end) => destruct x
      | |- alwaysReturns (if ?x then _ else _) => destruct x
      | |- alwaysReturns (let '(_, _) := ?x in _) => destruct x
      end ].

Lemma always_handleCallUno s a : alwaysReturns (GameEngine.handleCallUno s a).
Proof. unfold GameEngine.handleCallUno. always_tac. Qed.

Lemma always_handleSelectColor s a : alwaysReturns (GameEngine.handleSelectColor s a).
Proof. unfold GameEngine.handleSelectColor. always_tac. Qed.

Lemma always_handleCreateCustomRule s a :
  alwaysReturns (GameEngine.handleCreateCustomRule s a).
Proof. unfold GameEngine.handleCreateCustomRule. always_tac. Qed.

Lemma always_handleRequestCard s a : alwaysReturns (GameEngine.handleRequestCard s a).
Proof. unfold GameEngine.handleRequestCard, GameEngine.rules. always_tac. Qed.

Lemma always_handleDeclineRequest s a : alwaysReturns (GameEngine.handleDeclineRequest s a).
Proof. unfold GameEngine.handleDeclineRequest. always_tac. Qed.

Lemma always_handleOfferCard s a : alwaysReturns (GameEngine.handleOfferCard s a).
Proof. unfold GameEngine.handleOfferCard, GameEngine.rules. always_tac. Qed.

Lemma always_handleDeclineOffer s a : alwaysReturns (GameEngine.handleDeclineOffer s a).
Proof. unfold GameEngine.handleDeclineOffer. always_tac. Qed.

Lemma findPlayer_in (players : list Player.t) (o : option string) p :
  GameEngine.findPlayer players o = Some p ->
  In p players /\ exists pid, o = Some pid /\ Player.id p = pid.
Proof.
  intros H. apply find_some in H. destruct H as [Hin Heq]. split; [exact Hin|].
  destruct o as [pid|]; [|discriminate]. exists pid. split; [reflexivity|].
  apply String.eqb_eq. exact Heq.
Qed.

Lemma top_defined (s : GameState.t) :
  wellFormed s ->
  exists below top, GameState.discardPile s = below ++ [Some top].
Proof.
  intros (_ & _ & _ & _ & _ & _ & Hdi & Hne & _).
  destruct (last_exists _ Hne) as (below & top & E). rewrite E in Hdi.
  apply defined_app in Hdi. destruct Hdi as [_ Ht]. inversion Ht as [|? ? Hx _]; subst.
  destruct top as [top|]; [|congruence]. eauto.
Qed.

Lemma isCurrentPlayer_returns (pid : string) (h : GameEngine.Heap) :
  wellFormed (GameEngine.state (GameEngine.this h)) ->
  exists b, GameEngine.isCurrentPlayer pid h = (Normal b, h).
Proof.
  intros HW.
  destruct (get_exists (GameState.players (GameEngine.state (GameEngine.this h)))
              (GameState.currentPlayerIndex (GameEngine.state (GameEngine.this h))))
    as [q Hq]; [apply HW|].
  unfold GameEngine.isCurrentPlayer, GameEngine.getCurrentPlayer, bind,
    GameEngine.thisState, gets, ret. rewrite Hq. cbn. eauto.
Qed.

Lemma validateAction_returns (a : GameAction.t) (h : GameEngine.Heap) :
  wellFormed (GameEngine.state (GameEngine.this h)) ->
  exists v, GameEngine.validateAction a h = (Normal v, h).
Proof.
  intros HW. set (s := GameEngine.state (GameEngine.this h)) in *.
  unfold GameEngine.validateAction.
  unfold bind at 1. cbn [GameEngine.thisState gets]. fold s.
  destruct (GameEngine.findPlayer (GameState.players s) (Some (GameAction.playerId a)))
    as [p|] eqn:Hp; [|eexists; reflexivity].
  destruct (findPlayer_in _ _ _ Hp) as (Hin & pid & Hpid & Hidp).
  injection Hpid as Hpid. subst pid.
  assert (Hhand : defined (Player.hand p)).
  { destruct HW as (_ & _ & _ & _ & _ & _ & _ & _ & Hh).
    rewrite Forall_forall in Hh. apply Hh. exact Hin. }
  apply defined_map in Hhand. destruct Hhand as [cards Hcards].
  destruct (top_defined s HW) as (below & top & Htop).
  destruct (GameAction.type a); try (eexists; reflexivity).
  - (* play_card *)
    destruct (GameAction.cardId a) as [id|]; [|eexists; reflexivity].
    destruct (String.eqb id ""); [eexists; reflexivity|].
    unfold bind at 1. rewrite Hcards.
    rewrite (findC_defined _ (fun c => eqOpt (Card.id c) (Some id))) by reflexivity.
    cbn [liftC].
    destruct (find (fun c => eqOpt (Card.id c) (Some id)) cards) as [c|] eqn:Hc;
      cbn [option_map]; [|eexists; reflexivity].
    unfold bind at 1.
    destruct (isCurrentPlayer_returns (GameAction.playerId a) h HW) as [b Hb].
    rewrite Hb. destruct b; cbn [negb].
    + unfold bind at 1. rewrite <- Hidp. rewrite <- Hidp in Hp.
      rewrite (getValidMoves_defined h p cards below top Hp Hcards Htop).
      unfold bind at 1.
      rewrite (findC_defined _ (fun c => eqOpt (Card.id c) (Some id))) by reflexivity.
      cbn [liftC].
      destruct (find _ (filter _ _)); cbn [option_map]; [|eexists; reflexivity].
      unfold bind at 1. cbn [liftC deref].
      destruct (Color.eqb (Card.color c) Color.wild), (GameAction.wildColor a);
        eexists; reflexivity.
    + unfold bind at 1. unfold GameEngine.canJumpIn.
      unfold bind at 1. cbn [GameEngine.rules gets].
      destruct (negb _); [eexists; reflexivity|].
      unfold bind at 1. cbn [GameEngine.thisState gets]. fold s. rewrite Hp.
      unfold bind at 1. rewrite Hcards.
      rewrite (findC_defined _ (fun c => eqOpt (Card.id c) (Some id))) by reflexivity.
      rewrite Hc. cbn [liftC option_map].
      unfold bind at 1. rewrite (getTopCard_eq h below top Htop).
      cbn [liftC CardDeck.isExactMatch deref cbind].
      destruct (_ && _ && _); eexists; reflexivity.
  - (* draw_card *)
    unfold bind at 1.
    destruct (isCurrentPlayer_returns (GameAction.playerId a) h HW) as [b Hb].
    rewrite Hb. destruct b; eexists; reflexivity.
  - destruct (negb _); eexists; reflexivity.
  - destruct (GameEngine.findPlayer _ (GameAction.targetPlayerId a));
      [|eexists; reflexivity].
    destruct (_ || _); eexists; reflexivity.
  - destruct (negb _); eexists; reflexivity.
  - destruct (negb _); eexists; reflexivity.
Qed.

Lemma findC_found {A} (f : A -> Completion bool) (l : list A) x :
  findC f l = Normal (Some x) -> f x = Normal true.
Proof.
  induction l as [|y l IH]; cbn; [discriminate|].
  destruct (f y) as [[|]|e] eqn:Hy; cbn; try discriminate.
  - intros H. injection H as <-. exact Hy.
  - exact IH.
Qed.

Lemma validated_player (a : GameAction.t) (h h' : GameEngine.Heap) v :
  GameEngine.validateAction a h = (Normal v, h') ->
  ValidationResult.valid v = true ->
  exists p,
    GameEngine.findPlayer (GameState.players (GameEngine.state (GameEngine.this h)))
      (Some (GameAction.playerId a)) = Some p.
Proof.
  unfold GameEngine.validateAction. unfold bind at 1. cbn [GameEngine.thisState gets].
  destruct (GameEngine.findPlayer _ _) as [p|]; [eauto|].
  intros H. injection H as <- _. discriminate.
Qed.

Lemma validated_play (a : GameAction.t) (h h' : GameEngine.Heap) v :
  GameEngine.validateAction a h = (Normal v, h') ->
  ValidationResult.valid v = true ->
  GameAction.type a = ActionType.play_card ->
  exists p id c,
    GameEngine.findPlayer (GameState.players (GameEngine.state (GameEngine.this h)))
      (Some (GameAction.playerId a)) = Some p
    /\ GameAction.cardId a = Some id
    /\ findC (GameEngine.hasId (Some id)) (Player.hand p) = Normal (Some (Some c)).
Proof.
  unfold GameEngine.validateAction. unfold bind at 1. cbn [GameEngine.thisState gets].
  destruct (GameEngine.findPlayer _ _) as [p|];
    [|intros H; injection H as <- _; discriminate].
  intros H Hv Ht. rewrite Ht in H.
  destruct (GameAction.cardId a) as [id|]; [|injection H as <- _; discriminate].
  destruct (String.eqb id ""); [injection H as <- _; discriminate|].
  unfold bind at 1 in H. cbn [liftC] in H.
  destruct (findC (GameEngine.hasId (Some id)) (Player.hand p)) as [[x|]|e] eqn:Hx;
    [|injection H as <- _; discriminate|discriminate].
  pose proof (findC_found _ _ _ Hx) as Hfx.
  destruct x as [c|]; [|discriminate].
  exists p, id, c. repeat split. exact Hx.
Qed.

Lemma validated_catch (a : GameAction.t) (h h' : GameEngine.Heap) v :
  GameEngine.validateAction a h = (Normal v, h') ->
  ValidationResult.valid v = true ->
  GameAction.type a = ActionType.catch_uno ->
  exists target,
    GameEngine.findPlayer (GameState.players (GameEngine.state (GameEngine.this h)))
      (GameAction.targetPlayerId a) = Some target.
Proof.
  unfold GameEngine.validateAction. unfold bind at 1. cbn [GameEngine.thisState gets].
  destruct (GameEngine.findPlayer _ (Some _)) as [p|];
    [|intros H; injection H as <- _; discriminate].
  intros H Hv Ht. rewrite Ht in H.
  destruct (GameEngine.findPlayer _ (GameAction.targetPlayerId a)) as [t|]; [eauto|].
  injection H as <- _. discriminate.
Qed.

Lemma forced_draw_returns (s : GameState.t) (o : option string) (pid : string)
    (count : Z) (p : Player.t) (h : GameEngine.Heap) :
  wellFormed s ->
  GameEngine.findPlayer (GameState.players s) o = Some p ->
  o = Some pid ->
  0 <= count ->
  exists s' h', GameEngine.forceDrawCards s pid count h = (Normal s', h').
Proof.
  intros HW Hp -> Hcount.
  pose proof (findPlayer_get _ _ _ Hp) as Hget.
  destruct (findPlayer_in _ _ _ Hp) as (_ & pid' & E & Hid). injection E as <-.
  subst pid.
  destruct (forceDrawCards_returns s p _ count h HW Hget Hcount) as (s' & h' & Hrun & _).
  eauto.
Qed.

Lemma applyAction_returns (a : GameAction.t) (h h0 : GameEngine.Heap) v :
  wellFormed (GameEngine.state (GameEngine.this h)) ->
  GameEngine.validateAction a h = (Normal v, h0) ->
  ValidationResult.valid v = true ->
  GameAction.type a <> ActionType.report_speaking ->
  GameAction.type a <> ActionType.jump_in ->
  GameAction.type a <> ActionType.accept_offer ->
  exists s' h', GameEngine.applyAction a h = (Normal s', h').
Proof.
  intros HW Hv Hvalid Hrs Hji Hao.
  unfold GameEngine.applyAction. unfold bind at 1. cbn [GameEngine.thisState gets].
  set (s := GameEngine.state (GameEngine.this h)) in *.
  destruct (GameAction.type a) eqn:Ht; try congruence.
  - destruct (validated_play a h h0 v Hv Hvalid Ht) as (p & id & c & Hp & Hid & Hc).
    destruct (handlePlayCard_returns s a h p id c HW Hp Hid Hc) as (s' & h' & Hrun & _).
    eauto.
  - destruct (validated_player a h h0 v Hv Hvalid) as (p & Hp).
    unfold GameEngine.handleDrawCard.
    destruct (forced_draw_returns s _ (GameAction.playerId a)
                (if GameState.stackedDrawAmount s >? 0
                 then GameState.stackedDrawAmount s else 1) p h HW Hp eq_refl)
      as (s1 & h1 & Hrun).
    { destruct (Z.gtb_spec (GameState.stackedDrawAmount s) 0); lia. }
    unfold bind at 1. rewrite Hrun.
    unfold bind at 1. cbn [GameEngine.emit modify].
    rewrite advanceTurn_eq. eauto.
  - apply always_handleCallUno.
  - destruct (validated_catch a h h0 v Hv Hvalid Ht) as (t & Hp).
    unfold GameEngine.handleCatchUno.
    destruct (GameAction.targetPlayerId a) as [target|] eqn:Htarget;
      [|eexists; eexists; reflexivity].
    destruct (String.eqb target ""); [eexists; eexists; reflexivity|].
    destruct (forced_draw_returns s _ target 2 t h HW Hp eq_refl) as (s1 & h1 & Hrun);
      [lia|].
    unfold bind at 1. rewrite Hrun. eexists. eexists. reflexivity.
  - eexists. eexists. reflexivity.
  - apply always_handleCreateCustomRule.
  - apply always_handleRequestCard.
  - apply always_handleDeclineRequest.
  - apply always_handleOfferCard.
  - apply always_handleDeclineOffer.
  - apply always_handleSelectColor.
  - apply always_advanceTurn.
Qed.

(** X7.  No crash at a table at which a game can go on: [dispatch] of an
    action of any type but [report_speaking], [jump_in] and [accept_offer]
    returns normally, be the action legal or not, and the state that it
    returns is the engine's state. *)
Theorem dispatch_returns_on_well_formed_table (a : GameAction.t) (h : GameEngine.Heap) :
  wellFormed (GameEngine.state (GameEngine.this h)) ->
  GameAction.type a <> ActionType.report_speaking ->
  GameAction.type a <> ActionType.jump_in ->
  GameAction.type a <> ActionType.accept_offer ->
  exists s' h',
    GameEngine.dispatch a h = (Normal s', h')
    /\ GameEngine.state (GameEngine.this h') = s'.
Proof.
  intros HW Hrs Hji Hao.
  destruct (validateAction_returns a h HW) as [v Hv].
  unfold GameEngine.dispatch. unfold bind at 1. rewrite Hv.
  destruct (ValidationResult.valid v) eqn:Hvalid; cbn [negb].
  - destruct (applyAction_returns a h h v HW Hv Hvalid Hrs Hji Hao) as (s1 & h1 & Hrun).
    unfold bind at 1. rewrite Hrun. eexists. eexists. split; reflexivity.
  - eexists. eexists. split; reflexivity.
Qed.

Lemma findPlayer_none_get (players : list Player.t) (o : option string) :
  GameEngine.findPlayer players o = None ->
  Js.get players (GameEngine.findPlayerIndex players o) = None.
Proof.
  intros H.
  destruct (Js.get players (GameEngine.findPlayerIndex players o)) as [p|] eqn:Hget;
    [|reflexivity].
  apply find_of_findIndex in Hget. unfold GameEngine.findPlayer in H. congruence.
Qed.

(** X8.  The two lookups that nothing guards.  [report_speaking] is
    validated only as to the reporter: while silence is on, naming a
    target who is not at the table makes [dispatch] throw a [TypeError]
    (the engine's fields are as before).  [jump_in] is validated only as
    to the player: with a card identifier that no card of the player's
    hand bears, [dispatch] throws a [TypeError] and changes nothing. *)
Theorem unguarded_lookups_throw :
  (forall (a : GameAction.t) (h : GameEngine.Heap) (reporter : Player.t) (target : string),
      let s := GameEngine.state (GameEngine.this h) in
      GameAction.type a = ActionType.report_speaking ->
      GameEngine.findPlayer (GameState.players s) (Some (GameAction.playerId a))
      = Some reporter ->
      EnabledRules.silence (GameConfig.enabledRules (GameEngine.config (GameEngine.this h)))
      = true ->
      GameState.silenceMode s = true ->
      GameAction.targetPlayerId a = Some target ->
      target <> "" ->
      GameEngine.findPlayer (GameState.players s) (Some target) = None ->
      exists h',
        GameEngine.dispatch a h = (Throw TypeError, h')
        /\ GameEngine.this h' = GameEngine.this h)
  /\ (forall (a : GameAction.t) (h : GameEngine.Heap) (p : Player.t)
             (cards : list Card.t),
         let s := GameEngine.state (GameEngine.this h) in
         GameAction.type a = ActionType.jump_in ->
         GameEngine.findPlayer (GameState.players s) (Some (GameAction.playerId a))
         = Some p ->
         Player.hand p = map Some cards ->
         (forall c, In c cards -> eqOpt (Card.id c) (GameAction.cardId a) = false) ->
         GameEngine.dispatch a h = (Throw TypeError, h)).
Proof.
  split.
  - intros a h reporter target s Ht Hp Hrule Hmode Htarget Hne Hnone.
    unfold GameEngine.dispatch. unfold bind at 1.
    unfold GameEngine.validateAction. unfold bind at 1.
    cbn [GameEngine.thisState gets]. fold s. rewrite Hp, Ht. cbn [ret negb
      ValidationResult.valid Valid].
    unfold bind at 1. unfold GameEngine.applyAction. unfold bind at 1.
    cbn [GameEngine.thisState gets]. fold s. rewrite Ht.
    unfold GameEngine.handleReportSpeaking. unfold bind at 1.
    cbn [GameEngine.rules gets]. rewrite Hrule, Hmode. cbn [negb orb].
    rewrite Htarget. apply String.eqb_neq in Hne. rewrite Hne.
    unfold bind at 1. unfold GameEngine.forceDrawCards.
    rewrite (findPlayer_none_get _ _ Hnone).
    unfold bind at 1.
    destruct (jlength (GameState.drawPile s) <? 1).
    + destruct (pop (GameState.discardPile s)) as [topCard rest].
      unfold bind at 1. unfold GameEngine.liftW.
      destruct (shuffleDeck_perm (GameState.drawPile s ++ rest) (GameEngine.world h))
        as (pile & w' & Hrun & _).
      rewrite Hrun. cbn [ret]. destruct (CardDeck.drawCards pile 1).
      eexists. split; reflexivity.
    + cbn [ret]. destruct (CardDeck.drawCards (GameState.drawPile s) 1).
      eexists. split; [reflexivity|]. destruct h; reflexivity.
  - intros a h p cards s Ht Hp Hhand Hnotin.
    unfold GameEngine.dispatch. unfold bind at 1.
    unfold GameEngine.validateAction. unfold bind at 1.
    cbn [GameEngine.thisState gets]. fold s. rewrite Hp, Ht. cbn [ret negb
      ValidationResult.valid Valid].
    unfold bind at 1. unfold GameEngine.applyAction. unfold bind at 1.
    cbn [GameEngine.thisState gets]. fold s. rewrite Ht.
    unfold GameEngine.handleJumpIn, GameEngine.handlePlayCard.
    cbn [GameState.players GameState.with_currentPlayerIndex].
    rewrite (findPlayer_get _ _ _ Hp).
    unfold bind at 1. cbn [liftC deref].
    unfold bind at 1. rewrite Hhand. unfold findIndexC.
    rewrite (findIndexFromC_defined _
               (fun c => eqOpt (Card.id c) (GameAction.cardId a)) cards 0)
      by reflexivity.
    cbn [liftC].
    assert (Hnone : getSlot (map Some cards)
                      (findIndexFrom (fun c => eqOpt (Card.id c) (GameAction.cardId a))
                         cards 0) = None).
    { unfold getSlot. rewrite get_map.
      destruct (Js.get cards _) as [c|] eqn:Hc; [|reflexivity].
      pose proof (findIndex_sat _ _ _ Hc) as Hsat. cbv beta in Hsat.
      rewrite Hnotin in Hsat; [discriminate|].
      unfold Js.get in Hc. destruct (_ <? 0); [discriminate|].
      eapply nth_error_In. exact Hc. }
    rewrite Hnone. reflexivity.
Qed.

(** X7 at the small table: Alice draws. *)
Lemma dispatch_returns_on_well_formed_table_witness :
  exists s' h',
    GameEngine.dispatch Examples.drawByAlice
      (Examples.heapOf (Examples.table Examples.fullPile) Examples.allRules)
    = (Normal s', h')
    /\ GameEngine.state (GameEngine.this h') = s'.
Proof.
  apply (dispatch_returns_on_well_formed_table Examples.drawByAlice
           (Examples.heapOf (Examples.table Examples.fullPile) Examples.allRules)
           wellFormed_table); discriminate.
Defined.

(** X8 at the small table: Alice reports Carol, who is not there; Bob
    jumps in with a card that he does not hold. *)
Lemma unguarded_lookups_throw_witness :
  (exists h',
      GameEngine.dispatch MoreExamples.reportCarol
        (Examples.heapOf MoreExamples.silentTable Examples.allRules)
      = (Throw TypeError, h'))
  /\ GameEngine.dispatch MoreExamples.jumpWithNothing
       (Examples.heapOf (Examples.table Examples.fullPile) Examples.allRules)
     = (Throw TypeError,
        Examples.heapOf (Examples.table Examples.fullPile) Examples.allRules).
Proof.
  destruct unguarded_lookups_throw as [Hreport Hjump]. split.
  - destruct (Hreport MoreExamples.reportCarol
                (Examples.heapOf MoreExamples.silentTable Examples.allRules)
                Examples.alice "carol") as (h' & Hrun & _);
      try reflexivity; [discriminate|].
    exists h'. exact Hrun.
  - apply (Hjump MoreExamples.jumpWithNothing
             (Examples.heapOf (Examples.table Examples.fullPile) Examples.allRules)
             Examples.bob [Examples.bD; Examples.b3]); try reflexivity.
    intros c [<- | [<- | []]]; reflexivity.
Defined.
(* ===================================================================== *)
(** ** Doubles: rounding keeps integer bounds                            *)
(* ===================================================================== *)

Lemma digits2_pos_size p : digits2_pos p = Pos.size p.
Proof. induction p; cbn; congruence. Qed.

Lemma Zdigits2_le (m k : Z) : 0 <= k -> 0 <= m < 2 ^ k -> Zdigits2 m <= k.
Proof.
  intros Hk [Hm Hlt]. destruct m as [|p|p]; [cbn; lia| |lia].
  cbn [Zdigits2]. rewrite digits2_pos_size.
  pose proof (Pos.size_le p) as Hle.
  assert (H : 2 ^ Zpos (Pos.size p) <= 2 * Zpos p).
  { change (2 * Zpos p) with (Zpos p~0). rewrite <- Pos2Z.inj_pow. exact Hle. }
  destruct (Z.le_gt_cases (Zpos (Pos.size p)) k) as [|Hgt]; [assumption|exfalso].
  assert (H0 : 2 ^ (k + 1) <= 2 ^ Zpos (Pos.size p)) by (apply Z.pow_le_mono_r; lia).
  rewrite Z.pow_add_r, Z.pow_1_r in H0 by lia. lia.
Qed.

Lemma iter_pos_nat {A} (f : A -> A) (p : positive) (x : A) :
  SpecFloat.iter_pos f p x = Nat.iter (Pos.to_nat p) f x.
Proof.
  revert x. induction p as [p IH|p IH|]; intros x; cbn [SpecFloat.iter_pos].
  - rewrite !IH, Pos2Nat.inj_xI.
    replace (S (2 * Pos.to_nat p)) with (Pos.to_nat p + (Pos.to_nat p + 1))%nat by lia.
    rewrite !Nat.iter_add. reflexivity.
  - rewrite !IH, Pos2Nat.inj_xO.
    replace (2 * Pos.to_nat p)%nat with (Pos.to_nat p + Pos.to_nat p)%nat by lia.
    rewrite Nat.iter_add. reflexivity.
  - reflexivity.
Qed.

Lemma shr_1_spec (x : shr_record) :
  0 <= shr_m x ->
  shr_m (shr_1 x) = shr_m x / 2
  /\ shr_r (shr_1 x) = Z.odd (shr_m x)
  /\ shr_s (shr_1 x) = shr_r x || shr_s x.
Proof.
  destruct x as [m r s]. cbn [shr_m shr_r shr_s]. intros Hm.
  destruct m as [|[p|p|]|p]; cbn [shr_1 shr_m shr_r shr_s]; try lia.
  - split; [reflexivity|]. split; reflexivity.
  - split; [|split; reflexivity].
    rewrite Pos2Z.inj_xI. apply Z.div_unique with (r := 1); lia.
  - split; [|split; reflexivity].
    rewrite Pos2Z.inj_xO. apply Z.div_unique with (r := 0); lia.
  - split; [reflexivity|]. split; reflexivity.
Qed.

Lemma shr_iter (n : nat) (m : Z) :
  0 <= m ->
  let x := Nat.iter n shr_1 (Build_shr_record m false false) in
  shr_m x = m / 2 ^ Z.of_nat n
  /\ (m mod 2 ^ Z.of_nat n = 0 -> shr_r x = false /\ shr_s x = false).
Proof.
  intros Hm. induction n as [|n IH].
  - cbn. split; [rewrite Z.div_1_r; reflexivity|]. intros _. split; reflexivity.
  - cbn zeta in IH |- *. rewrite Nat.iter_succ.
    destruct IH as [IHm IHrs].
    assert (Hpos : 0 < 2 ^ Z.of_nat n) by (apply Z.pow_pos_nonneg; lia).
    assert (Hq : 0 <= m / 2 ^ Z.of_nat n) by (apply Z.div_pos; lia).
    destruct (@shr_1_spec (Nat.iter n shr_1 (Build_shr_record m false false)))
      as (H1 & H2 & H3); [rewrite IHm; exact Hq|].
    rewrite Nat2Z.inj_succ, Z.pow_succ_r by lia.
    split.
    + rewrite H1, IHm, Z.div_div by lia. f_equal. lia.
    + intros Hmod.
      assert (Hdiv : m = 2 ^ Z.of_nat n * (2 * (m / (2 * 2 ^ Z.of_nat n)))).
      { pose proof (Z.div_mod m (2 * 2 ^ Z.of_nat n)) as E. lia. }
      assert (Hmod' : m mod 2 ^ Z.of_nat n = 0).
      { rewrite Hdiv at 1. rewrite Z.mul_comm. apply Z.mod_mul. lia. }
      destruct (IHrs Hmod') as [Hr Hs].
      rewrite H2, H3, Hr, Hs, IHm. split; [|reflexivity].
      rewrite Hdiv at 1. rewrite Z.mul_comm, Z.div_mul by lia.
      rewrite Z.odd_mul. reflexivity.
Qed.

Lemma shr_spec (m e n : Z) :
  0 <= m ->
  let k := Z.max 0 n in
  let x := fst (shr (Build_shr_record m false false) e n) in
  shr_m x = m / 2 ^ k
  /\ snd (shr (Build_shr_record m false false) e n) = e + k
  /\ (m mod 2 ^ k = 0 -> loc_of_shr_record x = loc_Exact).
Proof.
  intros Hm k x. subst k x. destruct n as [|p|p]; cbn [shr fst snd shr_m].
  - rewrite Z.max_l by lia. cbn. rewrite Z.div_1_r.
    split; [reflexivity|]. split; [lia|]. reflexivity.
  - rewrite Z.max_r by lia. rewrite iter_pos_nat.
    destruct (@shr_iter (Pos.to_nat p) m Hm) as [H1 H2].
    cbn zeta in H1, H2. rewrite positive_nat_Z in H1, H2.
    split; [exact H1|]. split; [reflexivity|].
    intros Hmod. destruct (H2 Hmod) as [Hr Hs].
    destruct (Nat.iter (Pos.to_nat p) shr_1 (Build_shr_record m false false))
      as [m' r s]. cbn in Hr, Hs. subst r s. reflexivity.
  - rewrite Z.max_l by lia. cbn. rewrite Z.div_1_r.
    split; [reflexivity|]. split; [lia|]. reflexivity.
Qed.

Lemma round_nearest_even_spec (q : Z) (l : location) :
  q <= round_nearest_even q l <= q + 1
  /\ (l = loc_Exact -> round_nearest_even q l = q).
Proof.
  destruct l as [|[]]; cbn [round_nearest_even];
    try destruct (Z.even q); split; try lia; try reflexivity; discriminate.
Qed.

(** Dividing by [2^k], with any rounding that is exact on multiples,
    keeps integer bounds. *)
Lemma shift_bounds (m lo hi e k m' : Z) :
  0 <= k -> e + k <= 0 ->
  lo * 2 ^ (- e) <= m <= hi * 2 ^ (- e) ->
  m / 2 ^ k <= m' <= m / 2 ^ k + 1 ->
  (m mod 2 ^ k = 0 -> m' = m / 2 ^ k) ->
  lo * 2 ^ (- (e + k)) <= m' <= hi * 2 ^ (- (e + k)).
Proof.
  intros Hk He Hb Hm' Hex.
  replace (- e) with (- (e + k) + k) in Hb by lia.
  rewrite Z.pow_add_r in Hb by lia.
  assert (HP : 0 < 2 ^ k) by (apply Z.pow_pos_nonneg; lia).
  assert (HQ : 0 < 2 ^ (- (e + k))) by (apply Z.pow_pos_nonneg; lia).
  set (P := 2 ^ k) in *. set (Q := 2 ^ (- (e + k))) in *.
  pose proof (Z.div_mod m P ltac:(lia)) as Hdm.
  pose proof (Z.mod_pos_bound m P HP) as Hr.
  set (q := m / P) in *. set (r := m mod P) in *.
  split.
  - assert (lo * Q <= q) by nia. lia.
  - assert (Hq : q <= hi * Q) by nia.
    destruct (Z.eq_dec q (hi * Q)) as [E|E]; [|lia].
    assert (r = 0) by nia. rewrite (Hex H). lia.
Qed.

Lemma fexp_nonpos (m e hi : Z) :
  0 <= m -> e <= 0 -> hi < 2 ^ 53 -> m <= hi * 2 ^ (- e) ->
  e + Z.max 0 (fexp 53 1024 (Zdigits2 m + e) - e) <= 0.
Proof.
  intros Hm He Hhi Hb.
  assert (HQ : 0 < 2 ^ (- e)) by (apply Z.pow_pos_nonneg; lia).
  assert (Hlt : m < 2 ^ (53 - e)).
  { replace (53 - e) with (53 + - e) by lia. rewrite Z.pow_add_r by lia. nia. }
  pose proof (@Zdigits2_le m (53 - e) ltac:(lia) (conj Hm Hlt)) as Hd.
  unfold fexp, emin. lia.
Qed.

Lemma binary_round_aux_between (m e lo hi : Z) :
  0 <= m -> e <= 0 -> hi < 2 ^ 53 ->
  lo * 2 ^ (- e) <= m <= hi * 2 ^ (- e) ->
  Float64.between lo hi (binary_round_aux 53 1024 false m e loc_Exact).
Proof.
  intros Hm He Hhi Hb.
  unfold binary_round_aux, shr_fexp. cbn [shr_record_of_loc].
  set (n1 := fexp 53 1024 (Zdigits2 m + e) - e).
  destruct (@shr_spec m e n1 Hm) as (Hq1 & He1 & Hx1). cbn zeta in Hq1, He1, Hx1.
  destruct (shr (Build_shr_record m false false) e n1) as [x1 e1].
  cbn [fst snd] in Hq1, He1, Hx1.
  pose proof (@fexp_nonpos m e hi Hm He Hhi (proj2 Hb)) as Hk1. fold n1 in Hk1.
  set (m1 := round_nearest_even (shr_m x1) (loc_of_shr_record x1)).
  destruct (round_nearest_even_spec (shr_m x1) (loc_of_shr_record x1)) as [Hr1 Hr1'].
  fold m1 in Hr1, Hr1'.
  assert (Hm1 : 0 <= m1).
  { rewrite Hq1 in Hr1. pose proof (Z.div_pos m (2 ^ Z.max 0 n1) Hm
      ltac:(apply Z.pow_pos_nonneg; lia)). lia. }
  assert (Hb1 : lo * 2 ^ (- e1) <= m1 <= hi * 2 ^ (- e1)).
  { rewrite He1.
    apply (@shift_bounds m lo hi e (Z.max 0 n1) m1); [lia|lia|exact Hb| |].
    - rewrite <- Hq1. exact Hr1.
    - intros Hmod. rewrite <- Hq1. apply Hr1'. apply Hx1. exact Hmod. }
  assert (He1' : e1 <= 0) by lia.
  set (n2 := fexp 53 1024 (Zdigits2 m1 + e1) - e1).
  destruct (@shr_spec m1 e1 n2 Hm1) as (Hq2 & He2 & _). cbn zeta in Hq2, He2.
  destruct (shr (Build_shr_record m1 false false) e1 n2) as [x2 e2].
  cbn [fst snd] in Hq2, He2.
  pose proof (@fexp_nonpos m1 e1 hi Hm1 He1' Hhi (proj2 Hb1)) as Hk2. fold n2 in Hk2.
  assert (Hb2 : lo * 2 ^ (- e2) <= shr_m x2 <= hi * 2 ^ (- e2)).
  { rewrite He2.
    apply (@shift_bounds m1 lo hi e1 (Z.max 0 n2) (shr_m x2)); [lia|lia|exact Hb1| |].
    - rewrite Hq2. lia.
    - intros _. exact Hq2. }
  assert (Hm2 : 0 <= shr_m x2).
  { rewrite Hq2. apply Z.div_pos; [exact Hm1|]. apply Z.pow_pos_nonneg; lia. }
  assert (HQ : 0 < 2 ^ (- e2)) by (apply Z.pow_pos_nonneg; lia).
  destruct (shr_m x2) as [|p|p] eqn:Ep; cbn [Float64.between].
  - nia.
  - destruct (Z.leb_spec e2 (1024 - 53)); [|lia].
    cbn [Float64.between]. split; [lia|exact Hb2].
  - lia.
Qed.

Lemma pos_iter_xO (m d : positive) : Zpos (Pos.iter xO m d) = Zpos m * 2 ^ Zpos d.
Proof.
  induction d as [|d IH] using Pos.peano_ind.
  - cbn. lia.
  - rewrite Pos.iter_succ, Pos2Z.inj_xO, IH, Pos2Z.inj_succ, Z.pow_succ_r by lia. lia.
Qed.

Lemma shl_align_spec (mx : positive) (ex ex' : Z) :
  snd (shl_align mx ex ex') = Z.min ex ex'
  /\ Zpos (fst (shl_align mx ex ex'))
     = Zpos mx * 2 ^ (ex - snd (shl_align mx ex ex')).
Proof.
  unfold shl_align. destruct (ex' - ex) as [|d|d] eqn:E; cbn [fst snd].
  - split; [lia|]. rewrite Z.sub_diag. cbn. lia.
  - split; [lia|]. rewrite Z.sub_diag. cbn. lia.
  - split; [lia|]. rewrite pos_iter_xO. f_equal. f_equal. lia.
Qed.

Lemma binary_round_between (mx : positive) (e lo hi : Z) :
  e <= 0 -> hi < 2 ^ 53 ->
  lo * 2 ^ (- e) <= Zpos mx <= hi * 2 ^ (- e) ->
  Float64.between lo hi (binary_round 53 1024 false mx e).
Proof.
  intros He Hhi Hb. unfold binary_round.
  destruct (shl_align_spec mx e (fexp 53 1024 (Zpos (digits2_pos mx) + e)))
    as [Hez Hmz].
  destruct (shl_align mx e (fexp 53 1024 (Zpos (digits2_pos mx) + e))) as [mz ez].
  cbn [fst snd] in Hez, Hmz.
  assert (Hle : ez <= e) by lia.
  apply binary_round_aux_between; try lia.
  rewrite Hmz.
  replace (- ez) with (- e + (e - ez)) by lia.
  rewrite Z.pow_add_r by lia.
  assert (0 < 2 ^ (e - ez)) by (apply Z.pow_pos_nonneg; lia).
  nia.
Qed.

Lemma ofDyadic_between (m e lo hi : Z) :
  0 <= m -> e <= 0 -> hi < 2 ^ 53 ->
  lo * 2 ^ (- e) <= m <= hi * 2 ^ (- e) ->
  Float64.between lo hi (Float64.ofDyadic m e).
Proof.
  intros Hm He Hhi Hb. unfold Float64.ofDyadic, binary_normalize.
  destruct m as [|p|p]; [|apply binary_round_between; assumption|lia].
  cbn [Float64.between].
  assert (0 < 2 ^ (- e)) by (apply Z.pow_pos_nonneg; lia). nia.
Qed.

Lemma ofZ_between (z : Z) : 0 <= z < 2 ^ 53 -> Float64.between z z (Float64.ofZ z).
Proof.
  intros Hz. unfold Float64.ofZ. apply ofDyadic_between; [lia|lia|lia|cbn; lia].
Qed.

Lemma between_order (lo hi : Z) (x : Float64.t) : Float64.between lo hi x -> lo <= hi.
Proof.
  destruct x as [s|s| |[] m e]; cbn [Float64.between]; try lia; try tauto.
  intros [He Hb]. assert (0 < 2 ^ (- e)) by (apply Z.pow_pos_nonneg; lia). nia.
Qed.

Lemma between_weaken (lo hi lo' hi' : Z) (x : Float64.t) :
  lo' <= lo -> hi <= hi' -> Float64.between lo hi x -> Float64.between lo' hi' x.
Proof.
  intros Hl Hh. destruct x as [s|s| |[] m e]; cbn [Float64.between]; try lia; try tauto.
  intros [He Hb]. assert (0 < 2 ^ (- e)) by (apply Z.pow_pos_nonneg; lia).
  split; [exact He|]. nia.
Qed.

(** Interval arithmetic with integer bounds below [2^53] is sound for
    the addition of non-negative doubles. *)
Lemma add_between (a b c d : Z) (x y : Float64.t) :
  Float64.between a b x -> Float64.between c d y -> b + d < 2 ^ 53 ->
  Float64.between (a + c) (b + d) (Float64.add x y).
Proof.
  intros Hx Hy Hlt.
  pose proof (@between_order _ _ _ Hx) as Hab.
  pose proof (@between_order _ _ _ Hy) as Hcd.
  destruct x as [sx|sx| |[] mx ex]; cbn [Float64.between] in Hx; try tauto;
    destruct y as [sy|sy| |[] my ey]; cbn [Float64.between] in Hy; try tauto.
  - unfold Float64.add, SFadd.
    destruct sx, sy; cbn [Float64.between]; lia.
  - unfold Float64.add, SFadd.
    apply between_weaken with (lo := c) (hi := d); [lia|lia|exact Hy].
  - unfold Float64.add, SFadd.
    apply between_weaken with (lo := a) (hi := b); [lia|lia|exact Hx].
  - destruct Hx as [Hex Hbx], Hy as [Hey Hby].
    unfold Float64.add, SFadd. cbn [cond_Zopp].
    destruct (shl_align_spec mx ex (Z.min ex ey)) as [Hsx Hmx].
    destruct (shl_align_spec my ey (Z.min ex ey)) as [Hsy Hmy].
    rewrite Hmx, Hmy, Hsx, Hsy.
    replace (Z.min ex (Z.min ex ey)) with (Z.min ex ey) by lia.
    replace (Z.min ey (Z.min ex ey)) with (Z.min ex ey) by lia.
    set (ez := Z.min ex ey).
    assert (Hpx : 0 < 2 ^ (ex - ez)) by (apply Z.pow_pos_nonneg; lia).
    assert (Hpy : 0 < 2 ^ (ey - ez)) by (apply Z.pow_pos_nonneg; lia).
    assert (Hqx : 2 ^ (- ez) = 2 ^ (- ex) * 2 ^ (ex - ez)).
    { rewrite <- Z.pow_add_r by lia. f_equal. lia. }
    assert (Hqy : 2 ^ (- ez) = 2 ^ (- ey) * 2 ^ (ey - ez)).
    { rewrite <- Z.pow_add_r by lia. f_equal. lia. }
    change (binary_normalize Float64.prec Float64.emax ?m ?e false)
      with (Float64.ofDyadic m e).
    apply ofDyadic_between; try lia.
    rewrite !Z.mul_add_distr_r.
    rewrite Hqx at 1 3. rewrite Hqy. nia.
Qed.

Lemma mul_between (a b c d : Z) (x y : Float64.t) :
  Float64.between a b x -> Float64.between c d y ->
  0 <= a -> 0 <= c -> b * d < 2 ^ 53 ->
  Float64.between (a * c) (b * d) (Float64.mul x y).
Proof.
  intros Hx Hy Ha Hc Hlt.
  pose proof (@between_order _ _ _ Hx) as Hab.
  pose proof (@between_order _ _ _ Hy) as Hcd.
  destruct x as [sx|sx| |[] mx ex]; cbn [Float64.between] in Hx; try tauto;
    destruct y as [sy|sy| |[] my ey]; cbn [Float64.between] in Hy; try tauto;
    unfold Float64.mul, SFmul; cbn [Float64.between xorb]; try nia.
  destruct Hx as [Hex Hbx], Hy as [Hey Hby].
  apply binary_round_aux_between; try lia.
  rewrite Pos2Z.inj_mul.
  replace (- (ex + ey)) with (- ex + - ey) by lia.
  rewrite Z.pow_add_r by lia.
  assert (0 < 2 ^ (- ex)) by (apply Z.pow_pos_nonneg; lia).
  assert (0 < 2 ^ (- ey)) by (apply Z.pow_pos_nonneg; lia).
  split; nia.
Qed.

Lemma between_toQ (lo hi : Z) (x : Float64.t) :
  Float64.between lo hi x ->
  exists q : Q, Float64.toQ x = Some q /\ (inject_Z lo <= q <= inject_Z hi)%Q.
Proof.
  destruct x as [s|s| |[] m e]; cbn [Float64.between Float64.toQ]; try tauto.
  - intros H. exists 0%Q. split; [reflexivity|].
    change 0%Q with (inject_Z 0). rewrite <- !Zle_Qle. exact H.
  - intros [He Hb]. eexists. split; [reflexivity|]. cbn [cond_Zopp].
    assert (HP : 0 < 2 ^ (- e)) by (apply Z.pow_pos_nonneg; lia).
    assert (E : (2 ^ e == / inject_Z (2 ^ (- e)))%Q).
    { rewrite Zpower_Qpower by lia. rewrite <- Qpower_opp, Z.opp_involutive.
      reflexivity. }
    rewrite E.
    assert (HPQ : (0 < inject_Z (2 ^ (- e)))%Q).
    { change 0%Q with (inject_Z 0). rewrite <- Zlt_Qlt. exact HP. }
    split.
    + apply Qle_shift_div_l; [exact HPQ|].
      rewrite <- inject_Z_mult, <- Zle_Qle. lia.
    + apply Qle_shift_div_r; [exact HPQ|].
      rewrite <- inject_Z_mult, <- Zle_Qle. lia.
Qed.

Lemma between_valueWithin (lo hi : Z) (x : Float64.t) :
  Float64.between lo hi x -> valueWithin lo hi x.
Proof. exact (@between_toQ lo hi x). Qed.

(** [Math.random()] returns a double between 0 and 1. *)
Lemma random_run (w : World.t) :
  exists r,
    World.random w
    = (Normal r, World.mk (World.tl (World.randoms w)) (World.clock w) (World.uuids w))
    /\ Float64.between 0 1 r.
Proof.
  eexists. split; [reflexivity|].
  set (k := Z.of_nat (World.hd (World.randoms w))).
  pose proof (Z.mod_pos_bound k (2 ^ 53) ltac:(lia)) as Hm.
  pose proof (Z.mod_pos_bound (k / 2 ^ 53) 1022 ltac:(lia)) as Hj.
  apply ofDyadic_between; try lia.
  replace (- (- 53 - (k / 2 ^ 53) mod 1022)) with (53 + (k / 2 ^ 53) mod 1022) by lia.
  rewrite Z.pow_add_r by lia.
  assert (0 < 2 ^ ((k / 2 ^ 53) mod 1022)) by (apply Z.pow_pos_nonneg; lia).
  nia.
Qed.

(** Every double of [0, 1) is an answer of [Math.random()] in some
    world: a double in canonical form, [m * 2^e] below 1. *)
Lemma random_covers (m : positive) (e : Z) (clock : World.Stream Z)
    (uuids : World.Stream string) :
  canonical_mantissa 53 1024 m e = true ->
  Zpos m < 2 ^ (- e) ->
  exists k : nat,
    fst (World.random (World.mk (fun _ => k) clock uuids))
    = Normal (S754_finite false m e).
Proof.
  intros Hcan Hone. unfold canonical_mantissa in Hcan. apply Z.eqb_eq in Hcan.
  assert (He : e <= 0).
  { destruct (Z.le_gt_cases e 0) as [|Hgt]; [assumption|].
    rewrite Z.pow_neg_r in Hone by lia. lia. }
  assert (Hd : Zpos (digits2_pos m) <= - e).
  { apply (@Zdigits2_le (Zpos m) (- e)); lia. }
  assert (Hrange : - 1074 <= e <= - 53) by (unfold fexp, emin in Hcan; lia).
  assert (Hm : Zpos m < 2 ^ 53).
  { pose proof (Pos.size_gt m) as Hs. rewrite <- digits2_pos_size in Hs.
    apply Pos2Z.pos_lt_pos in Hs. rewrite Pos2Z.inj_pow in Hs.
    assert (2 ^ Zpos (digits2_pos m) <= 2 ^ 53).
    { apply Z.pow_le_mono_r; [lia|]. unfold fexp, emin in Hcan. lia. }
    change (Z.pos 2) with 2 in Hs. lia. }
  exists (Z.to_nat (Zpos m + 2 ^ 53 * (- 53 - e))).
  unfold World.random. cbn [fst World.hd World.randoms]. unfold World.hd.
  rewrite Z2Nat.id by lia.
  replace ((Zpos m + 2 ^ 53 * (- 53 - e)) mod 2 ^ 53) with (Zpos m).
  2:{ rewrite Z.mul_comm, Z.mod_add by lia. rewrite Z.mod_small; lia. }
  replace ((Zpos m + 2 ^ 53 * (- 53 - e)) / 2 ^ 53) with (- 53 - e).
  2:{ rewrite Z.mul_comm, Z.div_add by lia. rewrite Z.div_small; lia. }
  rewrite Z.mod_small by lia.
  replace (- 53 - (- 53 - e)) with e by lia.
  f_equal.
  unfold Float64.ofDyadic, binary_normalize, binary_round.
  change Float64.prec with 53. change Float64.emax with 1024.
  rewrite Hcan. unfold shl_align. rewrite Z.sub_diag.
  unfold binary_round_aux, shr_fexp. cbn [Zdigits2 shr_record_of_loc].
  rewrite Hcan, Z.sub_diag. cbn [shr shr_m loc_of_shr_record round_nearest_even].
  cbn [Zdigits2 shr_record_of_loc]. rewrite Hcan, Z.sub_diag. cbn [shr shr_m].
  destruct (Z.leb_spec e (1024 - 53)); [reflexivity|lia].
Qed.

(** [base + Math.random() * 500], for a base delay of at most 1500. *)
Lemma jitter_between (base : Z) (r : Float64.t) :
  0 <= base <= 1500 ->
  Float64.between 0 1 r ->
  Float64.between base (base + 500)
    (Float64.add (Float64.ofZ base) (Float64.mul r (Float64.ofZ 500))).
Proof.
  intros Hb Hr.
  assert (Hv : Float64.between 0 500 (Float64.mul r (Float64.ofZ 500))).
  { change 0 with (0 * 500) at 1. change 500 with (1 * 500) at 2.
    apply mul_between; [exact Hr| |lia|lia|lia].
    apply between_weaken with (lo := 500) (hi := 500); [lia|lia|].
    apply ofZ_between. lia. }
  replace base with (base + 0) at 1 by lia.
  apply add_between; [apply ofZ_between; lia|exact Hv|lia].
Qed.

(* ===================================================================== *)
(** ** The scripted opponent, where it plays by the rules                *)
(* ===================================================================== *)

Lemma insertBy_perm {A} (cmp : A -> A -> Z) x l : Permutation (x :: l) (insertBy cmp x l).
Proof.
  induction l as [|y l IH]; cbn; [reflexivity|].
  destruct (cmp x y <? 0); [reflexivity|].
  eapply perm_trans; [apply perm_swap|]. apply perm_skip. exact IH.
Qed.

Lemma sortBy_perm {A} (cmp : A -> A -> Z) l : Permutation l (sortBy cmp l).
Proof.
  unfold sortBy.
  assert (H : forall acc, Permutation (l ++ acc)
                            (fold_left (fun acc x => insertBy cmp x acc) l acc)).
  { induction l as [|x l IH]; intros acc; cbn; [reflexivity|].
    eapply perm_trans; [|apply IH].
    eapply perm_trans; [apply Permutation_middle|].
    apply Permutation_app_head. apply insertBy_perm. }
  specialize (H []). rewrite app_nil_r in H. exact H.
Qed.

Lemma sorted_head {A} (cmp : A -> A -> Z) l :
  l <> [] -> exists x, hd_error (sortBy cmp l) = Some x /\ In x l.
Proof.
  intros Hne. pose proof (sortBy_perm cmp l) as Hp.
  destruct (sortBy cmp l) as [|x r] eqn:E.
  - apply Permutation_sym, Permutation_nil in Hp. contradiction.
  - exists x. split; [reflexivity|].
    apply (Permutation_in x (Permutation_sym Hp)). left. reflexivity.
Qed.

Lemma cardsOf_defined cards : AIPlayer.cardsOf (map Some cards) = cards.
Proof. induction cards as [|c cards IH]; cbn; [reflexivity|]. f_equal. exact IH. Qed.

Lemma randomBelow_returns (n : nat) (w : World.t) (Q : nat -> World.t -> Prop) :
  (forall k w', (n <> 0%nat -> (k < n)%nat) -> Q k w') ->
  returns (World.randomBelow n) w Q.
Proof.
  intros H. eexists. eexists. split; [reflexivity|]. apply H. intros Hn.
  destruct (Nat.eqb_spec n 0); [contradiction|]. apply Nat.mod_upper_bound. exact Hn.
Qed.

Lemma random_returns (w : World.t) (Q : Float64.t -> World.t -> Prop) :
  (forall r w', Float64.between 0 1 r -> Q r w') -> returns World.random w Q.
Proof.
  intros H. destruct (random_run w) as (r & Hrun & Hr).
  eexists. eexists. split; [exact Hrun|]. apply H. exact Hr.
Qed.

Lemma split_at_card (cards : list Card.t) (c : Card.t) :
  NoDup (map Card.id cards) -> In c cards ->
  exists pre post, cards = pre ++ c :: post
                   /\ forall x, In x pre -> Card.id x <> Card.id c.
Proof.
  intros Hnd Hin. destruct (in_split _ _ Hin) as (pre & post & ->).
  exists pre, post. split; [reflexivity|]. intros x Hx E.
  rewrite map_app in Hnd. cbn in Hnd. apply NoDup_remove_2 in Hnd.
  apply Hnd. apply in_or_app. left. rewrite <- E. apply in_map. exact Hx.
Qed.

Lemma validMovesOf_defined (s : GameState.t) (p : Player.t) cards below top :
  Player.hand p = map Some cards ->
  GameState.discardPile s = below ++ [Some top] ->
  AIPlayer.validMovesOf s p
  = Normal (map Some (filter (legalNow top None 0 false) cards)).
Proof.
  intros Hh Hd. unfold AIPlayer.validMovesOf, GameEngine.getTopCardOf, getSlot.
  rewrite Hd, get_last. cbn [CardDeck.getCurrentColor deref cbind].
  rewrite Hh.
  assert (E : (match Color.eqb (Card.color top) Color.wild with
               | true | _ => Normal (if Color.eqb (Card.color top) Color.wild
                                     then Color.red else Card.color top)
               end : Completion Color.t)
              = Normal (if Color.eqb (Card.color top) Color.wild
                        then Color.red else Card.color top)).
  { destruct (Color.eqb (Card.color top) Color.wild); reflexivity. }
  rewrite E. cbn [cbind].
  apply filterC_defined. intros c. unfold CardDeck.isPlayable, legalNow. cbn.
  destruct (Color.eqb (Card.color c) Color.wild); [reflexivity|].
  destruct (Color.eqb (Card.color c) _); [reflexivity|].
  cbn. destruct (Value.eqb (Card.value c) (Card.value top)); reflexivity.
Qed.

Lemma legalNow_agree top sel stacked rule c :
  stacked <= 0 ->
  (Card.color top = Color.wild -> sel = None \/ sel = Some Color.red) ->
  legalNow top sel stacked rule c = legalNow top None 0 false c.
Proof.
  intros Hs Hsel. unfold legalNow.
  destruct (Z.gtb_spec stacked 0); [lia|]. cbn [andb].
  destruct (Color.eqb (Card.color top) Color.wild) eqn:Hw; [|reflexivity].
  apply color_eqb_eq in Hw. destruct (Hsel Hw) as [-> | ->]; reflexivity.
Qed.

Lemma pickBestCard_returns (self : AIPlayer.t) (vm hand : list Card.t)
    (state : GameState.t) (chance : World.t) :
  vm <> [] ->
  returns (AIPlayer.pickBestCard self (map Some vm) (map Some hand) state) chance
    (fun best _ => exists c, best = Some c /\ In c vm).
Proof.
  intros Hne. unfold AIPlayer.pickBestCard. destruct (AIPlayer.difficulty self).
  - apply returns_bind. apply randomBelow_returns. intros k w' Hk.
    apply returns_ret.
    assert (Hlt : (k < List.length vm)%nat).
    { rewrite length_map in Hk. apply Hk. destruct vm; [congruence|discriminate]. }
    destruct (nth_error vm k) as [c|] eqn:Hc; [|apply nth_error_None in Hc; lia].
    exists c. split; [|eapply nth_error_In; exact Hc].
    unfold getSlot, Js.get. destruct (Z.ltb_spec (Z.of_nat k) 0); [lia|].
    rewrite Nat2Z.id, nth_error_map, Hc. reflexivity.
  - apply returns_ret. rewrite !cardsOf_defined. unfold AIPlayer.basicStrategy.
    destruct (sorted_head (fun a b => AIPlayer.priority b - AIPlayer.priority a) vm Hne)
      as (c & Hc & Hin).
    exists c. split; [exact Hc|exact Hin].
  - apply returns_ret. rewrite !cardsOf_defined. unfold AIPlayer.optimalStrategy.
    destruct (sorted_head
                (fun a b => AIPlayer.scoreCard self vm hand state b
                            - AIPlayer.scoreCard self vm hand state a) vm Hne)
      as (c & Hc & Hin).
    exists c. split; [exact Hc|exact Hin].
Qed.

Lemma playCardDecision_returns (self : AIPlayer.t) (c : Card.t) (chance : World.t) :
  returns (AIPlayer.playCardDecision self (Some c)) chance
    (fun d _ => exists wildColor,
         AIDecision.action d
         = GameAction.mk ActionType.play_card (AIPlayer.id self) (Some (Card.id c)) None
             wildColor None None
         /\ (Card.color c = Color.wild -> wildColor <> None)).
Proof.
  unfold AIPlayer.playCardDecision.
  apply returns_bind. apply returns_liftC.
  apply returns_bind.
  assert (Hw : returns
                 (if Color.eqb (Card.color c) Color.wild
                  then bind (AIPlayer.pickWildColor self) (fun w => ret (Some w))
                  else ret None) chance
                 (fun o _ => Card.color c = Color.wild -> o <> None)).
  { destruct (Color.eqb (Card.color c) Color.wild) eqn:Hc.
    - apply returns_bind. unfold AIPlayer.pickWildColor.
      apply returns_bind. apply randomBelow_returns. intros k w' _.
      apply returns_ret. apply returns_ret. discriminate.
    - apply returns_ret. intros E. rewrite E in Hc. discriminate. }
  eapply returns_conseq; [exact Hw|]. intros o w1 Ho.
  apply returns_bind. unfold AIPlayer.getThinkingDelay.
  apply returns_bind. apply random_returns. intros r w2 _.
  apply returns_ret. apply returns_ret.
  exists o. split; [reflexivity|exact Ho].
Qed.

(** X9.  The opponent plays by the rules when its view of the colour is
    the engine's.  It is the opponent's turn in phase [playing], its hand
    holds distinct cards with identifiers, no penalty is pending, and the
    top card is not wild, or it is wild and the colour chosen is red or
    none.  Then at every difficulty and whatever the random numbers,
    [makeDecision] returns a decision in the opponent's own name, and
    [validateAction] accepts its action: a card of its hand that is legal
    (with a colour if it is wild), or a draw when it holds no legal
    card. *)
Theorem opponent_move_accepted (self : AIPlayer.t) (h : GameEngine.Heap)
    (player : Player.t) (cards : list Card.t) (below : list Slot) (top : Card.t)
    (chance : World.t) :
  let s := GameEngine.state (GameEngine.this h) in
  NoDup (map Player.id (GameState.players s)) ->
  Js.get (GameState.players s) (GameState.currentPlayerIndex s) = Some player ->
  Player.id player = AIPlayer.id self ->
  GameState.phase s = Phase.playing ->
  Player.hand player = map Some cards ->
  NoDup (map Card.id cards) ->
  (forall c, In c cards -> Card.id c <> "") ->
  GameState.discardPile s = below ++ [Some top] ->
  GameState.stackedDrawAmount s <= 0 ->
  (Card.color top = Color.wild ->
   GameEngine.selectedWildColor (GameEngine.this h) = None
   \/ GameEngine.selectedWildColor (GameEngine.this h) = Some Color.red) ->
  exists decision chance',
    AIPlayer.makeDecision self s chance = (Normal (Some decision), chance')
    /\ GameAction.playerId (AIDecision.action decision) = AIPlayer.id self
    /\ GameEngine.validateAction (AIDecision.action decision) h = (Normal Valid, h).
Proof.
  intros s Hids Hcur Hid Hphase Hhand Hnd Hne Htop Hstack Hsel.
  pose proof (findPlayer_at _ Hids _ _ Hcur) as Hfp. rewrite Hid in Hfp.
  assert (Hturn : String.eqb (Player.id player) (AIPlayer.id self) = true)
    by (rewrite Hid; apply String.eqb_refl).
  rewrite (makeDecision_playing self s player player chance Hfp Hcur Hturn Hphase).
  assert (Hgoal : returns (AIPlayer.decidePlay self s player) chance
                    (fun d _ =>
                       GameAction.playerId (AIDecision.action d) = AIPlayer.id self
                       /\ GameEngine.validateAction (AIDecision.action d) h
                          = (Normal Valid, h))).
  2:{ destruct Hgoal as (d & chance' & Hrun & HQ).
      exists d, chance'. unfold bind. rewrite Hrun. split; [reflexivity|exact HQ]. }
  unfold AIPlayer.decidePlay.
  apply returns_bind.
  rewrite (validMovesOf_defined s player cards below top Hhand Htop).
  apply returns_liftC.
  destruct (Z.gtb_spec (GameState.stackedDrawAmount s) 0) as [Hpos|_]; [lia|].
  set (vm := filter (legalNow top None 0 false) cards).
  destruct vm as [|c0 vm0] eqn:Hvm.
  - (* nothing to play: the opponent draws *)
    cbn [map jlength List.length Z.of_nat Z.eqb].
    unfold AIPlayer.drawDecision, AIPlayer.getThinkingDelay.
    apply returns_bind. apply returns_bind. apply random_returns. intros r w' _.
    apply returns_ret. apply returns_ret. split; [reflexivity|].
    cbn [AIDecision.action].
    unfold GameEngine.validateAction. unfold bind at 1.
    cbn [GameEngine.thisState gets GameAction.playerId GameAction.type]. fold s.
    rewrite Hfp. unfold bind at 1.
    unfold GameEngine.isCurrentPlayer, GameEngine.getCurrentPlayer.
    unfold bind at 1. unfold bind at 1. cbn [GameEngine.thisState gets ret]. fold s.
    rewrite Hcur. unfold bind at 1. cbn [liftC deref ret]. rewrite Hturn. reflexivity.
  - (* a card to play *)
    assert (Hlen : (jlength (map (@Some Card.t) (c0 :: vm0)) =? 0) = false).
    { apply Z.eqb_neq. unfold jlength. cbn. lia. }
    rewrite Hlen. rewrite Hhand. rewrite <- Hvm.
    apply returns_bind.
    eapply returns_conseq;
      [apply (pickBestCard_returns self vm cards s chance); rewrite Hvm; discriminate|].
    intros best w1 (c & -> & Hin).
    eapply returns_conseq; [apply playCardDecision_returns|].
    intros d w2 (wildColor & Hact & Hwild). rewrite Hact.
    split; [reflexivity|].
    unfold vm in Hin. apply filter_In in Hin. destruct Hin as [Hin Hlegal].
    destruct (split_at_card cards c Hnd Hin) as (pre & post & Hsplit & Hpre).
    rewrite <- Hid.
    apply (validateAction_in_turn h player c pre post below top wildColor Hids Hcur).
    + rewrite Hhand, Hsplit. reflexivity.
    + exact Hpre.
    + apply Hne. exact Hin.
    + exact Htop.
    + rewrite (legalNow_agree top _ _ _ c Hstack Hsel). exact Hlegal.
    + exact Hwild.
Qed.

Lemma yields_bind_with {S A B} (c : M S A) (k : A -> M S B) (P : A -> Prop) Q :
  yields c P -> (forall a, P a -> yields (k a) Q) -> yields (bind c k) Q.
Proof.
  intros Hc Hk s. unfold bind. specialize (Hc s).
  destruct (c s) as [[a|e] s1]; cbn in *; [|exact I].
  apply Hk. exact Hc.
Qed.

Lemma yields_delay (self : AIPlayer.t) :
  yields (AIPlayer.getThinkingDelay self) (valueWithin 0 2000).
Proof.
  intros w. unfold AIPlayer.getThinkingDelay. unfold bind at 1.
  destruct (random_run w) as (r & Hrun & Hr). rewrite Hrun. cbn [ret fst].
  apply between_valueWithin.
  destruct (AIPlayer.difficulty self).
  - apply between_weaken with (lo := 1500) (hi := 1500 + 500); [lia|lia|].
    apply jitter_between; [lia|exact Hr].
  - apply between_weaken with (lo := 1000) (hi := 1000 + 500); [lia|lia|].
    apply jitter_between; [lia|exact Hr].
  - apply between_weaken with (lo := 500) (hi := 500 + 500); [lia|lia|].
    apply jitter_between; [lia|exact Hr].
Qed.

(** [decideSlap] at a time of the clock that a [Date] can hold. *)
Lemma decideSlap_run (self : AIPlayer.t) (state : GameState.t) (w : World.t) :
  let base := match AIPlayer.difficulty self with
              | easy => 1500 | medium => 800 | hard => 200
              end in
  exists d w',
    AIPlayer.decideSlap self state w = (Normal d, w')
    /\ GameAction.type (AIDecision.action d) = ActionType.slap
    /\ GameAction.playerId (AIDecision.action d) = AIPlayer.id self
    /\ GameAction.targetPlayerId (AIDecision.action d) = None
    /\ Float64.between base (base + 500) (AIDecision.delay d)
    /\ (0 <= World.hd (World.clock w) <= 8640000000000000 ->
        exists stamp, GameAction.timestamp (AIDecision.action d) = Some stamp
                      /\ Float64.between (World.hd (World.clock w) + base)
                           (World.hd (World.clock w) + base + 500) stamp).
Proof.
  intros base. unfold AIPlayer.decideSlap. fold base. unfold bind at 1.
  destruct (random_run w) as (r & Hrun & Hr). rewrite Hrun.
  unfold bind, World.now, ret.
  cbn [World.clock World.randoms World.uuids].
  assert (Hbase : 0 <= base <= 1500) by (subst base; destruct (AIPlayer.difficulty self); lia).
  assert (Hv : Float64.between 0 500 (Float64.mul r (Float64.ofZ 500))).
  { change 0 with (0 * 500) at 1. change 500 with (1 * 500) at 2.
    apply mul_between; [exact Hr| |lia|lia|lia].
    apply ofZ_between. lia. }
  do 2 eexists. split; [reflexivity|].
  cbn [AIDecision.action AIDecision.delay GameAction.type GameAction.playerId
       GameAction.targetPlayerId GameAction.timestamp].
  split; [reflexivity|]. split; [reflexivity|]. split; [reflexivity|]. split.
  - apply jitter_between; [exact Hbase|exact Hr].
  - intros Hnow. eexists. split; [reflexivity|].
    set (now := World.hd (World.clock w)) in *.
    replace (now + base) with (now + base + 0) at 1 by lia.
    apply add_between; [|exact Hv|lia].
    apply add_between; [apply ofZ_between; lia|apply ofZ_between; lia|lia].
Qed.

Lemma yields_decidePlay (self : AIPlayer.t) (state : GameState.t) (player : Player.t) :
  yields (AIPlayer.decidePlay self state player) (fun d => ownDecision self (Some d)).
Proof.
  assert (Hdraw : yields (AIPlayer.drawDecision self)
                    (fun d => ownDecision self (Some d))).
  { unfold AIPlayer.drawDecision.
    eapply yields_bind_with; [apply yields_delay|]. intros d Hd.
    apply yields_ret. cbn [ownDecision AIDecision.action AIDecision.delay
                           GameAction.playerId GameAction.targetPlayerId GameAction.type].
    split; [reflexivity|]. split; [reflexivity|]. split; [auto 6|exact Hd]. }
  assert (Hplay : forall card, yields (AIPlayer.playCardDecision self card)
                                 (fun d => ownDecision self (Some d))).
  { intros card. unfold AIPlayer.playCardDecision.
    apply yields_bind. intros c. apply yields_bind. intros w.
    eapply yields_bind_with; [apply yields_delay|]. intros d Hd.
    apply yields_ret. cbn [ownDecision AIDecision.action AIDecision.delay
                           GameAction.playerId GameAction.targetPlayerId GameAction.type].
    split; [reflexivity|]. split; [reflexivity|]. split; [auto 6|exact Hd]. }
  unfold AIPlayer.decidePlay. yields_tac; auto.
Qed.

(** X10.  The opponent acts for itself only.  Whatever the state, the
    difficulty and the random numbers, a decision that [makeDecision]
    returns bears the opponent's own identifier and no target, is a
    [play_card], [draw_card], [slap] or [create_custom_rule], and its
    delay, a double, is between 0 and 2000 milliseconds, ends included. *)
Theorem opponent_acts_for_itself (self : AIPlayer.t) (state : GameState.t)
    (chance : World.t) :
  match fst (AIPlayer.makeDecision self state chance) with
  | Normal r => ownDecision self r
  | Throw _ => True
  end.
Proof.
  assert (H : yields (AIPlayer.makeDecision self state) (ownDecision self)).
  2:{ apply H. }
  unfold AIPlayer.makeDecision.
  destruct (GameEngine.findPlayer _ _) as [player|]; [|apply yields_ret; exact I].
  apply yields_bind. intros cur.
  destruct (_ && _); [apply yields_ret; exact I|].
  destruct (GameState.phase state); try (apply yields_ret; exact I).
  - eapply yields_bind_with; [apply yields_decidePlay|]. intros d Hd.
    apply yields_ret. exact Hd.
  - eapply yields_bind_with; [|intros d Hd; apply yields_ret; exact Hd].
    intros w.
    destruct (decideSlap_run self state w) as (d & w' & Hrun & Ht & Hp & Htg & Hd & _).
    rewrite Hrun. cbn [fst ownDecision].
    split; [exact Hp|]. split; [exact Htg|]. split; [auto 6|].
    apply between_valueWithin.
    destruct (AIPlayer.difficulty self);
      (eapply between_weaken; [| |exact Hd]; lia).
  - eapply yields_bind_with; [|intros d Hd; apply yields_ret; exact Hd].
    unfold AIPlayer.decideCustomRule.
    apply yields_bind. intros k. apply yields_ret.
    cbn [ownDecision AIDecision.action AIDecision.delay GameAction.playerId
         GameAction.targetPlayerId GameAction.type].
    split; [reflexivity|]. split; [reflexivity|]. split; [auto 6|].
    apply between_valueWithin.
    apply between_weaken with (lo := 1500) (hi := 1500); [lia|lia|].
    apply ofZ_between. lia.
Qed.

Lemma valueWithin_lt (a b c d : Z) (x y : Float64.t) (p q : Q) :
  b < c ->
  valueWithin a b x -> valueWithin c d y ->
  Float64.toQ x = Some p -> Float64.toQ y = Some q -> (p < q)%Q.
Proof.
  intros Hbc (p' & Hp' & Hp) (q' & Hq' & Hq) Ex Ey.
  rewrite Ex in Hp'. injection Hp' as <-. rewrite Ey in Hq'. injection Hq' as <-.
  apply Qle_lt_trans with (y := inject_Z b); [apply Hp|].
  apply Qlt_le_trans with (y := inject_Z c); [|apply Hq].
  rewrite <- Zlt_Qlt. exact Hbc.
Qed.

(** X11.  Reaction times in a slap race.  At a time of the clock that a
    [Date] can hold, [decideSlap] always returns a [slap] in the
    opponent's own name, whose delay, a double, lies in [200, 700] for a
    hard opponent, in [800, 1300] for a medium one and in [1500, 2000]
    for an easy one, ends included, and whose time stamp lies between the
    present time plus the base delay and 500 milliseconds more: whatever
    the random numbers, a harder opponent reacts sooner than an easier
    one.  The upper end is reached: there is a random number for which
    the easy opponent waits 2000 milliseconds exactly. *)
Theorem slap_reaction_by_difficulty (slow mid fast : AIPlayer.t) (state : GameState.t)
    (w1 w2 w3 : World.t) :
  AIPlayer.difficulty slow = easy ->
  AIPlayer.difficulty mid = medium ->
  AIPlayer.difficulty fast = hard ->
  0 <= World.hd (World.clock w1) <= 8640000000000000 ->
  0 <= World.hd (World.clock w2) <= 8640000000000000 ->
  0 <= World.hd (World.clock w3) <= 8640000000000000 ->
  (exists d1 d2 d3 w1' w2' w3',
      AIPlayer.decideSlap slow state w1 = (Normal d1, w1')
      /\ AIPlayer.decideSlap mid state w2 = (Normal d2, w2')
      /\ AIPlayer.decideSlap fast state w3 = (Normal d3, w3')
      /\ slapWithin slow 1500 (World.hd (World.clock w1)) d1
      /\ slapWithin mid 800 (World.hd (World.clock w2)) d2
      /\ slapWithin fast 200 (World.hd (World.clock w3)) d3
      /\ exists q1 q2 q3 : Q,
           Float64.toQ (AIDecision.delay d1) = Some q1
           /\ Float64.toQ (AIDecision.delay d2) = Some q2
           /\ Float64.toQ (AIDecision.delay d3) = Some q3
           /\ (q3 < q2)%Q /\ (q2 < q1)%Q)
  /\ (exists (k : nat) (d : AIDecision.t) (w' : World.t),
         AIPlayer.decideSlap slow state
           (World.mk (fun _ => k) (World.clock w1) (World.uuids w1)) = (Normal d, w')
         /\ AIDecision.delay d = Float64.ofZ 2000).
Proof.
  intros H1 H2 H3 N1 N2 N3. split.
  - destruct (decideSlap_run slow state w1) as (d1 & w1' & R1 & T1 & P1 & _ & D1 & S1).
    destruct (decideSlap_run mid state w2) as (d2 & w2' & R2 & T2 & P2 & _ & D2 & S2).
    destruct (decideSlap_run fast state w3) as (d3 & w3' & R3 & T3 & P3 & _ & D3 & S3).
    rewrite H1 in D1, S1. rewrite H2 in D2, S2. rewrite H3 in D3, S3.
    destruct (S1 N1) as (t1 & E1 & B1). destruct (S2 N2) as (t2 & E2 & B2).
    destruct (S3 N3) as (t3 & E3 & B3).
    apply between_valueWithin in B1, B2, B3.
    pose proof (@between_valueWithin _ _ _ D1) as V1.
    pose proof (@between_valueWithin _ _ _ D2) as V2.
    pose proof (@between_valueWithin _ _ _ D3) as V3.
    exists d1, d2, d3, w1', w2', w3'.
    split; [exact R1|]. split; [exact R2|]. split; [exact R3|].
    split; [unfold slapWithin; eauto 8|].
    split; [unfold slapWithin; eauto 8|].
    split; [unfold slapWithin; eauto 8|].
    destruct V1 as (q1 & Q1 & I1). destruct V2 as (q2 & Q2 & I2).
    destruct V3 as (q3 & Q3 & I3).
    exists q1, q2, q3. split; [exact Q1|]. split; [exact Q2|]. split; [exact Q3|].
    split.
    + apply (@valueWithin_lt 200 (200 + 500) 800 (800 + 500)
               (AIDecision.delay d3) (AIDecision.delay d2)); try assumption; try lia.
      * exists q3. split; [exact Q3|exact I3].
      * exists q2. split; [exact Q2|exact I2].
    + apply (@valueWithin_lt 800 (800 + 500) 1500 (1500 + 500)
               (AIDecision.delay d2) (AIDecision.delay d1)); try assumption; try lia.
      * exists q2. split; [exact Q2|exact I2].
      * exists q1. split; [exact Q1|exact I1].
  - exists (Z.to_nat (2 ^ 53 - 1)).
    assert (Hk : Z.of_nat (Z.to_nat (2 ^ 53 - 1)) = 2 ^ 53 - 1) by (apply Z2Nat.id; lia).
    revert Hk. generalize (Z.to_nat (2 ^ 53 - 1)). intros k Hk.
    do 2 eexists.
    unfold AIPlayer.decideSlap. rewrite H1.
    unfold bind, World.random, World.now, ret.
    cbn [World.randoms World.clock World.uuids]. unfold World.hd. rewrite Hk.
    split; [reflexivity|]. cbn [AIDecision.delay]. vm_compute. reflexivity.
Qed.


(** X9 at the small table, with a hard opponent in Alice's seat. *)
Lemma opponent_move_accepted_witness :
  exists decision chance',
    AIPlayer.makeDecision (AIPlayer.mk "alice" hard) (Examples.table Examples.fullPile)
      Examples.world = (Normal (Some decision), chance')
    /\ GameAction.playerId (AIDecision.action decision) = "alice"
    /\ GameEngine.validateAction (AIDecision.action decision)
         (Examples.heapOf (Examples.table Examples.fullPile) Examples.allRules)
       = (Normal Valid,
          Examples.heapOf (Examples.table Examples.fullPile) Examples.allRules).
Proof.
  apply (opponent_move_accepted (AIPlayer.mk "alice" hard)
           (Examples.heapOf (Examples.table Examples.fullPile) Examples.allRules)
           Examples.alice [Examples.rD; Examples.r1] [] Examples.r5 Examples.world);
    try reflexivity.
  - repeat constructor; cbn; intuition discriminate.
  - repeat constructor; cbn; intuition discriminate.
  - intros c [<- | [<- | []]]; discriminate.
  - intros E. discriminate.
Defined.

(** X11 for three opponents in the world of the examples. *)
Lemma slap_reaction_by_difficulty_witness :
  exists d1 d2 d3 w1' w2' w3',
    AIPlayer.decideSlap (AIPlayer.mk "a" easy) (Examples.table []) Examples.world
    = (Normal d1, w1')
    /\ AIPlayer.decideSlap (AIPlayer.mk "b" medium) (Examples.table []) Examples.world
       = (Normal d2, w2')
    /\ AIPlayer.decideSlap (AIPlayer.mk "c" hard) (Examples.table []) Examples.world
       = (Normal d3, w3')
    /\ valueWithin 1500 2000 (AIDecision.delay d1)
    /\ valueWithin 800 1300 (AIDecision.delay d2)
    /\ valueWithin 200 700 (AIDecision.delay d3).
Proof.
  assert (Hnow : 0 <= World.hd (World.clock Examples.world) <= 8640000000000000)
    by (vm_compute; split; discriminate).
  destruct (slap_reaction_by_difficulty (AIPlayer.mk "a" easy) (AIPlayer.mk "b" medium)
              (AIPlayer.mk "c" hard) (Examples.table []) Examples.world Examples.world
              Examples.world eq_refl eq_refl eq_refl Hnow Hnow Hnow)
    as [(d1 & d2 & d3 & w1' & w2' & w3' & H1 & H2 & H3 & B1 & B2 & B3 & _) _].
  exists d1, d2, d3, w1', w2', w3'.
  split; [exact H1|]. split; [exact H2|]. split; [exact H3|].
  split; [apply B1|]. split; [apply B2|apply B3].
Defined.

(* ===================================================================== *)
(** ** What validation lets through                                      *)
(* ===================================================================== *)

Lemma validateAction_unchecked (a : GameAction.t) (h : GameEngine.Heap) (p : Player.t) :
  GameEngine.findPlayer (GameState.players (GameEngine.state (GameEngine.this h)))
    (Some (GameAction.playerId a)) = Some p ->
  GameAction.type a = ActionType.pass_turn \/ GameAction.type a = ActionType.jump_in ->
  GameEngine.validateAction a h = (Normal Valid, h).
Proof.
  intros Hp Ht. unfold GameEngine.validateAction, GameEngine.thisState, gets, bind.
  rewrite Hp. destruct Ht as [-> | ->]; reflexivity.
Qed.

Lemma handlePlayCard_last (s : GameState.t) (a : GameAction.t) (h : GameEngine.Heap)
    (p : Player.t) (c : Card.t) :
  Js.get (GameState.players s)
    (GameEngine.findPlayerIndex (GameState.players s) (Some (GameAction.playerId a)))
  = Some p ->
  Player.hand p = [Some c] ->
  GameAction.cardId a = Some (Card.id c) ->
  exists h',
    GameEngine.handlePlayCard s a h
    = (Normal
         (GameState.with_winner (Some (GameAction.playerId a))
            (GameState.with_phase Phase.game_over
               (GameState.with_discardPile (GameState.discardPile s ++ [Some c])
                  (GameState.with_players
                     (Js.set (GameState.players s)
                        (GameEngine.findPlayerIndex (GameState.players s)
                           (Some (GameAction.playerId a)))
                        (Player.with_hasCalledUno false (Player.with_hand [] p)))
                     s)))), h')
    /\ GameEngine.state (GameEngine.this h') = GameEngine.state (GameEngine.this h)
    /\ GameEngine.config (GameEngine.this h') = GameEngine.config (GameEngine.this h)
    /\ GameEngine.world h' = GameEngine.world h
    /\ GameEngine.eventBus (GameEngine.this h')
       = GameEngine.eventBus (GameEngine.this h) ++ [Event.game_over p].
Proof.
  intros Hget Hhand Hid. unfold GameEngine.handlePlayCard.
  rewrite Hget. cbn [deref]. unfold liftC at 1. unfold bind at 1. cbn beta iota.
  rewrite Hhand, Hid.
  unfold findIndexC, findIndexFromC, GameEngine.hasId, deref, cbind, eqOpt.
  rewrite String.eqb_refl.
  unfold liftC, bind. cbn beta iota.
  change (getSlot [Some c] 0) with (Some c). cbn beta iota.
  change (slice [Some c] 0 0 ++ sliceFrom [Some c] (0 + 1)) with (@nil Slot).
  change (jlength (@nil Slot) =? 0) with true. cbn beta iota.
  destruct (Color.eqb (Card.color c) Color.wild), (GameAction.wildColor a);
    (eexists; split; [reflexivity|]; cbn; repeat split).
Qed.

(** X12.  A last card wins by [jump_in], whatever it is.  [validateAction]
    has no case for [jump_in]: when a seated player whose hand is a single
    card dispatches [jump_in] with that card, the engine accepts it in any
    phase, in or out of turn, whether the card matches the top card or
    not and whether the jump-in rule is on or off.  The card goes on the
    discard pile, the phase becomes [game_over] and the player is the
    winner. *)
Theorem jump_in_with_last_card_wins (h : GameEngine.Heap) (a : GameAction.t)
    (p : Player.t) (c : Card.t) :
  let s := GameEngine.state (GameEngine.this h) in
  GameAction.type a = ActionType.jump_in ->
  GameEngine.findPlayer (GameState.players s) (Some (GameAction.playerId a)) = Some p ->
  Player.hand p = [Some c] ->
  GameAction.cardId a = Some (Card.id c) ->
  exists s' h',
    GameEngine.dispatch a h = (Normal s', h')
    /\ GameEngine.state (GameEngine.this h') = s'
    /\ GameState.phase s' = Phase.game_over
    /\ GameState.winner s' = Some (GameAction.playerId a)
    /\ GameState.discardPile s' = GameState.discardPile s ++ [Some c]
    /\ GameEngine.eventBus (GameEngine.this h')
       = GameEngine.eventBus (GameEngine.this h)
         ++ [Event.game_over p; Event.state_changed s'].
Proof.
  intros s Ht Hp Hhand Hid.
  pose proof (findPlayer_get _ _ _ Hp) as Hget.
  destruct (handlePlayCard_last
              (GameState.with_currentPlayerIndex
                 (GameEngine.findPlayerIndex (GameState.players s)
                    (Some (GameAction.playerId a))) s) a h p c Hget Hhand Hid)
    as (h1 & Hrun & Hst & Hcfg & Hw & Hev).
  assert (Happly : GameEngine.applyAction a h = GameEngine.handleJumpIn s a h).
  { unfold GameEngine.applyAction, GameEngine.thisState, gets, bind. rewrite Ht.
    reflexivity. }
  unfold GameEngine.dispatch.
  rewrite (bind_run _ _ _ _ _ (validateAction_unchecked a h p Hp (or_intror Ht))).
  cbn [negb ValidationResult.valid Valid].
  unfold GameEngine.handleJumpIn in Happly. rewrite <- Happly in Hrun.
  rewrite (bind_run _ _ _ _ _ Hrun).
  eexists. eexists. split; [reflexivity|].
  cbn. rewrite Hev, <- app_assoc. repeat split.
Qed.

(** X13.  Passing needs no turn.  A [pass_turn] of any seated player is
    accepted in every phase and whoever's turn it is: [dispatch] returns
    the state with the turn moved on by [advanceTurn] and the action as
    its last action, and rejects nothing. *)
Theorem pass_turn_needs_no_turn (h : GameEngine.Heap) (a : GameAction.t) (p : Player.t) :
  let s := GameEngine.state (GameEngine.this h) in
  GameAction.type a = ActionType.pass_turn ->
  GameEngine.findPlayer (GameState.players s) (Some (GameAction.playerId a)) = Some p ->
  exists h',
    GameEngine.dispatch a h
    = (Normal (GameState.with_lastAction (Some a) (advanced (clockOf h) s)), h')
    /\ GameEngine.state (GameEngine.this h')
       = GameState.with_lastAction (Some a) (advanced (clockOf h) s)
    /\ Forall (fun e => isRejection e = false)
         (skipn (List.length (GameEngine.eventBus (GameEngine.this h)))
            (GameEngine.eventBus (GameEngine.this h'))).
Proof.
  intros s Ht Hp.
  unfold GameEngine.dispatch.
  rewrite (bind_run _ _ _ _ _ (validateAction_unchecked a h p Hp (or_introl Ht))).
  cbn [negb ValidationResult.valid Valid].
  unfold GameEngine.applyAction, GameEngine.thisState at 1.
  unfold bind at 2. unfold gets at 1. rewrite Ht.
  unfold GameEngine.handlePassTurn. unfold bind at 1.
  rewrite advanceTurn_eq.
  eexists. split; [reflexivity|]. split; [reflexivity|].
  cbn. rewrite <- app_assoc. rewrite skipn_app, skipn_all, Nat.sub_diag. cbn.
  repeat constructor.
Qed.

(** X12 at the small table: out of turn and with every rule off, Bob
    wins with a blue 3 on a red 5. *)
Lemma jump_in_with_last_card_wins_witness :
  exists s' h',
    GameEngine.dispatch MoreExamples.jumpBlueThree
      (Examples.heapOf MoreExamples.lastCardTable Examples.noRules) = (Normal s', h')
    /\ GameState.phase s' = Phase.game_over
    /\ GameState.winner s' = Some "bob".
Proof.
  destruct (jump_in_with_last_card_wins
              (Examples.heapOf MoreExamples.lastCardTable Examples.noRules)
              MoreExamples.jumpBlueThree
              (Player.with_hand [Some Examples.b3] Examples.bob) Examples.b3
              eq_refl eq_refl eq_refl eq_refl)
    as (s' & h' & Hrun & _ & Hphase & Hwin & _).
  exists s', h'. split; [exact Hrun|]. split; [exact Hphase|exact Hwin].
Defined.

(** X13 at the small table: Bob ends Alice's turn. *)
Lemma pass_turn_needs_no_turn_witness :
  exists h',
    GameEngine.dispatch MoreExamples.passByBob
      (Examples.heapOf (Examples.table Examples.fullPile) Examples.allRules)
    = (Normal (GameState.with_lastAction (Some MoreExamples.passByBob)
                 (advanced 0 (Examples.table Examples.fullPile))), h').
Proof.
  destruct (pass_turn_needs_no_turn
              (Examples.heapOf (Examples.table Examples.fullPile) Examples.allRules)
              MoreExamples.passByBob Examples.bob eq_refl eq_refl)
    as (h' & Hrun & _).
  exists h'. exact Hrun.
Defined.

(* ===================================================================== *)
(** ** Whose seat an action touches                                      *)
(* ===================================================================== *)

Lemma returns_with {A} (c : GameEngine.E A) h (Q : A -> GameEngine.Heap -> Prop)
    (P : A -> Prop) :
  returns c h Q -> yields c P -> returns c h (fun a h' => Q a h' /\ P a).
Proof.
  intros (a & h' & Hrun & HQ) HP. specialize (HP h). rewrite Hrun in HP.
  exists a, h'. split; [exact Hrun|]. split; assumption.
Qed.

Lemma yields_conseq {S A} (c : M S A) (P Q : A -> Prop) :
  yields c P -> (forall a, P a -> Q a) -> yields c Q.
Proof.
  intros Hc H s. specialize (Hc s). destruct (fst (c s)); [apply H; exact Hc|exact I].
Qed.

Lemma sameSeatsBut_refl j s : sameSeatsBut j s s.
Proof. split; [reflexivity|]. intros. reflexivity. Qed.

Lemma sameSeatsBut_trans j s1 s2 s3 :
  sameSeatsBut j s1 s2 -> sameSeatsBut j s2 s3 -> sameSeatsBut j s1 s3.
Proof.
  intros [A1 A2] [B1 B2]. split; [congruence|].
  intros k Hk. rewrite (B2 k Hk). apply A2, Hk.
Qed.

Lemma yields_advanceTurn s (Q : GameState.t -> Prop) :
  (forall now, Q (advanced now s)) -> yields (GameEngine.advanceTurn s) Q.
Proof. intros H h. rewrite advanceTurn_eq. apply H. Qed.

Lemma yields_liftC {S A} (c : Completion A) (P : A -> Prop) :
  (forall a, c = Normal a -> P a) -> yields (@liftC S A c) P.
Proof. intros H s. cbn. destruct c; [apply H; reflexivity|exact I]. Qed.

Lemma forceDrawCards_seats (s : GameState.t) (pid : string) (count : Z) :
  yields (GameEngine.forceDrawCards s pid count)
    (fun s' =>
       sameSeatsBut (GameEngine.findPlayerIndex (GameState.players s) (Some pid)) s s'
       /\ GameState.currentPlayerIndex s' = GameState.currentPlayerIndex s
       /\ GameState.direction s' = GameState.direction s).
Proof.
  unfold GameEngine.forceDrawCards.
  apply yields_bind. intros [pile discard].
  destruct (CardDeck.drawCards pile count) as [drawn remaining].
  eapply yields_bind_with.
  { apply yields_liftC. intros q Hq. exact Hq. }
  intros q Hq. apply yields_ret. cbn.
  destruct (Js.get (GameState.players s)
              (GameEngine.findPlayerIndex (GameState.players s) (Some pid)))
    as [q0|] eqn:Hget; [|discriminate].
  injection Hq as ->.
  split; [|split; reflexivity]. split.
  - apply (set_keeps_ids _ _ q _ Hget). reflexivity.
  - intros k Hk. apply (get_set_other _ _ _ q _ Hget). congruence.
Qed.

Lemma applyCardEffects_seats (s : GameState.t) (c : Card.t) (i : Z) :
  NoDup (map Player.id (GameState.players s)) ->
  yields (GameEngine.applyCardEffects s c i) (sameSeatsBut (nextIndex s) s).
Proof.
  intros Hids. unfold GameEngine.applyCardEffects.
  apply yields_bind. intros r.
  assert (Hsame : forall t, GameState.players t = GameState.players s ->
                            sameSeatsBut (nextIndex s) s t).
  { intros t Ht. split; [rewrite Ht; reflexivity|]. intros k _. rewrite Ht. reflexivity. }
  assert (Hadv : forall t, GameState.players t = GameState.players s ->
                           yields (GameEngine.advanceTurn t) (sameSeatsBut (nextIndex s) s)).
  { intros t Ht. apply yields_advanceTurn. intros now. apply Hsame. exact Ht. }
  assert (Hadv2 : forall t, sameSeatsBut (nextIndex s) s t ->
                            yields (GameEngine.advanceTurn t)
                              (sameSeatsBut (nextIndex s) s)).
  { intros t Ht. apply yields_advanceTurn. intros now. exact Ht. }
  assert (Hdraw : forall t count q,
             GameState.players t = GameState.players s ->
             GameState.currentPlayerIndex t = nextIndex s ->
             deref (Js.get (GameState.players t) (GameState.currentPlayerIndex t))
             = Normal q ->
             yields (GameEngine.forceDrawCards t (Player.id q) count)
               (sameSeatsBut (nextIndex s) s)).
  { intros t count q Hp Hc Hq.
    eapply yields_conseq; [apply forceDrawCards_seats|].
    intros t' ([Hi Ho] & _). rewrite Hp, Hc in Hq.
    destruct (Js.get (GameState.players s) (nextIndex s)) as [q0|] eqn:Hget;
      [|discriminate].
    injection Hq as ->.
    rewrite Hp, (findPlayerIndex_at _ Hids _ _ Hget) in Ho.
    split; [congruence|]. intros k Hk. rewrite (Ho k Hk). reflexivity. }
  assert (Hfirst : forall t (Q : GameState.t -> Prop),
             GameState.players t = GameState.players s ->
             nextIndex t = nextIndex s ->
             yields (GameEngine.advanceTurn t)
               (fun t' => GameState.players t' = GameState.players s
                          /\ GameState.currentPlayerIndex t' = nextIndex s)).
  { intros t Q Hp Hn. apply yields_advanceTurn. intros now. cbn. auto. }
  destruct (CardDeck.isDrawCard c).
  - destruct (EnabledRules.stackDraw r).
    + eapply yields_bind_with; [apply (Hfirst _ (fun _ => True)); reflexivity|].
      intros t [Hp Hc].
      eapply yields_bind_with; [apply yields_liftC; intros q Hq; exact Hq|].
      intros q Hq. apply yields_bind. intros canStack.
      destruct (negb canStack).
      * eapply yields_bind_with; [apply (Hdraw t _ q Hp Hc Hq)|].
        intros t' Ht'. apply yields_advanceTurn. intros now. exact Ht'.
      * apply yields_ret. apply Hsame. exact Hp.
    + eapply yields_bind_with; [apply (Hfirst _ (fun _ => True)); reflexivity|].
      intros t [Hp Hc].
      eapply yields_bind_with; [apply yields_liftC; intros q Hq; exact Hq|].
      intros q Hq.
      eapply yields_bind_with; [apply (Hdraw t _ q Hp Hc Hq)|].
      intros t' Ht'. apply Hadv2. exact Ht'.
  - destruct (CardDeck.isSkipCard c).
    { eapply yields_bind_with; [apply Hadv; reflexivity|].
      intros t Ht. apply Hadv2. exact Ht. }
    destruct (CardDeck.isReverseCard c).
    { destruct (jlength _ =? 2).
      - eapply yields_bind_with; [apply Hadv; reflexivity|].
        intros t Ht. apply Hadv2. exact Ht.
      - apply Hadv. reflexivity. }
    eapply yields_bind_with with (P := fun t => GameState.players t = GameState.players s).
    { destruct (EnabledRules.silence r && Value.eqb (Card.value c) (Value.num 7)).
      - apply yields_bind. intros _. apply yields_ret. reflexivity.
      - apply yields_ret. reflexivity. }
    intros t Ht.
    destruct (EnabledRules.customRule r && Value.eqb (Card.value c) (Value.num 0)).
    { apply yields_bind. intros p. apply yields_ret. apply Hsame. exact Ht. }
    destruct (EnabledRules.slap r && Value.eqb (Card.value c) (Value.num 5)).
    { apply yields_bind. intros now. apply yields_bind. intros _.
      apply yields_ret. apply Hsame. exact Ht. }
    apply Hadv. exact Ht.
Qed.

Lemma handlePlayCard_seat (s : GameState.t) (a : GameAction.t) (p : Player.t)
    (id : string) (c : Card.t) :
  wellFormed s ->
  Js.get (GameState.players s) (GameState.currentPlayerIndex s) = Some p ->
  GameAction.playerId a = Player.id p ->
  GameAction.cardId a = Some id ->
  findC (GameEngine.hasId (Some id)) (Player.hand p) = Normal (Some (Some c)) ->
  yields (GameEngine.handlePlayCard s a)
    (fun s' =>
       map Player.id (GameState.players s') = map Player.id (GameState.players s)
       /\ exists p',
           Js.get (GameState.players s') (GameState.currentPlayerIndex s) = Some p'
           /\ Player.id p' = Player.id p
           /\ Player.hasCalledUno p' = false
           /\ jlength (Player.hand p') = jlength (Player.hand p) - 1).
Proof.
  intros HW Hget Hpid Hid Hc. unfold GameEngine.handlePlayCard.
  assert (Hids : NoDup (map Player.id (GameState.players s))) by apply HW.
  rewrite Hpid, (findPlayerIndex_at _ Hids _ _ Hget).
  set (i := GameState.currentPlayerIndex s) in *.
  rewrite Hget. cbn [deref].
  eapply yields_bind_with; [apply yields_liftC; intros q Hq; exact Hq|].
  intros q Hq. injection Hq as <-.
  destruct (findC_to_index _ _ _ 0 Hc) as (n & Hn & Hnth).
  rewrite Hid. unfold findIndexC. rewrite Hn.
  eapply yields_bind_with; [apply yields_liftC; intros k Hk; exact Hk|].
  intros k Hk. injection Hk as <-.
  replace (0 + Z.of_nat n) with (Z.of_nat n) by lia.
  rewrite (getSlot_nth _ _ _ Hnth), slice_prefix.
  replace (Z.of_nat n + 1) with (Z.of_nat (S n)) by lia. rewrite sliceFrom_suffix.
  set (newHand := firstn n (Player.hand p) ++ skipn (S n) (Player.hand p)).
  set (p' := Player.with_hasCalledUno false (Player.with_hand newHand p)).
  set (s1 := GameState.with_discardPile (GameState.discardPile s ++ [Some c])
               (GameState.with_players (Js.set (GameState.players s) i p') s)).
  assert (Hlen : jlength newHand = jlength (Player.hand p) - 1).
  { unfold newHand, jlength. rewrite length_app, length_firstn, length_skipn.
    assert (n < List.length (Player.hand p))%nat
      by (apply nth_error_Some; rewrite Hnth; discriminate).
    lia. }
  assert (Hp' : Js.get (GameState.players s1) i = Some p').
  { unfold s1. cbn. eapply get_set_same. exact Hget. }
  assert (Hids1 : map Player.id (GameState.players s1) = map Player.id (GameState.players s)).
  { unfold s1. cbn. apply (set_keeps_ids _ _ p _ Hget). reflexivity. }
  eapply yields_bind_with; [apply yields_liftC; intros x Hx; exact Hx|].
  intros x Hx. injection Hx as <-.
  apply yields_bind. intros _.
  destruct (jlength newHand =? 0).
  - apply yields_bind. intros _. apply yields_ret. cbn.
    split; [exact Hids1|]. exists p'. repeat split; assumption.
  - eapply yields_bind_with.
    { apply (applyCardEffects_seats s1 c i). rewrite Hids1. exact Hids. }
    intros s2 [Hi2 Ho2]. apply yields_bind. intros _. apply yields_ret.
    split; [congruence|]. exists p'.
    split; [|repeat split; assumption].
    rewrite Ho2; [exact Hp'|].
    destruct HW as (_ & Hn2 & Hcur & Hd & _).
    assert (Hl1 : jlength (GameState.players s1) = jlength (GameState.players s)).
    { unfold s1. cbn. apply (set_length _ _ p _ Hget). }
    pose proof (nextIndex_range s1) as Hr. cbv zeta in Hr. rewrite Hl1 in Hr.
    destruct Hr as [_ Hne]; [exact Hn2|exact Hcur|exact Hd|].
    intros E. apply Hne. symmetry. exact E.
Qed.

Lemma findPlayer_seated (players : list Player.t) (pid : string) :
  In pid (map Player.id players) ->
  exists q, GameEngine.findPlayer players (Some pid) = Some q.
Proof.
  intros Hin. apply in_map_iff in Hin. destruct Hin as (q & Hq & Hin).
  unfold GameEngine.findPlayer.
  destruct (find (fun p => eqOpt (Player.id p) (Some pid)) players) as [x|] eqn:E.
  - exists x. reflexivity.
  - exfalso. pose proof (find_none _ _ E q Hin) as H. cbn in H.
    rewrite Hq, String.eqb_refl in H. discriminate.
Qed.

Lemma dispatch_accepted (a : GameAction.t) (h h1 : GameEngine.Heap)
    (v : ValidationResult.t) (s1 : GameState.t) :
  GameEngine.validateAction a h = (Normal v, h) ->
  ValidationResult.valid v = true ->
  GameEngine.applyAction a h = (Normal s1, h1) ->
  GameEngine.dispatch a h
  = (Normal (GameState.with_lastAction (Some a) s1),
     GameEngine.mkHeap
       (GameEngine.mk (GameState.with_lastAction (Some a) s1)
          (GameEngine.eventBus (GameEngine.this h1)
           ++ [Event.state_changed (GameState.with_lastAction (Some a) s1)])
          (GameEngine.config (GameEngine.this h1))
          (GameEngine.selectedWildColor (GameEngine.this h1)))
       (GameEngine.world h1)).
Proof.
  intros Hval Hvalid Happly. unfold GameEngine.dispatch.
  rewrite (bind_run _ _ _ _ _ Hval), Hvalid. cbn [negb].
  rewrite (bind_run _ _ _ _ _ Happly). reflexivity.
Qed.

(** X14.  Calling UNO does not protect.  [handlePlayCard] clears the
    flag [hasCalledUno] of the player who plays, and [call_uno] is valid
    with exactly two cards only.  So when the player whose turn it is
    plays, with the engine's consent, one of two cards, then whether or
    not UNO had been called the player is left with one card and a
    cleared flag, and [validateAction] accepts a [catch_uno] of any seated
    player against them. *)
Theorem uno_call_does_not_protect (h h0 : GameEngine.Heap) (a catch : GameAction.t)
    (p : Player.t) (v : ValidationResult.t) :
  let s := GameEngine.state (GameEngine.this h) in
  wellFormed s ->
  GameAction.type a = ActionType.play_card ->
  Js.get (GameState.players s) (GameState.currentPlayerIndex s) = Some p ->
  GameAction.playerId a = Player.id p ->
  jlength (Player.hand p) = 2 ->
  GameEngine.validateAction a h = (Normal v, h0) ->
  ValidationResult.valid v = true ->
  GameAction.type catch = ActionType.catch_uno ->
  GameAction.targetPlayerId catch = Some (Player.id p) ->
  In (GameAction.playerId catch) (map Player.id (GameState.players s)) ->
  exists s' h' p',
    GameEngine.dispatch a h = (Normal s', h')
    /\ GameEngine.state (GameEngine.this h') = s'
    /\ GameEngine.findPlayer (GameState.players s') (Some (Player.id p)) = Some p'
    /\ jlength (Player.hand p') = 1
    /\ Player.hasCalledUno p' = false
    /\ GameEngine.validateAction catch h' = (Normal Valid, h').
Proof.
  intros s HW Ht Hget Hpid Hlen Hval Hvalid Htc Htarget Hcatcher.
  assert (Hids : NoDup (map Player.id (GameState.players s))) by apply HW.
  destruct (validated_play a h h0 v Hval Hvalid Ht) as (p0 & id & c & Hp0 & Hid & Hc).
  fold s in Hp0. rewrite Hpid, (findPlayer_at _ Hids _ _ Hget) in Hp0.
  injection Hp0 as <-.
  assert (Hp : GameEngine.findPlayer (GameState.players s) (Some (GameAction.playerId a))
               = Some p).
  { rewrite Hpid. apply (findPlayer_at _ Hids _ _ Hget). }
  destruct (returns_with _ h _ _ (handlePlayCard_returns s a h p id c HW Hp Hid Hc)
              (handlePlayCard_seat s a p id c HW Hget Hpid Hid Hc))
    as (s1 & h1 & Hrun & (W1 & _ & _) & Hseats & p' & Hp' & Hid' & Huno & Hlen').
  assert (Hh0 : h0 = h).
  { pose proof (readonly_validateAction a h) as Hro. rewrite Hval in Hro. exact Hro. }
  subst h0.
  assert (Happly : GameEngine.applyAction a h = (Normal s1, h1)).
  { unfold GameEngine.applyAction, GameEngine.thisState, gets, bind. rewrite Ht.
    exact Hrun. }
  assert (Hids1 : NoDup (map Player.id (GameState.players s1))) by apply W1.
  pose proof (findPlayer_at _ Hids1 _ _ Hp') as Hfp'. rewrite Hid' in Hfp'.
  rewrite <- Hseats in Hcatcher.
  destruct (findPlayer_seated _ _ Hcatcher) as (q & Hq).
  rewrite (dispatch_accepted a h h1 v s1 Hval Hvalid Happly).
  eexists. eexists. exists p'.
  split; [reflexivity|]. split; [reflexivity|].
  cbn [GameState.players GameState.with_lastAction].
  split; [exact Hfp'|]. split; [lia|]. split; [exact Huno|].
  unfold GameEngine.validateAction, GameEngine.thisState, gets, bind.
  cbn [GameEngine.state GameEngine.this GameState.players GameState.with_lastAction].
  rewrite Hq, Htc, Htarget, Hfp', Huno.
  replace (jlength (Player.hand p')) with 1 by lia. reflexivity.
Qed.

Lemma wellFormed_calledTable : wellFormed MoreExamples.calledTable.
Proof.
  unfold wellFormed.
  split; [|split; [|split; [|split; [|split; [|split; [|split; [|split]]]]]]].
  - repeat constructor; cbn; intuition discriminate.
  - vm_compute. discriminate.
  - split; vm_compute; [discriminate|reflexivity].
  - left. reflexivity.
  - vm_compute. discriminate.
  - repeat constructor; discriminate.
  - repeat constructor; discriminate.
  - discriminate.
  - repeat constructor; discriminate.
Qed.

(** X14 at the small table: Alice has called UNO, plays her red 1, and Bob
    may catch her. *)
Lemma uno_call_does_not_protect_witness :
  exists s' h',
    GameEngine.dispatch Examples.playRedOne
      (Examples.heapOf MoreExamples.calledTable Examples.noRules) = (Normal s', h')
    /\ GameEngine.validateAction MoreExamples.catchAlice h' = (Normal Valid, h').
Proof.
  destruct (uno_call_does_not_protect
              (Examples.heapOf MoreExamples.calledTable Examples.noRules)
              (Examples.heapOf MoreExamples.calledTable Examples.noRules)
              Examples.playRedOne MoreExamples.catchAlice
              (Player.with_hasCalledUno true Examples.alice) Valid
              wellFormed_calledTable eq_refl eq_refl eq_refl eq_refl eq_refl eq_refl
              eq_refl eq_refl)
    as (s' & h' & p' & Hrun & _ & _ & _ & _ & Hcatch).
  - right. left. reflexivity.
  - exists s', h'. split; [exact Hrun|exact Hcatch].
Defined.

(* ===================================================================== *)
(** ** The end of a slap race                                            *)
(* ===================================================================== *)

Section SortedLast.
Context {A : Type} (f : A -> Z) (d : A).

Lemma last_in (l : list A) : l <> [] -> In (last l d) l.
Proof.
  induction l as [|x l IH]; [congruence|]. intros _.
  destruct l as [|y l]; [left; reflexivity|].
  right. apply IH. discriminate.
Qed.

Lemma insertBy_nonempty (cmp : A -> A -> Z) (x : A) (l : list A) : insertBy cmp x l <> [].
Proof. destruct l as [|y l]; cbn; [discriminate|]. destruct (cmp x y <? 0); discriminate. Qed.

Lemma insertBy_last (x : A) (l : list A) :
  (forall y, In y l -> f y <= f (last l d)) ->
  forall y, In y (insertBy (fun a b => f a - f b) x l) ->
            f y <= f (last (insertBy (fun a b => f a - f b) x l) d).
Proof.
  set (cmp := fun a b => f a - f b).
  induction l as [|y t IH]; intros H z Hz.
  - cbn in *. destruct Hz as [<- | []]. lia.
  - cbn [insertBy] in *. destruct (Z.ltb_spec (cmp x y) 0) as [Hlt|Hge].
    + change (last (x :: y :: t) d) with (last (y :: t) d).
      destruct Hz as [<- | Hz]; [|apply H; exact Hz].
      assert (f y <= f (last (y :: t) d)) by (apply H; left; reflexivity).
      unfold cmp in Hlt. lia.
    + pose proof (insertBy_nonempty cmp x t) as Hne.
      assert (Hlast : last (y :: insertBy cmp x t) d = last (insertBy cmp x t) d).
      { destruct (insertBy cmp x t); [congruence|reflexivity]. }
      rewrite Hlast.
      assert (Ht : forall y0, In y0 t -> f y0 <= f (last t d)).
      { intros y0 Hy0. destruct t as [|t0 t']; [destruct Hy0|].
        change (last (t0 :: t') d) with (last (y :: t0 :: t') d).
        apply H. right. exact Hy0. }
      specialize (IH Ht).
      destruct Hz as [<- | Hz]; [|apply IH; exact Hz].
      destruct t as [|t0 t'].
      * cbn. unfold cmp in Hge. lia.
      * apply Z.le_trans with (f (last (t0 :: t') d)).
        -- change (last (t0 :: t') d) with (last (y :: t0 :: t') d).
           apply H. left. reflexivity.
        -- apply IH. apply (Permutation_in _ (insertBy_perm cmp x (t0 :: t'))).
           right. apply last_in. discriminate.
Qed.

Lemma sortBy_last (l : list A) :
  forall y, In y l -> f y <= f (last (sortBy (fun a b => f a - f b) l) d).
Proof.
  set (cmp := fun a b => f a - f b).
  assert (H : forall l acc,
             (forall y, In y acc -> f y <= f (last acc d)) ->
             forall y, In y (fold_left (fun acc x => insertBy cmp x acc) l acc) ->
                       f y <= f (last (fold_left (fun acc x => insertBy cmp x acc) l acc) d)).
  { clear l. induction l as [|x l IH]; intros acc Hacc; cbn; [exact Hacc|].
    apply IH. apply insertBy_last. exact Hacc. }
  intros y Hy. apply (H l []).
  - intros z [].
  - apply (Permutation_in _ (sortBy_perm cmp l)). exact Hy.
Qed.

Lemma get_last_of (l : list A) : l <> [] -> Js.get l (jlength l - 1) = Some (last l d).
Proof.
  intros Hne. destruct (last_exists l Hne) as (below & top & ->).
  rewrite get_last, last_last. reflexivity.
Qed.

End SortedLast.

Lemma slapRace_finish (s : GameState.t) (h : GameEngine.Heap) (loser : string)
    (q : Player.t) (j : Z) :
  wellFormed s ->
  Js.get (GameState.players s) j = Some q ->
  Player.id q = loser ->
  exists s' h',
    (newState <- GameEngine.forceDrawCards s loser 1 ;;
     GameEngine.emit (Event.slap_race_ended loser) ;;;
     newState <- GameEngine.advanceTurn
                   (GameState.with_pendingAction None
                      (GameState.with_phase Phase.playing newState)) ;;
     GameEngine.setState newState ;;;
     GameEngine.emit (Event.state_changed newState) ;;;
     ret newState) h = (Normal s', h')
    /\ GameEngine.state (GameEngine.this h') = s'
    /\ wellFormed s' /\ sameCards s s'
    /\ GameState.phase s' = Phase.playing
    /\ GameState.pendingAction s' = None
    /\ GameState.currentPlayerIndex s' = nextIndex s
    /\ sameSeatsBut j s s'
    /\ exists q',
        Js.get (GameState.players s') j = Some q'
        /\ jlength (Player.hand q')
           = jlength (Player.hand q)
             + Z.min 1 (jlength (GameState.drawPile s)
                        + jlength (GameState.discardPile s) - 1).
Proof.
  intros HW Hq <-.
  assert (Hids : NoDup (map Player.id (GameState.players s))) by apply HW.
  assert (Hne : GameState.discardPile s <> []) by apply HW.
  destruct (last_exists _ Hne) as (below & top & Hdiscard).
  pose proof (findPlayerIndex_at _ Hids _ _ Hq) as Hj.
  assert (Hq' : Js.get (GameState.players s)
                  (GameEngine.findPlayerIndex (GameState.players s) (Some (Player.id q)))
                = Some q) by (rewrite Hj; exact Hq).
  destruct (forceDrawCards_total s (Player.id q) 1 h q below top Hq' Hdiscard)
    as (drawn & pile' & discard' & w' & Hrun & Hlen & _).
  change (Z.of_nat 1) with 1 in Hrun. rewrite Hj in Hrun.
  destruct (forceDrawCards_returns s q j 1 h HW Hq ltac:(lia))
    as (s3 & h3 & Hrun3 & W3 & C3 & Hc3 & Hd3 & _).
  rewrite Hrun in Hrun3. injection Hrun3 as Hs3 Hh3.
  rewrite (bind_run _ _ _ _ _ Hrun).
  set (h1 := GameEngine.mkHeap (GameEngine.this h) w') in *.
  rewrite Hs3.
  unfold bind at 1. unfold GameEngine.emit at 1, modify.
  unfold bind at 1. rewrite advanceTurn_eq.
  eexists. eexists. split; [reflexivity|].
  assert (Hn : nextIndex (GameState.with_pendingAction None
                            (GameState.with_phase Phase.playing s3)) = nextIndex s).
  { unfold nextIndex. cbn [GameState.players GameState.currentPlayerIndex
      GameState.direction GameState.with_pendingAction GameState.with_phase].
    rewrite Hc3, Hd3. rewrite <- Hs3. cbn [GameState.players GameState.with_discardPile
      GameState.with_drawPile GameState.with_players].
    rewrite (set_length _ _ q _ Hq). reflexivity. }
  split; [reflexivity|].
  split.
  { apply wellFormed_advanced. wf_fields W3. }
  split.
  { eapply sameCards_trans; [exact C3|]. exact (Permutation_refl _). }
  split; [reflexivity|]. split; [reflexivity|].
  split; [exact Hn|].
  cbn [advanced GameState.players GameState.with_turnStartTime
       GameState.with_currentPlayerIndex GameState.with_pendingAction GameState.with_phase].
  rewrite <- Hs3. cbn [GameState.players GameState.with_discardPile
      GameState.with_drawPile GameState.with_players].
  split.
  { split.
    - apply (set_keeps_ids _ _ q _ Hq). reflexivity.
    - intros k Hk. apply (get_set_other _ _ _ q _ Hq). congruence. }
  eexists. split; [eapply get_set_same; exact Hq|].
  cbn [Player.hand Player.with_hand]. unfold jlength. rewrite length_app, Hlen.
  rewrite Hdiscard, length_app. cbn [List.length]. lia.
Qed.

Lemma slapped_spec (ids : list string) (p : Player.t) :
  existsb (String.eqb (Player.id p)) ids = true <-> In (Player.id p) ids.
Proof.
  rewrite existsb_exists. split.
  - intros (x & Hin & E). apply String.eqb_eq in E. rewrite E. exact Hin.
  - intros Hin. exists (Player.id p). split; [exact Hin|apply String.eqb_refl].
Qed.

Lemma seated_at (players : list Player.t) (pid : string) :
  In pid (map Player.id players) ->
  exists j q, Js.get players j = Some q /\ Player.id q = pid.
Proof.
  intros Hin. apply in_map_iff in Hin. destruct Hin as (q & Hid & Hin).
  apply In_nth_error in Hin. destruct Hin as (n & Hn).
  exists (Z.of_nat n), q. split; [|exact Hid].
  unfold Js.get. destruct (Z.ltb_spec (Z.of_nat n) 0); [lia|].
  rewrite Nat2Z.id. exact Hn.
Qed.

(** X15.  How a slap race ends.  At a table at which a game can go on, in
    phase [slap_race], with slaps of seated players only, [resolveSlapRace]
    returns normally.  The loser is the first player, in the order of the
    seats, who did not slap; when every player slapped, it is a player
    whose slap bears the greatest time stamp.  The loser draws one card
    (none when the piles hold no card but the top of the discard pile),
    every other seat is as before, the cards are the same, the phase is
    [playing] again with nothing pending, and the turn moves on. *)
Theorem slap_race_loser_draws (h : GameEngine.Heap) (results : list GameEngine.SlapResult.t) :
  let s := GameEngine.state (GameEngine.this h) in
  let slapped := map GameEngine.SlapResult.playerId results in
  wellFormed s ->
  GameState.phase s = Phase.slap_race ->
  (forall pid, In pid slapped -> In pid (map Player.id (GameState.players s))) ->
  exists s' h' j q q',
    GameEngine.resolveSlapRace results h = (Normal s', h')
    /\ GameEngine.state (GameEngine.this h') = s'
    /\ wellFormed s' /\ sameCards s s'
    /\ GameState.phase s' = Phase.playing
    /\ GameState.pendingAction s' = None
    /\ GameState.currentPlayerIndex s' = nextIndex s
    (* the loser draws a card, if there is one, and nobody else does *)
    /\ Js.get (GameState.players s) j = Some q
    /\ Js.get (GameState.players s') j = Some q'
    /\ jlength (Player.hand q')
       = jlength (Player.hand q)
         + Z.min 1 (jlength (GameState.drawPile s) + jlength (GameState.discardPile s) - 1)
    /\ sameSeatsBut j s s'
    (* who the loser is *)
    /\ (forall before p after,
           GameState.players s = before ++ p :: after ->
           (forall x, In x before -> In (Player.id x) slapped) ->
           ~ In (Player.id p) slapped ->
           q = p)
    /\ ((forall p, In p (GameState.players s) -> In (Player.id p) slapped) ->
        exists r, In r results
                  /\ Player.id q = GameEngine.SlapResult.playerId r
                  /\ forall r', In r' results ->
                                GameEngine.SlapResult.timestamp r'
                                <= GameEngine.SlapResult.timestamp r).
Proof.
  intros s slapped HW Hphase Hseated.
  set (cmp := fun a b => GameEngine.SlapResult.timestamp a - GameEngine.SlapResult.timestamp b).
  set (sorted := sortBy cmp results).
  set (notSlapped := fun p : Player.t =>
         negb (existsb (String.eqb (Player.id p))
                 (map GameEngine.SlapResult.playerId sorted))).
  assert (Hperm : Permutation results sorted) by apply sortBy_perm.
  assert (Hslapped : forall p, notSlapped p = true <-> ~ In (Player.id p) slapped).
  { intros p. unfold notSlapped. rewrite negb_true_iff, <- not_true_iff_false, slapped_spec.
    unfold slapped. split; intros H Hin; apply H.
    - apply (Permutation_in _ (Permutation_map _ Hperm)). exact Hin.
    - apply (Permutation_in _ (Permutation_sym (Permutation_map _ Hperm))). exact Hin. }
  assert (Hids : NoDup (map Player.id (GameState.players s))) by apply HW.
  (* the loser *)
  assert (Hloser : exists loser j q,
             Js.get (GameState.players s) j = Some q /\ Player.id q = loser
             /\ (if jlength (filter notSlapped (GameState.players s)) >? 0 then
                   p <- liftC (deref (Js.get (filter notSlapped (GameState.players s)) 0)) ;;
                   ret (Player.id p)
                 else
                   r <- liftC (deref (Js.get sorted (jlength sorted - 1))) ;;
                   ret (GameEngine.SlapResult.playerId r)) h = (Normal loser, h)
             /\ (forall before p after,
                    GameState.players s = before ++ p :: after ->
                    (forall x, In x before -> In (Player.id x) slapped) ->
                    ~ In (Player.id p) slapped -> q = p)
             /\ ((forall p, In p (GameState.players s) -> In (Player.id p) slapped) ->
                 exists r, In r results
                           /\ Player.id q = GameEngine.SlapResult.playerId r
                           /\ forall r', In r' results ->
                                         GameEngine.SlapResult.timestamp r'
                                         <= GameEngine.SlapResult.timestamp r)).
  { destruct (filter notSlapped (GameState.players s)) as [|p0 rest] eqn:Hfilter.
    - (* everybody slapped *)
      assert (Hall : forall p, In p (GameState.players s) -> In (Player.id p) slapped).
      { intros p Hin. destruct (in_dec string_dec (Player.id p) slapped) as [Hy|Hn];
          [exact Hy|].
        exfalso. apply Hslapped in Hn.
        assert (Hf : In p (filter notSlapped (GameState.players s)))
          by (apply filter_In; split; assumption).
        rewrite Hfilter in Hf. destruct Hf. }
      assert (Hne : sorted <> []).
      { destruct (GameState.players s) as [|p0 ps] eqn:Hps.
        - destruct HW as (_ & Hlen & _). rewrite Hps in Hlen. cbn in Hlen. lia.
        - intros E. specialize (Hall p0 (or_introl eq_refl)).
          unfold slapped in Hall. apply in_map_iff in Hall. destruct Hall as (r & _ & Hr).
          apply (Permutation_in _ Hperm) in Hr. rewrite E in Hr. destruct Hr. }
      set (d := GameEngine.SlapResult.mk "" 0).
      set (r := last sorted d).
      assert (Hr : In r results).
      { apply (Permutation_in _ (Permutation_sym Hperm)). apply last_in. exact Hne. }
      destruct (seated_at (GameState.players s) (GameEngine.SlapResult.playerId r))
        as (j & q & Hq & Hid).
      { apply Hseated. apply in_map. exact Hr. }
      exists (GameEngine.SlapResult.playerId r), j, q.
      split; [exact Hq|]. split; [exact Hid|]. split.
      { change (jlength (@nil Player.t) >? 0) with false. cbv iota.
        rewrite (get_last_of d sorted Hne). reflexivity. }
      split.
      { intros before p after Hsplit _ Hnot. exfalso. apply Hnot. apply Hall.
        rewrite Hsplit. apply in_or_app. right. left. reflexivity. }
      intros _. exists r. split; [exact Hr|]. split; [exact Hid|].
      intros r' Hr'. unfold r, sorted, cmp.
      apply (sortBy_last GameEngine.SlapResult.timestamp d results r' Hr').
    - (* somebody did not *)
      assert (Hp0 : In p0 (GameState.players s) /\ notSlapped p0 = true).
      { apply filter_In. rewrite Hfilter. left. reflexivity. }
      destruct Hp0 as [Hin0 Hnot0].
      destruct (seated_at (GameState.players s) (Player.id p0)) as (j & q & Hq & Hid).
      { apply in_map. exact Hin0. }
      assert (Hqp : q = p0).
      { pose proof (findPlayer_at _ Hids _ _ Hq) as H1. rewrite Hid in H1.
        apply In_nth_error in Hin0. destruct Hin0 as (n & Hn).
        assert (H2 : Js.get (GameState.players s) (Z.of_nat n) = Some p0).
        { unfold Js.get. destruct (Z.ltb_spec (Z.of_nat n) 0); [lia|].
          rewrite Nat2Z.id. exact Hn. }
        pose proof (findPlayer_at _ Hids _ _ H2) as H3. congruence. }
      subst q.
      exists (Player.id p0), j, p0.
      split; [exact Hq|]. split; [reflexivity|]. split.
      { assert (Hpos : (jlength (p0 :: rest) >? 0) = true).
        { apply Z.gtb_lt. unfold jlength. cbn [List.length]. lia. }
        rewrite Hpos. reflexivity. }
      split.
      { intros before p after Hsplit Hbefore Hnot.
        rewrite Hsplit, filter_app in Hfilter. cbn [filter] in Hfilter.
        apply Hslapped in Hnot. rewrite Hnot in Hfilter.
        assert (Hb : filter notSlapped before = []).
        { destruct (filter notSlapped before) as [|x xs] eqn:E; [reflexivity|].
          exfalso.
          assert (Hx : In x (filter notSlapped before)) by (rewrite E; left; reflexivity).
          apply filter_In in Hx. destruct Hx as [Hx1 Hx2].
          apply Hslapped in Hx2. apply Hx2. apply Hbefore. exact Hx1. }
        rewrite Hb in Hfilter. cbn in Hfilter. congruence. }
      intros Hall. exfalso. apply Hslapped in Hnot0. apply Hnot0. apply Hall. exact Hin0. }
  destruct Hloser as (loser & j & q & Hq & Hid & Hcompute & Hfirst & Hlast).
  destruct (slapRace_finish s h loser q j HW Hq Hid)
    as (s' & h' & Hrun & Hst & W' & C' & Hph & Hpend & Hcur & Hseats & q' & Hq' & Hlen).
  exists s', h', j, q, q'.
  split.
  { unfold GameEngine.resolveSlapRace, GameEngine.thisState.
    unfold bind at 1. unfold gets at 1. fold s. rewrite Hphase.
    cbn [Phase.eqb negb]. fold cmp. fold sorted. fold notSlapped.
    rewrite (bind_run _ _ _ _ _ Hcompute). exact Hrun. }
  repeat (split; [assumption|]). exact Hlast.
Qed.

(** X15 at the small table: both slapped, Alice last. *)
Lemma slap_race_loser_draws_witness :
  exists s' h',
    GameEngine.resolveSlapRace MoreExamples.slaps
      (Examples.heapOf MoreExamples.slapTable Examples.allRules) = (Normal s', h')
    /\ GameState.phase s' = Phase.playing
    /\ GameState.currentPlayerIndex s' = 1
    /\ cardCount s' = cardCount MoreExamples.slapTable.
Proof.
  assert (HW : wellFormed MoreExamples.slapTable).
  { pose proof wellFormed_table as H. unfold MoreExamples.slapTable. wf_fields H. }
  destruct (slap_race_loser_draws
              (Examples.heapOf MoreExamples.slapTable Examples.allRules) MoreExamples.slaps
              HW eq_refl (fun pid H => H))
    as (s' & h' & j & q & q' & Hrun & _ & _ & Hcards & Hphase & _ & Hcur & _).
  exists s', h'. split; [exact Hrun|]. split; [exact Hphase|]. split; [exact Hcur|].
  unfold cardCount. symmetry. apply Permutation_length. exact Hcards.
Defined.

(* ===================================================================== *)
(** ** The server's copy of the game                                     *)
(* ===================================================================== *)

Section Seats.
Context {P : Type} (hand : P -> list Slot).

Lemma seats_gain (l : list P) i p p' (gain : list Slot) :
  Js.get l i = Some p ->
  Permutation (hand p') (hand p ++ gain) ->
  Permutation (flat_map hand (Js.set l i p')) (flat_map hand l ++ gain).
Proof.
  intros Hget Hp. destruct (get_split _ _ _ Hget) as (l1 & l2 & -> & _ & Hset).
  rewrite Hset, !flat_map_app. cbn [flat_map]. rewrite <- !app_assoc.
  apply Permutation_app_head. rewrite Hp, <- app_assoc.
  apply Permutation_app_head. apply Permutation_app_comm.
Qed.

Lemma seats_loss (l : list P) i p p' (x : Slot) :
  Js.get l i = Some p ->
  Permutation (hand p) (x :: hand p') ->
  Permutation (flat_map hand l) (x :: flat_map hand (Js.set l i p')).
Proof.
  intros Hget Hp. destruct (get_split _ _ _ Hget) as (l1 & l2 & -> & _ & Hset).
  rewrite Hset, !flat_map_app. cbn [flat_map]. rewrite Hp. cbn.
  symmetry. apply Permutation_middle.
Qed.

Lemma seats_defined_set (l : list P) i p p' :
  Js.get l i = Some p ->
  Forall (fun q => defined (hand q)) l ->
  defined (hand p') ->
  Forall (fun q => defined (hand q)) (Js.set l i p').
Proof.
  intros Hget H Hp'. destruct (get_split _ _ _ Hget) as (l1 & l2 & -> & _ & Hset).
  rewrite Hset. apply Forall_app in H. destruct H as [H1 H2].
  apply Forall_app. split; [exact H1|]. inversion H2; subst. constructor; assumption.
Qed.

Lemma seats_defined_at (l : list P) i p :
  Js.get l i = Some p ->
  Forall (fun q => defined (hand q)) l -> defined (hand p).
Proof.
  intros Hget H. destruct (get_split _ _ _ Hget) as (l1 & l2 & -> & _ & _).
  apply Forall_app in H. destruct H as [_ H2]. inversion H2; subst. assumption.
Qed.

End Seats.

(** *** Drawing on the server *)

Lemma server_shuffle_perm {A} (l : list A) w :
  exists l' w', Server.shuffle l w = (Normal l', w') /\ Permutation l l'.
Proof. apply shuffleLoop_perm. Qed.

Lemma jlength_snoc_pos {A} (l : list A) x : (jlength (l ++ [x]) >? 0) = true.
Proof. apply Z.gtb_lt. unfold jlength. rewrite length_app. cbn. lia. Qed.

Lemma jlength_snoc_nonzero {A} (l : list A) x : (jlength (l ++ [x]) =? 0) = false.
Proof. apply Z.eqb_neq. unfold jlength. rewrite length_app. cbn. lia. Qed.

Lemma drawLoop_step_draw state k cards w front x :
  Server.GameState.drawPile state = front ++ [x] ->
  Server.drawLoop state (S k) cards w
  = Server.drawLoop (Server.GameState.with_drawPile front state) k (cards ++ [x]) w.
Proof.
  intros Hdraw. cbn [Server.drawLoop]. rewrite Hdraw, jlength_snoc_nonzero.
  unfold bind at 1. unfold ret at 1. rewrite Hdraw, jlength_snoc_pos, pop_app.
  reflexivity.
Qed.

Lemma drawLoop_step_empty state k cards w below top w1 :
  Server.GameState.drawPile state = [] ->
  Server.GameState.discardPile state = below ++ [top] ->
  Server.shuffle below w = (Normal [], w1) ->
  Server.drawLoop state (S k) cards w
  = Server.drawLoop
      (Server.GameState.with_discardPile [top]
         (Server.GameState.with_drawPile [] state)) k cards w1.
Proof.
  intros Hdraw Hdiscard Hsh. cbn [Server.drawLoop]. rewrite Hdraw.
  change (jlength (@nil Slot) =? 0) with true. cbv iota.
  rewrite Hdiscard, pop_app.
  unfold bind at 1. unfold bind at 1. rewrite Hsh. reflexivity.
Qed.

Lemma drawLoop_step_reshuffle state k cards w below top front x w1 :
  Server.GameState.drawPile state = [] ->
  Server.GameState.discardPile state = below ++ [top] ->
  Server.shuffle below w = (Normal (front ++ [x]), w1) ->
  Server.drawLoop state (S k) cards w
  = Server.drawLoop
      (Server.GameState.with_discardPile [top]
         (Server.GameState.with_drawPile front state)) k (cards ++ [x]) w1.
Proof.
  intros Hdraw Hdiscard Hsh. cbn [Server.drawLoop]. rewrite Hdraw.
  change (jlength (@nil Slot) =? 0) with true. cbv iota.
  rewrite Hdiscard, pop_app.
  unfold bind at 1. unfold bind at 1. rewrite Hsh. unfold ret at 1.
  cbn [Server.GameState.drawPile Server.GameState.with_discardPile
       Server.GameState.with_drawPile].
  rewrite jlength_snoc_pos, pop_app. destruct state; reflexivity.
Qed.

Lemma drawLoop_run (iterations : nat) :
  forall (state : Server.GameState.t) (cards : list Slot) (w : World.t),
    Server.GameState.discardPile state <> [] ->
    exists cards' drawPile' discardPile' w',
      Server.drawLoop state iterations cards w
      = (Normal (cards ++ cards',
                 Server.GameState.with_discardPile discardPile'
                   (Server.GameState.with_drawPile drawPile' state)), w')
      /\ Permutation
           (Server.GameState.drawPile state ++ Server.GameState.discardPile state)
           (cards' ++ drawPile' ++ discardPile')
      /\ List.length cards'
         = Nat.min iterations
             (List.length (Server.GameState.drawPile state)
              + List.length (Server.GameState.discardPile state) - 1)
      /\ last discardPile' None = last (Server.GameState.discardPile state) None
      /\ discardPile' <> [].
Proof.
  induction iterations as [|k IH]; intros state cards w Hne.
  - exists [], (Server.GameState.drawPile state), (Server.GameState.discardPile state), w.
    split; [cbn; rewrite app_nil_r; destruct state; reflexivity|].
    split; [reflexivity|]. split; [reflexivity|]. split; [reflexivity|exact Hne].
  - destruct (last_exists _ Hne) as (below & top & Hdiscard).
    destruct (Server.GameState.drawPile state) as [|d0 dr] eqn:Hdraw.
    + (* reshuffle *)
      destruct (server_shuffle_perm below w) as (pile & w1 & Hsh & Hperm).
      destruct pile as [|p0 pile'].
      * apply Permutation_sym, Permutation_nil in Hperm. subst below.
        destruct (IH (Server.GameState.with_discardPile [top]
                        (Server.GameState.with_drawPile [] state)) cards w1)
          as (cards' & p' & d' & w' & Hrun & Hp & Hlen & Hlast & Hne');
          [destruct state; discriminate|].
        exists cards', p', d', w'.
        rewrite (drawLoop_step_empty state k cards w [] top w1 Hdraw Hdiscard Hsh), Hrun.
        split; [destruct state; reflexivity|].
        rewrite Hdiscard. destruct state; cbn in *.
        split; [exact Hp|]. split; [lia|]. split; [exact Hlast|exact Hne'].
      * destruct (last_exists (p0 :: pile')) as (front & x & Hfx); [discriminate|].
        rewrite Hfx in *. clear Hfx p0 pile'.
        destruct (IH (Server.GameState.with_discardPile [top]
                        (Server.GameState.with_drawPile front state)) (cards ++ [x]) w1)
          as (cards' & p' & d' & w' & Hrun & Hp & Hlen & Hlast & Hne');
          [destruct state; discriminate|].
        exists (x :: cards'), p', d', w'.
        rewrite (drawLoop_step_reshuffle state k cards w below top front x w1
                   Hdraw Hdiscard Hsh), Hrun.
        split; [rewrite <- app_assoc; destruct state; reflexivity|].
        rewrite Hdiscard.
        assert (Hb : List.length below = S (List.length front)).
        { rewrite (Permutation_length Hperm), length_app. cbn. lia. }
        destruct state; cbn [Server.GameState.drawPile Server.GameState.discardPile
          Server.GameState.with_discardPile Server.GameState.with_drawPile] in *.
        split.
        { cbn [app]. eapply perm_trans; [apply Permutation_app_tail, Hperm|].
          rewrite <- app_assoc. cbn [app].
          eapply perm_trans; [apply Permutation_sym, Permutation_middle|].
          apply perm_skip. exact Hp. }
        split.
        { cbn [List.length]. rewrite Hlen, length_app. cbn [List.length app]. lia. }
        split; [|exact Hne'].
        rewrite Hlast, last_last. reflexivity.
    + destruct (last_exists (d0 :: dr)) as (front & x & Hfx); [discriminate|].
      rewrite Hfx in *. clear Hfx d0 dr.
      destruct (IH (Server.GameState.with_drawPile front state) (cards ++ [x]) w)
        as (cards' & p' & d' & w' & Hrun & Hp & Hlen & Hlast & Hne');
        [destruct state; exact Hne|].
      exists (x :: cards'), p', d', w'.
      rewrite (drawLoop_step_draw state k cards w front x Hdraw), Hrun.
      split; [rewrite <- app_assoc; destruct state; reflexivity|].
      assert (Hd : (1 <= List.length (Server.GameState.discardPile state))%nat).
      { rewrite Hdiscard, length_app. cbn. lia. }
      destruct state; cbn [Server.GameState.drawPile Server.GameState.discardPile
        Server.GameState.with_discardPile Server.GameState.with_drawPile] in *.
      split.
      { rewrite <- app_assoc. cbn [app].
        eapply perm_trans; [apply Permutation_sym, Permutation_middle|].
        apply perm_skip. exact Hp. }
      split.
      { cbn [List.length]. rewrite Hlen, length_app. cbn [List.length]. lia. }
      split; [exact Hlast|exact Hne'].
Qed.

(** *** The server's steps *)

Lemma serverWellFormed_same (s s' : Server.GameState.t) :
  Server.GameState.players s' = Server.GameState.players s ->
  Server.GameState.currentPlayerIndex s' = Server.GameState.currentPlayerIndex s ->
  Server.GameState.direction s' = Server.GameState.direction s ->
  Server.GameState.drawPile s' = Server.GameState.drawPile s ->
  Server.GameState.discardPile s' = Server.GameState.discardPile s ->
  serverWellFormed s -> serverWellFormed s'.
Proof.
  unfold serverWellFormed. intros -> -> -> -> ->. exact (fun H => H).
Qed.

Ltac swf_fields H :=
  match type of H with
  | serverWellFormed ?s0 =>
      match goal with
      | |- serverWellFormed ?t => apply (serverWellFormed_same s0 t); [reflexivity ..|exact H]
      end
  end.

Ltac server_simpl :=
  cbn [Server.GameState.players Server.GameState.currentPlayerIndex
       Server.GameState.direction Server.GameState.drawPile Server.GameState.discardPile
       Server.GameState.phase Server.GameState.winner Server.GameState.stackedDrawAmount
       Server.GameState.selectedWildColor Server.GameState.pendingAction
       Server.GameState.with_players Server.GameState.with_currentPlayerIndex
       Server.GameState.with_direction Server.GameState.with_drawPile
       Server.GameState.with_discardPile Server.GameState.with_phase
       Server.GameState.with_winner Server.GameState.with_stackedDrawAmount
       Server.GameState.with_selectedWildColor Server.GameState.with_pendingAction
       Server.GameState.with_turnStartTime Server.GameState.with_customRules
       Server.GameState.with_silenceMode
       Server.Player.hand Server.Player.with_hand Server.Player.with_hasCalledUno
       Server.Player.id Server.Player.hasCalledUno].

Lemma nextPlayerLoop_range (state : Server.GameState.t) (k : nat) :
  Server.GameState.direction state = 1 \/ Server.GameState.direction state = -1 ->
  forall next,
    0 <= next < jlength (Server.GameState.players state) ->
    0 <= Server.nextPlayerLoop state k next < jlength (Server.GameState.players state).
Proof.
  intros Hd. induction k as [|k IH]; intros next Hn; cbn [Server.nextPlayerLoop].
  - exact Hn.
  - apply IH.
    set (n := jlength (Server.GameState.players state)) in *.
    rewrite Z.rem_mod_nonneg by lia.
    apply Z.mod_pos_bound. lia.
Qed.

Lemma serverWellFormed_turn (s : Server.GameState.t) (skip : nat) :
  serverWellFormed s ->
  serverWellFormed (Server.GameState.with_currentPlayerIndex (Server.nextPlayer s skip) s).
Proof.
  intros (Hc & Hd & Hrest). split; [|split; [exact Hd|exact Hrest]].
  cbn [Server.GameState.currentPlayerIndex Server.GameState.players
       Server.GameState.with_currentPlayerIndex].
  unfold Server.nextPlayer. apply nextPlayerLoop_range; assumption.
Qed.

Lemma serverWellFormed_seat_turn (s : Server.GameState.t) (i : Z) p :
  Js.get (Server.GameState.players s) i = Some p ->
  serverWellFormed s ->
  serverWellFormed (Server.GameState.with_currentPlayerIndex i s).
Proof.
  intros Hget (Hc & Hrest). split; [|exact Hrest].
  cbn. apply (get_in_range _ _ _ Hget).
Qed.

Lemma serverWellFormed_reversed (s : Server.GameState.t) :
  serverWellFormed s ->
  serverWellFormed (Server.GameState.with_direction (Server.GameState.direction s * -1) s).
Proof.
  intros (Hc & Hd & Hrest). split; [exact Hc|]. split; [|exact Hrest].
  cbn. destruct Hd as [-> | ->]; [right|left]; reflexivity.
Qed.

Lemma serverPost_refl s : serverWellFormed s -> serverPost s s.
Proof. intros H. split; [exact H|reflexivity]. Qed.

Lemma serverPost_trans s1 s2 s3 : serverPost s1 s2 -> serverPost s2 s3 -> serverPost s1 s3.
Proof. intros [_ P1] [W2 P2]. split; [exact W2|]. rewrite P1. exact P2. Qed.

Lemma serverPost_fields (s s' : Server.GameState.t) :
  Server.GameState.players s' = Server.GameState.players s ->
  Server.GameState.currentPlayerIndex s' = Server.GameState.currentPlayerIndex s ->
  Server.GameState.direction s' = Server.GameState.direction s ->
  Server.GameState.drawPile s' = Server.GameState.drawPile s ->
  Server.GameState.discardPile s' = Server.GameState.discardPile s ->
  serverWellFormed s -> serverPost s s'.
Proof.
  intros Hp Hc Hd Hdr Hdi HW. split.
  - apply (serverWellFormed_same s s'); assumption.
  - unfold serverCards. rewrite Hp, Hdr, Hdi. reflexivity.
Qed.

Lemma serverPost_turn (s : Server.GameState.t) (skip : nat) :
  serverWellFormed s ->
  serverPost s (Server.GameState.with_currentPlayerIndex (Server.nextPlayer s skip) s).
Proof. intros HW. split; [apply serverWellFormed_turn, HW|reflexivity]. Qed.

Lemma server_drawCards_run (state : Server.GameState.t) (count : Z) (w : World.t) :
  serverWellFormed state ->
  exists cards drawPile' discardPile' w',
    Server.drawCards state count w
    = (Normal (cards,
               Server.GameState.with_discardPile discardPile'
                 (Server.GameState.with_drawPile drawPile' state)), w')
    /\ defined cards
    /\ serverWellFormed (Server.GameState.with_discardPile discardPile'
                           (Server.GameState.with_drawPile drawPile' state))
    /\ Permutation
         (Server.GameState.drawPile state ++ Server.GameState.discardPile state)
         (cards ++ drawPile' ++ discardPile')
    /\ List.length cards
       = Nat.min (Z.to_nat count)
           (List.length (Server.GameState.drawPile state)
            + List.length (Server.GameState.discardPile state) - 1)
    /\ last discardPile' None = last (Server.GameState.discardPile state) None.
Proof.
  intros (Hc & Hd & Hdr & Hdi & Hne & Hh).
  destruct (drawLoop_run (Z.to_nat count) state [] w Hne)
    as (cards & p' & d' & w' & Hrun & Hp & Hlen & Hlast & Hne').
  exists cards, p', d', w'. split; [exact Hrun|].
  assert (Hall : defined (cards ++ p' ++ d')).
  { apply (defined_perm _ _ Hp). apply defined_app. split; assumption. }
  apply defined_app in Hall. destruct Hall as [Hcards Hall].
  apply defined_app in Hall. destruct Hall as [Hp' Hd'].
  split; [exact Hcards|]. split.
  { unfold serverWellFormed. cbn. repeat split; try assumption; apply Hc. }
  split; [exact Hp|]. split; [exact Hlen|exact Hlast].
Qed.

(** A player takes cards that were drawn. *)
Lemma server_push_post (s1 : Server.GameState.t) (i : Z) (p : Server.Player.t)
    (cards drawPile' discardPile' : list Slot) :
  serverWellFormed s1 ->
  Js.get (Server.GameState.players s1) i = Some p ->
  defined cards ->
  serverWellFormed (Server.GameState.with_discardPile discardPile'
                      (Server.GameState.with_drawPile drawPile' s1)) ->
  Permutation (Server.GameState.drawPile s1 ++ Server.GameState.discardPile s1)
    (cards ++ drawPile' ++ discardPile') ->
  forall p',
    Server.Player.hand p' = Server.Player.hand p ++ cards ->
    serverPost s1
      (Server.GameState.with_players
         (Js.set (Server.GameState.players s1) i p')
         (Server.GameState.with_discardPile discardPile'
            (Server.GameState.with_drawPile drawPile' s1))).
Proof.
  intros HW Hget Hcards (Hc & Hd & Hdr & Hdi & Hne & Hh) Hperm p' Hp'.
  cbn in Hc, Hd, Hdr, Hdi, Hne, Hh. split.
  - unfold serverWellFormed. cbn. rewrite (set_length _ _ p _ Hget).
    repeat split; try assumption; try apply Hc.
    apply (seats_defined_set _ _ _ p _ Hget Hh). rewrite Hp'.
    apply defined_app. split; [|exact Hcards].
    exact (seats_defined_at _ _ _ _ Hget Hh).
  - unfold serverCards. cbn.
    rewrite (seats_gain Server.Player.hand _ _ p p' cards Hget)
      by (rewrite Hp'; reflexivity).
    set (hands := flat_map Server.Player.hand (Server.GameState.players s1)).
    rewrite app_assoc, Hperm, <- !app_assoc.
    eapply perm_trans; [apply Permutation_app_comm|]. rewrite <- !app_assoc. reflexivity.
Qed.

Lemma server_pushToHand_run (s : Server.GameState.t) (i : Z) (p : Server.Player.t)
    (cards : list Slot) :
  Js.get (Server.GameState.players s) i = Some p ->
  Server.pushToHand s i cards
  = Normal (Server.GameState.with_players
              (Js.set (Server.GameState.players s) i
                 (Server.Player.with_hand (Server.Player.hand p ++ cards) p)) s).
Proof. intros H. unfold Server.pushToHand. rewrite H. reflexivity. Qed.

Lemma server_draw_then_push (s : Server.GameState.t) (count : Z) (i : Z)
    (p : Server.Player.t) (w : World.t) :
  serverWellFormed s ->
  Js.get (Server.GameState.players s) i = Some p ->
  exists cards drawPile' discardPile' w',
    Server.drawCards s count w
    = (Normal (cards,
               Server.GameState.with_discardPile discardPile'
                 (Server.GameState.with_drawPile drawPile' s)), w')
    /\ Server.pushToHand
         (Server.GameState.with_discardPile discardPile'
            (Server.GameState.with_drawPile drawPile' s)) i cards
       = Normal (Server.GameState.with_players
                   (Js.set (Server.GameState.players s) i
                      (Server.Player.with_hand (Server.Player.hand p ++ cards) p))
                   (Server.GameState.with_discardPile discardPile'
                      (Server.GameState.with_drawPile drawPile' s)))
    /\ serverPost s
         (Server.GameState.with_players
            (Js.set (Server.GameState.players s) i
               (Server.Player.with_hand (Server.Player.hand p ++ cards) p))
            (Server.GameState.with_discardPile discardPile'
               (Server.GameState.with_drawPile drawPile' s)))
    /\ last discardPile' None = last (Server.GameState.discardPile s) None
    /\ List.length cards
       = Nat.min (Z.to_nat count)
           (List.length (Server.GameState.drawPile s)
            + List.length (Server.GameState.discardPile s) - 1).
Proof.
  intros HW Hget.
  destruct (server_drawCards_run s count w HW)
    as (cards & p' & d' & w' & Hrun & Hcards & W' & Hperm & Hlen & Hlast).
  exists cards, p', d', w'. split; [exact Hrun|].
  split.
  { exact (server_pushToHand_run
             (Server.GameState.with_discardPile d' (Server.GameState.with_drawPile p' s))
             i p cards Hget). }
  split; [|split; [exact Hlast|exact Hlen]].
  apply (server_push_post s i p cards p' d' HW Hget Hcards W' Hperm). reflexivity.
Qed.

Lemma server_applyCardEffects_run (state : Server.GameState.t) (config : EnabledRules.t)
    (card : Card.t) (playerIndex : Z) (w : World.t) :
  serverWellFormed state ->
  exists state' w',
    Server.applyCardEffects state config card playerIndex w = (Normal state', w')
    /\ serverPost state state' /\ serverKeeps state state'.
Proof.
  intros HW. unfold Server.applyCardEffects.
  assert (Hfinish : forall s1 w1,
             serverPost state s1 -> serverKeeps state s1 ->
             exists state' w',
               (now <- World.now ;; ret (Server.GameState.with_turnStartTime now s1)) w1
               = (Normal state', w')
               /\ serverPost state state' /\ serverKeeps state state').
  { intros s1 w1 HP HK. eexists. eexists. split; [reflexivity|]. split.
    - eapply serverPost_trans; [exact HP|].
      apply serverPost_fields; try reflexivity. apply HP.
    - exact HK. }
  assert (Hadv : forall skip s1,
             serverPost state s1 -> serverKeeps state s1 ->
             serverPost state
               (Server.GameState.with_currentPlayerIndex (Server.nextPlayer s1 skip) s1)
             /\ serverKeeps state
                  (Server.GameState.with_currentPlayerIndex (Server.nextPlayer s1 skip) s1)).
  { intros skip s1 HP HK. split; [|exact HK].
    eapply serverPost_trans; [exact HP|]. apply serverPost_turn. apply HP. }
  assert (HK0 : serverKeeps state state).
  { split; [reflexivity|]. split; [reflexivity|]. split; [reflexivity|lia]. }
  pose proof (serverPost_refl state HW) as HP0.
  assert (Hdraw : forall amount w0, 0 <= amount ->
             exists s1 w1,
               (state <- (if EnabledRules.stackDraw config then
                            ret (Server.GameState.with_stackedDrawAmount
                                   (Server.GameState.stackedDrawAmount state + amount) state)
                          else
                            r <- Server.drawCards state amount ;;
                            let '(cards, state0) := r in
                            state0 <- liftC (Server.pushToHand state0
                                               (Server.nextPlayer state 0) cards) ;;
                            ret (Server.GameState.with_currentPlayerIndex
                                   (Server.nextPlayer state0 1) state0)) ;;
                ret (Server.GameState.with_currentPlayerIndex
                       (Server.nextPlayer state 0) state)) w0 = (Normal s1, w1)
               /\ serverPost state s1 /\ serverKeeps state s1).
  { intros amount w0 Hamount. destruct (EnabledRules.stackDraw config).
    - eexists. eexists. split; [reflexivity|].
      apply Hadv.
      + apply serverPost_fields; try reflexivity. exact HW.
      + split; [reflexivity|]. split; [reflexivity|]. split; [reflexivity|cbn; lia].
    - destruct (get_exists (Server.GameState.players state) (Server.nextPlayer state 0))
        as [q Hq].
      { unfold Server.nextPlayer. apply nextPlayerLoop_range; apply HW. }
      destruct (server_draw_then_push state amount _ q w0 HW Hq)
        as (cards & p' & d' & w' & Hrun & Hpush & HP & Hlast & _).
      eexists. eexists. split.
      { unfold bind at 1. unfold bind at 1. rewrite Hrun.
        unfold bind at 1. rewrite Hpush. reflexivity. }
      apply Hadv; [apply Hadv|].
      + exact HP.
      + split; [exact Hlast|]. split; [reflexivity|]. split; [reflexivity|cbn; lia].
      + split; [exact Hlast|]. split; [reflexivity|]. split; [reflexivity|cbn; lia]. }
  match goal with
  | |- exists _ _, bind ?c _ w = _ /\ _ =>
      assert (Hmid : exists s1 w1, c w = (Normal s1, w1)
                                   /\ serverPost state s1 /\ serverKeeps state s1)
  end.
  { set (advance := fun (skip : nat) (st : Server.GameState.t) =>
                      Server.GameState.with_currentPlayerIndex (Server.nextPlayer st skip) st).
    assert (Hret : forall skip, exists s1 w1,
               ret (advance skip state) w = (Normal s1, w1)
               /\ serverPost state s1 /\ serverKeeps state s1).
    { intros skip. eexists. eexists. split; [reflexivity|]. apply Hadv; assumption. }
    destruct (Value.eqb (Card.value card) Value.skip); [apply Hret|].
    destruct (Value.eqb (Card.value card) Value.reverse).
    { destruct (jlength (Server.GameState.players state) =? 2); [apply Hret|].
      eexists. eexists. split; [reflexivity|]. apply Hadv.
      - split; [apply serverWellFormed_reversed, HW|reflexivity].
      - exact HK0. }
    destruct (Value.eqb (Card.value card) Value.draw2); [apply Hdraw; lia|].
    destruct (Value.eqb (Card.value card) Value.wild_draw4); [apply Hdraw; lia|].
    destruct (Value.eqb (Card.value card) (Value.num 7)).
    { eexists. eexists. split; [reflexivity|]. apply Hadv.
      - destruct (EnabledRules.silence config); [|exact HP0].
        apply serverPost_fields; try reflexivity. exact HW.
      - destruct (EnabledRules.silence config); exact HK0. }
    destruct (Value.eqb (Card.value card) (Value.num 0)).
    { destruct (EnabledRules.customRule config); [|apply Hret].
      eexists. eexists. split; [reflexivity|]. split; [|exact HK0].
      apply serverPost_fields; try reflexivity. exact HW. }
    destruct (Value.eqb (Card.value card) (Value.num 5)).
    { destruct (EnabledRules.slap config); [|apply Hret].
      eexists. eexists. split; [reflexivity|]. split; [|exact HK0].
      apply serverPost_fields; try reflexivity. exact HW. }
    apply Hret. }
  destruct Hmid as (s1 & w1 & Hrun & HP & HK).
  destruct (Hfinish s1 w1 HP HK) as (s2 & w2 & Hrun2 & HP2 & HK2).
  exists s2, w2. split; [|split; assumption].
  unfold bind at 1. rewrite Hrun. exact Hrun2.
Qed.

Lemma findIndexC_hasId_defined (o : option string) (hand : list Slot) :
  defined hand ->
  exists k, findIndexC (GameEngine.hasId o) hand = Normal k
            /\ (k = -1
                \/ exists n c, k = Z.of_nat n /\ nth_error hand n = Some (Some c)).
Proof.
  intros Hdef. apply defined_map in Hdef. destruct Hdef as [cards ->].
  unfold findIndexC.
  rewrite (findIndexFromC_defined _ (fun c => eqOpt (Card.id c) o) cards 0)
    by (intros c; reflexivity).
  eexists. split; [reflexivity|].
  destruct (findIndexFrom_range (fun c => eqOpt (Card.id c) o) cards 0) as [E|R];
    [left; exact E|right].
  set (k := findIndexFrom (fun c => eqOpt (Card.id c) o) cards 0) in *.
  destruct (nth_error cards (Z.to_nat k)) as [c|] eqn:Hn.
  - exists (Z.to_nat k), c. split; [lia|].
    rewrite nth_error_map, Hn. reflexivity.
  - apply nth_error_None in Hn. lia.
Qed.

Lemma server_top_defined (s : Server.GameState.t) :
  serverWellFormed s ->
  exists below top,
    Server.GameState.discardPile s = below ++ [Some top]
    /\ Server.getTopCard s = Some top.
Proof.
  intros (_ & _ & _ & Hdi & Hne & _).
  destruct (last_exists _ Hne) as (below & top & Hd).
  rewrite Hd in Hdi. apply defined_app in Hdi. destruct Hdi as [_ Htop].
  inversion Htop as [|x l Hx _]; subst.
  destruct top as [top|]; [|congruence].
  exists below, top. split; [exact Hd|].
  unfold Server.getTopCard, getSlot. rewrite Hd, get_last. reflexivity.
Qed.

Lemma server_canPlayCard_total (s : Server.GameState.t) (card : Card.t) :
  serverWellFormed s -> exists b, Server.canPlayCard s card = Normal b.
Proof.
  intros HW. destruct (server_top_defined s HW) as (below & top & _ & Htop).
  unfold Server.canPlayCard. rewrite Htop.
  destruct (Server.GameState.selectedWildColor s); cbn;
    repeat match goal with
           | |- context [if ?b then _ else _] => destruct b
           end; eexists; reflexivity.
Qed.

(** The state once a card has left a hand for the discard pile. *)
Lemma server_played_post (state : Server.GameState.t) (i : Z) (player : Server.Player.t)
    (n : nat) (card : Card.t) :
  serverWellFormed state ->
  Js.get (Server.GameState.players state) i = Some player ->
  nth_error (Server.Player.hand player) n = Some (Some card) ->
  serverPost state
    (Server.GameState.with_discardPile (Server.GameState.discardPile state ++ [Some card])
       (Server.GameState.with_players
          (Js.set (Server.GameState.players state) i
             (Server.Player.with_hand
                (Server.splice1 (Server.Player.hand player) (Z.of_nat n)) player))
          state)).
Proof.
  intros (Hc & Hd & Hdr & Hdi & Hne & Hh) Hget Hnth.
  pose proof (seats_defined_at _ _ _ _ Hget Hh) as Hhand.
  unfold Server.splice1. rewrite Nat2Z.id. split.
  - unfold serverWellFormed. server_simpl. rewrite (set_length _ _ player _ Hget).
    repeat split; try assumption; try apply Hc.
    + apply defined_app. split; [exact Hdi|]. constructor; [discriminate|constructor].
    + intros E. apply app_eq_nil in E. destruct E; discriminate.
    + apply (seats_defined_set _ _ _ player _ Hget Hh).
      cbn [Server.Player.hand Server.Player.with_hand].
      apply defined_app. split; [apply defined_firstn|apply defined_skipn]; exact Hhand.
  - unfold serverCards. server_simpl. apply Permutation_app_head.
    rewrite (seats_loss Server.Player.hand _ i player
               (Server.Player.with_hand
                  (firstn n (Server.Player.hand player)
                   ++ skipn (S n) (Server.Player.hand player)) player)
               (Some card) Hget).
    + rewrite <- app_assoc. apply Permutation_app_head. cbn [app]. reflexivity.
    + cbn [Server.Player.hand Server.Player.with_hand].
      eapply perm_trans; [apply (take_out_perm _ n _ Hnth)|].
      symmetry. apply Permutation_middle.
Qed.

Lemma serverPost_moved (s s1 s2 : Server.GameState.t) :
  serverPost s s1 ->
  Server.GameState.players s2 = Server.GameState.players s1 ->
  0 <= Server.GameState.currentPlayerIndex s2 < jlength (Server.GameState.players s1) ->
  Server.GameState.direction s2 = Server.GameState.direction s1 ->
  Server.GameState.drawPile s2 = Server.GameState.drawPile s1 ->
  Server.GameState.discardPile s2 = Server.GameState.discardPile s1 ->
  serverPost s s2.
Proof.
  intros [(Hc & Hd & Hrest) HP] Hp Hc2 Hd2 Hdr Hdi. split.
  - unfold serverWellFormed. rewrite Hp, Hd2, Hdr, Hdi.
    split; [exact Hc2|]. split; [exact Hd|exact Hrest].
  - rewrite HP. unfold serverCards. rewrite Hp, Hdr, Hdi. reflexivity.
Qed.

Lemma server_nextPlayer_range (s : Server.GameState.t) (skip : nat) :
  0 <= Server.GameState.currentPlayerIndex s < jlength (Server.GameState.players s) ->
  Server.GameState.direction s = 1 \/ Server.GameState.direction s = -1 ->
  0 <= Server.nextPlayer s skip < jlength (Server.GameState.players s).
Proof. intros Hc Hd. unfold Server.nextPlayer. apply nextPlayerLoop_range; assumption. Qed.

Ltac leaf_post HP :=
  eexists; eexists; eexists; split; [reflexivity|];
  first
    [ exact HP
    | eapply serverPost_trans; [exact HP|];
      apply serverPost_fields; try reflexivity; apply HP ].

Lemma server_playCard_run (state : Server.GameState.t) (config : EnabledRules.t)
    (action : GameAction.t) (i : Z) (player : Server.Player.t) (w : World.t) :
  serverWellFormed state ->
  Js.get (Server.GameState.players state) i = Some player ->
  exists exit state' w',
    Server.playCard state config action i player w = (Normal (exit, state'), w')
    /\ serverPost state state'.
Proof.
  intros HW Hget. unfold Server.playCard.
  pose proof (serverPost_refl state HW) as HP0.
  assert (Hhand : defined (Server.Player.hand player)).
  { apply (seats_defined_at _ _ _ _ Hget). apply HW. }
  destruct (findIndexC_hasId_defined (GameAction.cardId action) _ Hhand)
    as (k & Hk & Hcase).
  rewrite Hk. unfold liftC at 1. unfold bind at 1.
  destruct Hcase as [-> | (n & card & -> & Hnth)].
  { change (-1 =? -1) with true. cbv iota. leaf_post HP0. }
  assert (Hk1 : (Z.of_nat n =? -1) = false) by (apply Z.eqb_neq; lia).
  rewrite Hk1. rewrite (getSlot_nth _ _ _ Hnth). cbn [deref].
  unfold liftC at 1. unfold bind at 1.
  pose proof (server_played_post state i player n card HW Hget Hnth) as HPp.
  assert (Hi : 0 <= i < jlength (Server.GameState.players state))
    by (apply (get_in_range _ _ _ Hget)).
  assert (Hlen : jlength (Js.set (Server.GameState.players state) i
                            (Server.Player.with_hand
                               (Server.splice1 (Server.Player.hand player) (Z.of_nat n))
                               player))
                 = jlength (Server.GameState.players state))
    by (apply (set_length _ _ player _ Hget)).
  set (played := Server.GameState.with_discardPile
                   (Server.GameState.discardPile state ++ [Some card])
                   (Server.GameState.with_players
                      (Js.set (Server.GameState.players state) i
                         (Server.Player.with_hand
                            (Server.splice1 (Server.Player.hand player) (Z.of_nat n))
                            player)) state)) in *.
  destruct (server_top_defined state HW) as (below & top & _ & Htop).
  destruct (negb (Server.GameState.currentPlayerIndex state =? i)).
  - (* out of turn *)
    destruct (EnabledRules.jumpIn config); [|leaf_post HP0].
    rewrite Htop. cbn [deref]. unfold liftC at 1. unfold bind at 1.
    destruct (Color.eqb (Card.color card) (Card.color top)
              && Value.eqb (Card.value card) (Card.value top)); [|leaf_post HP0].
    unfold bind at 1. unfold World.now at 1.
    set (w1 := World.mk _ _ _).
    set (jumped := Server.GameState.with_turnStartTime _ _).
    assert (HPj : serverPost state jumped).
    { apply (serverPost_moved state played jumped HPp); try reflexivity.
      unfold jumped, played. server_simpl. rewrite Hlen. exact Hi. }
    destruct (jlength (Server.splice1 (Server.Player.hand player) (Z.of_nat n)) =? 0).
    + leaf_post HPj.
    + eexists. eexists. eexists. split; [reflexivity|].
      eapply serverPost_trans; [exact HPj|]. apply serverPost_turn. apply HPj.
  - (* in turn *)
    destruct (server_canPlayCard_total state card HW) as [playable Hplay].
    rewrite Hplay. unfold liftC at 1. unfold bind at 1.
    destruct (negb playable && (Server.GameState.stackedDrawAmount state =? 0));
      [leaf_post HP0|].
    assert (Hcont : forall st w0,
               serverPost state st ->
               exists exit state' w',
                 (if jlength (Server.splice1 (Server.Player.hand player) (Z.of_nat n)) =? 0
                  then
                    ret (Server.Carried,
                         Server.GameState.with_winner (Some (GameAction.playerId action))
                           (Server.GameState.with_phase Phase.game_over st))
                  else
                    st' <- Server.applyCardEffects st config card i ;;
                    ret (Server.Carried, st')) w0 = (Normal (exit, state'), w')
                 /\ serverPost state state').
    { intros st w0 HP.
      destruct (jlength (Server.splice1 (Server.Player.hand player) (Z.of_nat n)) =? 0).
      - leaf_post HP.
      - destruct (server_applyCardEffects_run st config card i w0 (proj1 HP))
          as (st' & w' & Hrun & HP' & _).
        exists Server.Carried, st', w'. split.
        + unfold bind. rewrite Hrun. reflexivity.
        + eapply serverPost_trans; eassumption. }
    destruct (Color.eqb (Card.color card) Color.wild).
    + destruct (GameAction.wildColor action) as [color|].
      * apply Hcont. eapply serverPost_trans; [exact HPp|].
        apply serverPost_fields; try reflexivity. apply HPp.
      * leaf_post HPp.
    + apply Hcont. eapply serverPost_trans; [exact HPp|].
      apply serverPost_fields; try reflexivity. apply HPp.
Qed.

Lemma serverPost_flag (s s1 s2 : Server.GameState.t) (i : Z) (p p' : Server.Player.t) :
  serverPost s s1 ->
  Js.get (Server.GameState.players s1) i = Some p ->
  Server.Player.hand p' = Server.Player.hand p ->
  Server.GameState.players s2 = Js.set (Server.GameState.players s1) i p' ->
  0 <= Server.GameState.currentPlayerIndex s2 < jlength (Server.GameState.players s1) ->
  Server.GameState.direction s2 = Server.GameState.direction s1 ->
  Server.GameState.drawPile s2 = Server.GameState.drawPile s1 ->
  Server.GameState.discardPile s2 = Server.GameState.discardPile s1 ->
  serverPost s s2.
Proof.
  intros [(Hc & Hd & Hdr & Hdi & Hne & Hh) HP] Hget Hhand Hp Hc2 Hd2 Hdr2 Hdi2. split.
  - unfold serverWellFormed. rewrite Hp, Hd2, Hdr2, Hdi2, (set_length _ _ p _ Hget).
    repeat split; try assumption; try apply Hc2.
    apply (seats_defined_set _ _ _ p _ Hget Hh). rewrite Hhand.
    exact (seats_defined_at _ _ _ _ Hget Hh).
  - rewrite HP. unfold serverCards. rewrite Hp, Hdr2, Hdi2.
    do 2 apply Permutation_app_head.
    rewrite (seats_gain Server.Player.hand _ i p p' [] Hget)
      by (rewrite Hhand, app_nil_r; reflexivity).
    rewrite app_nil_r. reflexivity.
Qed.

Lemma server_step (state : Server.GameState.t) (config : EnabledRules.t)
    (action : GameAction.t) (w : World.t) :
  serverWellFormed state ->
  wellFormedAction action ->
  exists exit state' w',
    Server.handleGameAction state config action w = (Normal (exit, state'), w')
    /\ serverPost state state'.
Proof.
  intros HW Haction. unfold Server.handleGameAction.
  pose proof (serverPost_refl state HW) as HP0.
  destruct (Phase.eqb (Server.GameState.phase state) Phase.game_over); [leaf_post HP0|].
  set (i := Server.findPlayerIndex (Server.GameState.players state)
              (Some (GameAction.playerId action))).
  destruct (Js.get (Server.GameState.players state) i) as [player|] eqn:Hget;
    [|leaf_post HP0].
  assert (Hturn : forall st : Server.GameState.t,
             serverPost state st ->
             forall st',
               Server.GameState.players st' = Server.GameState.players st ->
               Server.GameState.currentPlayerIndex st' = Server.nextPlayer st 0 ->
               Server.GameState.direction st' = Server.GameState.direction st ->
               Server.GameState.drawPile st' = Server.GameState.drawPile st ->
               Server.GameState.discardPile st' = Server.GameState.discardPile st ->
               serverPost state st').
  { intros st HP st' Hp Hc Hd Hdr Hdi.
    apply (serverPost_moved state st st' HP Hp); try assumption.
    rewrite Hc. apply server_nextPlayer_range; apply HP. }
  destruct (GameAction.type action) eqn:Htype.
  - (* play_card *) apply server_playCard_run; assumption.
  - (* draw_card *)
    destruct (negb (Server.GameState.currentPlayerIndex state =? i)); [leaf_post HP0|].
    set (amount := if Server.GameState.stackedDrawAmount state >? 0
                   then Server.GameState.stackedDrawAmount state else 1).
    destruct (server_draw_then_push state amount i player w HW Hget)
      as (cards & p' & d' & w' & Hrun & _ & HP & _).
    unfold bind at 1. rewrite Hrun. cbv iota beta.
    eexists. eexists. eexists. split; [reflexivity|].
    set (drawn := Server.Player.with_hand (Server.Player.hand player ++ cards) player) in *.
    set (s2 := Server.GameState.with_players _ _) in HP.
    assert (Hg2 : Js.get (Server.GameState.players s2) i = Some drawn).
    { unfold s2. server_simpl. eapply get_set_same. exact Hget. }
    apply (serverPost_flag state s2 _ i drawn (Server.Player.with_hasCalledUno false drawn)
             HP Hg2); try reflexivity.
    server_simpl.
    apply (server_nextPlayer_range
             (Server.GameState.with_stackedDrawAmount 0 s2)); apply HP.
  - (* call_uno *)
    destruct (jlength (Server.Player.hand player) <=? 2); [|leaf_post HP0].
    eexists. eexists. eexists. split; [reflexivity|].
    apply (serverPost_flag state state _ i player
             (Server.Player.with_hasCalledUno true player) HP0 Hget); try reflexivity.
    apply HW.
  - (* catch_uno *)
    set (j := Server.findPlayerIndex (Server.GameState.players state)
                (GameAction.targetPlayerId action)).
    destruct (Js.get (Server.GameState.players state) j) as [target|] eqn:Htarget;
      [|leaf_post HP0].
    destruct ((jlength (Server.Player.hand target) =? 1)
              && negb (Server.Player.hasCalledUno target)); [|leaf_post HP0].
    destruct (server_draw_then_push state 2 j target w HW Htarget)
      as (cards & p' & d' & w' & Hrun & Hpush & HP & _).
    unfold bind at 1. rewrite Hrun. cbv iota beta.
    unfold bind at 1. rewrite Hpush. unfold liftC at 1.
    eexists. eexists. eexists. split; [reflexivity|exact HP].
  - (* slap *)
    destruct (negb (Phase.eqb (Server.GameState.phase state) Phase.slap_race));
      leaf_post HP0.
  - (* create_custom_rule *)
    destruct (negb (Phase.eqb (Server.GameState.phase state) Phase.custom_rule_creation));
      [leaf_post HP0|].
    destruct (GameAction.customRule action) as [draft|] eqn:Hdraft;
      [|exfalso; exact (Haction Htype Hdraft)].
    eexists. eexists. eexists. split; [reflexivity|].
    eapply Hturn; [exact HP0|reflexivity ..].
  - (* request_card *)
    destruct (negb (EnabledRules.offerCard config)); [leaf_post HP0|].
    destruct (find _ (Server.GameState.players state)) as [target|]; [|leaf_post HP0].
    destruct (jlength (Server.Player.hand target) =? 0); leaf_post HP0.
  - (* decline_request *)
    destruct (negb (Phase.eqb (Server.GameState.phase state) Phase.card_request));
      [leaf_post HP0|].
    destruct (Server.GameState.pendingAction state) as [pending|]; [|leaf_post HP0].
    destruct (negb (eqOpt (GameAction.playerId action)
                      (PendingAction.targetPlayer pending))); leaf_post HP0.
  - (* offer_card *)
    destruct (negb (Phase.eqb (Server.GameState.phase state) Phase.card_request));
      [leaf_post HP0|].
    destruct (Server.GameState.pendingAction state) as [pending|]; [|leaf_post HP0].
    destruct (negb (eqOpt (GameAction.playerId action)
                      (PendingAction.targetPlayer pending))); leaf_post HP0.
  - (* accept_offer *)
    destruct (negb (Phase.eqb (Server.GameState.phase state) Phase.offering_card));
      [leaf_post HP0|].
    destruct (Server.GameState.pendingAction state) as [pending|]; [|leaf_post HP0].
    set (oi := Server.findPlayerIndex (Server.GameState.players state)
                 (PendingAction.offererId pending)).
    set (ti := Server.findPlayerIndex (Server.GameState.players state)
                 (PendingAction.targetPlayer pending)).
    destruct (Js.get (Server.GameState.players state) oi) as [offerer|] eqn:Hoff;
      [|leaf_post HP0].
    destruct (Js.get (Server.GameState.players state) ti) as [target|] eqn:Htar;
      [|leaf_post HP0].
    destruct HW as (Hc & Hd & Hdr & Hdi & Hne & Hh).
    pose proof (seats_defined_at _ _ _ _ Hoff Hh) as Hhand.
    destruct (findIndexC_hasId_defined (PendingAction.offeredCardId pending) _ Hhand)
      as (k & Hk & Hcase).
    rewrite Hk. unfold liftC at 1. unfold bind at 1.
    destruct Hcase as [-> | (n & card & -> & Hnth)].
    { change (-1 =? -1) with true. cbv iota. leaf_post HP0. }
    assert (Hk1 : (Z.of_nat n =? -1) = false) by (apply Z.eqb_neq; lia).
    rewrite Hk1. rewrite (getSlot_nth _ _ _ Hnth).
    set (offerer' := Server.Player.with_hand
                       (Server.splice1 (Server.Player.hand offerer) (Z.of_nat n)) offerer).
    set (players1 := Js.set (Server.GameState.players state) oi offerer').
    assert (Hlen1 : jlength players1 = jlength (Server.GameState.players state))
      by (apply (set_length _ _ offerer _ Hoff)).
    destruct (get_exists players1 ti) as [t1 Ht1].
    { rewrite Hlen1. apply (get_in_range _ _ _ Htar). }
    assert (Hoff' : defined (Server.Player.hand offerer')).
    { unfold offerer', Server.splice1. server_simpl. rewrite Nat2Z.id.
      apply defined_app. split; [apply defined_firstn|apply defined_skipn]; exact Hhand. }
    assert (Hh1 : Forall (fun p => defined (Server.Player.hand p)) players1)
      by (apply (seats_defined_set _ _ _ offerer _ Hoff Hh Hoff')).
    rewrite (server_pushToHand_run
               (Server.GameState.with_players players1 state) ti t1 [Some card] Ht1).
    unfold liftC at 1. unfold bind at 1.
    eexists. eexists. eexists. split; [reflexivity|].
    split.
    + unfold serverWellFormed. server_simpl.
      rewrite (set_length _ _ t1 _ Ht1), Hlen1.
      repeat split; try assumption; try apply Hc.
      apply (seats_defined_set _ _ _ t1 _ Ht1 Hh1). server_simpl.
      apply defined_app. split; [exact (seats_defined_at _ _ _ _ Ht1 Hh1)|].
      constructor; [discriminate|constructor].
    + unfold serverCards. server_simpl. do 2 apply Permutation_app_head.
      rewrite (seats_gain Server.Player.hand players1 ti t1 _ [Some card] Ht1)
        by reflexivity.
      rewrite (seats_loss Server.Player.hand _ oi offerer offerer' (Some card) Hoff).
      * fold players1. apply Permutation_cons_append.
      * unfold offerer', Server.splice1. server_simpl. rewrite Nat2Z.id.
        eapply perm_trans; [apply (take_out_perm _ n _ Hnth)|].
        symmetry. apply Permutation_middle.
  - (* decline_offer *)
    destruct (negb (Phase.eqb (Server.GameState.phase state) Phase.offering_card));
      leaf_post HP0.
  - (* report_speaking *)
    destruct (negb (Server.GameState.silenceMode state)); [leaf_post HP0|].
    set (j := Server.findPlayerIndex (Server.GameState.players state)
                (GameAction.targetPlayerId action)).
    destruct (Js.get (Server.GameState.players state) j) as [target|] eqn:Htarget;
      [|leaf_post HP0].
    destruct (server_draw_then_push state 1 j target w HW Htarget)
      as (cards & p' & d' & w' & Hrun & Hpush & HP & _).
    unfold bind at 1. rewrite Hrun. cbv iota beta.
    unfold bind at 1. rewrite Hpush. unfold liftC at 1.
    eexists. eexists. eexists. split; [reflexivity|exact HP].
  - (* select_color *)
    destruct (negb (Phase.eqb (Server.GameState.phase state) Phase.color_selection));
      [leaf_post HP0|].
    eexists. eexists. eexists. split; [reflexivity|].
    eapply Hturn; [exact HP0|reflexivity ..].
  - (* pass_turn *) leaf_post HP0.
  - (* jump_in *) leaf_post HP0.
Qed.

(* ===================================================================== *)
(** ** What the server does with the cards                               *)
(* ===================================================================== *)

Lemma server_handleAction_run (room : Server.Room.t) (state : Server.GameState.t)
    (action : GameAction.t) (w : World.t) :
  Server.Room.gameState room = Some state ->
  serverWellFormed state ->
  wellFormedAction action ->
  exists exit state' w',
    Server.handleAction room action w
    = (Normal (exit, Server.Room.mk (Some state') (Server.Room.config room)), w')
    /\ serverPost state state'.
Proof.
  intros Hroom HW Ha. unfold Server.handleAction. rewrite Hroom.
  destruct (server_step state (Server.Room.config room) action w HW Ha)
    as (exit & state' & w' & Hrun & HP).
  exists exit, state', w'. split; [|exact HP].
  unfold bind. rewrite Hrun. reflexivity.
Qed.

(** X16.  The server conserves the cards, [accept_offer] included.  In a
    room whose game is at a state at which a game can go on, [handleAction]
    of any sequence of actions returns normally (a [create_custom_rule]
    has to come with its rule), and it leaves a state of the same kind
    whose piles and hands hold the same cards.  On the server an accepted
    offer moves the card from hand to hand. *)
Theorem server_keeps_every_card (actions : list GameAction.t) :
  forall (room : Server.Room.t) (state : Server.GameState.t) (w : World.t),
    Server.Room.gameState room = Some state ->
    serverWellFormed state ->
    Forall wellFormedAction actions ->
    exists state' w',
      handleActions room actions w
      = (Normal (Server.Room.mk (Some state') (Server.Room.config room)), w')
      /\ serverWellFormed state'
      /\ Permutation (serverCards state) (serverCards state').
Proof.
  induction actions as [|a rest IH]; intros room state w Hroom HW Hall.
  - exists state, w. split; [|split; [exact HW|reflexivity]].
    destruct room as [g c]. cbn in Hroom. subst g. reflexivity.
  - inversion Hall as [|x l Ha Hrest]; subst.
    destruct (server_handleAction_run room state a w Hroom HW Ha)
      as (exit & s1 & w1 & Hrun & [W1 P1]).
    destruct (IH (Server.Room.mk (Some s1) (Server.Room.config room)) s1 w1
                eq_refl W1 Hrest) as (s2 & w2 & Hrun2 & W2 & P2).
    exists s2, w2. split; [|split; [exact W2|]].
    + cbn [handleActions]. unfold bind. rewrite Hrun. exact Hrun2.
    + rewrite P1. exact P2.
Qed.

Lemma drawLoop_enough (k : nat) :
  forall (state : Server.GameState.t) (cards : list Slot) (w : World.t)
         (front tail : list Slot),
    Server.GameState.drawPile state = front ++ tail ->
    List.length tail = k ->
    Server.drawLoop state k cards w
    = (Normal (cards ++ rev tail, Server.GameState.with_drawPile front state), w).
Proof.
  induction k as [|k IH]; intros state cards w front tail Hdraw Hlen.
  - destruct tail; [|discriminate]. cbn. rewrite !app_nil_r in *.
    rewrite <- Hdraw. destruct state; reflexivity.
  - destruct (last_exists tail) as (tail' & x & ->); [intros ->; discriminate|].
    rewrite length_app in Hlen. cbn in Hlen.
    rewrite app_assoc in Hdraw.
    rewrite (drawLoop_step_draw state k cards w (front ++ tail') x Hdraw).
    rewrite (IH (Server.GameState.with_drawPile (front ++ tail') state) (cards ++ [x]) w
               front tail' eq_refl ltac:(lia)).
    rewrite rev_app_distr, <- app_assoc. destruct state; reflexivity.
Qed.

(** X17.  How the server draws.  [drawCards(state, count)] never fails: it
    returns as many cards as were asked for, or all but the top of the
    discard pile when the piles hold fewer, none of them [undefined]; the
    cards drawn and the piles it leaves are the cards of the piles before,
    and the top of the discard pile stays.  The cards come from the end of
    the draw pile: when that pile holds enough, the cards drawn are its
    last [count] cards, the last one first, and nothing is shuffled. *)
Theorem server_draw_takes_from_the_end (state : Server.GameState.t) (count : Z)
    (w : World.t) :
  serverWellFormed state ->
  (exists cards drawPile' discardPile' w',
      Server.drawCards state count w
      = (Normal (cards,
                 Server.GameState.with_discardPile discardPile'
                   (Server.GameState.with_drawPile drawPile' state)), w')
      /\ defined cards
      /\ List.length cards
         = Nat.min (Z.to_nat count)
             (List.length (Server.GameState.drawPile state)
              + List.length (Server.GameState.discardPile state) - 1)
      /\ Permutation
           (Server.GameState.drawPile state ++ Server.GameState.discardPile state)
           (cards ++ drawPile' ++ discardPile')
      /\ last discardPile' None = last (Server.GameState.discardPile state) None)
  /\ (forall front tail,
         Server.GameState.drawPile state = front ++ tail ->
         Z.of_nat (List.length tail) = count ->
         Server.drawCards state count w
         = (Normal (rev tail, Server.GameState.with_drawPile front state), w)).
Proof.
  intros HW. split.
  - destruct (server_drawCards_run state count w HW)
      as (cards & p' & d' & w' & Hrun & Hcards & _ & Hperm & Hlen & Hlast).
    exists cards, p', d', w'. repeat split; assumption.
  - intros front tail Hdraw Hlen. unfold Server.drawCards.
    apply (drawLoop_enough (Z.to_nat count) state [] w front tail Hdraw). lia.
Qed.

Lemma server_getTopCard_last (s : Server.GameState.t) :
  Server.getTopCard s = last (Server.GameState.discardPile s) None.
Proof.
  unfold Server.getTopCard, getSlot.
  destruct (Server.GameState.discardPile s) as [|x l] eqn:E; [reflexivity|].
  destruct (last_exists (x :: l)) as (below & top & ->); [discriminate|].
  rewrite get_last, last_last. reflexivity.
Qed.

(** X18.  On the server a pending penalty lets any card through.  The
    guard of [play_card] is
    [!canPlayCard(state, card) && state.stackedDrawAmount === 0]: while a
    penalty is pending, the player whose turn it is may play any card of
    the hand (a wild one with its colour), whether it matches or not.  The
    card becomes the top card and the penalty is no smaller than
    before. *)
Theorem server_penalty_lets_any_card_through (state : Server.GameState.t)
    (config : EnabledRules.t) (action : GameAction.t) (w : World.t)
    (player : Server.Player.t) (pre post : list Card.t) (card : Card.t) :
  let i := Server.findPlayerIndex (Server.GameState.players state)
             (Some (GameAction.playerId action)) in
  serverWellFormed state ->
  Server.GameState.phase state = Phase.playing ->
  Js.get (Server.GameState.players state) i = Some player ->
  Server.GameState.currentPlayerIndex state = i ->
  GameAction.type action = ActionType.play_card ->
  Server.Player.hand player = map Some (pre ++ card :: post) ->
  (forall x, In x pre -> Card.id x <> Card.id card) ->
  GameAction.cardId action = Some (Card.id card) ->
  (Card.color card = Color.wild -> GameAction.wildColor action <> None) ->
  0 < Server.GameState.stackedDrawAmount state ->
  exists state' w',
    Server.handleGameAction state config action w
    = (Normal (Server.Carried, state'), w')
    /\ Server.getTopCard state' = Some card
    /\ Server.GameState.stackedDrawAmount state
       <= Server.GameState.stackedDrawAmount state'.
Proof.
  intros i HW Hphase Hget Hcur Htype Hhand Hpre Hid Hwild Hstack.
  unfold Server.handleGameAction. rewrite Hphase. cbn [Phase.eqb].
  fold i. rewrite Hget, Htype. unfold Server.playCard.
  rewrite Hid, Hhand, (findIndexC_hasId (Card.id card) pre card post Hpre eq_refl).
  unfold liftC at 1. unfold bind at 1.
  set (n := List.length pre).
  assert (Hnth : nth_error (map Some (pre ++ card :: post)) n = Some (Some card)).
  { rewrite nth_error_map, nth_error_app2 by (unfold n; lia).
    unfold n. rewrite Nat.sub_diag. reflexivity. }
  assert (Hk1 : (Z.of_nat n =? -1) = false) by (apply Z.eqb_neq; lia).
  rewrite Hk1, (getSlot_nth _ _ _ Hnth). cbn [deref].
  unfold liftC at 1. unfold bind at 1.
  rewrite Hcur, Z.eqb_refl. cbn [negb].
  destruct (server_canPlayCard_total state card HW) as [playable Hplay].
  rewrite Hplay. unfold liftC at 1. unfold bind at 1.
  assert (Hs0 : (Server.GameState.stackedDrawAmount state =? 0) = false)
    by (apply Z.eqb_neq; lia).
  rewrite Hs0, andb_false_r.
  rewrite <- Hhand in *.
  pose proof (server_played_post state i player n card HW Hget Hnth) as HPp.
  set (played := Server.GameState.with_discardPile
                   (Server.GameState.discardPile state ++ [Some card])
                   (Server.GameState.with_players
                      (Js.set (Server.GameState.players state) i
                         (Server.Player.with_hand
                            (Server.splice1 (Server.Player.hand player) (Z.of_nat n))
                            player)) state)) in *.
  assert (Hcont : forall st w0,
             serverWellFormed st ->
             Server.GameState.discardPile st = Server.GameState.discardPile played ->
             Server.GameState.stackedDrawAmount st = Server.GameState.stackedDrawAmount state ->
             exists state' w',
               (if jlength (Server.splice1 (Server.Player.hand player) (Z.of_nat n)) =? 0
                then
                  ret (Server.Carried,
                       Server.GameState.with_winner (Some (GameAction.playerId action))
                         (Server.GameState.with_phase Phase.game_over st))
                else
                  st' <- Server.applyCardEffects st config card i ;;
                  ret (Server.Carried, st')) w0 = (Normal (Server.Carried, state'), w')
               /\ Server.getTopCard state' = Some card
               /\ Server.GameState.stackedDrawAmount state
                  <= Server.GameState.stackedDrawAmount state').
  { intros st w0 Wst Hdi Hst.
    assert (Htop : last (Server.GameState.discardPile st) None = Some card).
    { rewrite Hdi. unfold played. server_simpl. apply last_last. }
    destruct (jlength (Server.splice1 (Server.Player.hand player) (Z.of_nat n)) =? 0).
    - eexists. eexists. split; [reflexivity|].
      rewrite server_getTopCard_last. server_simpl. split; [exact Htop|lia].
    - destruct (server_applyCardEffects_run st config card i w0 Wst)
        as (st' & w' & Hrun & _ & Hlast & _ & _ & Hle).
      exists st', w'. split; [unfold bind; rewrite Hrun; reflexivity|].
      rewrite server_getTopCard_last, Hlast. split; [exact Htop|lia]. }
  destruct (Color.eqb (Card.color card) Color.wild) eqn:Hcolor.
  - apply color_eqb_eq in Hcolor. specialize (Hwild Hcolor).
    destruct (GameAction.wildColor action) as [color|]; [|congruence].
    apply Hcont; try reflexivity.
    apply (serverWellFormed_same played); try reflexivity. apply HPp.
  - apply Hcont; try reflexivity.
    apply (serverWellFormed_same played); try reflexivity. apply HPp.
Qed.

Lemma server_findPlayerIndex_ids (l l' : list Server.Player.t) o :
  map Server.Player.id l = map Server.Player.id l' ->
  Server.findPlayerIndex l o = Server.findPlayerIndex l' o.
Proof.
  intros H. unfold Server.findPlayerIndex, findIndex.
  rewrite !(findIndexFrom_map Server.Player.id (fun i => eqOpt i o)).
  rewrite H. reflexivity.
Qed.

Lemma server_seated_get (l : list Server.Player.t) (pid : string) :
  In pid (map Server.Player.id l) ->
  exists q, Js.get l (Server.findPlayerIndex l (Some pid)) = Some q.
Proof.
  intros Hin. apply in_map_iff in Hin. destruct Hin as (q & Hq & Hin).
  unfold Server.findPlayerIndex, findIndex.
  destruct (findIndexFrom_range (fun p => eqOpt (Server.Player.id p) (Some pid)) l 0)
    as [E|R].
  - exfalso.
    pose proof (findIndexFrom_none _ l 0 E ltac:(lia) q Hin) as H. cbn in H.
    rewrite Hq, String.eqb_refl in H. discriminate.
  - apply get_exists. unfold jlength. lia.
Qed.

(** X19.  On the server a wild card played last without a colour does not
    win.  The player whose turn it is plays the only card of the hand, a
    wild card, and names no colour: the server leaves for
    [color_selection] before it looks for a winner, and [select_color], by
    any seated player, goes back to [playing] without looking either.
    After the two actions the player's hand is empty, the winner is who it
    was (nobody, in a running game) and the game goes on. *)
Theorem server_last_wild_does_not_win (state : Server.GameState.t)
    (config : EnabledRules.t) (play select : GameAction.t) (w : World.t)
    (player : Server.Player.t) (card top : Card.t) (below : list Slot) :
  let i := Server.findPlayerIndex (Server.GameState.players state)
             (Some (GameAction.playerId play)) in
  Server.GameState.phase state = Phase.playing ->
  Server.GameState.discardPile state = below ++ [Some top] ->
  Js.get (Server.GameState.players state) i = Some player ->
  Server.GameState.currentPlayerIndex state = i ->
  GameAction.type play = ActionType.play_card ->
  Server.Player.hand player = [Some card] ->
  GameAction.cardId play = Some (Card.id card) ->
  Card.color card = Color.wild ->
  GameAction.wildColor play = None ->
  GameAction.type select = ActionType.select_color ->
  In (GameAction.playerId select) (map Server.Player.id (Server.GameState.players state)) ->
  exists s1 w1 s2 w2,
    Server.handleGameAction state config play w = (Normal (Server.Carried, s1), w1)
    /\ Server.handleGameAction s1 config select w1 = (Normal (Server.Carried, s2), w2)
    /\ Server.GameState.phase s2 = Phase.playing
    /\ Server.GameState.winner s2 = Server.GameState.winner state
    /\ Js.get (Server.GameState.players s2) i
       = Some (Server.Player.with_hand [] player)
    /\ Server.GameState.discardPile s2 = Server.GameState.discardPile state ++ [Some card]
    /\ Server.GameState.selectedWildColor s2 = GameAction.wildColor select.
Proof.
  intros i Hphase Hdiscard Hget Hcur Htype Hhand Hid Hwild Hnone Hselect Hseated.
  set (s1 := Server.GameState.with_phase Phase.color_selection
               (Server.GameState.with_selectedWildColor None
                  (Server.GameState.with_discardPile
                     (Server.GameState.discardPile state ++ [Some card])
                     (Server.GameState.with_players
                        (Js.set (Server.GameState.players state) i
                           (Server.Player.with_hand [] player)) state)))).
  assert (Hrun1 : Server.handleGameAction state config play w
                  = (Normal (Server.Carried, s1), w)).
  { unfold Server.handleGameAction. rewrite Hphase. cbn [Phase.eqb].
    fold i. rewrite Hget, Htype. unfold Server.playCard.
    rewrite Hid, Hhand.
    unfold findIndexC, findIndexFromC, GameEngine.hasId, deref, cbind, eqOpt.
    rewrite String.eqb_refl.
    unfold liftC at 1. unfold bind at 1.
    change (0 =? -1) with false. cbv iota.
    change (getSlot [Some card] 0) with (Some card).
    unfold liftC at 1. unfold bind at 1.
    rewrite Hcur, Z.eqb_refl. cbn [negb].
    assert (Hplay : Server.canPlayCard state card = Normal true).
    { unfold Server.canPlayCard, Server.getTopCard, getSlot.
      rewrite Hdiscard, get_last. apply color_eqb_eq in Hwild. rewrite Hwild.
      destruct (Server.GameState.selectedWildColor state); reflexivity. }
    rewrite Hplay. unfold liftC at 1. unfold bind at 1. cbn [negb andb].
    apply color_eqb_eq in Hwild. rewrite Hwild, Hnone. reflexivity. }
  assert (Hids : map Server.Player.id (Server.GameState.players s1)
                 = map Server.Player.id (Server.GameState.players state)).
  { unfold s1. server_simpl. apply (set_keeps _ _ _ player _ Hget). reflexivity. }
  assert (Hselector : exists q,
             Js.get (Server.GameState.players s1)
               (Server.findPlayerIndex (Server.GameState.players s1)
                  (Some (GameAction.playerId select))) = Some q).
  { apply server_seated_get. rewrite Hids. exact Hseated. }
  destruct Hselector as (q & Hq).
  exists s1, w. eexists. eexists.
  split; [exact Hrun1|]. split.
  { unfold Server.handleGameAction. rewrite Hq, Hselect.
    change (Server.GameState.phase s1) with Phase.color_selection.
    cbn [Phase.eqb negb]. reflexivity. }
  server_simpl. split; [reflexivity|]. split; [reflexivity|].
  split; [eapply get_set_same; exact Hget|]. split; reflexivity.
Qed.

Lemma serverWellFormed_table : serverWellFormed (Examples.serverTable Examples.fullPile).
Proof.
  unfold serverWellFormed.
  split; [|split; [|split; [|split; [|split]]]].
  - split; vm_compute; [discriminate|reflexivity].
  - left. reflexivity.
  - repeat constructor; discriminate.
  - repeat constructor; discriminate.
  - discriminate.
  - repeat constructor; discriminate.
Qed.

(** X16 in a room: Alice asks, Bob offers his blue 3, Alice accepts, and
    the ten cards are still there. *)
Lemma server_keeps_every_card_witness :
  exists state' w',
    handleActions ServerExamples.room ServerExamples.offerAccepted Examples.world
    = (Normal (Server.Room.mk (Some state') Examples.allRules), w')
    /\ List.length (serverCards state') = 10%nat.
Proof.
  destruct (server_keeps_every_card ServerExamples.offerAccepted
              ServerExamples.room (Examples.serverTable Examples.fullPile)
              Examples.world eq_refl serverWellFormed_table)
    as (state' & w' & Hrun & _ & Hperm).
  - repeat constructor; intros H; discriminate H.
  - exists state', w'. split; [exact Hrun|].
    rewrite <- (Permutation_length Hperm). reflexivity.
Defined.

(** X17 at the small table: two cards from a pile of five. *)
Lemma server_draw_takes_from_the_end_witness :
  Server.drawCards (Examples.serverTable Examples.fullPile) 2 Examples.world
  = (Normal ([Some Examples.b8; Some Examples.y2],
             Server.GameState.with_drawPile
               [Some Examples.g7; Some Examples.y9; Some Examples.g1]
               (Examples.serverTable Examples.fullPile)), Examples.world).
Proof.
  exact (proj2 (server_draw_takes_from_the_end (Examples.serverTable Examples.fullPile) 2
                  Examples.world serverWellFormed_table)
           [Some Examples.g7; Some Examples.y9; Some Examples.g1]
           [Some Examples.y2; Some Examples.b8] eq_refl eq_refl).
Defined.

(** X18: a green 7 on a red draw-two, under a penalty of two. *)
Lemma server_penalty_lets_any_card_through_witness :
  exists state' w',
    Server.handleGameAction ServerExamples.penaltyTable Examples.allRules
      ServerExamples.playGreenSeven Examples.world
    = (Normal (Server.Carried, state'), w')
    /\ Server.canPlayCard ServerExamples.penaltyTable Examples.g7 = Normal false
    /\ Server.getTopCard state' = Some Examples.g7
    /\ 2 <= Server.GameState.stackedDrawAmount state'.
Proof.
  assert (HW : serverWellFormed ServerExamples.penaltyTable).
  { unfold serverWellFormed.
    split; [|split; [|split; [|split; [|split]]]].
    - split; vm_compute; [discriminate|reflexivity].
    - left. reflexivity.
    - repeat constructor; discriminate.
    - repeat constructor; discriminate.
    - discriminate.
    - repeat constructor; discriminate. }
  destruct (server_penalty_lets_any_card_through ServerExamples.penaltyTable
              Examples.allRules ServerExamples.playGreenSeven Examples.world
              (Examples.serverSeat "alice" [Some Examples.g7; Some Examples.y9])
              [] [Examples.y9] Examples.g7 HW eq_refl eq_refl eq_refl eq_refl eq_refl)
    as (state' & w' & Hrun & Htop & Hle).
  - intros x [].
  - reflexivity.
  - discriminate.
  - reflexivity.
  - exists state', w'. split; [exact Hrun|]. split; [reflexivity|].
    split; [exact Htop|exact Hle].
Defined.

(** X19: Alice's last card is a wild card. *)
Lemma server_last_wild_does_not_win_witness :
  exists s1 w1 s2 w2,
    Server.handleGameAction
      (Examples.serverWildTable Phase.playing [Some Examples.wW] [Some Examples.r5])
      Examples.allRules Examples.playWild Examples.world
    = (Normal (Server.Carried, s1), w1)
    /\ Server.handleGameAction s1 Examples.allRules Examples.selectBlue w1
       = (Normal (Server.Carried, s2), w2)
    /\ Server.GameState.phase s2 = Phase.playing
    /\ Server.GameState.winner s2 = None
    /\ Js.get (Server.GameState.players s2) 0 = Some (Examples.serverSeat "alice" []).
Proof.
  destruct (server_last_wild_does_not_win
              (Examples.serverWildTable Phase.playing [Some Examples.wW] [Some Examples.r5])
              Examples.allRules Examples.playWild Examples.selectBlue Examples.world
              (Examples.serverSeat "alice" [Some Examples.wW]) Examples.wW Examples.r5 []
              eq_refl eq_refl eq_refl eq_refl eq_refl eq_refl eq_refl eq_refl eq_refl
              eq_refl)
    as (s1 & w1 & s2 & w2 & H1 & H2 & Hphase & Hwin & Hget & _).
  - left. reflexivity.
  - exists s1, w1, s2, w2. repeat (split; [assumption|]). exact Hget.
Defined.

(* ===================================================================== *)
(** ** The server's deal                                                 *)
(* ===================================================================== *)

Lemma deals_fold_alike (config_ps : list Player.t) :
  forall (members : list Server.Member.t) (doneC : list Player.t)
         (doneS : list Server.Player.t) (deck : list Slot),
    List.length config_ps = List.length members ->
    map Player.hand doneC = map Server.Player.hand doneS ->
    exists dealtC dealtS rest,
      fold_left (fun '(done, deck) player =>
                   let '(drawn, remaining) :=
                     CardDeck.drawCards deck GameEngine.INITIAL_HAND_SIZE in
                   (done ++ [Player.with_hand drawn player], remaining))
        config_ps (doneC, deck) = (dealtC, rest)
      /\ fold_left (fun '(players, deck) member =>
                      (players ++ [Server.Player.mk (Server.Member.id member)
                                     (Server.Member.name member) (slice deck 0 7) false true
                                     (Server.Member.socketId member)],
                       sliceFrom deck 7))
           members (doneS, deck) = (dealtS, rest)
      /\ map Player.hand dealtC = map Server.Player.hand dealtS
      /\ map Server.Player.id dealtS
         = map Server.Player.id doneS ++ map Server.Member.id members
      /\ map Server.Player.name dealtS
         = map Server.Player.name doneS ++ map Server.Member.name members
      /\ exists n, rest = skipn n deck.
Proof.
  induction config_ps as [|p ps IH]; intros members doneC doneS deck Hlen Hdone.
  - destruct members; [|discriminate]. exists doneC, doneS, deck. cbn.
    rewrite !app_nil_r. repeat split; [exact Hdone|]. exists 0%nat. reflexivity.
  - destruct members as [|m members]; [discriminate|].
    cbn [fold_left]. unfold CardDeck.drawCards at 1.
    destruct (IH members (doneC ++ [Player.with_hand (slice deck 0 GameEngine.INITIAL_HAND_SIZE) p])
                (doneS ++ [Server.Player.mk (Server.Member.id m) (Server.Member.name m)
                             (slice deck 0 7) false true (Server.Member.socketId m)])
                (sliceFrom deck 7))
      as (dealtC & dealtS & rest & HC & HS & Hh & Hi & Hn & k & Hk).
    + cbn in Hlen. lia.
    + rewrite !map_app, Hdone. reflexivity.
    + exists dealtC, dealtS, rest. split; [exact HC|]. split; [exact HS|].
      split; [exact Hh|]. rewrite Hi, Hn, !map_app, <- !app_assoc.
      split; [reflexivity|]. split; [reflexivity|].
      exists (7 + k)%nat. rewrite Hk.
      change 7 with (Z.of_nat 7). rewrite sliceFrom_suffix, skipn_skipn.
      f_equal. lia.
Qed.

Lemma deals_alike (config : GameConfig.t) (code : string)
    (members : list Server.Member.t) (w : World.t) :
  List.length (GameConfig.playerNames config) = List.length members ->
  exists sc wc ss ws,
    GameEngine.createInitialState config w = (Normal sc, wc)
    /\ Server.initializeGame code members w = (Normal ss, ws)
    /\ observeClient sc = observeServer ss
    /\ map Server.Player.id (Server.GameState.players ss) = map Server.Member.id members
    /\ map Server.Player.name (Server.GameState.players ss)
       = map Server.Member.name members
    /\ Server.GameState.id ss = code
    /\ Server.GameState.winner ss = None
    /\ Server.GameState.selectedWildColor ss = None.
Proof.
  intros Hlen.
  destruct (createCards_run CardDeck.deckFaces w) as (cards & Hdeck & _ & _).
  set (w1 := World.mk _ _ _) in Hdeck.
  destruct (shuffleLoop_world (List.length (map (@Some Card.t) cards) - 1)
              (map (@Some Card.t) cards) w1) as (deck & Hshuffle & Hperm).
  set (w2 := World.mk _ _ _) in Hshuffle.
  destruct (Permutation_map_inv _ _ (Permutation_sym Hperm)) as (cards2 & -> & _).
  destruct (mk_players_run config (GameConfig.playerNames config) 0 w2)
    as (ps & Hps & Hnames & _).
  set (w3 := World.mk _ _ _) in Hps.
  assert (Hpl : List.length ps = List.length members).
  { rewrite <- Hlen, <- Hnames, length_map. reflexivity. }
  destruct (deals_fold_alike ps members [] [] (map Some cards2) Hpl eq_refl)
    as (dealtC & dealtS & rest & HC & HS & Hh & Hi & Hn & k & Hk).
  rewrite skipn_map in Hk. subst rest.
  set (rest := skipn k cards2) in *.
  set (found := findIndexFrom startable rest 0).
  set (first := if found =? -1 then 0 else found).
  assert (Hfirst : 0 <= first).
  { unfold first. destruct (findIndexFrom_range startable rest 0) as [Hr|Hr];
      fold found in Hr.
    - rewrite Hr, Z.eqb_refl. lia.
    - destruct (Z.eqb_spec found (-1)); lia. }
  eexists. eexists. eexists. eexists.
  split.
  { unfold GameEngine.createInitialState.
    unfold bind at 1. unfold CardDeck.createDeck. rewrite Hdeck.
    unfold bind at 1. unfold CardDeck.shuffleDeck. rewrite Hshuffle.
    unfold bind at 1. rewrite Hps. rewrite HC.
    unfold bind at 1. unfold findIndexC.
    rewrite (findIndexFromC_defined _ startable rest 0) by reflexivity.
    cbn [liftC]. fold found. fold first. reflexivity. }
  split.
  { unfold Server.initializeGame, Server.createDeck.
    change Server.deckFaces with CardDeck.deckFaces.
    unfold bind at 1. unfold bind at 1. rewrite Hdeck.
    unfold Server.shuffle. rewrite Hshuffle. rewrite HS.
    unfold bind at 1. unfold findIndexC.
    rewrite (findIndexFromC_defined _ startable rest 0) by reflexivity.
    cbn [liftC]. fold found. fold first. reflexivity. }
  split.
  { unfold observeClient, observeServer.
    cbn [GameState.phase GameState.currentPlayerIndex GameState.direction
         GameState.players GameState.drawPile GameState.discardPile
         GameState.stackedDrawAmount
         Server.GameState.phase Server.GameState.currentPlayerIndex
         Server.GameState.direction Server.GameState.players Server.GameState.drawPile
         Server.GameState.discardPile Server.GameState.stackedDrawAmount].
    rewrite Hh. f_equal.
    replace first with (Z.of_nat (Z.to_nat first)) by lia.
    apply splice_slice. }
  cbn [Server.GameState.players Server.GameState.id Server.GameState.winner
       Server.GameState.selectedWildColor].
  rewrite Hi, Hn. repeat split.
Qed.

(** X20.  The server deals as the client does.  With the same answers of
    [uuidv4] and of [Math.random], and as many members in the room as the
    client's configuration has names, [initializeGame] and
    [createInitialState] return states with the same hands seat by seat,
    the same draw pile and the same first card (same phase, turn and
    direction too).  For 1 to 15 members the server's state is one at
    which a game can go on, every player holds 7 cards, and the piles and
    hands together are the 108 cards of the deck; with at most 10 members
    (a room takes 8) the first card is a number card of a colour. *)
Theorem server_deals_like_client (config : GameConfig.t) (code : string)
    (members : list Server.Member.t) (w : World.t) :
  List.length (GameConfig.playerNames config) = List.length members ->
  (0 < List.length members)%nat ->
  (7 * List.length members < 108)%nat ->
  exists cards w1 sc wc ss ws,
    CardDeck.createDeck w = (Normal cards, w1)
    /\ GameEngine.createInitialState config w = (Normal sc, wc)
    /\ Server.initializeGame code members w = (Normal ss, ws)
    /\ observeClient sc = observeServer ss
    /\ map Server.Player.id (Server.GameState.players ss) = map Server.Member.id members
    /\ serverWellFormed ss
    /\ Permutation (serverCards ss) (map Some cards)
    /\ Forall (fun p => List.length (Server.Player.hand p) = 7%nat)
         (Server.GameState.players ss)
    /\ ((List.length members <= 10)%nat ->
        exists top, Server.GameState.discardPile ss = [Some top] /\ startable top = true).
Proof.
  intros Hlen Hpos Hn.
  destruct (deals_alike config code members w Hlen)
    as (sc & wc & ss & ws & HrunC & HrunS & Hobs & Hids & _).
  rewrite <- Hlen in Hn.
  destruct (deal_run config w Hn)
    as (cards & w1 & sc' & wc' & Hdeck & HrunC' & Hperm & _ & _ & Hdraw & Hhands & _
        & Hseven & _ & (top & Htop & _ & Hstart) & _ & Hcur & Hdir & _).
  rewrite HrunC in HrunC'. injection HrunC' as <- <-.
  pose proof Hobs as Hsame.
  unfold observeClient, observeServer in Hobs.
  injection Hobs as _ Ocur Odir Ohands Odraw Odiscard _.
  assert (Hforall : forall (Q : list Slot -> Prop),
             Forall (fun p => Q (Player.hand p)) (GameState.players sc) ->
             Forall (fun p => Q (Server.Player.hand p)) (Server.GameState.players ss)).
  { intros Q H.
    apply (Forall_map Server.Player.hand Q). rewrite <- Ohands.
    apply (Forall_map Player.hand Q). exact H. }
  exists cards, w1, sc, wc, ss, ws.
  split; [exact Hdeck|]. split; [exact HrunC|]. split; [exact HrunS|].
  split; [exact Hsame|].
  split; [exact Hids|].
  split.
  { unfold serverWellFormed. rewrite <- Ocur, <- Odir, <- Odraw, <- Odiscard, Hcur, Hdir, Htop.
    split.
    { unfold jlength. rewrite <- (length_map Server.Player.id), Hids, length_map. lia. }
    split; [left; reflexivity|]. split; [exact Hdraw|].
    split; [repeat constructor; discriminate|]. split; [discriminate|].
    apply (Hforall defined). exact Hhands. }
  split.
  { rewrite <- Hperm. unfold serverCards, allCards.
    rewrite <- Odraw, <- Odiscard, !flat_map_concat_map, Ohands. reflexivity. }
  split.
  { apply (Hforall (fun h => List.length h = 7%nat)). exact Hseven. }
  intros Hten. exists top. split; [rewrite <- Odiscard; exact Htop|].
  apply Hstart. rewrite Hlen. exact Hten.
Qed.

(** X20 for a room of two. *)
Lemma server_deals_like_client_witness :
  exists sc wc ss ws,
    GameEngine.createInitialState Examples.config Examples.world = (Normal sc, wc)
    /\ Server.initializeGame "ROOM" LobbyExamples.members Examples.world = (Normal ss, ws)
    /\ observeClient sc = observeServer ss
    /\ serverWellFormed ss.
Proof.
  destruct (server_deals_like_client Examples.config "ROOM" LobbyExamples.members
              Examples.world eq_refl)
    as (cards & w1 & sc & wc & ss & ws & _ & HC & HS & Hobs & _ & HW & _).
  - cbn. lia.
  - cbn. lia.
  - exists sc, wc, ss, ws. split; [exact HC|]. split; [exact HS|].
    split; [exact Hobs|exact HW].
Defined.

(* ===================================================================== *)
(** ** Starting over                                                     *)
(* ===================================================================== *)

(** X21.  [reset] deals a full table again.  Whatever the state of the
    engine (a table that has lost cards, a finished game), for a
    configuration of at most 15 players [reset] returns normally and
    installs a state dealt anew from the configuration: its piles and
    hands are the 108 cards of a new deck, every player holds 7 cards, the
    phase is [playing] with no winner and no penalty.  The chosen wild
    colour is cleared, the configuration is kept and one [state_changed]
    event is emitted, with the new state. *)
Theorem reset_deals_a_full_table (h : GameEngine.Heap) :
  let config := GameEngine.config (GameEngine.this h) in
  (7 * List.length (GameConfig.playerNames config) < 108)%nat ->
  exists cards w1 s' h',
    CardDeck.createDeck (GameEngine.world h) = (Normal cards, w1)
    /\ GameEngine.reset h = (Normal tt, h')
    /\ GameEngine.state (GameEngine.this h') = s'
    /\ Permutation (allCards s') (map Some cards)
    /\ cardCount s' = 108%nat
    /\ Forall (fun p => List.length (Player.hand p) = 7%nat) (GameState.players s')
    /\ GameState.phase s' = Phase.playing
    /\ GameState.winner s' = None
    /\ GameState.stackedDrawAmount s' = 0
    /\ GameEngine.selectedWildColor (GameEngine.this h') = None
    /\ GameEngine.config (GameEngine.this h') = config
    /\ GameEngine.eventBus (GameEngine.this h')
       = GameEngine.eventBus (GameEngine.this h) ++ [Event.state_changed s'].
Proof.
  intros config Hfew.
  destruct (deal_run config (GameEngine.world h) Hfew)
    as (cards & w1 & s' & w' & Hdeck & Hrun & Hperm & Hcount & _ & _ & _ & _ & Hseven & _
        & _ & Hphase & _ & _ & Hstack & _ & Hwin).
  exists cards, w1, s'. eexists.
  split; [exact Hdeck|]. split.
  { unfold GameEngine.reset. unfold bind at 1. unfold gets at 1.
    unfold bind at 1. fold config. rewrite (liftW_run _ _ _ _ Hrun). reflexivity. }
  cbn. repeat split; assumption.
Qed.

(** X21 from the table of nine cards at which Bob holds a single card. *)
Lemma reset_deals_a_full_table_witness :
  exists s' h',
    GameEngine.reset (Examples.heapOf MoreExamples.lastCardTable Examples.allRules)
    = (Normal tt, h')
    /\ GameEngine.state (GameEngine.this h') = s'
    /\ cardCount MoreExamples.lastCardTable = 9%nat
    /\ cardCount s' = 108%nat.
Proof.
  destruct (reset_deals_a_full_table
              (Examples.heapOf MoreExamples.lastCardTable Examples.allRules))
    as (cards & w1 & s' & h' & _ & Hrun & Hst & _ & Hcount & _).
  - vm_compute. lia.
  - exists s', h'. split; [exact Hrun|]. split; [exact Hst|]. split; [reflexivity|exact Hcount].
Defined.

(* ===================================================================== *)
(** ** Playing out of turn                                               *)
(* ===================================================================== *)

Lemma validateAction_out_of_turn (h : GameEngine.Heap) (p q : Player.t) (j : Z)
    (c top : Card.t) (pre post : list Card.t) (below : list Slot) :
  let s := GameEngine.state (GameEngine.this h) in
  let rules := GameConfig.enabledRules (GameEngine.config (GameEngine.this h)) in
  NoDup (map Player.id (GameState.players s)) ->
  Js.get (GameState.players s) (GameState.currentPlayerIndex s) = Some q ->
  Js.get (GameState.players s) j = Some p ->
  Player.id p <> Player.id q ->
  Player.hand p = map Some (pre ++ c :: post) ->
  (forall x, In x pre -> Card.id x <> Card.id c) ->
  Card.id c <> "" ->
  GameState.discardPile s = below ++ [Some top] ->
  exists v,
    GameEngine.validateAction (playOf p c) h = (Normal v, h)
    /\ ValidationResult.valid v
       = EnabledRules.jumpIn rules
         && (Color.eqb (Card.color c) (Card.color top)
             && Value.eqb (Card.value c) (Card.value top)
             && Value.isNumber (Card.value c)).
Proof.
  intros s rules Hids Hcur Hp Hpq Hh Hpre Hid Hd.
  pose proof (findPlayer_at _ Hids _ _ Hp) as Hfp.
  unfold GameEngine.validateAction.
  unfold bind at 1. cbn [GameEngine.thisState gets playOf GameAction.playerId
                           GameAction.cardId GameAction.type]. fold s. rewrite Hfp.
  apply String.eqb_neq in Hid. rewrite Hid.
  unfold bind at 1. cbn [liftC]. rewrite Hh, (findC_hasId _ pre c post Hpre eq_refl).
  unfold bind at 1. unfold GameEngine.isCurrentPlayer.
  unfold bind at 1. unfold GameEngine.getCurrentPlayer.
  unfold bind at 1. cbn [GameEngine.thisState gets ret]. fold s. rewrite Hcur.
  unfold bind at 1. cbn [liftC deref ret].
  assert (Hne : String.eqb (Player.id q) (Player.id p) = false).
  { apply String.eqb_neq. congruence. }
  rewrite Hne. cbn [negb].
  unfold bind at 1. unfold GameEngine.canJumpIn.
  unfold bind at 1. cbn [GameEngine.rules gets]. fold rules.
  destruct (EnabledRules.jumpIn rules); cbn [negb andb].
  - unfold bind at 1. cbn [GameEngine.thisState gets]. fold s. rewrite Hfp.
    unfold bind at 1. cbn [liftC]. rewrite Hh, (findC_hasId _ pre c post Hpre eq_refl).
    unfold bind at 1. rewrite (getTopCard_eq h below top Hd).
    cbn [liftC CardDeck.isExactMatch deref cbind].
    destruct (Color.eqb (Card.color c) (Card.color top)
              && Value.eqb (Card.value c) (Card.value top)
              && Value.isNumber (Card.value c));
      eexists; split; reflexivity.
  - eexists; split; reflexivity.
Qed.

Lemma handlePlayCard_number (s : GameState.t) (h : GameEngine.Heap) (p : Player.t) (j : Z)
    (c : Card.t) (pre post : list Card.t) :
  NoDup (map Player.id (GameState.players s)) ->
  Js.get (GameState.players s) j = Some p ->
  Player.hand p = map Some (pre ++ c :: post) ->
  (forall x, In x pre -> Card.id x <> Card.id c) ->
  Value.isNumber (Card.value c) = true ->
  Card.value c <> Value.num 0 ->
  Card.value c <> Value.num 5 ->
  pre ++ post <> [] ->
  exists s' h',
    GameEngine.handlePlayCard s (playOf p c) h = (Normal s', h')
    /\ GameState.currentPlayerIndex s' = nextIndex s
    /\ GameState.discardPile s' = GameState.discardPile s ++ [Some c]
    /\ GameState.drawPile s' = GameState.drawPile s
    /\ GameState.players s'
       = Js.set (GameState.players s) j (afterPlaying (pre ++ post) p)
    /\ GameState.phase s' = GameState.phase s
    /\ GameState.direction s' = GameState.direction s.
Proof.
  intros Hids Hp Hh Hpre Hnum H0 H5 Hrest.
  destruct (take_out_defined pre post c) as [Hcard Hnew].
  unfold GameEngine.handlePlayCard.
  cbn [playOf GameAction.playerId GameAction.cardId GameAction.wildColor].
  rewrite (findPlayerIndex_at _ Hids _ _ Hp).
  unfold bind at 1. cbn [liftC]. rewrite Hp. cbn [deref].
  unfold bind at 1. cbn [liftC]. rewrite Hh, (findIndexC_hasId _ pre c post Hpre eq_refl).
  rewrite Hcard, Hnew.
  unfold bind at 1. cbn [liftC deref].
  assert (Hsel : forall b : bool,
             match b, @None Color.t with
             | true, Some w => GameEngine.setSelected (Some w)
             | _, _ => GameEngine.setSelected None
             end = GameEngine.setSelected None)
    by (intros []; reflexivity).
  rewrite Hsel.
  unfold bind at 1. cbn [GameEngine.setSelected modify].
  assert (Hlen : (jlength (map (@Some Card.t) (pre ++ post)) =? 0) = false).
  { apply Z.eqb_neq. unfold jlength. rewrite length_map.
    destruct (pre ++ post); [congruence|cbn; lia]. }
  rewrite Hlen.
  fold (afterPlaying (pre ++ post) p).
  set (h1 := GameEngine.mkHeap _ _).
  set (played := GameState.with_discardPile _ _).
  unfold bind at 1. unfold GameEngine.applyCardEffects.
  unfold bind at 1. cbn [GameEngine.rules gets].
  set (r := GameConfig.enabledRules (GameEngine.config (GameEngine.this h1))).
  assert (Hkind : CardDeck.isDrawCard c = false /\ CardDeck.isSkipCard c = false
                  /\ CardDeck.isReverseCard c = false
                  /\ Value.eqb (Card.value c) (Value.num 0) = false
                  /\ Value.eqb (Card.value c) (Value.num 5) = false).
  { unfold CardDeck.isDrawCard, CardDeck.isSkipCard, CardDeck.isReverseCard.
    destruct (Card.value c) as [n| | | | |]; try discriminate.
    repeat split; cbn; apply Z.eqb_neq; congruence. }
  destruct Hkind as (-> & -> & -> & -> & ->).
  rewrite !andb_false_r.
  assert (Hni : forall st, GameState.players st = GameState.players played ->
                           GameState.currentPlayerIndex st = GameState.currentPlayerIndex s ->
                           GameState.direction st = GameState.direction s ->
                           nextIndex st = nextIndex s).
  { intros st H1 H2 H3. apply nextIndex_congr; [|exact H2|exact H3].
    rewrite H1. unfold played. cbn. eapply set_length. exact Hp. }
  destruct (EnabledRules.silence r && Value.eqb (Card.value c) (Value.num 7)).
  - unfold bind at 1. unfold bind at 1. cbn [GameEngine.emit modify ret].
    rewrite advanceTurn_eq.
    unfold bind, GameEngine.emit, modify, ret.
    eexists. eexists. split; [reflexivity|].
    cbn [advanced GameState.currentPlayerIndex GameState.with_turnStartTime
         GameState.with_currentPlayerIndex].
    split; [apply Hni; reflexivity|]. repeat split.
  - unfold bind at 1. cbn [ret]. rewrite advanceTurn_eq.
    unfold bind, GameEngine.emit, modify, ret.
    eexists. eexists. split; [reflexivity|].
    cbn [advanced GameState.currentPlayerIndex GameState.with_turnStartTime
         GameState.with_currentPlayerIndex].
    split; [apply Hni; reflexivity|]. repeat split.
Qed.

(** X22.  A card played out of turn.  When a seated player who is not the
    current one plays a card of the hand, [validateAction] accepts the play
    exactly when the jump-in rule is on and the card has the colour and
    the value of the top card and is a number card ([canJumpIn],
    [isExactMatch]).  An accepted play of a number other than 0 and 5, by
    a player who keeps a card, puts the card on the discard pile and moves
    the turn to the player after the one whose turn it was: the turn order
    does not go on from the player who jumped in, and the current player
    has lost the turn. *)
Theorem out_of_turn_play_is_a_jump_in (h : GameEngine.Heap) (p q : Player.t) (j : Z)
    (c top : Card.t) (pre post : list Card.t) (below : list Slot) :
  let s := GameEngine.state (GameEngine.this h) in
  let rules := GameConfig.enabledRules (GameEngine.config (GameEngine.this h)) in
  let matches := Color.eqb (Card.color c) (Card.color top)
               && Value.eqb (Card.value c) (Card.value top)
               && Value.isNumber (Card.value c) in
  NoDup (map Player.id (GameState.players s)) ->
  Js.get (GameState.players s) (GameState.currentPlayerIndex s) = Some q ->
  Js.get (GameState.players s) j = Some p ->
  Player.id p <> Player.id q ->
  Player.hand p = map Some (pre ++ c :: post) ->
  (forall x, In x pre -> Card.id x <> Card.id c) ->
  Card.id c <> "" ->
  GameState.discardPile s = below ++ [Some top] ->
  (exists v,
      GameEngine.validateAction (playOf p c) h = (Normal v, h)
      /\ ValidationResult.valid v = EnabledRules.jumpIn rules && matches)
  /\ (EnabledRules.jumpIn rules && matches = true ->
      pre ++ post <> [] ->
      Card.value c <> Value.num 0 ->
      Card.value c <> Value.num 5 ->
      exists s' h',
        GameEngine.dispatch (playOf p c) h = (Normal s', h')
        /\ GameEngine.state (GameEngine.this h') = s'
        /\ GameState.currentPlayerIndex s' = nextIndex s
        /\ GameState.discardPile s' = GameState.discardPile s ++ [Some c]
        /\ Js.get (GameState.players s') j = Some (afterPlaying (pre ++ post) p)
        /\ Js.get (GameState.players s') (GameState.currentPlayerIndex s) = Some q).
Proof.
  intros s rules matches Hids Hcur Hp Hpq Hh Hpre Hid Hd.
  destruct (validateAction_out_of_turn h p q j c top pre post below
              Hids Hcur Hp Hpq Hh Hpre Hid Hd) as (v & Hval & Hvalid).
  fold rules in Hvalid. fold matches in Hvalid.
  split; [exists v; split; assumption|].
  intros Hok Hrest H0 H5.
  assert (Hnum : Value.isNumber (Card.value c) = true).
  { apply andb_prop in Hok. destruct Hok as [_ Hok]. unfold matches in Hok.
    apply andb_prop in Hok. tauto. }
  destruct (handlePlayCard_number s h p j c pre post Hids Hp Hh Hpre Hnum H0 H5 Hrest)
    as (s1 & h1 & Hrun & Hc1 & Hd1 & _ & Hp1 & _).
  assert (Happly : GameEngine.applyAction (playOf p c) h = (Normal s1, h1)).
  { unfold GameEngine.applyAction, GameEngine.thisState, gets, bind. exact Hrun. }
  rewrite Hok in Hvalid.
  rewrite (dispatch_accepted _ h h1 v s1 Hval Hvalid Happly).
  eexists. eexists. split; [reflexivity|]. split; [reflexivity|].
  cbn [GameState.currentPlayerIndex GameState.discardPile GameState.players
       GameState.with_lastAction].
  split; [exact Hc1|]. split; [exact Hd1|]. rewrite Hp1.
  split; [eapply get_set_same; exact Hp|].
  rewrite (get_set_other _ _ _ p _ Hp); [exact Hcur|].
  intros E. apply Hpq. rewrite E in Hp. congruence.
Qed.

(** X22 at a table of three: Carol jumps in on Alice's turn, and the turn
    goes to Bob. *)
Lemma out_of_turn_play_is_a_jump_in_witness :
  exists s' h',
    GameEngine.dispatch (playOf JumpExamples.carol JumpExamples.g7')
      (Examples.heapOf JumpExamples.table Examples.allRules) = (Normal s', h')
    /\ GameState.currentPlayerIndex s' = 1
    /\ GameState.discardPile s' = [Some Examples.g7; Some JumpExamples.g7'].
Proof.
  destruct (out_of_turn_play_is_a_jump_in
              (Examples.heapOf JumpExamples.table Examples.allRules)
              JumpExamples.carol Examples.alice 2 JumpExamples.g7' Examples.g7
              [] [Examples.b8] []) as [_ Heffect].
  - repeat constructor; cbn; intuition discriminate.
  - reflexivity.
  - reflexivity.
  - discriminate.
  - reflexivity.
  - intros x [].
  - discriminate.
  - reflexivity.
  - destruct Heffect as (s' & h' & Hrun & _ & Hcur & Hdiscard & _);
      [reflexivity|discriminate|discriminate|discriminate|].
    exists s', h'. split; [exact Hrun|]. split; [exact Hcur|exact Hdiscard].
Defined.

(* ===================================================================== *)
(** ** Draw-twos stacked on one another                                  *)
(* ===================================================================== *)




